(** * Verification of the drag annotation tools

    A shallow embedding of the two programs of the repository:

    - [drag_generator.py], the PyQt5 annotator: the display/original
      coordinate mapper of [SingleImageDisplayLabel] and
      [CombinedImageLabel], their mouse handlers, the directory scanner,
      the save gate and the JSON writer of [ImageSelectionWindow], and
      the window as a whole: its slots as transformers of the window
      state, run by the clicks and mouse events of a session;
    - [app.py], the Flask viewer: [find_files], [find_no_json_images],
      [remove_empty_dirs], [describe_images] and [update_caption].

    Python values are modelled as the interpreter has them: [int] as [Z],
    [float] as IEEE-754 binary64 ([spec_float] with precision 53 and
    [emax] 1024), [str] as [string] (a byte string holding the UTF-8
    encoding), [list] as [list], exceptions as an explicit [outcome].
    Library calls the programs rely on (posixpath, PyQt5's QPoint, QRect
    and QSize, json) are transcribed from the behaviour of those libraries
    and live in their own modules [Py] and [Qt]. *)

From Stdlib Require Import ZArith Lia Bool List Sorted Permutation Reals Lra Psatz.
From Stdlib Require Import Strings.String Strings.Ascii Numbers.DecimalString.
From Stdlib Require Numbers.DecimalZ Numbers.DecimalPos.
From Stdlib Require Import Floats.SpecFloat.
From stdpp Require Import gmap strings.

#[local] Set Warnings "-register-all".

Local Open Scope string_scope.
Local Open Scope list_scope.
Local Open Scope Z_scope.

(** ** Python runtime *)

Module Py.

(** Exceptions the modelled code can meet. *)
Inductive exn : Type :=
| ZeroDivisionError
| OverflowError
| ValueError
| IndexError
| TypeError
| KeyError
| JSONDecodeError
| FileNotFoundError
| UnicodeDecodeError
| UnicodeEncodeError
| PermissionError
| OSError.

(** The result of evaluating an expression or running a statement. *)
Inductive outcome (A : Type) : Type :=
| Returned (a : A)
| Raised (e : exn).
Arguments Returned {A} a.
Arguments Raised {A} e.

Definition bind {A B : Type} (m : outcome A) (k : A -> outcome B) : outcome B :=
  match m with
  | Returned a => k a
  | Raised e => Raised e
  end.

(** *** str *)

Definition startswith (s p : string) : bool := String.prefix p s.

Definition endswith (s p : string) : bool :=
  let n := String.length s in
  let k := String.length p in
  (k <=? n)%nat && String.eqb (String.substring (n - k)%nat k s) p.

Definition lower_char (c : ascii) : ascii :=
  let n := nat_of_ascii c in
  if ((65 <=? n) && (n <=? 90))%nat then ascii_of_nat (n + 32) else c.

(** [s.lower()] on the ASCII letters; bytes of multi-byte characters are
    left alone. *)
Fixpoint lower (s : string) : string :=
  match s with
  | EmptyString => EmptyString
  | String c s' => String (lower_char c) (lower s')
  end.

(** [s.replace(a, b)] for one-character [a] and [b]. *)
Fixpoint replace_char (a b : ascii) (s : string) : string :=
  match s with
  | EmptyString => EmptyString
  | String c s' => String (if Ascii.eqb c a then b else c) (replace_char a b s')
  end.

(** [s.split(sep)] for a one-character separator. *)
Fixpoint split (sep : ascii) (s : string) : list string :=
  match s with
  | EmptyString => [EmptyString]
  | String c s' =>
      if Ascii.eqb c sep then EmptyString :: split sep s'
      else match split sep s' with
           | [] => [String c EmptyString]
           | w :: ws => String c w :: ws
           end
  end.

(** [sep.join(l)] *)
Definition join_str (sep : string) (l : list string) : string := String.concat sep l.

(** [(s[:i], s[i:])] with [i = s.rfind(c) + 1]. *)
Fixpoint rpartition (c : ascii) (s : string) : string * string :=
  match s with
  | EmptyString => (EmptyString, EmptyString)
  | String a s' =>
      let '(h, t) := rpartition c s' in
      match h with
      | String _ _ => (String a h, t)
      | EmptyString =>
          if Ascii.eqb a c then (String a EmptyString, t)
          else (EmptyString, String a t)
      end
  end.

Fixpoint all_char (c : ascii) (s : string) : bool :=
  match s with
  | EmptyString => true
  | String a s' => Ascii.eqb a c && all_char c s'
  end.

(** [s.rstrip(c)] for one character. *)
Fixpoint rstrip (c : ascii) (s : string) : string :=
  match s with
  | EmptyString => EmptyString
  | String a s' =>
      match rstrip c s' with
      | EmptyString => if Ascii.eqb a c then EmptyString else String a EmptyString
      | r => String a r
      end
  end.

Definition str_bool (s : string) : bool :=
  match s with EmptyString => false | _ => true end.

(** *** posixpath *)

Definition sep : ascii := "/"%char.

(** [os.path.join(a, b)] *)
Definition path_join (a b : string) : string :=
  if startswith b "/" then b
  else if negb (str_bool a) || endswith a "/" then a +:+ b
  else a +:+ "/" +:+ b.

(** [os.path.join(a, *p)] *)
Definition path_join_all (a : string) (p : list string) : string :=
  fold_left path_join p a.

Definition basename (p : string) : string := snd (rpartition sep p).

Definition dirname (p : string) : string :=
  let head := fst (rpartition sep p) in
  if str_bool head && negb (all_char sep head) then rstrip sep head else head.

(** [genericpath._splitext] applied after the last separator: the
    extension starts at the last dot, unless only dots precede it. *)
Definition splitext (p : string) : string * string :=
  let '(dir, name) := rpartition sep p in
  let '(stem_dot, ext) := rpartition "."%char name in
  match stem_dot with
  | EmptyString => (p, EmptyString)
  | _ =>
      (* stem_dot = name[:dot] ++ "." *)
      let stem := String.substring 0 (String.length stem_dot - 1)%nat stem_dot in
      if all_char "."%char stem then (p, EmptyString)
      else (dir +:+ stem, "." +:+ ext)
  end.

Definition isabs (p : string) : bool := startswith p "/".

(** The component loop of [posixpath.normpath]; [acc] is [new_comps]
    reversed. *)
Fixpoint normpath_comps (initial_slashes : bool) (comps : list string)
    (acc : list string) : list string :=
  match comps with
  | [] => rev acc
  | comp :: rest =>
      if String.eqb comp "" || String.eqb comp "." then
        normpath_comps initial_slashes rest acc
      else if negb (String.eqb comp "..")
              || (negb initial_slashes && match acc with [] => true | _ => false end)
              || match acc with last :: _ => String.eqb last ".." | [] => false end
      then normpath_comps initial_slashes rest (comp :: acc)
      else match acc with
           | _ :: acc' => normpath_comps initial_slashes rest acc'
           | [] => normpath_comps initial_slashes rest acc
           end
  end.

Definition normpath (path : string) : string :=
  if String.eqb path "" then "."
  else
    let initial_slashes : nat :=
      if startswith path "/" then
        if startswith path "//" && negb (startswith path "///") then 2%nat else 1%nat
      else 0%nat in
    let comps := normpath_comps (negb (Nat.eqb initial_slashes 0)) (split sep path) [] in
    let path' := join_str "/" comps in
    let path'' :=
      match initial_slashes with
      | O => path'
      | S O => "/" +:+ path'
      | _ => "//" +:+ path'
      end in
    if str_bool path'' then path'' else ".".

(** [os.path.abspath], with the process working directory explicit. *)
Definition abspath (cwd path : string) : string :=
  if isabs path then normpath path else normpath (path_join cwd path).

(** Containment of one absolute normalised path in the directory
    named by another: the directory itself or a path below it. *)
Definition path_within (root p : string) : bool :=
  String.eqb p root || startswith p (root +:+ "/").

Fixpoint common_prefix_len (l1 l2 : list string) : nat :=
  match l1, l2 with
  | a :: l1', b :: l2' => if String.eqb a b then S (common_prefix_len l1' l2') else O
  | _, _ => O
  end.

(** [os.path.relpath(path, start)] *)
Definition relpath (cwd path start : string) : outcome string :=
  if negb (str_bool path) then Raised ValueError
  else
    let start_list := List.filter str_bool (split sep (abspath cwd start)) in
    let path_list := List.filter str_bool (split sep (abspath cwd path)) in
    let i := common_prefix_len start_list path_list in
    let rel_list := (repeat ".." (length start_list - i)%nat ++ drop i path_list)%list in
    match rel_list with
    | [] => Returned "."
    | r :: rs => Returned (path_join_all r rs)
    end.

(** *** list *)

(** [l.pop(i)] for a non-negative index: the list without element [i]. *)
Definition list_pop {A : Type} (l : list A) (i : nat) : outcome (list A) :=
  if (i <? length l)%nat then Returned (delete i l) else Raised IndexError.

(** [l[i] = v]: negative indices count from the end, anything outside
    [-len, len) raises. *)
Definition list_setitem {A : Type} (l : list A) (i : Z) (v : A) : outcome (list A) :=
  let n := Z.of_nat (length l) in
  if (0 <=? i) && (i <? n) then Returned (<[Z.to_nat i := v]> l)
  else if (- n <=? i) && (i <? 0) then Returned (<[Z.to_nat (i + n) := v]> l)
  else Raised IndexError.

(** *** float (IEEE-754 binary64) *)

Definition float : Type := spec_float.

(** The double nearest to an integer (exact below [2^53]). *)
Definition float_of_int (z : Z) : float := binary_normalize 53 1024 z 0 false.
Definition float_mul (x y : float) : float := SFmul 53 1024 x y.
Definition float_div (x y : float) : float := SFdiv 53 1024 x y.

(** Truncation toward zero of a finite double. *)
Definition float_trunc (f : float) : option Z :=
  match f with
  | S754_zero _ => Some 0
  | S754_finite s m e =>
      let a := match e with
               | Z0 => Zpos m
               | Zpos _ => Zpos m * 2 ^ e
               | Zneg p => Zpos m / 2 ^ Zpos p
               end in
      Some (if s then - a else a)
  | S754_infinity _ | S754_nan => None
  end.

(** [a / b] on two ints: true division.  The quotient of the two
    conversions is the correctly rounded quotient as long as both
    operands are below [2^53] in magnitude, which holds for the 32-bit
    quantities Qt hands out. *)
Definition int_truediv (a b : Z) : outcome float :=
  if b =? 0 then Raised ZeroDivisionError
  else match float_div (float_of_int a) (float_of_int b) with
       | S754_infinity _ | S754_nan => Raised OverflowError
       | q => Returned q
       end.

(** [a * f] with an int on the left: the int is converted first. *)
Definition int_mul_float (a : Z) (f : float) : outcome float :=
  match float_of_int a with
  | S754_infinity _ => Raised OverflowError
  | x => Returned (float_mul x f)
  end.

(** [int(f)] *)
Definition int_of_float (f : float) : outcome Z :=
  match f with
  | S754_infinity _ => Raised OverflowError
  | S754_nan => Raised ValueError
  | _ => match float_trunc f with
         | Some z => Returned z
         | None => Raised ValueError
         end
  end.

(** *** JSON values, as [json.load] builds them.  Objects keep their
    keys in insertion order; numbers are the integers. *)
Inductive json : Type :=
| JNull
| JBool (b : bool)
| JInt (z : Z)
| JStr (s : string)
| JList (l : list json)
| JDict (kvs : list (string * json)).

Fixpoint dict_get (k : string) (kvs : list (string * json)) : option json :=
  match kvs with
  | [] => None
  | (k', v) :: rest => if String.eqb k k' then Some v else dict_get k rest
  end.

(** [d[k] = v]: in place when the key exists, appended otherwise. *)
Fixpoint dict_set (k : string) (v : json) (kvs : list (string * json)) : list (string * json) :=
  match kvs with
  | [] => [(k, v)]
  | (k', v') :: rest =>
      if String.eqb k k' then (k', v) :: rest else (k', v') :: dict_set k v rest
  end.

Definition json_eqb_str (k : string) (v : json) : bool :=
  match v with JStr s => String.eqb k s | _ => false end.

Fixpoint is_substring (k s : string) : bool :=
  String.prefix k s ||
  match s with
  | EmptyString => false
  | String _ s' => is_substring k s'
  end.

(** [k in data] for a string [k] *)
Definition json_contains (k : string) (data : json) : outcome bool :=
  match data with
  | JDict kvs => Returned (match dict_get k kvs with Some _ => true | None => false end)
  | JList l => Returned (existsb (json_eqb_str k) l)
  | JStr s => Returned (is_substring k s)
  | JNull | JBool _ | JInt _ => Raised TypeError
  end.

(** [data[k]] for a string [k] *)
Definition json_getitem (data : json) (k : string) : outcome json :=
  match data with
  | JDict kvs => match dict_get k kvs with Some v => Returned v | None => Raised KeyError end
  | _ => Raised TypeError
  end.

(** [data[k] = v] for a string [k] *)
Definition json_setitem (data : json) (k : string) (v : json) : outcome json :=
  match data with
  | JDict kvs => Returned (JDict (dict_set k v kvs))
  | _ => Raised TypeError
  end.

(** Truth value of a JSON value *)
Definition json_bool (v : json) : bool :=
  match v with
  | JNull => false
  | JBool b => b
  | JInt z => negb (z =? 0)
  | JStr s => str_bool s
  | JList l => match l with [] => false | _ => true end
  | JDict kvs => match kvs with [] => false | _ => true end
  end.

(** *** Text a UTF-8 file takes

    A [str] is modelled by the bytes of its UTF-8 form.  A [str] may
    also hold a lone surrogate ([json.loads] makes one from an escape
    such as [\ud800]), for which UTF-8 has no form: it is modelled by
    the three bytes its code point would take, the byte 237 followed
    by a byte from 160 on.  Writing such a [str] to a file opened
    with [encoding='utf-8'] raises [UnicodeEncodeError]. *)
Fixpoint has_surrogate (s : string) : bool :=
  match s with
  | EmptyString => false
  | String a rest =>
      match rest with
      | EmptyString => false
      | String b _ =>
          ((nat_of_ascii a =? 237)%nat && (160 <=? nat_of_ascii b)%nat) || has_surrogate rest
      end
  end.

(** Whether [json.dump(v, f, ensure_ascii=False)] meets no [str] that
    the file cannot take, among the values and the keys of [v]. *)
Fixpoint utf8_encodable (v : json) : bool :=
  match v with
  | JStr s => negb (has_surrogate s)
  | JList l => forallb utf8_encodable l
  | JDict kvs =>
      forallb (fun kv => negb (has_surrogate (fst kv)) && utf8_encodable (snd kv)) kvs
  | _ => true
  end.

(** *** json.dumps(v, indent=4, ensure_ascii=False) *)

Definition hex_digit (n : nat) : ascii :=
  if (n <? 10)%nat then ascii_of_nat (48 + n) else ascii_of_nat (87 + n).

(** [ESCAPE_DCT] of [json.encoder]: backslash, the double quote and the
    control characters are escaped; every other character, non-ASCII
    included, is copied. *)
Definition escape_char (c : ascii) : string :=
  let n := nat_of_ascii c in
  if (n =? 92)%nat then "\\"
  else if (n =? 34)%nat then String "\" (String c EmptyString)
  else if (n =? 8)%nat then "\b"
  else if (n =? 12)%nat then "\f"
  else if (n =? 10)%nat then "\n"
  else if (n =? 13)%nat then "\r"
  else if (n =? 9)%nat then "\t"
  else if (n <? 32)%nat then
    "\u00" +:+ String (hex_digit (n / 16)) (String (hex_digit (n mod 16)) EmptyString)
  else String c EmptyString.

Fixpoint escape (s : string) : string :=
  match s with
  | EmptyString => EmptyString
  | String c s' => escape_char c +:+ escape s'
  end.

Definition dquote : string := String "034"%char EmptyString.

(** [py_encode_basestring] *)
Definition encode_basestring (s : string) : string := dquote +:+ escape s +:+ dquote.

(** [str(z)] *)
Definition str_of_int (z : Z) : string := NilZero.string_of_int (Z.to_int z).

Fixpoint spaces (n : nat) : string :=
  match n with
  | O => EmptyString
  | S k => String " "%char (spaces k)
  end.

Definition newline_indent (level : nat) : string :=
  String "010"%char (spaces (4 * level)).

(** The encoder at nesting depth [level]. *)
Fixpoint dumps_at (level : nat) (v : json) : string :=
  match v with
  | JNull => "null"
  | JBool true => "true"
  | JBool false => "false"
  | JInt z => str_of_int z
  | JStr s => encode_basestring s
  | JList [] => "[]"
  | JList l =>
      "[" +:+ newline_indent (S level)
      +:+ join_str ("," +:+ newline_indent (S level)) (List.map (dumps_at (S level)) l)
      +:+ newline_indent level +:+ "]"
  | JDict [] => "{}"
  | JDict kvs =>
      "{" +:+ newline_indent (S level)
      +:+ join_str ("," +:+ newline_indent (S level))
            (List.map (fun kv => encode_basestring (fst kv) +:+ ": " +:+ dumps_at (S level) (snd kv)) kvs)
      +:+ newline_indent level +:+ "}"
  end.

Definition dumps_indent4 (v : json) : string := dumps_at 0 v.

(** *** sorted() on strings: code-point order, which on UTF-8 byte
    strings is the byte-wise lexicographic order. *)
Fixpoint insert_sorted (x : string) (l : list string) : list string :=
  match l with
  | [] => [x]
  | y :: l' => if String.leb x y then x :: y :: l' else y :: insert_sorted x l'
  end.

Fixpoint sorted (l : list string) : list string :=
  match l with
  | [] => []
  | x :: l' => insert_sorted x (sorted l')
  end.

End Py.

Notation "'do' x <- m ;; k" := (Py.bind m (fun x => k))
  (at level 10, x name, m at level 99, k at level 200).

(** ** Notions used to state the accuracy of binary64 arithmetic *)

Module Binary64.
Import Py.

(** Where the fraction [N mod D / D] lies with respect to one half. *)
Definition loc_of (N D : Z) : location :=
  if N mod D =? 0 then loc_Exact else loc_Inexact (2 * (N mod D) ?= D).

(** A shift record holds the integer part of [N / D] and the position
    of the discarded fraction. *)
Definition repr (N D : Z) (mrs : shr_record) : Prop :=
  shr_m mrs = N / D /\ loc_of_shr_record mrs = loc_of N D.

(** The real number a double stands for. *)
Definition F2R (f : float) : R :=
  match f with
  | S754_finite s m e => ((if s then -1 else 1) * IZR (Zpos m) * powerRZ 2 e)%R
  | _ => 0%R
  end.

(** Unit roundoff of binary64: [2^-53]. *)
Definition ulp_half : R := (/ IZR (2 ^ 53))%R.

(** Positive normal doubles with exponent in a window. *)
Definition pos_normal (f : float) (lo hi : Z) : Prop :=
  exists m e, f = S754_finite false m e /\ 2 ^ 52 <= Zpos m < 2 ^ 53 /\ lo <= e <= hi.

(** [int(x * (num / den))] as both conversions compute it on one
    axis. *)
Definition rescale_axis (num den x : Z) : option Z :=
  float_trunc (float_mul (float_of_int x) (float_div (float_of_int num) (float_of_int den))).

End Binary64.

(** ** The Qt value classes the annotator computes with *)

Module Qt.

Record QPoint : Type := mkQPoint { px : Z; py : Z }.

Definition QPoint_isNull (p : QPoint) : bool := (px p =? 0) && (py p =? 0).

(** PyQt5 gives [QPoint] a truth value: [bool(p)] is [not p.isNull()]. *)
Definition QPoint_bool (p : QPoint) : bool := negb (QPoint_isNull p).

(** Truth value of a result that is [None] or a [QPoint]. *)
Definition opt_QPoint_bool (o : option QPoint) : bool :=
  match o with
  | None => false
  | Some p => QPoint_bool p
  end.

Definition QPoint_sub (p q : QPoint) : QPoint := mkQPoint (px p - px q) (py p - py q).

Definition manhattanLength (p : QPoint) : Z := Z.abs (px p) + Z.abs (py p).

Record QSize : Type := mkQSize { wd : Z; ht : Z }.

(** [QSize::scaled(s, Qt::KeepAspectRatio)] *)
Definition scaled_KeepAspectRatio (sz s : QSize) : QSize :=
  if (wd sz =? 0) || (ht sz =? 0) then s
  else
    let rw := (ht s * wd sz) ÷ ht sz in
    if rw <=? wd s then mkQSize rw (ht s)
    else mkQSize (wd s) ((wd s * ht sz) ÷ wd sz).

(** A rectangle is stored by its corners; the right and bottom
    coordinates are inclusive. *)
Record QRect : Type := mkQRect { x1 : Z; y1 : Z; x2 : Z; y2 : Z }.

(** [QRect()] *)
Definition QRect_null : QRect := mkQRect 0 0 (-1) (-1).

(** [QRect(topLeft, size)] *)
Definition QRect_of (topLeft : QPoint) (size : QSize) : QRect :=
  mkQRect (px topLeft) (py topLeft) (px topLeft + wd size - 1) (py topLeft + ht size - 1).

Definition QRect_isNull (r : QRect) : bool := (x2 r =? x1 r - 1) && (y2 r =? y1 r - 1).
Definition QRect_x (r : QRect) : Z := x1 r.
Definition QRect_y (r : QRect) : Z := y1 r.
Definition QRect_width (r : QRect) : Z := x2 r - x1 r + 1.
Definition QRect_height (r : QRect) : Z := y2 r - y1 r + 1.
Definition QRect_size (r : QRect) : QSize := mkQSize (QRect_width r) (QRect_height r).

Definition QRect_center (r : QRect) : QPoint :=
  mkQPoint ((x1 r + x2 r) ÷ 2) ((y1 r + y2 r) ÷ 2).

Definition QRect_moveCenter (r : QRect) (p : QPoint) : QRect :=
  let w := x2 r - x1 r in
  let h := y2 r - y1 r in
  let x1' := px p - w ÷ 2 in
  let y1' := py p - h ÷ 2 in
  mkQRect x1' y1' (x1' + w) (y1' + h).

(** [QRect::contains(p)] with [proper = false] *)
Definition QRect_contains (r : QRect) (p : QPoint) : bool :=
  let '(l, rr) := if x2 r <? x1 r - 1 then (x2 r, x1 r) else (x1 r, x2 r) in
  if (px p <? l) || (rr <? px p) then false
  else
    let '(t, b) := if y2 r <? y1 r - 1 then (y2 r, y1 r) else (y1 r, y2 r) in
    if (py p <? t) || (b <? py p) then false
    else true.

(** A pixmap is the null pixmap or has pixel dimensions. *)
Inductive QPixmap : Type :=
| NullPixmap
| Pixmap (w h : Z).

Definition QPixmap_isNull (pm : QPixmap) : bool :=
  match pm with NullPixmap => true | Pixmap _ _ => false end.
Definition QPixmap_width (pm : QPixmap) : Z :=
  match pm with NullPixmap => 0 | Pixmap w _ => w end.
Definition QPixmap_height (pm : QPixmap) : Z :=
  match pm with NullPixmap => 0 | Pixmap _ h => h end.
Definition QPixmap_size (pm : QPixmap) : QSize :=
  mkQSize (QPixmap_width pm) (QPixmap_height pm).

Inductive MouseButton : Type := NoButton | LeftButton | RightButton | MiddleButton.

Inductive CursorShape : Type :=
| ArrowCursor | CrossCursor | OpenHandCursor | ClosedHandCursor | PointingHandCursor.

(** What the handlers read from a mouse event: [pos()], [button()] and
    whether [buttons() & Qt.LeftButton] is set. *)
Record QMouseEvent : Type := mkQMouseEvent {
  pos : QPoint;
  button : MouseButton;
  buttons_left : bool
}.

End Qt.

(** ** drag_generator.py *)

Module DragGenerator.
Import Py Qt.

(** Supported image file extensions *)
Definition IMAGE_EXTENSIONS : list string :=
  [".png"; ".jpg"; ".jpeg"; ".gif"; ".bmp"; ".tiff"; ".webp"].

(** What a handler leaves behind: the widget after the call, the
    payloads it emitted on its signal, and the exception that ended it,
    if any. *)
Record ran (S : Type) : Type := mkRan {
  after : S;
  emitted : list (list QPoint);
  raised : option exn
}.
Arguments mkRan {S} _ _ _.
Arguments after {S} _.
Arguments emitted {S} _.
Arguments raised {S} _.

Definition finished {S : Type} (s : S) : ran S := mkRan s [] None.
Definition failed {S : Type} (s : S) (e : exn) : ran S := mkRan s [] (Some e).
Definition announced {S : Type} (s : S) (payload : list QPoint) : ran S :=
  mkRan s [payload] None.

(** The bodies of [get_original_point_from_display] and
    [get_display_point_from_original] are the same in both label
    classes, up to the name of the pixmap attribute. *)
Definition original_point_from_display (pixmap : QPixmap) (drawn : QRect)
    (display_point : QPoint) : outcome (option QPoint) :=
  if QPixmap_isNull pixmap || QRect_isNull drawn then Returned None
  else if negb (QRect_contains drawn display_point) then Returned None
  else
    let x_on_scaled := px display_point - QRect_x drawn in
    let y_on_scaled := py display_point - QRect_y drawn in
    do scale_x <- int_truediv (QPixmap_width pixmap) (QRect_width drawn) ;;
    do scale_y <- int_truediv (QPixmap_height pixmap) (QRect_height drawn) ;;
    do fx <- int_mul_float x_on_scaled scale_x ;;
    do original_x <- int_of_float fx ;;
    do fy <- int_mul_float y_on_scaled scale_y ;;
    do original_y <- int_of_float fy ;;
    let original_x := Z.max 0 (Z.min original_x (QPixmap_width pixmap - 1)) in
    let original_y := Z.max 0 (Z.min original_y (QPixmap_height pixmap - 1)) in
    Returned (Some (mkQPoint original_x original_y)).

Definition display_point_from_original (pixmap : QPixmap) (drawn : QRect)
    (original_point : QPoint) : outcome (option QPoint) :=
  if QPixmap_isNull pixmap || QRect_isNull drawn then Returned None
  else
    do scale_x <- int_truediv (QRect_width drawn) (QPixmap_width pixmap) ;;
    do scale_y <- int_truediv (QRect_height drawn) (QPixmap_height pixmap) ;;
    do fx <- int_mul_float (px original_point) scale_x ;;
    do x_scaled <- int_of_float fx ;;
    do fy <- int_mul_float (py original_point) scale_y ;;
    do y_scaled <- int_of_float fy ;;
    let x_display := QRect_x drawn + x_scaled in
    let y_display := QRect_y drawn + y_scaled in
    Returned (Some (mkQPoint x_display y_display)).

(** The rectangle [update_display] computes: the pixmap size scaled to
    fit the label's contents rectangle, centred in it. *)
Definition drawn_rect (pixmap : QPixmap) (label_rect : QRect) : QRect :=
  if negb (QPixmap_isNull pixmap) then
    let scaled_pixmap_size := scaled_KeepAspectRatio (QPixmap_size pixmap) (QRect_size label_rect) in
    QRect_moveCenter (QRect_of (mkQPoint 0 0) scaled_pixmap_size) (QRect_center label_rect)
  else QRect_null.

(** The scan shared by the press and hover code: the index of the first
    point, in list order, whose display projection is truthy and within
    Manhattan distance 15 of the event position. *)
Fixpoint first_hit (pixmap : QPixmap) (drawn : QRect) (event_pos : QPoint)
    (points : list QPoint) (i : nat) : outcome (option nat) :=
  match points with
  | [] => Returned None
  | p_orig :: rest =>
      do p_display <- display_point_from_original pixmap drawn p_orig ;;
      match p_display with
      | Some d =>
          if QPoint_bool d && (manhattanLength (QPoint_sub event_pos d) <? 15)
          then Returned (Some i)
          else first_hit pixmap drawn event_pos rest (S i)
      | None => first_hit pixmap drawn event_pos rest (S i)
      end
  end.

(** The test one point undergoes in that scan. *)
Definition passes_hit_test (pixmap : QPixmap) (drawn : QRect) (event_pos p_orig : QPoint) : Prop :=
  exists d, display_point_from_original pixmap drawn p_orig = Returned (Some d) /\
            QPoint_bool d = true /\ manhattanLength (QPoint_sub event_pos d) < 15.

(** A pixel of the image other than its origin. *)
Definition marks_image (pixmap : QPixmap) (p : QPoint) : Prop :=
  0 <= px p <= QPixmap_width pixmap - 1 /\ 0 <= py p <= QPixmap_height pixmap - 1
  /\ QPoint_bool p = true.

Module SingleImageDisplayLabel.

Record t : Type := mk {
  _original_pixmap : QPixmap;
  current_points : list QPoint;
  dragging_point_index : Z;
  point_mode_enabled : bool;
  _drawn_pixmap_rect : QRect;
  (* state kept by the QLabel base class *)
  contentsRect : QRect;
  cursor : CursorShape
}.

(** [__init__] *)
Definition init (contents : QRect) : t :=
  mk NullPixmap [] (-1) false QRect_null contents ArrowCursor.

Definition set_points (self : t) (l : list QPoint) : t :=
  mk (_original_pixmap self) l (dragging_point_index self) (point_mode_enabled self)
     (_drawn_pixmap_rect self) (contentsRect self) (cursor self).
Definition set_dragging (self : t) (i : Z) : t :=
  mk (_original_pixmap self) (current_points self) i (point_mode_enabled self)
     (_drawn_pixmap_rect self) (contentsRect self) (cursor self).
Definition set_cursor (self : t) (c : CursorShape) : t :=
  mk (_original_pixmap self) (current_points self) (dragging_point_index self)
     (point_mode_enabled self) (_drawn_pixmap_rect self) (contentsRect self) c.
Definition set_pixmap (self : t) (pm : QPixmap) : t :=
  mk pm (current_points self) (dragging_point_index self) (point_mode_enabled self)
     (_drawn_pixmap_rect self) (contentsRect self) (cursor self).
Definition set_drawn (self : t) (r : QRect) : t :=
  mk (_original_pixmap self) (current_points self) (dragging_point_index self)
     (point_mode_enabled self) r (contentsRect self) (cursor self).
Definition set_enabled (self : t) (b : bool) : t :=
  mk (_original_pixmap self) (current_points self) (dragging_point_index self) b
     (_drawn_pixmap_rect self) (contentsRect self) (cursor self).
Definition set_contents (self : t) (r : QRect) : t :=
  mk (_original_pixmap self) (current_points self) (dragging_point_index self)
     (point_mode_enabled self) (_drawn_pixmap_rect self) r (cursor self).

Definition update_display (self : t) : t :=
  set_drawn self (drawn_rect (_original_pixmap self) (contentsRect self)).

(** [set_image(image_path)]: [usable] tells whether the path is
    non-empty and exists, [loaded] is what [QPixmap(image_path)]
    yields. *)
Definition set_image (self : t) (usable : bool) (loaded : QPixmap) : ran t :=
  let self := set_points self [] in
  let self := if usable then update_display (set_pixmap self loaded)
              else set_pixmap self NullPixmap in
  announced self (current_points self).

(** [resizeEvent], after Qt has given the label its new geometry *)
Definition resizeEvent (self : t) (contents : QRect) : t :=
  update_display (set_contents self contents).

Definition get_original_point_from_display (self : t) (display_point : QPoint)
    : outcome (option QPoint) :=
  original_point_from_display (_original_pixmap self) (_drawn_pixmap_rect self) display_point.

Definition get_display_point_from_original (self : t) (original_point : QPoint)
    : outcome (option QPoint) :=
  display_point_from_original (_original_pixmap self) (_drawn_pixmap_rect self) original_point.

Definition hit (self : t) (event_pos : QPoint) : outcome (option nat) :=
  first_hit (_original_pixmap self) (_drawn_pixmap_rect self) event_pos
    (current_points self) 0.

Definition mousePressEvent (self : t) (event : QMouseEvent) : ran t :=
  if negb (point_mode_enabled self) || QPixmap_isNull (_original_pixmap self)
  then finished self
  else
    match get_original_point_from_display self (pos event) with
    | Raised e => failed self e
    | Returned None => finished self
    | Returned (Some original_pos) =>
        if negb (QPoint_bool original_pos) then finished self
        else
          match button event with
          | LeftButton =>
              let self := set_dragging self (-1) in
              (* Check if an existing point is clicked *)
              match hit self (pos event) with
              | Raised e => failed self e
              | Returned found =>
                  let self :=
                    match found with
                    | Some i => set_dragging self (Z.of_nat i)
                    | None => self
                    end in
                  let self :=
                    if dragging_point_index self =? -1
                    then set_points self (current_points self ++ [original_pos])
                    else self in
                  announced self (current_points self)
              end
          | RightButton =>
              (* Remove point on right click *)
              match hit self (pos event) with
              | Raised e => failed self e
              | Returned (Some i) =>
                  match list_pop (current_points self) i with
                  | Raised e => failed self e
                  | Returned l =>
                      let self := set_points self l in
                      announced self (current_points self)
                  end
              | Returned None => finished self
              end
          | _ => finished self
          end
    end.

Definition mouseMoveEvent (self : t) (event : QMouseEvent) : ran t :=
  if negb (point_mode_enabled self) || QPixmap_isNull (_original_pixmap self)
  then finished self
  else if negb (dragging_point_index self =? -1) && buttons_left event then
    match get_original_point_from_display self (pos event) with
    | Raised e => failed self e
    | Returned new_original_pos =>
        match new_original_pos with
        | Some new_pos =>
            if QPoint_bool new_pos then
              match list_setitem (current_points self) (dragging_point_index self) new_pos with
              | Raised e => failed self e
              | Returned l =>
                  let self := set_points self l in
                  announced self (current_points self)
              end
            else finished self
        | None => finished self
        end
    end
  else
    (* Change cursor based on hover *)
    match (if point_mode_enabled self && negb (QPixmap_isNull (_original_pixmap self))
           then hit self (pos event) else Returned None) with
    | Raised e => failed self e
    | Returned on_point =>
        match on_point with
        | Some _ => finished (set_cursor self OpenHandCursor)
        | None =>
            if point_mode_enabled self then finished (set_cursor self CrossCursor)
            else finished (set_cursor self ArrowCursor)
        end
    end.

Definition mouseReleaseEvent (self : t) (event : QMouseEvent) : ran t :=
  if negb (point_mode_enabled self) then finished self
  else
    let self := set_dragging self (-1) in
    let self := set_cursor self ArrowCursor in
    announced self (current_points self).

Definition set_point_mode_enabled (self : t) (enabled : bool) : t :=
  let self := set_enabled self enabled in
  if negb enabled then set_cursor self ArrowCursor else self.

Definition reset_points (self : t) : ran t :=
  let self := set_points self [] in
  announced self (current_points self).

Definition get_points_original (self : t) : list QPoint := current_points self.

(** The operations of a point annotation session on the label. *)
Inductive operation : Type :=
| SetImage (usable : bool) (loaded : QPixmap)
| Resize (contents : QRect)
| MousePress (event : QMouseEvent)
| MouseMove (event : QMouseEvent)
| MouseRelease (event : QMouseEvent)
| SetPointModeEnabled (enabled : bool)
| ResetPoints.

Definition perform (self : t) (op : operation) : ran t :=
  match op with
  | SetImage usable loaded => set_image self usable loaded
  | Resize contents => finished (resizeEvent self contents)
  | MousePress event => mousePressEvent self event
  | MouseMove event => mouseMoveEvent self event
  | MouseRelease event => mouseReleaseEvent self event
  | SetPointModeEnabled enabled => finished (set_point_mode_enabled self enabled)
  | ResetPoints => reset_points self
  end.

(** A session is a sequence of operations on a fresh label; an
    operation that raises leaves the widget as it was at the raise. *)
Definition session (contents : QRect) (ops : list operation) : t :=
  fold_left (fun self op => after (perform self op)) ops (init contents).

(** What [QPixmap(image_path)] can yield for the operation. *)
Definition loads_pixmap (op : operation) : Prop :=
  match op with
  | SetImage _ loaded => loaded = NullPixmap \/ exists w h, loaded = Pixmap w h /\ 1 <= w /\ 1 <= h
  | _ => True
  end.

(** The state property of a session: a loaded pixmap has positive
    sides and every stored point marks a pixel of it. *)
Definition sound (self : t) : Prop :=
  (QPixmap_isNull (_original_pixmap self) = false ->
   1 <= QPixmap_width (_original_pixmap self) /\ 1 <= QPixmap_height (_original_pixmap self))
  /\ Forall (marks_image (_original_pixmap self)) (current_points self).

End SingleImageDisplayLabel.

Module CombinedImageLabel.

Record t : Type := mk {
  _pixmap1 : QPixmap;
  _pixmap2 : QPixmap;
  combined_pixmap : QPixmap;
  mask_points : list QPoint;
  dragging_point_index : Z;
  mask_mode_enabled : bool;
  _drawn_pixmap_rect : QRect;
  (* state kept by the QLabel base class *)
  contentsRect : QRect;
  cursor : CursorShape
}.

(** [__init__] *)
Definition init (contents : QRect) : t :=
  mk NullPixmap NullPixmap NullPixmap [] (-1) false QRect_null contents ArrowCursor.

Definition set_points (self : t) (l : list QPoint) : t :=
  mk (_pixmap1 self) (_pixmap2 self) (combined_pixmap self) l (dragging_point_index self)
     (mask_mode_enabled self) (_drawn_pixmap_rect self) (contentsRect self) (cursor self).
Definition set_dragging (self : t) (i : Z) : t :=
  mk (_pixmap1 self) (_pixmap2 self) (combined_pixmap self) (mask_points self) i
     (mask_mode_enabled self) (_drawn_pixmap_rect self) (contentsRect self) (cursor self).
Definition set_cursor (self : t) (c : CursorShape) : t :=
  mk (_pixmap1 self) (_pixmap2 self) (combined_pixmap self) (mask_points self)
     (dragging_point_index self) (mask_mode_enabled self) (_drawn_pixmap_rect self)
     (contentsRect self) c.
Definition set_pixmaps (self : t) (pm1 pm2 : QPixmap) : t :=
  mk pm1 pm2 (combined_pixmap self) (mask_points self) (dragging_point_index self)
     (mask_mode_enabled self) (_drawn_pixmap_rect self) (contentsRect self) (cursor self).
Definition set_combined (self : t) (pm : QPixmap) : t :=
  mk (_pixmap1 self) (_pixmap2 self) pm (mask_points self) (dragging_point_index self)
     (mask_mode_enabled self) (_drawn_pixmap_rect self) (contentsRect self) (cursor self).
Definition set_drawn (self : t) (r : QRect) : t :=
  mk (_pixmap1 self) (_pixmap2 self) (combined_pixmap self) (mask_points self)
     (dragging_point_index self) (mask_mode_enabled self) r (contentsRect self) (cursor self).
Definition set_enabled (self : t) (b : bool) : t :=
  mk (_pixmap1 self) (_pixmap2 self) (combined_pixmap self) (mask_points self)
     (dragging_point_index self) b (_drawn_pixmap_rect self) (contentsRect self) (cursor self).
Definition set_contents (self : t) (r : QRect) : t :=
  mk (_pixmap1 self) (_pixmap2 self) (combined_pixmap self) (mask_points self)
     (dragging_point_index self) (mask_mode_enabled self) (_drawn_pixmap_rect self) r
     (cursor self).

Definition update_display (self : t) : t :=
  set_drawn self (drawn_rect (combined_pixmap self) (contentsRect self)).

Definition _combine_pixmaps (self : t) : t :=
  if QPixmap_isNull (_pixmap1 self) || QPixmap_isNull (_pixmap2 self) then
    set_drawn (set_combined self NullPixmap) QRect_null
  else
    (* Use size of first pixmap as target *)
    let target_size := QPixmap_size (_pixmap1 self) in
    update_display (set_combined self (Pixmap (wd target_size) (ht target_size))).

(** [set_images(image_path1, image_path2)]: the arguments are the
    pixmaps the two paths load to (the null pixmap for an empty
    path). *)
Definition set_images (self : t) (loaded1 loaded2 : QPixmap) : t :=
  let self := set_points self [] in
  let self := set_pixmaps self loaded1 loaded2 in
  _combine_pixmaps self.

(** [resizeEvent], after Qt has given the label its new geometry *)
Definition resizeEvent (self : t) (contents : QRect) : t :=
  update_display (set_contents self contents).

Definition get_original_point_from_display (self : t) (display_point : QPoint)
    : outcome (option QPoint) :=
  original_point_from_display (combined_pixmap self) (_drawn_pixmap_rect self) display_point.

Definition get_display_point_from_original (self : t) (original_point : QPoint)
    : outcome (option QPoint) :=
  display_point_from_original (combined_pixmap self) (_drawn_pixmap_rect self) original_point.

Definition hit (self : t) (event_pos : QPoint) : outcome (option nat) :=
  first_hit (combined_pixmap self) (_drawn_pixmap_rect self) event_pos (mask_points self) 0.

Definition mousePressEvent (self : t) (event : QMouseEvent) : ran t :=
  if negb (mask_mode_enabled self) || QPixmap_isNull (combined_pixmap self)
  then finished self
  else
    match get_original_point_from_display self (pos event) with
    | Raised e => failed self e
    | Returned None => finished self
    | Returned (Some original_pos) =>
        if negb (QPoint_bool original_pos) then finished self
        else
          match button event with
          | LeftButton =>
              let self := set_dragging self (-1) in
              (* Check if a mask point is clicked *)
              match hit self (pos event) with
              | Raised e => failed self e
              | Returned found =>
                  let self :=
                    match found with
                    | Some i => set_dragging self (Z.of_nat i)
                    | None => self
                    end in
                  if negb (dragging_point_index self =? -1) then
                    finished (set_cursor self ClosedHandCursor)
                  else if (length (mask_points self) <? 4)%nat then
                    (* Add a new point if less than 4 points exist *)
                    let self := set_points self (mask_points self ++ [original_pos]) in
                    if (length (mask_points self) =? 4)%nat
                    then announced self (mask_points self)
                    else finished self
                  else finished self
              end
          | _ => finished self
          end
    end.

Definition mouseMoveEvent (self : t) (event : QMouseEvent) : ran t :=
  if negb (mask_mode_enabled self) || QPixmap_isNull (combined_pixmap self)
  then finished self
  else if negb (dragging_point_index self =? -1) && buttons_left event then
    match get_original_point_from_display self (pos event) with
    | Raised e => failed self e
    | Returned new_original_pos =>
        match new_original_pos with
        | Some new_pos =>
            if QPoint_bool new_pos then
              match list_setitem (mask_points self) (dragging_point_index self) new_pos with
              | Raised e => failed self e
              | Returned l =>
                  let self := set_points self l in
                  announced self (mask_points self)
              end
            else finished self
        | None => finished self
        end
    end
  else
    (* Change cursor based on hover *)
    match (if mask_mode_enabled self && negb (QPixmap_isNull (combined_pixmap self))
           then hit self (pos event) else Returned None) with
    | Raised e => failed self e
    | Returned on_point =>
        match on_point with
        | Some _ => finished (set_cursor self OpenHandCursor)
        | None =>
            if mask_mode_enabled self then finished (set_cursor self CrossCursor)
            else finished (set_cursor self ArrowCursor)
        end
    end.

Definition mouseReleaseEvent (self : t) (event : QMouseEvent) : ran t :=
  if negb (mask_mode_enabled self) then finished self
  else
    let self := set_dragging self (-1) in
    let self := set_cursor self ArrowCursor in
    announced self (mask_points self).

Definition set_mask_mode_enabled (self : t) (enabled : bool) : t :=
  let self := set_enabled self enabled in
  if negb enabled then set_cursor self ArrowCursor else self.

Definition reset_mask (self : t) : ran t :=
  let self := set_points self [] in
  announced self (mask_points self).

Definition get_mask_points_original (self : t) : list QPoint := mask_points self.

(** The operations of a mask annotation session. *)
Inductive operation : Type :=
| SetImages (loaded1 loaded2 : QPixmap)
| Resize (contents : QRect)
| MousePress (event : QMouseEvent)
| MouseMove (event : QMouseEvent)
| MouseRelease (event : QMouseEvent)
| SetMaskModeEnabled (enabled : bool)
| ResetMask.

Definition perform (self : t) (op : operation) : ran t :=
  match op with
  | SetImages loaded1 loaded2 => finished (set_images self loaded1 loaded2)
  | Resize contents => finished (resizeEvent self contents)
  | MousePress event => mousePressEvent self event
  | MouseMove event => mouseMoveEvent self event
  | MouseRelease event => mouseReleaseEvent self event
  | SetMaskModeEnabled enabled => finished (set_mask_mode_enabled self enabled)
  | ResetMask => reset_mask self
  end.

(** A session is a sequence of operations on a fresh label; an
    operation that raises leaves the widget as it was at the raise
    and the event loop goes on. *)
Definition session (contents : QRect) (ops : list operation) : t :=
  fold_left (fun self op => after (perform self op)) ops (init contents).

(** What [QPixmap(image_path)] can yield for the operation. *)
Definition loads_pixmap (op : operation) : Prop :=
  match op with
  | SetImages loaded1 loaded2 =>
      (loaded1 = NullPixmap \/ exists w h, loaded1 = Pixmap w h /\ 1 <= w /\ 1 <= h)
      /\ (loaded2 = NullPixmap \/ exists w h, loaded2 = Pixmap w h /\ 1 <= w /\ 1 <= h)
  | _ => True
  end.

(** The state property of a session: a combined pixmap has positive
    sides and every mask point marks a pixel of it. *)
Definition sound (self : t) : Prop :=
  (QPixmap_isNull (combined_pixmap self) = false ->
   1 <= QPixmap_width (combined_pixmap self) /\ 1 <= QPixmap_height (combined_pixmap self))
  /\ Forall (marks_image (combined_pixmap self)) (mask_points self).

End CombinedImageLabel.

(** Directory entries as [os.listdir] and [os.path.isdir] see them. *)
Inductive entry : Type :=
| RegularFile
| Directory (children : list (string * entry)).

Definition isdir (e : entry) : bool :=
  match e with Directory _ => true | RegularFile => false end.

Definition listdir (e : entry) : list string :=
  match e with Directory children => List.map fst children | RegularFile => [] end.

(** [any(file_name.lower().endswith(ext) for ext in IMAGE_EXTENSIONS)] *)
Definition has_image_extension (file_name : string) : bool :=
  existsb (fun ext => endswith (lower file_name) ext) IMAGE_EXTENSIONS.

(** The specification's wording of the same test, with the allow-list
    written out: the name, lower-cased, ends with [.png], [.jpg],
    [.jpeg], [.gif], [.bmp], [.tiff] or [.webp]. *)
Definition image_named (name : string) : Prop :=
  exists ext,
    In ext [".png"; ".jpg"; ".jpeg"; ".gif"; ".bmp"; ".tiff"; ".webp"]
    /\ endswith (lower name) ext = true.

Module ImageThumbnailWidget.

Record t : Type := mk {
  folder_path : string;
  image_paths : list string;
  selected_thumbnail_index : nat
}.

Definition _get_image_paths (folder_path : string) (folder : entry) : list string :=
  sorted (List.map (path_join folder_path)
            (List.filter has_image_extension (listdir folder))).

(** [__init__] *)
Definition init (folder_path : string) (folder : entry) : t :=
  mk folder_path (_get_image_paths folder_path folder) 0.

End ImageThumbnailWidget.

Module ImageSelectionWindow.

(** The attributes the save gate and the writer read, and the state of
    the save button. *)
Record t : Type := mk {
  image_path_frame1 : option string;
  image_path_frame2 : option string;
  mask_points_on_combined : list QPoint;
  source_points_on_frame1 : list QPoint;
  target_points_on_frame2 : list QPoint;
  save_button_enabled : bool
}.

(** Truth value of an attribute that is [None] or a [str]. *)
Definition path_bool (p : option string) : bool :=
  match p with None => false | Some s => str_bool s end.

Definition image_count (folder : entry) : nat :=
  length (List.filter has_image_extension (listdir folder)).

(** [scan_directory(root_dir)]: the thumbnail widgets added to the
    folder list, in listing order. *)
Definition scan_directory (root_dir : string) (root : entry) : list ImageThumbnailWidget.t :=
  match root with
  | RegularFile => []
  | Directory children =>
      flat_map (fun '(name, e) =>
                  let full_path := path_join root_dir name in
                  if isdir e then
                    if (1 <? image_count e)%nat
                    then [ImageThumbnailWidget.init full_path e]
                    else []
                  else [])
               children
  end.

(** The condition of [check_save_button_status] *)
Definition save_condition (self : t) : bool :=
  path_bool (image_path_frame1 self) && path_bool (image_path_frame2 self)
  && (length (mask_points_on_combined self) =? 4)%nat
  && (0 <? length (source_points_on_frame1 self))%nat
  && (length (source_points_on_frame1 self) =? length (target_points_on_frame2 self))%nat.

Definition check_save_button_status (self : t) : t :=
  mk (image_path_frame1 self) (image_path_frame2 self) (mask_points_on_combined self)
     (source_points_on_frame1 self) (target_points_on_frame2 self)
     (if save_condition self then true else false).

(** The message boxes of [save_coordinates_to_json] *)
Inductive dialog : Type :=
| WarnSelectBothFrames
| WarnExactlyFourMaskPoints
| WarnSelectSourceAndTarget
| WarnCountsMustMatch
| InformSaved (output_path : string)
| CriticalSaveError.

Definition point_json (p : QPoint) : json :=
  JDict [("x", JInt (px p)); ("y", JInt (py p))].

Definition annotation (frame1 frame2 : string) (self : t) : json :=
  JDict [("frame1_image", JStr (basename frame1));
         ("frame2_image", JStr (basename frame2));
         ("mask_area", JList (List.map point_json (mask_points_on_combined self)));
         ("source_points", JList (List.map point_json (source_points_on_frame1 self)));
         ("target_points", JList (List.map point_json (target_points_on_frame2 self)))].

Definition output_path_of (frame1 frame2 : string) : string :=
  let output_folder := dirname frame1 in
  let base1 := fst (splitext (basename frame1)) in
  let base2 := fst (splitext (basename frame2)) in
  let output_file_name := "drag_data_" +:+ base1 +:+ "_to_" +:+ base2 +:+ ".json" in
  path_join output_folder output_file_name.

(** [save_coordinates_to_json]: [files] maps a path to the text of
    the file there, [refused] tells for which paths [open(.., 'w')]
    raises, which leaves the files as they are.  A failure of the
    write into the file once opened is not part of the model. *)
Definition save_coordinates_to_json (self : t) (refused : string -> bool)
    (files : gmap string string) : dialog * gmap string string :=
  match image_path_frame1 self, image_path_frame2 self with
  | Some frame1, Some frame2 =>
      if negb (str_bool frame1) || negb (str_bool frame2) then (WarnSelectBothFrames, files)
      else if negb (length (mask_points_on_combined self) =? 4)%nat
      then (WarnExactlyFourMaskPoints, files)
      else if match source_points_on_frame1 self with [] => true | _ => false end
              || match target_points_on_frame2 self with [] => true | _ => false end
      then (WarnSelectSourceAndTarget, files)
      else if negb (length (source_points_on_frame1 self)
                    =? length (target_points_on_frame2 self))%nat
      then (WarnCountsMustMatch, files)
      else
        let data := annotation frame1 frame2 self in
        let output_path := output_path_of frame1 frame2 in
        if refused output_path then (CriticalSaveError, files)
        else (InformSaved output_path, <[output_path := dumps_indent4 data]> files)
  | _, _ => (WarnSelectBothFrames, files)
  end.

End ImageSelectionWindow.

(** *** The saved text in the specification's words

    A JSON object with the five members in the order written, one
    member per line, each nesting level indented by four more spaces;
    a point is an object with the members [x] and [y].  The two
    names are given as they stand between their quotes. *)
Module SavedText.












End SavedText.

(** *** The window as a whole

    [ImageSelectionWindow] with its two labels, its layouts and its
    buttons.  The texts the window puts on labels and buttons and its
    message boxes are output only and are left out; everything the
    code reads back is kept. *)
Module Window.

Inductive display_mode : Type := SingleImageMode | CombinedMaskMode.

(** The argument of [toggle_point_selection_mode]:
    ["frame1_points"] or ["frame2_points"]. *)
Inductive selection_target : Type := Frame1Points | Frame2Points.

Record t : Type := mk {
  (* attributes set in [__init__] *)
  current_selected_folder : option string;
  image_files_in_folder : list string;
  current_image_index : Z;
  image_path_frame1 : option string;
  image_path_frame2 : option string;
  mask_points_on_combined : list QPoint;
  source_points_on_frame1 : list QPoint;
  target_points_on_frame2 : list QPoint;
  current_display_mode : display_mode;
  current_point_selection_target : option selection_target;
  (* the two labels and whether each is shown *)
  single_image_display_label : SingleImageDisplayLabel.t;
  single_image_display_label_visible : bool;
  combined_image_display_label : CombinedImageLabel.t;
  combined_image_display_label_visible : bool;
  (* the widgets in the two layouts: folder thumbnails, and the
     clickable image thumbnails with the path and index bound in
     their lambda *)
  folder_list_layout : list ImageThumbnailWidget.t;
  thumbnail_grid_layout : list (string * Z);
  (* whether each button is enabled *)
  prev_image_button : bool;
  next_image_button : bool;
  select_frame1_button : bool;
  select_frame2_button : bool;
  toggle_source_points_button : bool;
  toggle_target_points_button : bool;
  toggle_mask_mode_button : bool;
  reset_mask_button : bool;
  save_button : bool;
  (* the annotation files written so far, by path *)
  written_files : gmap string string
}.

(** One setter per attribute; [set_x v self] is [self.x = v]. *)
Definition set_current_selected_folder (v : option string) (self : t) : t :=
  mk v (image_files_in_folder self) (current_image_index self) (image_path_frame1 self)
     (image_path_frame2 self) (mask_points_on_combined self) (source_points_on_frame1 self)
     (target_points_on_frame2 self) (current_display_mode self)
     (current_point_selection_target self) (single_image_display_label self)
     (single_image_display_label_visible self) (combined_image_display_label self)
     (combined_image_display_label_visible self) (folder_list_layout self)
     (thumbnail_grid_layout self) (prev_image_button self) (next_image_button self)
     (select_frame1_button self) (select_frame2_button self)
     (toggle_source_points_button self) (toggle_target_points_button self)
     (toggle_mask_mode_button self) (reset_mask_button self) (save_button self)
     (written_files self).
Definition set_image_files_in_folder (v : list string) (self : t) : t :=
  mk (current_selected_folder self) v (current_image_index self) (image_path_frame1 self)
     (image_path_frame2 self) (mask_points_on_combined self) (source_points_on_frame1 self)
     (target_points_on_frame2 self) (current_display_mode self)
     (current_point_selection_target self) (single_image_display_label self)
     (single_image_display_label_visible self) (combined_image_display_label self)
     (combined_image_display_label_visible self) (folder_list_layout self)
     (thumbnail_grid_layout self) (prev_image_button self) (next_image_button self)
     (select_frame1_button self) (select_frame2_button self)
     (toggle_source_points_button self) (toggle_target_points_button self)
     (toggle_mask_mode_button self) (reset_mask_button self) (save_button self)
     (written_files self).
Definition set_current_image_index (v : Z) (self : t) : t :=
  mk (current_selected_folder self) (image_files_in_folder self) v (image_path_frame1 self)
     (image_path_frame2 self) (mask_points_on_combined self) (source_points_on_frame1 self)
     (target_points_on_frame2 self) (current_display_mode self)
     (current_point_selection_target self) (single_image_display_label self)
     (single_image_display_label_visible self) (combined_image_display_label self)
     (combined_image_display_label_visible self) (folder_list_layout self)
     (thumbnail_grid_layout self) (prev_image_button self) (next_image_button self)
     (select_frame1_button self) (select_frame2_button self)
     (toggle_source_points_button self) (toggle_target_points_button self)
     (toggle_mask_mode_button self) (reset_mask_button self) (save_button self)
     (written_files self).
Definition set_image_path_frame1 (v : option string) (self : t) : t :=
  mk (current_selected_folder self) (image_files_in_folder self) (current_image_index self)
     v (image_path_frame2 self) (mask_points_on_combined self)
     (source_points_on_frame1 self) (target_points_on_frame2 self)
     (current_display_mode self) (current_point_selection_target self)
     (single_image_display_label self) (single_image_display_label_visible self)
     (combined_image_display_label self) (combined_image_display_label_visible self)
     (folder_list_layout self) (thumbnail_grid_layout self) (prev_image_button self)
     (next_image_button self) (select_frame1_button self) (select_frame2_button self)
     (toggle_source_points_button self) (toggle_target_points_button self)
     (toggle_mask_mode_button self) (reset_mask_button self) (save_button self)
     (written_files self).
Definition set_image_path_frame2 (v : option string) (self : t) : t :=
  mk (current_selected_folder self) (image_files_in_folder self) (current_image_index self)
     (image_path_frame1 self) v (mask_points_on_combined self)
     (source_points_on_frame1 self) (target_points_on_frame2 self)
     (current_display_mode self) (current_point_selection_target self)
     (single_image_display_label self) (single_image_display_label_visible self)
     (combined_image_display_label self) (combined_image_display_label_visible self)
     (folder_list_layout self) (thumbnail_grid_layout self) (prev_image_button self)
     (next_image_button self) (select_frame1_button self) (select_frame2_button self)
     (toggle_source_points_button self) (toggle_target_points_button self)
     (toggle_mask_mode_button self) (reset_mask_button self) (save_button self)
     (written_files self).
Definition set_mask_points_on_combined (v : list QPoint) (self : t) : t :=
  mk (current_selected_folder self) (image_files_in_folder self) (current_image_index self)
     (image_path_frame1 self) (image_path_frame2 self) v (source_points_on_frame1 self)
     (target_points_on_frame2 self) (current_display_mode self)
     (current_point_selection_target self) (single_image_display_label self)
     (single_image_display_label_visible self) (combined_image_display_label self)
     (combined_image_display_label_visible self) (folder_list_layout self)
     (thumbnail_grid_layout self) (prev_image_button self) (next_image_button self)
     (select_frame1_button self) (select_frame2_button self)
     (toggle_source_points_button self) (toggle_target_points_button self)
     (toggle_mask_mode_button self) (reset_mask_button self) (save_button self)
     (written_files self).
Definition set_source_points_on_frame1 (v : list QPoint) (self : t) : t :=
  mk (current_selected_folder self) (image_files_in_folder self) (current_image_index self)
     (image_path_frame1 self) (image_path_frame2 self) (mask_points_on_combined self) v
     (target_points_on_frame2 self) (current_display_mode self)
     (current_point_selection_target self) (single_image_display_label self)
     (single_image_display_label_visible self) (combined_image_display_label self)
     (combined_image_display_label_visible self) (folder_list_layout self)
     (thumbnail_grid_layout self) (prev_image_button self) (next_image_button self)
     (select_frame1_button self) (select_frame2_button self)
     (toggle_source_points_button self) (toggle_target_points_button self)
     (toggle_mask_mode_button self) (reset_mask_button self) (save_button self)
     (written_files self).
Definition set_target_points_on_frame2 (v : list QPoint) (self : t) : t :=
  mk (current_selected_folder self) (image_files_in_folder self) (current_image_index self)
     (image_path_frame1 self) (image_path_frame2 self) (mask_points_on_combined self)
     (source_points_on_frame1 self) v (current_display_mode self)
     (current_point_selection_target self) (single_image_display_label self)
     (single_image_display_label_visible self) (combined_image_display_label self)
     (combined_image_display_label_visible self) (folder_list_layout self)
     (thumbnail_grid_layout self) (prev_image_button self) (next_image_button self)
     (select_frame1_button self) (select_frame2_button self)
     (toggle_source_points_button self) (toggle_target_points_button self)
     (toggle_mask_mode_button self) (reset_mask_button self) (save_button self)
     (written_files self).
Definition set_current_display_mode (v : display_mode) (self : t) : t :=
  mk (current_selected_folder self) (image_files_in_folder self) (current_image_index self)
     (image_path_frame1 self) (image_path_frame2 self) (mask_points_on_combined self)
     (source_points_on_frame1 self) (target_points_on_frame2 self) v
     (current_point_selection_target self) (single_image_display_label self)
     (single_image_display_label_visible self) (combined_image_display_label self)
     (combined_image_display_label_visible self) (folder_list_layout self)
     (thumbnail_grid_layout self) (prev_image_button self) (next_image_button self)
     (select_frame1_button self) (select_frame2_button self)
     (toggle_source_points_button self) (toggle_target_points_button self)
     (toggle_mask_mode_button self) (reset_mask_button self) (save_button self)
     (written_files self).
Definition set_current_point_selection_target (v : option selection_target) (self : t) : t :=
  mk (current_selected_folder self) (image_files_in_folder self) (current_image_index self)
     (image_path_frame1 self) (image_path_frame2 self) (mask_points_on_combined self)
     (source_points_on_frame1 self) (target_points_on_frame2 self)
     (current_display_mode self) v (single_image_display_label self)
     (single_image_display_label_visible self) (combined_image_display_label self)
     (combined_image_display_label_visible self) (folder_list_layout self)
     (thumbnail_grid_layout self) (prev_image_button self) (next_image_button self)
     (select_frame1_button self) (select_frame2_button self)
     (toggle_source_points_button self) (toggle_target_points_button self)
     (toggle_mask_mode_button self) (reset_mask_button self) (save_button self)
     (written_files self).
Definition set_single_image_display_label (v : SingleImageDisplayLabel.t) (self : t) : t :=
  mk (current_selected_folder self) (image_files_in_folder self) (current_image_index self)
     (image_path_frame1 self) (image_path_frame2 self) (mask_points_on_combined self)
     (source_points_on_frame1 self) (target_points_on_frame2 self)
     (current_display_mode self) (current_point_selection_target self) v
     (single_image_display_label_visible self) (combined_image_display_label self)
     (combined_image_display_label_visible self) (folder_list_layout self)
     (thumbnail_grid_layout self) (prev_image_button self) (next_image_button self)
     (select_frame1_button self) (select_frame2_button self)
     (toggle_source_points_button self) (toggle_target_points_button self)
     (toggle_mask_mode_button self) (reset_mask_button self) (save_button self)
     (written_files self).
Definition set_single_image_display_label_visible (v : bool) (self : t) : t :=
  mk (current_selected_folder self) (image_files_in_folder self) (current_image_index self)
     (image_path_frame1 self) (image_path_frame2 self) (mask_points_on_combined self)
     (source_points_on_frame1 self) (target_points_on_frame2 self)
     (current_display_mode self) (current_point_selection_target self)
     (single_image_display_label self) v (combined_image_display_label self)
     (combined_image_display_label_visible self) (folder_list_layout self)
     (thumbnail_grid_layout self) (prev_image_button self) (next_image_button self)
     (select_frame1_button self) (select_frame2_button self)
     (toggle_source_points_button self) (toggle_target_points_button self)
     (toggle_mask_mode_button self) (reset_mask_button self) (save_button self)
     (written_files self).
Definition set_combined_image_display_label (v : CombinedImageLabel.t) (self : t) : t :=
  mk (current_selected_folder self) (image_files_in_folder self) (current_image_index self)
     (image_path_frame1 self) (image_path_frame2 self) (mask_points_on_combined self)
     (source_points_on_frame1 self) (target_points_on_frame2 self)
     (current_display_mode self) (current_point_selection_target self)
     (single_image_display_label self) (single_image_display_label_visible self) v
     (combined_image_display_label_visible self) (folder_list_layout self)
     (thumbnail_grid_layout self) (prev_image_button self) (next_image_button self)
     (select_frame1_button self) (select_frame2_button self)
     (toggle_source_points_button self) (toggle_target_points_button self)
     (toggle_mask_mode_button self) (reset_mask_button self) (save_button self)
     (written_files self).
Definition set_combined_image_display_label_visible (v : bool) (self : t) : t :=
  mk (current_selected_folder self) (image_files_in_folder self) (current_image_index self)
     (image_path_frame1 self) (image_path_frame2 self) (mask_points_on_combined self)
     (source_points_on_frame1 self) (target_points_on_frame2 self)
     (current_display_mode self) (current_point_selection_target self)
     (single_image_display_label self) (single_image_display_label_visible self)
     (combined_image_display_label self) v (folder_list_layout self)
     (thumbnail_grid_layout self) (prev_image_button self) (next_image_button self)
     (select_frame1_button self) (select_frame2_button self)
     (toggle_source_points_button self) (toggle_target_points_button self)
     (toggle_mask_mode_button self) (reset_mask_button self) (save_button self)
     (written_files self).
Definition set_folder_list_layout (v : list ImageThumbnailWidget.t) (self : t) : t :=
  mk (current_selected_folder self) (image_files_in_folder self) (current_image_index self)
     (image_path_frame1 self) (image_path_frame2 self) (mask_points_on_combined self)
     (source_points_on_frame1 self) (target_points_on_frame2 self)
     (current_display_mode self) (current_point_selection_target self)
     (single_image_display_label self) (single_image_display_label_visible self)
     (combined_image_display_label self) (combined_image_display_label_visible self) v
     (thumbnail_grid_layout self) (prev_image_button self) (next_image_button self)
     (select_frame1_button self) (select_frame2_button self)
     (toggle_source_points_button self) (toggle_target_points_button self)
     (toggle_mask_mode_button self) (reset_mask_button self) (save_button self)
     (written_files self).
Definition set_thumbnail_grid_layout (v : list (string * Z)) (self : t) : t :=
  mk (current_selected_folder self) (image_files_in_folder self) (current_image_index self)
     (image_path_frame1 self) (image_path_frame2 self) (mask_points_on_combined self)
     (source_points_on_frame1 self) (target_points_on_frame2 self)
     (current_display_mode self) (current_point_selection_target self)
     (single_image_display_label self) (single_image_display_label_visible self)
     (combined_image_display_label self) (combined_image_display_label_visible self)
     (folder_list_layout self) v (prev_image_button self) (next_image_button self)
     (select_frame1_button self) (select_frame2_button self)
     (toggle_source_points_button self) (toggle_target_points_button self)
     (toggle_mask_mode_button self) (reset_mask_button self) (save_button self)
     (written_files self).
Definition set_prev_image_button (v : bool) (self : t) : t :=
  mk (current_selected_folder self) (image_files_in_folder self) (current_image_index self)
     (image_path_frame1 self) (image_path_frame2 self) (mask_points_on_combined self)
     (source_points_on_frame1 self) (target_points_on_frame2 self)
     (current_display_mode self) (current_point_selection_target self)
     (single_image_display_label self) (single_image_display_label_visible self)
     (combined_image_display_label self) (combined_image_display_label_visible self)
     (folder_list_layout self) (thumbnail_grid_layout self) v (next_image_button self)
     (select_frame1_button self) (select_frame2_button self)
     (toggle_source_points_button self) (toggle_target_points_button self)
     (toggle_mask_mode_button self) (reset_mask_button self) (save_button self)
     (written_files self).
Definition set_next_image_button (v : bool) (self : t) : t :=
  mk (current_selected_folder self) (image_files_in_folder self) (current_image_index self)
     (image_path_frame1 self) (image_path_frame2 self) (mask_points_on_combined self)
     (source_points_on_frame1 self) (target_points_on_frame2 self)
     (current_display_mode self) (current_point_selection_target self)
     (single_image_display_label self) (single_image_display_label_visible self)
     (combined_image_display_label self) (combined_image_display_label_visible self)
     (folder_list_layout self) (thumbnail_grid_layout self) (prev_image_button self) v
     (select_frame1_button self) (select_frame2_button self)
     (toggle_source_points_button self) (toggle_target_points_button self)
     (toggle_mask_mode_button self) (reset_mask_button self) (save_button self)
     (written_files self).
Definition set_select_frame1_button (v : bool) (self : t) : t :=
  mk (current_selected_folder self) (image_files_in_folder self) (current_image_index self)
     (image_path_frame1 self) (image_path_frame2 self) (mask_points_on_combined self)
     (source_points_on_frame1 self) (target_points_on_frame2 self)
     (current_display_mode self) (current_point_selection_target self)
     (single_image_display_label self) (single_image_display_label_visible self)
     (combined_image_display_label self) (combined_image_display_label_visible self)
     (folder_list_layout self) (thumbnail_grid_layout self) (prev_image_button self)
     (next_image_button self) v (select_frame2_button self)
     (toggle_source_points_button self) (toggle_target_points_button self)
     (toggle_mask_mode_button self) (reset_mask_button self) (save_button self)
     (written_files self).
Definition set_select_frame2_button (v : bool) (self : t) : t :=
  mk (current_selected_folder self) (image_files_in_folder self) (current_image_index self)
     (image_path_frame1 self) (image_path_frame2 self) (mask_points_on_combined self)
     (source_points_on_frame1 self) (target_points_on_frame2 self)
     (current_display_mode self) (current_point_selection_target self)
     (single_image_display_label self) (single_image_display_label_visible self)
     (combined_image_display_label self) (combined_image_display_label_visible self)
     (folder_list_layout self) (thumbnail_grid_layout self) (prev_image_button self)
     (next_image_button self) (select_frame1_button self) v
     (toggle_source_points_button self) (toggle_target_points_button self)
     (toggle_mask_mode_button self) (reset_mask_button self) (save_button self)
     (written_files self).
Definition set_toggle_source_points_button (v : bool) (self : t) : t :=
  mk (current_selected_folder self) (image_files_in_folder self) (current_image_index self)
     (image_path_frame1 self) (image_path_frame2 self) (mask_points_on_combined self)
     (source_points_on_frame1 self) (target_points_on_frame2 self)
     (current_display_mode self) (current_point_selection_target self)
     (single_image_display_label self) (single_image_display_label_visible self)
     (combined_image_display_label self) (combined_image_display_label_visible self)
     (folder_list_layout self) (thumbnail_grid_layout self) (prev_image_button self)
     (next_image_button self) (select_frame1_button self) (select_frame2_button self) v
     (toggle_target_points_button self) (toggle_mask_mode_button self)
     (reset_mask_button self) (save_button self) (written_files self).
Definition set_toggle_target_points_button (v : bool) (self : t) : t :=
  mk (current_selected_folder self) (image_files_in_folder self) (current_image_index self)
     (image_path_frame1 self) (image_path_frame2 self) (mask_points_on_combined self)
     (source_points_on_frame1 self) (target_points_on_frame2 self)
     (current_display_mode self) (current_point_selection_target self)
     (single_image_display_label self) (single_image_display_label_visible self)
     (combined_image_display_label self) (combined_image_display_label_visible self)
     (folder_list_layout self) (thumbnail_grid_layout self) (prev_image_button self)
     (next_image_button self) (select_frame1_button self) (select_frame2_button self)
     (toggle_source_points_button self) v (toggle_mask_mode_button self)
     (reset_mask_button self) (save_button self) (written_files self).
Definition set_toggle_mask_mode_button (v : bool) (self : t) : t :=
  mk (current_selected_folder self) (image_files_in_folder self) (current_image_index self)
     (image_path_frame1 self) (image_path_frame2 self) (mask_points_on_combined self)
     (source_points_on_frame1 self) (target_points_on_frame2 self)
     (current_display_mode self) (current_point_selection_target self)
     (single_image_display_label self) (single_image_display_label_visible self)
     (combined_image_display_label self) (combined_image_display_label_visible self)
     (folder_list_layout self) (thumbnail_grid_layout self) (prev_image_button self)
     (next_image_button self) (select_frame1_button self) (select_frame2_button self)
     (toggle_source_points_button self) (toggle_target_points_button self) v
     (reset_mask_button self) (save_button self) (written_files self).
Definition set_reset_mask_button (v : bool) (self : t) : t :=
  mk (current_selected_folder self) (image_files_in_folder self) (current_image_index self)
     (image_path_frame1 self) (image_path_frame2 self) (mask_points_on_combined self)
     (source_points_on_frame1 self) (target_points_on_frame2 self)
     (current_display_mode self) (current_point_selection_target self)
     (single_image_display_label self) (single_image_display_label_visible self)
     (combined_image_display_label self) (combined_image_display_label_visible self)
     (folder_list_layout self) (thumbnail_grid_layout self) (prev_image_button self)
     (next_image_button self) (select_frame1_button self) (select_frame2_button self)
     (toggle_source_points_button self) (toggle_target_points_button self)
     (toggle_mask_mode_button self) v (save_button self) (written_files self).
Definition set_save_button (v : bool) (self : t) : t :=
  mk (current_selected_folder self) (image_files_in_folder self) (current_image_index self)
     (image_path_frame1 self) (image_path_frame2 self) (mask_points_on_combined self)
     (source_points_on_frame1 self) (target_points_on_frame2 self)
     (current_display_mode self) (current_point_selection_target self)
     (single_image_display_label self) (single_image_display_label_visible self)
     (combined_image_display_label self) (combined_image_display_label_visible self)
     (folder_list_layout self) (thumbnail_grid_layout self) (prev_image_button self)
     (next_image_button self) (select_frame1_button self) (select_frame2_button self)
     (toggle_source_points_button self) (toggle_target_points_button self)
     (toggle_mask_mode_button self) (reset_mask_button self) v (written_files self).
Definition set_written_files (v : gmap string string) (self : t) : t :=
  mk (current_selected_folder self) (image_files_in_folder self) (current_image_index self)
     (image_path_frame1 self) (image_path_frame2 self) (mask_points_on_combined self)
     (source_points_on_frame1 self) (target_points_on_frame2 self)
     (current_display_mode self) (current_point_selection_target self)
     (single_image_display_label self) (single_image_display_label_visible self)
     (combined_image_display_label self) (combined_image_display_label_visible self)
     (folder_list_layout self) (thumbnail_grid_layout self) (prev_image_button self)
     (next_image_button self) (select_frame1_button self) (select_frame2_button self)
     (toggle_source_points_button self) (toggle_target_points_button self)
     (toggle_mask_mode_button self) (reset_mask_button self) (save_button self) v.

(** What the operating system and Qt answer while one handler
    runs: [os.path.exists], [QPixmap(path)] (the null pixmap when
    the file is no image) and whether [open(path, 'w')] fails. *)
Record world : Type := mkWorld {
  path_exists : string -> bool;
  load_pixmap : string -> QPixmap;
  refuses_write : string -> bool
}.

(** [__init__] and [setup_ui]: both labels are created with the
    contents rectangle the layout gives them. *)
Definition init (single_contents combined_contents : QRect) : t :=
  mk None [] 0 None None [] [] [] SingleImageMode None
     (SingleImageDisplayLabel.init single_contents) true
     (CombinedImageLabel.init combined_contents) false
     [] []
     false false false false false false false false false
     ∅.

(** *** Methods as state transformers

    A method runs on the window and either returns or raises; what
    it assigned before raising stays assigned. *)
Definition action (A : Type) : Type := t -> outcome A * t.

Definition ret {A : Type} (a : A) : action A := fun self => (Returned a, self).

Definition bind {A B : Type} (m : action A) (k : A -> action B) : action B :=
  fun self =>
    match m self with
    | (Returned a, self') => k a self'
    | (Raised e, self') => (Raised e, self')
    end.

Definition read {A : Type} (attribute : t -> A) : action A :=
  fun self => (Returned (attribute self), self).

Definition assign (f : t -> t) : action unit := fun self => (Returned tt, f self).

Definition evaluate {A : Type} (o : outcome A) : action A := fun self => (o, self).

Notation "'run' m ;; k" := (bind m (fun _ => k))
  (at level 10, m at level 99, k at level 200).
Notation "'let_' x := m ;; k" := (bind m (fun x => k))
  (at level 10, x name, m at level 99, k at level 200).

(** [l[i]] *)
Definition list_getitem {A : Type} (l : list A) (i : Z) : outcome A :=
  let n := Z.of_nat (length l) in
  let j := if i <? 0 then i + n else i in
  if (0 <=? j) && (j <? n) then
    match l !! Z.to_nat j with
    | Some a => Returned a
    | None => Raised IndexError
    end
  else Raised IndexError.

(** The part of the window [check_save_button_status] and
    [save_coordinates_to_json] read. *)
Definition save_view (self : t) : ImageSelectionWindow.t :=
  ImageSelectionWindow.mk (image_path_frame1 self) (image_path_frame2 self)
    (mask_points_on_combined self) (source_points_on_frame1 self)
    (target_points_on_frame2 self) (save_button self).

Definition check_save_button_status : action unit :=
  assign (fun self =>
            set_save_button
              (ImageSelectionWindow.save_button_enabled
                 (ImageSelectionWindow.check_save_button_status (save_view self)))
              self).

(** The slot of [points_changed] *)
Definition update_single_image_points_display (points : list QPoint) : action unit :=
  let_ target := read current_point_selection_target ;;
  run match target with
      | Some Frame1Points => assign (set_source_points_on_frame1 points)
      | Some Frame2Points => assign (set_target_points_on_frame2 points)
      | None => ret tt
      end ;;
  check_save_button_status.

(** The slot of [mask_points_changed] *)
Definition update_mask_coord_label (points : list QPoint) : action unit :=
  run assign (set_mask_points_on_combined points) ;;
  check_save_button_status.

(** Delivery of the payloads a label emitted to the connected slot,
    in emission order.  Both signals are declared [pyqtSignal(list)]:
    the argument travels as a [QVariantList], so the slot receives a
    list of its own and later changes of the label's list do not
    reach it.  The slots read the payload and the window only, and
    the labels never read the window, so running the slots after
    the label method gives the state the direct connection gives. *)
Fixpoint deliver (slot : list QPoint -> action unit) (payloads : list (list QPoint))
    : action unit :=
  match payloads with
  | [] => ret tt
  | points :: rest => run slot points ;; deliver slot rest
  end.

(** A call of a method of the point label: the label changes, the
    slot runs on what the method emitted, and an exception of the
    method propagates. *)
Definition on_single (method : SingleImageDisplayLabel.t -> ran SingleImageDisplayLabel.t)
    : action unit :=
  let_ label := read single_image_display_label ;;
  let r := method label in
  run assign (set_single_image_display_label (after r)) ;;
  run deliver update_single_image_points_display (emitted r) ;;
  match raised r with
  | Some e => evaluate (Raised e)
  | None => ret tt
  end.

(** The same for the mask label. *)
Definition on_combined (method : CombinedImageLabel.t -> ran CombinedImageLabel.t)
    : action unit :=
  let_ label := read combined_image_display_label ;;
  let r := method label in
  run assign (set_combined_image_display_label (after r)) ;;
  run deliver update_mask_coord_label (emitted r) ;;
  match raised r with
  | Some e => evaluate (Raised e)
  | None => ret tt
  end.

(** [label.set_image(image_path)] for a path that is [None] or a
    string *)
Definition single_set_image (w : world) (image_path : option string) : action unit :=
  match image_path with
  | Some path =>
      on_single (fun label =>
                   SingleImageDisplayLabel.set_image label
                     (str_bool path && path_exists w path) (load_pixmap w path))
  | None => on_single (fun label => SingleImageDisplayLabel.set_image label false NullPixmap)
  end.

(** [QPixmap(image_path) if image_path else QPixmap()] *)
Definition pixmap_or_null (w : world) (image_path : option string) : QPixmap :=
  match image_path with
  | Some path => if str_bool path then load_pixmap w path else NullPixmap
  | None => NullPixmap
  end.

Definition single_set_point_mode_enabled (enabled : bool) : action unit :=
  assign (fun self =>
            set_single_image_display_label
              (SingleImageDisplayLabel.set_point_mode_enabled
                 (single_image_display_label self) enabled)
              self).

Definition combined_set_mask_mode_enabled (enabled : bool) : action unit :=
  assign (fun self =>
            set_combined_image_display_label
              (CombinedImageLabel.set_mask_mode_enabled
                 (combined_image_display_label self) enabled)
              self).

Definition combined_set_images (w : world) (image_path1 image_path2 : option string)
    : action unit :=
  assign (fun self =>
            set_combined_image_display_label
              (CombinedImageLabel.set_images (combined_image_display_label self)
                 (pixmap_or_null w image_path1) (pixmap_or_null w image_path2))
              self).

(** [label.current_points = list(points)] *)
Definition single_load_points (points : list QPoint) : action unit :=
  assign (fun self =>
            set_single_image_display_label
              (SingleImageDisplayLabel.set_points (single_image_display_label self) points)
              self).

Definition display_single_image (w : world) (image_path : string) : action unit :=
  run assign (set_current_display_mode SingleImageMode) ;;
  run assign (set_combined_image_display_label_visible false) ;;
  run combined_set_mask_mode_enabled false ;;
  run assign (set_single_image_display_label_visible true) ;;
  run single_set_image w (Some image_path) ;;
  let_ target := read current_point_selection_target ;;
  let_ frame1 := read image_path_frame1 ;;
  let_ frame2 := read image_path_frame2 ;;
  match target, frame1, frame2 with
  | Some Frame1Points, Some path1, _ =>
      if String.eqb image_path path1 then
        run single_set_point_mode_enabled true ;;
        let_ points := read source_points_on_frame1 ;;
        single_load_points points
      else
        run single_set_point_mode_enabled false ;;
        on_single SingleImageDisplayLabel.reset_points
  | Some Frame2Points, _, Some path2 =>
      if String.eqb image_path path2 then
        run single_set_point_mode_enabled true ;;
        let_ points := read target_points_on_frame2 ;;
        single_load_points points
      else
        run single_set_point_mode_enabled false ;;
        on_single SingleImageDisplayLabel.reset_points
  | _, _, _ =>
      run single_set_point_mode_enabled false ;;
      on_single SingleImageDisplayLabel.reset_points
  end.

Definition display_combined_image (w : world) : action unit :=
  let_ frame1 := read image_path_frame1 ;;
  let_ frame2 := read image_path_frame2 ;;
  run (if ImageSelectionWindow.path_bool frame1 && ImageSelectionWindow.path_bool frame2 then
         run assign (set_current_display_mode CombinedMaskMode) ;;
         run assign (set_single_image_display_label_visible false) ;;
         run single_set_point_mode_enabled false ;;
         run combined_set_images w frame1 frame2 ;;
         run assign (set_combined_image_display_label_visible true) ;;
         run assign (set_toggle_mask_mode_button true) ;;
         assign (set_reset_mask_button true)
       else
         run combined_set_images w None None ;;
         run assign (set_combined_image_display_label_visible false) ;;
         run combined_set_mask_mode_enabled false ;;
         run assign (set_single_image_display_label_visible true) ;;
         run assign (set_toggle_mask_mode_button false) ;;
         assign (set_reset_mask_button false)) ;;
  check_save_button_status.

Definition update_navigation_buttons : action unit :=
  let_ files := read image_files_in_folder ;;
  let_ index := read current_image_index ;;
  match files with
  | _ :: _ =>
      run assign (set_prev_image_button (0 <? index)) ;;
      assign (set_next_image_button (index <? Z.of_nat (length files) - 1))
  | [] =>
      run assign (set_prev_image_button false) ;;
      assign (set_next_image_button false)
  end.

Definition show_previous_image (w : world) : action unit :=
  let_ index := read current_image_index ;;
  if 0 <? index then
    run assign (set_current_image_index (index - 1)) ;;
    let_ files := read image_files_in_folder ;;
    let_ index := read current_image_index ;;
    let_ image_path := evaluate (list_getitem files index) ;;
    run display_single_image w image_path ;;
    update_navigation_buttons
  else ret tt.

Definition show_next_image (w : world) : action unit :=
  let_ index := read current_image_index ;;
  let_ files := read image_files_in_folder ;;
  if index <? Z.of_nat (length files) - 1 then
    run assign (set_current_image_index (index + 1)) ;;
    let_ files := read image_files_in_folder ;;
    let_ index := read current_image_index ;;
    let_ image_path := evaluate (list_getitem files index) ;;
    run display_single_image w image_path ;;
    update_navigation_buttons
  else ret tt.

Definition _thumbnail_clicked (w : world) (event : QMouseEvent) (image_path : string)
    (index : Z) : action unit :=
  match button event with
  | LeftButton =>
      run assign (set_current_image_index index) ;;
      run display_single_image w image_path ;;
      update_navigation_buttons
  | _ => ret tt
  end.

(** [update_frame_info_labels], without the two texts it sets *)
Definition update_frame_info_labels : action unit :=
  let_ frame1 := read image_path_frame1 ;;
  let_ frame2 := read image_path_frame2 ;;
  run (if ImageSelectionWindow.path_bool frame1 && ImageSelectionWindow.path_bool frame2 then
         run assign (set_toggle_mask_mode_button true) ;;
         assign (set_reset_mask_button true)
       else
         run assign (set_toggle_mask_mode_button false) ;;
         assign (set_reset_mask_button false)) ;;
  check_save_button_status.

Definition set_frame1_image (w : world) : action unit :=
  let_ folder := read current_selected_folder ;;
  let_ files := read image_files_in_folder ;;
  if ImageSelectionWindow.path_bool folder && match files with [] => false | _ :: _ => true end
  then
    let_ index := read current_image_index ;;
    let_ image_path := evaluate (list_getitem files index) ;;
    run assign (set_image_path_frame1 (Some image_path)) ;;
    run update_frame_info_labels ;;
    run assign (set_toggle_source_points_button true) ;;
    run display_single_image w image_path ;;
    check_save_button_status
  else ret tt.

Definition set_frame2_image (w : world) : action unit :=
  let_ folder := read current_selected_folder ;;
  let_ files := read image_files_in_folder ;;
  if ImageSelectionWindow.path_bool folder && match files with [] => false | _ :: _ => true end
  then
    let_ index := read current_image_index ;;
    let_ image_path := evaluate (list_getitem files index) ;;
    run assign (set_image_path_frame2 (Some image_path)) ;;
    run update_frame_info_labels ;;
    run assign (set_toggle_target_points_button true) ;;
    run display_single_image w image_path ;;
    check_save_button_status
  else ret tt.

Definition selection_target_eqb (a b : selection_target) : bool :=
  match a, b with
  | Frame1Points, Frame1Points | Frame2Points, Frame2Points => true
  | _, _ => false
  end.

Definition toggle_point_selection_mode (w : world) (target_points : selection_target)
    : action unit :=
  (* Disable mask mode first if it's active *)
  run combined_set_mask_mode_enabled false ;;
  let_ target := read current_point_selection_target ;;
  let_ label := read single_image_display_label ;;
  run (if match target with
          | Some current => selection_target_eqb current target_points
          | None => false
          end
          && SingleImageDisplayLabel.point_mode_enabled label
       then
         (* If same target and currently enabled, disable it *)
         run single_set_point_mode_enabled false ;;
         assign (set_current_point_selection_target None)
       else
         (* Activate point selection for the chosen target *)
         run assign (set_current_point_selection_target (Some target_points)) ;;
         run single_set_point_mode_enabled true ;;
         let_ frame := read (match target_points with
                             | Frame1Points => image_path_frame1
                             | Frame2Points => image_path_frame2
                             end) ;;
         match frame with
         | Some image_path =>
             if str_bool image_path then
               run display_single_image w image_path ;;
               let_ points := read (match target_points with
                                    | Frame1Points => source_points_on_frame1
                                    | Frame2Points => target_points_on_frame2
                                    end) ;;
               single_load_points points
             else
               run assign (set_current_point_selection_target None) ;;
               single_set_point_mode_enabled false
         | None =>
             run assign (set_current_point_selection_target None) ;;
             single_set_point_mode_enabled false
         end) ;;
  check_save_button_status.

Definition toggle_mask_mode (w : world) : action unit :=
  (* Disable point selection modes first *)
  run single_set_point_mode_enabled false ;;
  run assign (set_current_point_selection_target None) ;;
  run on_single SingleImageDisplayLabel.reset_points ;;
  let_ label := read combined_image_display_label ;;
  let new_state := negb (CombinedImageLabel.mask_mode_enabled label) in
  run combined_set_mask_mode_enabled new_state ;;
  run (if new_state then display_combined_image w
       else
         let_ files := read image_files_in_folder ;;
         match files with
         | _ :: _ =>
             let_ index := read current_image_index ;;
             let_ image_path := evaluate (list_getitem files index) ;;
             display_single_image w image_path
         | [] => single_set_image w None
         end) ;;
  check_save_button_status.

Definition reset_mask_points : action unit :=
  run on_combined CombinedImageLabel.reset_mask ;;
  update_mask_coord_label [].

Definition clear_layouts (w : world) : action unit :=
  (* Clear folder list *)
  run assign (set_folder_list_layout []) ;;
  (* Clear thumbnail grid *)
  run assign (set_thumbnail_grid_layout []) ;;
  (* Reset image displays and their states *)
  run single_set_image w None ;;
  run on_single SingleImageDisplayLabel.reset_points ;;
  run single_set_point_mode_enabled false ;;
  run combined_set_images w None None ;;
  run on_combined CombinedImageLabel.reset_mask ;;
  run combined_set_mask_mode_enabled false ;;
  (* Ensure only single image display is visible initially *)
  run assign (set_single_image_display_label_visible true) ;;
  run assign (set_combined_image_display_label_visible false) ;;
  (* Reset internal data *)
  run assign (set_current_selected_folder None) ;;
  run assign (set_image_files_in_folder []) ;;
  run assign (set_current_image_index 0) ;;
  run assign (set_image_path_frame1 None) ;;
  run assign (set_image_path_frame2 None) ;;
  run assign (set_mask_points_on_combined []) ;;
  run assign (set_source_points_on_frame1 []) ;;
  run assign (set_target_points_on_frame2 []) ;;
  run assign (set_current_display_mode SingleImageMode) ;;
  run assign (set_current_point_selection_target None) ;;
  (* Reset button states *)
  run assign (set_prev_image_button false) ;;
  run assign (set_next_image_button false) ;;
  run assign (set_select_frame1_button false) ;;
  run assign (set_select_frame2_button false) ;;
  run assign (set_toggle_source_points_button false) ;;
  run assign (set_toggle_target_points_button false) ;;
  run assign (set_toggle_mask_mode_button false) ;;
  run assign (set_reset_mask_button false) ;;
  assign (set_save_button false).

(** [scan_directory(root_dir)] on the window: the widgets join
    the folder list. *)
Definition scan_directory (root_dir : string) (root : entry) : action unit :=
  let_ layout := read folder_list_layout ;;
  assign (set_folder_list_layout
            (layout ++ ImageSelectionWindow.scan_directory root_dir root)).

(** [select_directory]: [directory] is what the dialog returned
    (empty when cancelled), [root] the tree found there. *)
Definition select_directory (w : world) (directory : string) (root : entry) : action unit :=
  if str_bool directory then
    run clear_layouts w ;;
    scan_directory directory root
  else ret tt.

(** The clickable thumbnails [select_folder] puts in the grid: one
    per image that loads, with its path and its index in the list. *)
Fixpoint loadable_thumbnails (w : world) (files : list string) (i : Z) : list (string * Z) :=
  match files with
  | [] => []
  | img_path :: rest =>
      if QPixmap_isNull (load_pixmap w img_path) then loadable_thumbnails w rest (i + 1)
      else (img_path, i) :: loadable_thumbnails w rest (i + 1)
  end.

(** [select_folder(folder_path)]: [listing] is what
    [os.listdir(folder_path)] does. *)
Definition select_folder (w : world) (folder_path : string)
    (listing : outcome (list string)) : action unit :=
  run assign (set_current_selected_folder (Some folder_path)) ;;
  run assign (set_image_files_in_folder []) ;;
  let_ names := evaluate listing ;;
  run assign (set_image_files_in_folder
                (sorted (List.map (path_join folder_path)
                           (List.filter has_image_extension names)))) ;;
  run assign (set_current_image_index 0) ;;
  let_ files := read image_files_in_folder ;;
  run assign (set_thumbnail_grid_layout (loadable_thumbnails w files 0)) ;;
  (* Display the first image of the selected folder *)
  run match files with
      | first :: _ => display_single_image w first
      | [] => single_set_image w None
      end ;;
  run update_navigation_buttons ;;
  run assign (set_select_frame1_button true) ;;
  run assign (set_select_frame2_button true) ;;
  let_ frame1 := read image_path_frame1 ;;
  run (if ImageSelectionWindow.path_bool frame1
       then assign (set_toggle_source_points_button true) else ret tt) ;;
  let_ frame2 := read image_path_frame2 ;;
  run (if ImageSelectionWindow.path_bool frame2
       then assign (set_toggle_target_points_button true) else ret tt) ;;
  check_save_button_status.

(** [save_coordinates_to_json] on the window *)
Definition save_coordinates_to_json (w : world) : action unit :=
  assign (fun self =>
            set_written_files
              (snd (ImageSelectionWindow.save_coordinates_to_json (save_view self)
                      (refuses_write w) (written_files self)))
              self).

(** *** Events

    What the user and the window system can do to the window.  A
    click reaches a button's slot only while the button is enabled,
    a mouse event reaches a label only while the label is shown. *)
Inductive label_event : Type :=
| Pressed (event : QMouseEvent)
| Moved (event : QMouseEvent)
| Released (event : QMouseEvent)
| Resized (contents : QRect).

Inductive operation : Type :=
| SelectDirectoryClicked (directory : string) (root : entry)
| FolderClicked (k : nat) (event : QMouseEvent) (listing : outcome (list string))
| ThumbnailClicked (k : nat) (event : QMouseEvent)
| PrevImageClicked
| NextImageClicked
| SelectFrame1Clicked
| SelectFrame2Clicked
| ToggleSourcePointsClicked
| ToggleTargetPointsClicked
| ToggleMaskModeClicked
| ResetMaskClicked
| SaveClicked
| OnSingleLabel (e : label_event)
| OnCombinedLabel (e : label_event).

Definition when_enabled (button_enabled : t -> bool) (slot : action unit) : action unit :=
  let_ enabled := read button_enabled ;;
  if enabled then slot else ret tt.

Definition single_label_event (e : label_event) : action unit :=
  match e with
  | Pressed event =>
      let_ shown := read single_image_display_label_visible ;;
      if shown then on_single (fun label => SingleImageDisplayLabel.mousePressEvent label event)
      else ret tt
  | Moved event =>
      let_ shown := read single_image_display_label_visible ;;
      if shown then on_single (fun label => SingleImageDisplayLabel.mouseMoveEvent label event)
      else ret tt
  | Released event =>
      let_ shown := read single_image_display_label_visible ;;
      if shown
      then on_single (fun label => SingleImageDisplayLabel.mouseReleaseEvent label event)
      else ret tt
  | Resized contents =>
      assign (fun self =>
                set_single_image_display_label
                  (SingleImageDisplayLabel.resizeEvent (single_image_display_label self)
                     contents)
                  self)
  end.

Definition combined_label_event (e : label_event) : action unit :=
  match e with
  | Pressed event =>
      let_ shown := read combined_image_display_label_visible ;;
      if shown then on_combined (fun label => CombinedImageLabel.mousePressEvent label event)
      else ret tt
  | Moved event =>
      let_ shown := read combined_image_display_label_visible ;;
      if shown then on_combined (fun label => CombinedImageLabel.mouseMoveEvent label event)
      else ret tt
  | Released event =>
      let_ shown := read combined_image_display_label_visible ;;
      if shown then on_combined (fun label => CombinedImageLabel.mouseReleaseEvent label event)
      else ret tt
  | Resized contents =>
      assign (fun self =>
                set_combined_image_display_label
                  (CombinedImageLabel.resizeEvent (combined_image_display_label self)
                     contents)
                  self)
  end.

Definition perform (w : world) (op : operation) : action unit :=
  match op with
  | SelectDirectoryClicked directory root => select_directory w directory root
  | FolderClicked k event listing =>
      let_ layout := read folder_list_layout ;;
      match layout !! k, button event with
      | Some widget, LeftButton =>
          (* [ImageThumbnailWidget.mousePressEvent] emits [folder_selected] *)
          select_folder w (ImageThumbnailWidget.folder_path widget) listing
      | _, _ => ret tt
      end
  | ThumbnailClicked k event =>
      let_ grid := read thumbnail_grid_layout ;;
      match grid !! k with
      | Some (image_path, index) => _thumbnail_clicked w event image_path index
      | None => ret tt
      end
  | PrevImageClicked => when_enabled prev_image_button (show_previous_image w)
  | NextImageClicked => when_enabled next_image_button (show_next_image w)
  | SelectFrame1Clicked => when_enabled select_frame1_button (set_frame1_image w)
  | SelectFrame2Clicked => when_enabled select_frame2_button (set_frame2_image w)
  | ToggleSourcePointsClicked =>
      when_enabled toggle_source_points_button (toggle_point_selection_mode w Frame1Points)
  | ToggleTargetPointsClicked =>
      when_enabled toggle_target_points_button (toggle_point_selection_mode w Frame2Points)
  | ToggleMaskModeClicked => when_enabled toggle_mask_mode_button (toggle_mask_mode w)
  | ResetMaskClicked => when_enabled reset_mask_button reset_mask_points
  | SaveClicked => when_enabled save_button (save_coordinates_to_json w)
  | OnSingleLabel e => single_label_event e
  | OnCombinedLabel e => combined_label_event e
  end.

(** A session: events on a fresh window, each with the world it
    meets.  A handler that raises leaves the window as it was at the
    raise. *)
Definition session (single_contents combined_contents : QRect)
    (events : list (world * operation)) : t :=
  fold_left (fun self '(w, op) => snd (perform w op self)) events
    (init single_contents combined_contents).

End Window.

(** *** Notions used to state what the window keeps *)
Module WindowProps.
Import Window.

(** [wp m Q self]: running [m] on [self] ends, returning or
    raising, in a state and with an outcome that satisfy [Q]. *)
Definition wp {A : Type} (m : action A) (Q : outcome A -> t -> Prop) (self : t) : Prop :=
  Q (fst (m self)) (snd (m self)).

(** The browsing index points into the image list (or the list is
    empty and the index 0), and every clickable thumbnail carries
    the path the list holds at the index it carries. *)
Definition browsing_in_range (self : t) : Prop :=
  0 <= current_image_index self
  /\ (current_image_index self < Z.of_nat (length (image_files_in_folder self))
      \/ (image_files_in_folder self = [] /\ current_image_index self = 0))
  /\ Forall (fun thumbnail : string * Z =>
               0 <= snd thumbnail
               /\ image_files_in_folder self !! Z.to_nat (snd thumbnail)
                  = Some (fst thumbnail))
       (thumbnail_grid_layout self).

(** The save button shows what [check_save_button_status] would
    compute now. *)
Definition save_button_fresh (self : t) : Prop :=
  save_button self = ImageSelectionWindow.save_condition (save_view self).

(** Exactly one of the two labels is shown, and a label in its
    annotation mode is the one shown. *)
Definition one_tool (self : t) : Prop :=
  (SingleImageDisplayLabel.point_mode_enabled (single_image_display_label self) = true ->
   single_image_display_label_visible self = true)
  /\ (CombinedImageLabel.mask_mode_enabled (combined_image_display_label self) = true ->
      combined_image_display_label_visible self = true)
  /\ single_image_display_label_visible self
     = negb (combined_image_display_label_visible self).

(** The list kept for the active selection target is the list the
    point label shows, and the label takes clicks only while a
    target is active. *)
Definition points_in_step (self : t) : Prop :=
  match current_point_selection_target self with
  | Some Frame1Points =>
      source_points_on_frame1 self
      = SingleImageDisplayLabel.current_points (single_image_display_label self)
  | Some Frame2Points =>
      target_points_on_frame2 self
      = SingleImageDisplayLabel.current_points (single_image_display_label self)
  | None =>
      SingleImageDisplayLabel.point_mode_enabled (single_image_display_label self) = false
  end.

(** What [display_single_image] leaves alone. *)
Definition kept_by_display (self : t) :=
  (current_selected_folder self, image_files_in_folder self, current_image_index self,
   thumbnail_grid_layout self, folder_list_layout self,
   image_path_frame1 self, image_path_frame2 self, mask_points_on_combined self,
   current_point_selection_target self, written_files self).

(** The state [display_single_image] leaves behind. *)
Definition displayed (image_path : string) (self self' : t) : Prop :=
  kept_by_display self' = kept_by_display self
  /\ save_button_fresh self' /\ one_tool self' /\ points_in_step self'
  /\ current_display_mode self' = SingleImageMode
  /\ single_image_display_label_visible self' = true
  /\ CombinedImageLabel.mask_mode_enabled (combined_image_display_label self') = false
  /\ SingleImageDisplayLabel.current_points (single_image_display_label self') = []
  /\ match current_point_selection_target self with
     | Some Frame1Points =>
         source_points_on_frame1 self' = []
         /\ target_points_on_frame2 self' = target_points_on_frame2 self
     | Some Frame2Points =>
         target_points_on_frame2 self' = []
         /\ source_points_on_frame1 self' = source_points_on_frame1 self
     | None =>
         source_points_on_frame1 self' = source_points_on_frame1 self
         /\ target_points_on_frame2 self' = target_points_on_frame2 self
     end
  /\ SingleImageDisplayLabel.point_mode_enabled (single_image_display_label self')
     = match current_point_selection_target self with
       | Some Frame1Points =>
           match image_path_frame1 self with
           | Some path => String.eqb image_path path
           | None => false
           end
       | Some Frame2Points =>
           match image_path_frame2 self with
           | Some path => String.eqb image_path path
           | None => false
           end
       | None => false
       end.

(** What a handler of the point label does, as the window sees
    it: it never switches point mode, and it either leaves the list
    alone and announces nothing, or announces exactly the list it
    leaves behind and returns. *)
Definition announces_its_points (label : SingleImageDisplayLabel.t)
    (r : ran SingleImageDisplayLabel.t) : Prop :=
  SingleImageDisplayLabel.point_mode_enabled (after r)
  = SingleImageDisplayLabel.point_mode_enabled label
  /\ ((emitted r = []
       /\ SingleImageDisplayLabel.current_points (after r)
          = SingleImageDisplayLabel.current_points label)
      \/ (emitted r = [SingleImageDisplayLabel.current_points (after r)]
          /\ raised r = None)).

(** The outcome of a label method, as its caller meets it. *)
Definition outcome_of {S : Type} (r : ran S) : outcome unit :=
  match raised r with
  | Some e => Raised e
  | None => Returned tt
  end.

(** The three properties every handler restores before it ends. *)
Definition consistent (self : t) : Prop :=
  save_button_fresh self /\ one_tool self /\ points_in_step self.

(** A handler of the mask label announces at most one list, and
    returns when it announces one; it never switches mask mode. *)
Definition announces_at_most_once (label : CombinedImageLabel.t)
    (r : ran CombinedImageLabel.t) : Prop :=
  CombinedImageLabel.mask_mode_enabled (after r)
  = CombinedImageLabel.mask_mode_enabled label
  /\ (emitted r = [] \/ exists points, emitted r = [points] /\ raised r = None).

(** The events of a session whose folder clicks found their folder
    listable. *)
Definition listing_succeeds (event : world * operation) : Prop :=
  match snd event with
  | FolderClicked _ _ (Raised _) => False
  | _ => True
  end.

(** The frame a selection target annotates, and the list the
    window keeps for it. *)
Definition frame_of (target : selection_target) (self : t) : option string :=
  match target with
  | Frame1Points => image_path_frame1 self
  | Frame2Points => image_path_frame2 self
  end.

Definition points_of (target : selection_target) (self : t) : list QPoint :=
  match target with
  | Frame1Points => source_points_on_frame1 self
  | Frame2Points => target_points_on_frame2 self
  end.

(** The clicks whose slot reads
    [image_files_in_folder[current_image_index]]. *)
Definition indexes_image_list (op : operation) : bool :=
  match op with
  | PrevImageClicked | NextImageClicked | SelectFrame1Clicked | SelectFrame2Clicked
  | ToggleMaskModeClicked => true
  | _ => false
  end.

(** *** A session to run the statements on

    One folder of two images that load as 100 by 100 pixmaps; the
    user chooses the first image as frame 1 and the second as frame
    2, marks one point on each, and corners a mask. *)
Definition example_world : world :=
  mkWorld (fun _ => true) (fun _ => Pixmap 100 100) (fun _ => false).

Definition example_contents : QRect := mkQRect 0 0 99 99.

Definition left_click (x y : Z) : QMouseEvent :=
  mkQMouseEvent (mkQPoint x y) LeftButton true.

Definition example_tree : entry :=
  Directory [("shots", Directory [("a.png", RegularFile); ("b.png", RegularFile)])].

Definition example_events : list (world * operation) :=
  List.map (fun op => (example_world, op))
    [SelectDirectoryClicked "root" example_tree;
     FolderClicked 0 (left_click 1 1) (Returned ["a.png"; "b.png"]);
     SelectFrame1Clicked; NextImageClicked; SelectFrame2Clicked;
     ToggleSourcePointsClicked; OnSingleLabel (Pressed (left_click 10 10));
     ToggleTargetPointsClicked; OnSingleLabel (Pressed (left_click 20 20));
     ToggleMaskModeClicked;
     OnCombinedLabel (Pressed (left_click 10 10));
     OnCombinedLabel (Pressed (left_click 80 10));
     OnCombinedLabel (Pressed (left_click 80 80));
     OnCombinedLabel (Pressed (left_click 10 80))].

End WindowProps.

End DragGenerator.

(** ** app.py *)

Module App.
Import Py.

Definition BASE_DIR : string := "data".

(** A file is represented by what opening it as UTF-8 text and
    handing it to [json.load] yields: a value, or the exception raised
    on the way ([FileNotFoundError] for a dangling entry,
    [UnicodeDecodeError] for bytes that are not UTF-8,
    [JSONDecodeError] for text that is not JSON). *)
Inductive file : Type :=
| Loads (v : json)
| Fails (e : exn).

Definition load (f : file) : outcome json :=
  match f with
  | Loads v => Returned v
  | Fails e => Raised e
  end.

(** The tree below a directory, entries in enumeration order. *)
Inductive node : Type :=
| File (f : file)
| Dir (entries : list (string * node)).

Definition subdir_names (entries : list (string * node)) : list string :=
  flat_map (fun '(name, n) => match n with Dir _ => [name] | File _ => [] end) entries.

Definition file_entries (entries : list (string * node)) : list (string * file) :=
  flat_map (fun '(name, n) => match n with File f => [(name, f)] | Dir _ => [] end) entries.

(** [os.walk(top)], top-down: one triple per directory, then the
    subdirectories in order.  Walking something that is not a
    directory yields nothing. *)
Fixpoint walk (top : string) (n : node) : list (string * list string * list (string * file)) :=
  match n with
  | File _ => []
  | Dir entries =>
      (top, subdir_names entries, file_entries entries)
      :: (fix below (es : list (string * node)) :=
            match es with
            | [] => []
            | (name, child) :: es' => walk (path_join top name) child ++ below es'
            end) entries
  end.

(** [os.path.join(root, v)] on a value read from JSON *)
Definition join_value (root : string) (v : json) : outcome string :=
  match v with
  | JStr s => Returned (path_join root s)
  | _ => Raised TypeError
  end.

(** [all(key in data for key in ['frame1_image', 'frame2_image'])] *)
Definition has_frame_keys (data : json) : outcome bool :=
  do b1 <- json_contains "frame1_image" data ;;
  if b1 then json_contains "frame2_image" data else Returned false.

(** [os.path.relpath(os.path.join(root, data[key]), start=BASE_DIR).replace('\\', '/')] *)
Definition resolve_image (cwd root : string) (data : json) (key : string) : outcome json :=
  do v <- json_getitem data key ;;
  do joined <- join_value root v ;;
  do rel <- relpath cwd joined BASE_DIR ;;
  Returned (JStr (replace_char "\"%char "/"%char rel)).

(** The body of the [try] block for one [.json] file: the record to
    append and the bucket it goes to ([true] for [data_with_caption]),
    or [None] when the file lacks a frame key. *)
Definition read_record (cwd root json_path : string) (f : file)
    : outcome (option (bool * json)) :=
  do data <- load f ;;
  do keep <- has_frame_keys data ;;
  if keep then
    do r1 <- resolve_image cwd root data "frame1_image" ;;
    do data <- json_setitem data "frame1_image" r1 ;;
    do r2 <- resolve_image cwd root data "frame2_image" ;;
    do data <- json_setitem data "frame2_image" r2 ;;
    do data <- json_setitem data "json_file_path" (JStr json_path) ;;
    do data <- json_setitem data "directory_name" (JStr (basename root)) ;;
    let caption := match data with JDict kvs => dict_get "caption" kvs | _ => None end in
    Returned (Some (match caption with Some c => json_bool c | None => false end, data))
  else Returned None.

(** The two lists built by [find_files], in source order *)
Definition buckets : Type := (list json * list json)%type.

Definition visit_file (cwd root : string) (acc : buckets) (entry : string * file)
    : outcome buckets :=
  let '(file_name, f) := entry in
  if endswith file_name ".json" then
    let json_path := path_join root file_name in
    match read_record cwd root json_path f with
    | Returned (Some (true, data)) => Returned (fst acc, snd acc ++ [data])
    | Returned (Some (false, data)) => Returned (fst acc ++ [data], snd acc)
    | Returned None => Returned acc
    | Raised JSONDecodeError | Raised FileNotFoundError => Returned acc
    | Raised e => Raised e
    end
  else Returned acc.

Fixpoint visit_files (cwd root : string) (acc : buckets) (files : list (string * file))
    : outcome buckets :=
  match files with
  | [] => Returned acc
  | entry :: rest =>
      do acc' <- visit_file cwd root acc entry ;;
      visit_files cwd root acc' rest
  end.

Fixpoint visit_dirs (cwd : string) (acc : buckets)
    (triples : list (string * list string * list (string * file))) : outcome buckets :=
  match triples with
  | [] => Returned acc
  | (root, _, files) :: rest =>
      do acc' <- visit_files cwd root acc files ;;
      visit_dirs cwd acc' rest
  end.

(** [find_files()]: [cwd] is the working directory of the process,
    [base] the tree at [BASE_DIR].  Returns
    [(data_without_caption, data_with_caption)]. *)
Definition find_files (cwd : string) (base : node) : outcome buckets :=
  visit_dirs cwd ([], []) (walk BASE_DIR base).

(** *** /update_caption *)

Inductive message : Type :=
| Text (s : string)
| ExceptionText (e : exn).

Record response : Type := mkResponse {
  status : Z;
  success : bool;
  body : message
}.

(** The request body, a JSON object: each field is [None] when the
    object has no such key, and the value under the key otherwise
    ([Some JNull] for a null). *)
Record caption_request : Type := mkCaptionRequest {
  json_file_path : option json;
  caption : option json
}.

(** [data.get(key)] *)
Definition get_field (field : option json) : json :=
  match field with
  | Some v => v
  | None => JNull
  end.

(** What the system does to the one who opens and writes.  Opening a
    path may be refused (a read-only file or one of another user, a
    directory, a name the system does not take); a write may be cut
    short (a full disk); and a file whose rewriting stopped on the
    way holds the part of the new text that got through followed by
    what was left of the old one, which is whatever [torn] says. *)
Record disk : Type := mkDisk {
  open_refused : string -> option exn;
  write_cut : string -> option exn;
  torn : string -> file -> json -> file
}.

(** A system that refuses nothing *)
Definition obliging : disk := mkDisk (fun _ => None) (fun _ => None) (fun _ old _ => old).

(** [open(path, 'r+', encoding='utf-8')]; files are keyed by absolute
    normalised path. *)
Definition open_path (d : disk) (cwd path : string) (files : gmap string file) : outcome file :=
  match open_refused d (abspath cwd path) with
  | Some e => Raised e
  | None =>
      match files !! abspath cwd path with
      | Some f => Returned f
      | None => Raised FileNotFoundError
      end
  end.

(** [f.seek(0); json.dump(file_data, f, indent=4, ensure_ascii=False);
    f.truncate()] and the closing of the file: the outcome, and what
    the file at [p] holds afterwards.  The text is written piece by
    piece over the old one, so a dump that stops on the way leaves the
    file torn. *)
Definition rewrite_file (d : disk) (p : string) (old : file) (file_data : json)
    : outcome unit * file :=
  match write_cut d p with
  | Some e => (Raised e, torn d p old file_data)
  | None =>
      if utf8_encodable file_data then (Returned tt, Loads file_data)
      else (Raised UnicodeEncodeError, torn d p old file_data)
  end.

(** The [with] block of [update_caption]: read, patch, write back.
    Returns the outcome and the files as they are left. *)
Definition patch_caption (d : disk) (cwd path : string) (cap : json) (files : gmap string file)
    : outcome unit * gmap string file :=
  match (do f <- open_path d cwd path files ;;
         do file_data <- load f ;;
         do file_data <- json_setitem file_data "caption" cap ;;
         Returned (f, file_data)) with
  | Raised e => (Raised e, files)
  | Returned (f, file_data) =>
      let '(result, f') := rewrite_file d (abspath cwd path) f file_data in
      (result, <[abspath cwd path := f']> files)
  end.

(** [update_caption()]: [os.path.abspath] takes a [str] and raises
    [TypeError] on any other value. *)
Definition update_caption (d : disk) (cwd : string) (req : caption_request)
    (files : gmap string file) : response * gmap string file :=
  let json_file_path := get_field (json_file_path req) in
  let caption := get_field (caption req) in
  if negb (json_bool json_file_path) || match caption with JNull => true | _ => false end
  then (mkResponse 400 false (Text "Invalid data"), files)
  else
    match json_file_path with
    | JStr path =>
        if negb (startswith (abspath cwd path) (abspath cwd BASE_DIR))
        then (mkResponse 403 false (Text "Access denied"), files)
        else
          match patch_caption d cwd path caption files with
          | (Returned _, files') =>
              (mkResponse 200 true (Text "Caption updated successfully"), files')
          | (Raised e, files') => (mkResponse 500 false (ExceptionText e), files')
          end
    | _ => (mkResponse 500 false (ExceptionText TypeError), files)
    end.

(** *** /describe_images *)

Section DescribeImages.
(** The collaborators: PIL's [Image.open(..).convert('RGB')] and the
    captioning pipeline (processor, [model.generate], decode). *)
Variable Image : Type.
Variable Image_open : string -> outcome Image.
Variable describe : Image -> outcome string.




End DescribeImages.

(** *** find_no_json_images *)

(** One entry of the list [find_no_json_images] returns. *)
Record no_json_dir : Type := mkNoJsonDir {
  directory_name : string;
  images : list string
}.

(** [f.endswith('.json')] *)
Definition is_json_name (f : string) : bool := endswith f ".json".

(** [f.lower().endswith(('.jpg', '.jpeg', '.png', '.gif'))] *)
Definition is_listed_image (f : string) : bool :=
  existsb (endswith (lower f)) [".jpg"; ".jpeg"; ".png"; ".gif"].

(** The comprehension that builds [images] *)
Fixpoint image_relpaths (cwd root : string) (image_files : list string)
    : outcome (list string) :=
  match image_files with
  | [] => Returned []
  | f :: rest =>
      do rel <- relpath cwd (path_join root f) BASE_DIR ;;
      do rels <- image_relpaths cwd root rest ;;
      Returned (replace_char "\"%char "/"%char rel :: rels)
  end.

(** The loop body for one triple of the walk *)
Definition visit_dir_no_json (cwd : string) (no_json_images : list no_json_dir)
    (triple : string * list string * list (string * file)) : outcome (list no_json_dir) :=
  let '(root, _, files) := triple in
  let names := List.map fst files in
  let has_json := existsb is_json_name names in
  if negb has_json then
    let image_files := List.filter is_listed_image names in
    match image_files with
    | [] => Returned no_json_images
    | _ :: _ =>
        do images <- image_relpaths cwd root image_files ;;
        Returned (no_json_images ++ [mkNoJsonDir (basename root) images])
    end
  else Returned no_json_images.

Fixpoint visit_dirs_no_json (cwd : string) (no_json_images : list no_json_dir)
    (triples : list (string * list string * list (string * file)))
    : outcome (list no_json_dir) :=
  match triples with
  | [] => Returned no_json_images
  | triple :: rest =>
      do acc' <- visit_dir_no_json cwd no_json_images triple ;;
      visit_dirs_no_json cwd acc' rest
  end.

Definition find_no_json_images (cwd : string) (base : node) : outcome (list no_json_dir) :=
  visit_dirs_no_json cwd [] (walk BASE_DIR base).

(** The property in its own words, with the extensions written out.
    A file name counts as an image when, lower-cased, it ends in
    [.jpg], [.jpeg], [.png] or [.gif]. *)
Definition named_like_an_image (f : string) : bool :=
  endswith (lower f) ".jpg" || endswith (lower f) ".jpeg"
  || endswith (lower f) ".png" || endswith (lower f) ".gif".

(** A directory of the walk is listed when none of its file names
    ends in [.json] and at least one is named like an image. *)
Definition listed_without_json (triple : string * list string * list (string * file)) : bool :=
  let names := List.map fst (snd triple) in
  forallb (fun f => negb (endswith f ".json")) names
  && existsb named_like_an_image names.

(** What a listed directory looks like next to its triple: the base
    name of the directory, and one path per file named like an image,
    in listing order: the file's path below the directory, relative to
    the data root. *)
Definition lists_dir (cwd : string) (d : no_json_dir)
    (triple : string * list string * list (string * file)) : Prop :=
  directory_name d = basename (fst (fst triple))
  /\ Forall2 (fun image f =>
                exists rel,
                  relpath cwd (path_join (fst (fst triple)) f) BASE_DIR = Returned rel
                  /\ image = replace_char "\"%char "/"%char rel)
       (images d) (List.filter named_like_an_image (List.map fst (snd triple)))
  /\ images d <> [].

(** *** remove_empty_dirs *)

(** [os.walk(top, topdown=False)]: a directory is listed when the walk
    enters it and yielded after its subdirectories. *)
Fixpoint walk_bottom_up (top : string) (n : node)
    : list (string * list string * list (string * file)) :=
  match n with
  | File _ => []
  | Dir entries =>
      (fix below (es : list (string * node)) :=
         match es with
         | [] => []
         | (name, child) :: es' => walk_bottom_up (path_join top name) child ++ below es'
         end) entries
      ++ [(top, subdir_names entries, file_entries entries)]
  end.

(** The loop of [remove_empty_dirs] over the tree at [root_dir]: the
    directories handed to [os.rmdir], in call order. *)
Definition rmdir_calls (root_dir : string) (tree : node) : list string :=
  flat_map (fun '(dirpath, dirnames, filenames) =>
              match dirnames, filenames with
              | [], [] => [dirpath]
              | _, _ => []
              end)
           (walk_bottom_up root_dir tree).

Definition remove_empty_dirs (base : node) : list string := rmdir_calls BASE_DIR base.

(** *** Records as the pages receive them *)

(** A record of one of the two lists of [find_files]: a JSON object
    whose two frame entries, [json_file_path] and [directory_name]
    are strings, the path ending in [.json], and whose caption is
    truthy exactly when [captioned]. *)
Definition is_str (o : option json) : bool :=
  match o with Some (JStr _) => true | _ => false end.

Definition listed_record (captioned : bool) (data : json) : bool :=
  match data with
  | JDict kvs =>
      is_str (dict_get "frame1_image" kvs) && is_str (dict_get "frame2_image" kvs)
      && is_str (dict_get "directory_name" kvs)
      && match dict_get "json_file_path" kvs with
         | Some (JStr p) => endswith p ".json"
         | _ => false
         end
      && Bool.eqb captioned
           (match dict_get "caption" kvs with Some c => json_bool c | None => false end)
  | _ => false
  end.

(** The number of file names ending in [.json] in a walk *)
Definition json_name_count (triples : list (string * list string * list (string * file))) : nat :=
  list_sum (List.map (fun t => length (List.filter is_json_name (List.map fst (snd t)))) triples).

(** *** Names as directory listings give them *)

Fixpoint contains_char (c : ascii) (s : string) : bool :=
  match s with
  | EmptyString => false
  | String x s' => Ascii.eqb x c || contains_char c s'
  end.

(** An entry name of [os.listdir] or [os.walk]: not empty, neither
    [.] nor [..], and without a separator. *)
Definition proper_name (s : string) : bool :=
  str_bool s && negb (String.eqb s ".") && negb (String.eqb s "..")
  && negb (contains_char sep s).

(** A tree all of whose entry names are such names. *)
Fixpoint well_named (n : node) : bool :=
  match n with
  | File _ => true
  | Dir entries =>
      (fix all (es : list (string * node)) : bool :=
         match es with
         | [] => true
         | (name, child) :: es' => proper_name name && well_named child && all es'
         end) entries
  end.

(** A record carries a [json_file_path] that [update_caption] takes:
    not empty, and passing the prefix test against the data root. *)
Definition carries_accepted_path (cwd : string) (data : json) : Prop :=
  exists kvs p,
    data = JDict kvs
    /\ dict_get "json_file_path" kvs = Some (JStr p)
    /\ str_bool p = true
    /\ startswith (abspath cwd p) (abspath cwd BASE_DIR) = true.

End App.

(** * Facts about the model *)

(** ** Rounding in binary64 *)

Section Binary64Facts.
Import Py Binary64.

Lemma digits2_pos_bounds (p : positive) :
2 ^ (Zpos (digits2_pos p) - 1) <= Zpos p < 2 ^ Zpos (digits2_pos p).
Proof.
induction p as [p IH|p IH|]; cbn [digits2_pos].
- rewrite Pos2Z.inj_succ.
  replace (Z.succ (Zpos (digits2_pos p)) - 1) with (Z.succ (Zpos (digits2_pos p) - 1)) by lia.
  rewrite !Z.pow_succ_r by lia. lia.
- rewrite Pos2Z.inj_succ.
  replace (Z.succ (Zpos (digits2_pos p)) - 1) with (Z.succ (Zpos (digits2_pos p) - 1)) by lia.
  rewrite !Z.pow_succ_r by lia. lia.
- cbn. lia.
Qed.

Lemma digits2_pos_unique (p : positive) (d : Z) :
2 ^ (d - 1) <= Zpos p < 2 ^ d -> Zpos (digits2_pos p) = d.
Proof.
intros [Hlo Hhi].
destruct (digits2_pos_bounds p) as [Hlo' Hhi'].
assert (Hd : 0 < d).
{ destruct (Z_lt_le_dec 0 d) as [|Hn]; [assumption|].
  exfalso.
  assert (2 ^ d <= 2 ^ 0) by (destruct (Z_lt_le_dec d 0); [rewrite Z.pow_neg_r by lia; cbn; lia | replace d with 0 by lia; lia]).
  cbn in *. lia. }
destruct (Z.lt_trichotomy (Zpos (digits2_pos p)) d) as [Hc|[Hc|Hc]]; [exfalso|assumption|exfalso].
- assert (2 ^ Zpos (digits2_pos p) <= 2 ^ (d - 1)) by (apply Z.pow_le_mono_r; lia). lia.
- assert (2 ^ d <= 2 ^ (Zpos (digits2_pos p) - 1)) by (apply Z.pow_le_mono_r; lia). lia.
Qed.

Lemma iter_pos_nat {A} (f : A -> A) (p : positive) (x : A) :
SpecFloat.iter_pos f p x = Nat.iter (Pos.to_nat p) f x.
Proof.
revert x. induction p as [p IH|p IH|]; intros x; cbn [SpecFloat.iter_pos].
- rewrite !IH. rewrite Pos2Nat.inj_xI.
  replace (S (2 * Pos.to_nat p)) with (Pos.to_nat p + (Pos.to_nat p + 1))%nat by lia.
  rewrite !Nat.iter_add. reflexivity.
- rewrite !IH. rewrite Pos2Nat.inj_xO.
  replace (2 * Pos.to_nat p)%nat with (Pos.to_nat p + Pos.to_nat p)%nat by lia.
  rewrite Nat.iter_add. reflexivity.
- reflexivity.
Qed.

Lemma repr_of_loc N D : repr N D (shr_record_of_loc (N / D) (loc_of N D)).
Proof.
split.
- destruct (loc_of N D) as [|[]]; reflexivity.
- destruct (loc_of N D) as [|[]]; reflexivity.
Qed.

Lemma shr_1_repr N D mrs :
0 <= N -> 0 < D -> repr N D mrs -> repr N (2 * D) (shr_1 mrs).
Proof.
intros HN HD [Hm Hl].
assert (Hdiv : N / (2 * D) = (N / D) / 2).
{ rewrite (Z.mul_comm 2 D). rewrite Z.div_div by lia. reflexivity. }
assert (Hmod : N mod (2 * D) = N mod D + D * ((N / D) mod 2)).
{ rewrite (Z.mul_comm 2 D). apply Z.rem_mul_r; lia. }
assert (Hf : 0 <= N mod D < D) by (apply Z.mod_pos_bound; lia).
assert (Hq : 0 <= N / D) by (apply Z.div_pos; lia).
destruct mrs as [m r s]. cbn [shr_m] in Hm. subst m.
unfold repr, loc_of in *. rewrite Hdiv, Hmod.
cbn [loc_of_shr_record] in Hl.
assert (Hrs : orb r s = negb (N mod D =? 0)).
{ destruct (Z.eqb_spec (N mod D) 0); destruct r, s; cbn in *; try reflexivity; try discriminate. }
assert (Hpar : (N / D) mod 2 = 0 \/ (N / D) mod 2 = 1) by (pose proof (Z.mod_pos_bound (N / D) 2); lia).
assert (Hdm : N / D = 2 * ((N / D) / 2) + (N / D) mod 2) by (apply Z.div_mod; lia).
clear Hl.
cbn [shr_1].
destruct (N / D) as [|p|p] eqn:Ep; [| |lia].
- cbn [shr_m loc_of_shr_record]. split; [reflexivity|].
  change (0 mod 2) with 0. rewrite Z.mul_0_r, Z.add_0_r.
  rewrite Hrs. destruct (Z.eqb_spec (N mod D) 0); cbn [negb loc_of_shr_record]; [reflexivity|].
  replace (2 * (N mod D) ?= 2 * D) with Lt by (symmetry; apply Z.compare_lt_iff; lia).
  reflexivity.
- destruct p as [p|p|].
  + (* odd *)
    cbn [shr_m loc_of_shr_record].
    assert (Zpos p~1 mod 2 = 1) by (rewrite Pos2Z.inj_xI; rewrite Z.add_comm, Z.mul_comm, Z.mod_add by lia; reflexivity).
    assert (Zpos p~1 / 2 = Zpos p) by (rewrite Pos2Z.inj_xI; rewrite Z.add_comm, Z.mul_comm, Z.div_add by lia; reflexivity).
    split; [congruence|].
    replace (Zpos p~1 mod 2) with 1 by congruence.
    rewrite Hrs.
    destruct (Z.eqb_spec (N mod D + D * 1) 0); [lia|].
    destruct (Z.eqb_spec (N mod D) 0) as [E0|E0]; cbn [negb loc_of_shr_record].
    * rewrite E0. replace (2 * (0 + D * 1) ?= 2 * D) with Eq by (symmetry; apply Z.compare_eq_iff; lia). reflexivity.
    * replace (2 * (N mod D + D * 1) ?= 2 * D) with Gt by (symmetry; apply Z.compare_gt_iff; lia). reflexivity.
  + cbn [shr_m loc_of_shr_record].
    assert (Zpos p~0 mod 2 = 0) by (rewrite Pos2Z.inj_xO; rewrite Z.mul_comm, Z.mod_mul by lia; reflexivity).
    assert (Zpos p~0 / 2 = Zpos p) by (rewrite Pos2Z.inj_xO; rewrite Z.mul_comm, Z.div_mul by lia; reflexivity).
    split; [congruence|].
    replace (Zpos p~0 mod 2) with 0 by congruence.
    rewrite Hrs. rewrite Z.mul_0_r, Z.add_0_r.
    destruct (Z.eqb_spec (N mod D) 0) as [E0|E0]; cbn [negb loc_of_shr_record]; [reflexivity|].
    replace (2 * (N mod D) ?= 2 * D) with Lt by (symmetry; apply Z.compare_lt_iff; lia). reflexivity.
  + cbn [shr_m loc_of_shr_record].
    split; [reflexivity|].
    change (1 mod 2) with 1.
    rewrite Hrs.
    destruct (Z.eqb_spec (N mod D + D * 1) 0); [lia|].
    destruct (Z.eqb_spec (N mod D) 0) as [E0|E0]; cbn [negb loc_of_shr_record].
    * rewrite E0. replace (2 * (0 + D * 1) ?= 2 * D) with Eq by (symmetry; apply Z.compare_eq_iff; lia). reflexivity.
    * replace (2 * (N mod D + D * 1) ?= 2 * D) with Gt by (symmetry; apply Z.compare_gt_iff; lia). reflexivity.
Qed.

Lemma shr_iter_repr N D mrs (n : nat) :
0 <= N -> 0 < D -> repr N D mrs -> repr N (D * 2 ^ Z.of_nat n) (Nat.iter n shr_1 mrs).
Proof.
intros HN HD H. induction n as [|n IH].
- cbn [Nat.iter]. change (2 ^ Z.of_nat 0) with 1. rewrite Z.mul_1_r. exact H.
- cbn [Nat.iter]. rewrite Nat2Z.inj_succ, Z.pow_succ_r by lia.
  replace (D * (2 * 2 ^ Z.of_nat n)) with (2 * (D * 2 ^ Z.of_nat n)) by ring.
  apply shr_1_repr; [lia| |exact IH].
  apply Z.mul_pos_pos; [lia|]. apply Z.pow_pos_nonneg; lia.
Qed.

Lemma shr_repr N D mrs e n :
0 <= N -> 0 < D -> 0 <= n -> repr N D mrs ->
repr N (D * 2 ^ n) (fst (shr mrs e n)) /\ snd (shr mrs e n) = e + n.
Proof.
intros HN HD Hn H. unfold shr. destruct n as [|p|p]; [| |lia].
- cbn [fst snd]. rewrite Z.mul_1_r, Z.add_0_r. auto.
- cbn [fst snd]. split; [|reflexivity].
  rewrite iter_pos_nat. rewrite <- (positive_nat_Z p).
  apply shr_iter_repr; assumption.
Qed.

Lemma round_nearest_even_repr N D mrs :
0 <= N -> 0 < D -> repr N D mrs ->
let rn := round_nearest_even (shr_m mrs) (loc_of_shr_record mrs) in
2 * Z.abs (rn * D - N) <= D /\ (N mod D = 0 -> rn * D = N) /\ N / D <= rn <= N / D + 1.
Proof.
intros HN HD [Hm Hl] rn. subst rn. rewrite Hm, Hl. unfold loc_of.
assert (Hf : 0 <= N mod D < D) by (apply Z.mod_pos_bound; lia).
assert (Hdm : N = D * (N / D) + N mod D) by (apply Z.div_mod; lia).
destruct (Z.eqb_spec (N mod D) 0) as [E0|E0]; cbn [round_nearest_even].
- nia.
- destruct (Z.compare_spec (2 * (N mod D)) D) as [Hc|Hc|Hc].
  + destruct (Z.even (N / D)); nia.
  + nia.
  + nia.
Qed.

Lemma Zdigits2_unique (m d : Z) : 2 ^ (d - 1) <= m < 2 ^ d -> 0 < m -> Zdigits2 m = d.
Proof.
intros H Hm. destruct m as [|p|p]; try lia.
cbn [Zdigits2]. apply digits2_pos_unique. exact H.
Qed.

Lemma Zdigits2_bounds (m : Z) : 0 < m -> 2 ^ (Zdigits2 m - 1) <= m < 2 ^ Zdigits2 m.
Proof.
intros Hm. destruct m as [|p|p]; try lia. cbn [Zdigits2]. apply digits2_pos_bounds.
Qed.

Lemma Zdigits2_pos (m : Z) : 0 < m -> 0 < Zdigits2 m.
Proof. destruct m; cbn; lia. Qed.

Lemma binary_round_aux_spec (sx : bool) (N D ex : Z) :
0 < D -> 2 ^ 52 <= N / D ->
-1074 <= Zdigits2 (N / D) + ex - 53 <= 970 ->
exists m e,
  binary_round_aux 53 1024 sx (N / D) ex (loc_of N D) = S754_finite sx m e /\
  2 ^ 52 <= Zpos m < 2 ^ 53 /\
  ex + (Zdigits2 (N / D) - 53) <= e <= ex + (Zdigits2 (N / D) - 53) + 1 /\
  2 * Z.abs (Zpos m * 2 ^ (e - ex) * D - N) <= D * 2 ^ (Zdigits2 (N / D) - 53) /\
  (N mod (D * 2 ^ (Zdigits2 (N / D) - 53)) = 0 -> Zpos m * 2 ^ (e - ex) * D = N).
Proof.
intros HD Hmx Hrange.
assert (Hmx0 : 0 < N / D) by (assert (0 < 2 ^ 52) by reflexivity; lia).
assert (HN : 0 <= N).
{ destruct (Z_lt_le_dec N 0) as [Hneg|]; [|assumption].
  assert (N / D < 0) by (apply Z.div_lt_upper_bound; lia). lia. }
pose proof (Zdigits2_bounds _ Hmx0) as Hdig.
set (d := Zdigits2 (N / D)) in *.
assert (Hd : 53 <= d).
{ destruct (Z_lt_le_dec d 53) as [Hlt|]; [|assumption].
  assert (2 ^ d <= 2 ^ 52) by (apply Z.pow_le_mono_r; lia). lia. }
set (n := d - 53).
unfold binary_round_aux.
unfold shr_fexp. fold d.
assert (Hfexp : fexp 53 1024 (d + ex) - ex = n).
{ unfold fexp, emin. unfold n. lia. }
rewrite Hfexp.
pose proof (shr_repr N D (shr_record_of_loc (N / D) (loc_of N D)) ex n HN HD ltac:(unfold n; lia) (repr_of_loc N D)) as [Hrep Hsnd].
destruct (shr (shr_record_of_loc (N / D) (loc_of N D)) ex n) as [mrs' e'] eqn:Eshr.
cbn [fst snd] in Hrep, Hsnd. subst e'.
assert (HP : 0 < 2 ^ n) by (apply Z.pow_pos_nonneg; unfold n; lia).
assert (HD' : 0 < D * 2 ^ n) by (apply Z.mul_pos_pos; lia).
pose proof (round_nearest_even_repr N (D * 2 ^ n) mrs' HN HD' Hrep) as Hrn.
cbv zeta in Hrn.
set (rn := round_nearest_even (shr_m mrs') (loc_of_shr_record mrs')) in *.
destruct Hrn as (Herr & Hexact & Hrnlo & Hrnhi).
assert (Hm1 : N / (D * 2 ^ n) = (N / D) / 2 ^ n) by (rewrite Z.div_div by lia; reflexivity).
assert (Hm1b : 2 ^ 52 <= N / (D * 2 ^ n) < 2 ^ 53).
{ rewrite Hm1. destruct Hdig as [Hlo Hhi].
  replace (d - 1) with (52 + n) in Hlo by (unfold n; lia).
  replace d with (53 + n) in Hhi by (unfold n; lia).
  rewrite Z.pow_add_r in Hlo, Hhi by (unfold n; lia).
  split.
  - apply Z.div_le_lower_bound; lia.
  - apply Z.div_lt_upper_bound; lia. }
assert (Hrnb : 2 ^ 52 <= rn <= 2 ^ 53) by lia.
destruct (Z.eq_dec rn (2 ^ 53)) as [Etop|Etop].
- (* the rounded mantissa carries to 2^53 *)
  fold rn. rewrite Etop.
  replace (Zdigits2 (2 ^ 53)) with 54 by reflexivity.
  replace (fexp 53 1024 (54 + (ex + n)) - (ex + n)) with 1 by (unfold fexp, emin, n; lia).
  cbn [shr_record_of_loc shr SpecFloat.iter_pos shr_1 shr_m].
  change (2 ^ 53) with (Zpos (xO (Pos.pow 2 52))) at 1.
  cbn [shr_1 shr_m].
  replace (ex + n + 1 <=? 1024 - 53) with true by (symmetry; apply Z.leb_le; unfold n; lia).
  exists (Pos.pow 2 52), (ex + n + 1).
  split; [reflexivity|].
  split; [split; [reflexivity|reflexivity]|].
  split; [unfold n; lia|].
  replace (ex + n + 1 - ex) with (n + 1) by lia.
  rewrite Z.pow_add_r by (unfold n; lia).
  change (Zpos (Pos.pow 2 52)) with (2 ^ 52). change (2 ^ 1) with 2.
  rewrite Etop in Herr, Hexact. change (2 ^ 53) with (2 ^ 52 * 2) in Herr, Hexact.
  split.
  + replace (2 ^ 52 * (2 ^ n * 2) * D - N) with (2 ^ 52 * 2 * (D * 2 ^ n) - N) by ring. lia.
  + intros Hz. fold n in Hz. specialize (Hexact Hz). rewrite <- Hexact. ring.
- fold rn.
  assert (Hrn53 : Zdigits2 rn = 53) by (apply Zdigits2_unique; [change (53 - 1) with 52|]; lia).
  rewrite Hrn53.
  replace (fexp 53 1024 (53 + (ex + n)) - (ex + n)) with 0 by (unfold fexp, emin, n; lia).
  cbn [shr_record_of_loc shr shr_m].
  destruct rn as [|p|p] eqn:Ern; [lia| |lia].
  replace (ex + n <=? 1024 - 53) with true by (symmetry; apply Z.leb_le; unfold n; lia).
  exists p, (ex + n).
  split; [reflexivity|].
  split; [lia|].
  split; [unfold n; lia|].
  replace (ex + n - ex) with n by lia.
  split.
  + replace (Zpos p * 2 ^ n * D - N) with (Zpos p * (D * 2 ^ n) - N) by ring. lia.
  + intros Hz. fold n in Hz. specialize (Hexact Hz). rewrite <- Hexact. ring.
Qed.

Lemma IZR_pow2 (n : Z) : 0 <= n -> IZR (2 ^ n) = powerRZ 2 n.
Proof.
intros Hn. rewrite <- (Z2Nat.id n Hn) at 1 2.
rewrite <- pow_IZR. rewrite <- pow_powerRZ. reflexivity.
Qed.

Lemma powerRZ_2_pos (e : Z) : (0 < powerRZ 2 e)%R.
Proof. apply powerRZ_lt. lra. Qed.

Lemma powerRZ_2_add (a b : Z) : powerRZ 2 (a + b) = (powerRZ 2 a * powerRZ 2 b)%R.
Proof. apply powerRZ_add. lra. Qed.

Lemma binary_round_aux_value (sx : bool) (N D ex : Z) :
0 < D -> 2 ^ 52 <= N / D ->
-1074 <= Zdigits2 (N / D) + ex - 53 <= 970 ->
exists m e,
  binary_round_aux 53 1024 sx (N / D) ex (loc_of N D) = S754_finite sx m e /\
  2 ^ 52 <= Zpos m < 2 ^ 53 /\
  ex + (Zdigits2 (N / D) - 53) <= e <= ex + (Zdigits2 (N / D) - 53) + 1 /\
  (Rabs (IZR (Zpos m) * powerRZ 2 e - IZR N / IZR D * powerRZ 2 ex)
     <= ulp_half * (IZR N / IZR D * powerRZ 2 ex))%R /\
  (N mod (D * 2 ^ (Zdigits2 (N / D) - 53)) = 0 -> Zpos m * 2 ^ (e - ex) * D = N).
Proof.
intros HD Hmx Hrange.
destruct (binary_round_aux_spec sx N D ex HD Hmx Hrange) as (m & e & Hres & Hm & He & Herr & Hex).
exists m, e. split; [exact Hres|]. split; [exact Hm|]. split; [exact He|].
assert (Hmx0 : 0 < N / D) by (assert (0 < 2 ^ 52) by reflexivity; lia).
pose proof (Zdigits2_bounds _ Hmx0) as Hdig.
set (d := Zdigits2 (N / D)) in *.
assert (Hd : 53 <= d).
{ destruct (Z_lt_le_dec d 53) as [Hlt|]; [|assumption].
  assert (2 ^ d <= 2 ^ 52) by (apply Z.pow_le_mono_r; lia). lia. }
set (n := d - 53) in *.
set (k := e - ex) in *.
assert (Hk : 0 <= k) by (unfold k, n; lia).
assert (HDr : (0 < IZR D)%R) by (apply IZR_lt; exact HD).
assert (Hpe : powerRZ 2 e = (IZR (2 ^ k) * powerRZ 2 ex)%R).
{ replace e with (k + ex) by (unfold k; lia). rewrite powerRZ_2_add.
  rewrite IZR_pow2 by exact Hk. reflexivity. }
pose proof (powerRZ_2_pos ex) as Hpex.
(* the integer facts, in R *)
assert (HNlo : D * 2 ^ (d - 1) <= N).
{ destruct Hdig as [Hlo _].
  pose proof (Z.mul_div_le N D HD). nia. }
assert (Hd1 : 2 ^ (d - 1) = 2 ^ 52 * 2 ^ n).
{ rewrite <- Z.pow_add_r by (unfold n; lia). f_equal. unfold n. lia. }
assert (Hn0 : 0 < 2 ^ n) by (apply Z.pow_pos_nonneg; unfold n; lia).
set (M := Zpos m * 2 ^ k) in *.
assert (HerrR : (Rabs (IZR M * IZR D - IZR N) <= IZR D * IZR (2 ^ n) / 2)%R).
{ rewrite <- mult_IZR, <- minus_IZR, <- abs_IZR, <- mult_IZR.
  apply Rmult_le_reg_l with 2%R; [lra|].
  replace (2 * (IZR (D * 2 ^ n) / 2))%R with (IZR (D * 2 ^ n)) by field.
  change 2%R with (IZR 2). rewrite <- mult_IZR. apply IZR_le. exact Herr. }
assert (HNloR : (IZR D * (IZR (2 ^ 52) * IZR (2 ^ n)) <= IZR N)%R).
{ rewrite <- !mult_IZR. apply IZR_le. rewrite <- Hd1. exact HNlo. }
assert (Hval : (IZR (Zpos m) * powerRZ 2 e - IZR N / IZR D * powerRZ 2 ex
                = (IZR M * IZR D - IZR N) / IZR D * powerRZ 2 ex)%R).
{ rewrite Hpe. unfold M. rewrite mult_IZR. field. lra. }
split.
- rewrite Hval. unfold Rdiv at 1. rewrite !Rabs_mult.
  rewrite (Rabs_pos_eq (powerRZ 2 ex)) by lra.
  rewrite (Rabs_pos_eq (/ IZR D)) by (left; apply Rinv_0_lt_compat; exact HDr).
  rewrite <- Rmult_assoc.
  apply Rmult_le_compat_r; [lra|].
  apply Rmult_le_reg_r with (IZR D); [exact HDr|].
  replace (Rabs (IZR M * IZR D - IZR N) * / IZR D * IZR D)%R
    with (Rabs (IZR M * IZR D - IZR N)) by (field; lra).
  replace (ulp_half * (IZR N / IZR D) * IZR D)%R with (ulp_half * IZR N)%R by (field; lra).
  unfold ulp_half.
  assert (H53 : IZR (2 ^ 53) = (2 * IZR (2 ^ 52))%R).
  { change (2 ^ 53) with (2 * 2 ^ 52). rewrite mult_IZR. reflexivity. }
  assert (H52 : (0 < IZR (2 ^ 52))%R) by (apply IZR_lt; reflexivity).
  assert (HnR : (0 < IZR (2 ^ n))%R) by (apply IZR_lt; exact Hn0).
  rewrite H53.
  apply Rle_trans with (IZR D * IZR (2 ^ n) / 2)%R; [exact HerrR|].
  apply Rmult_le_reg_r with (2 * IZR (2 ^ 52))%R; [lra|].
  replace (/ (2 * IZR (2 ^ 52)) * IZR N * (2 * IZR (2 ^ 52)))%R with (IZR N) by (field; lra).
  replace (IZR D * IZR (2 ^ n) / 2 * (2 * IZR (2 ^ 52)))%R
    with (IZR D * (IZR (2 ^ 52) * IZR (2 ^ n)))%R by field.
  exact HNloR.
- exact Hex.
Qed.

Lemma Zdigits2_range (M a b : Z) :
0 <= a -> 2 ^ a <= M < 2 ^ b -> a + 1 <= Zdigits2 M <= b.
Proof.
intros Ha [Hlo Hhi].
assert (HM : 0 < M) by (assert (0 < 2 ^ a) by (apply Z.pow_pos_nonneg; lia); lia).
pose proof (Zdigits2_bounds M HM) as [Hl Hh].
pose proof (Zdigits2_pos M HM) as Hp.
split.
- destruct (Z_lt_le_dec (Zdigits2 M) (a + 1)) as [Hc|]; [|assumption].
  assert (2 ^ Zdigits2 M <= 2 ^ a) by (apply Z.pow_le_mono_r; lia). lia.
- destruct (Z_lt_le_dec b (Zdigits2 M)) as [Hc|]; [|lia].
  assert (0 <= b).
  { destruct (Z_lt_le_dec b 0); [|assumption]. rewrite Z.pow_neg_r in Hhi by lia. lia. }
  assert (2 ^ b <= 2 ^ (Zdigits2 M - 1)) by (apply Z.pow_le_mono_r; lia). lia.
Qed.

Lemma binary_round_aux_int (sx : bool) (M ex : Z) :
2 ^ 52 <= M ->
-1074 <= Zdigits2 M + ex - 53 <= 970 ->
exists m e,
  binary_round_aux 53 1024 sx M ex loc_Exact = S754_finite sx m e /\
  2 ^ 52 <= Zpos m < 2 ^ 53 /\
  ex + (Zdigits2 M - 53) <= e <= ex + (Zdigits2 M - 53) + 1 /\
  (Rabs (IZR (Zpos m) * powerRZ 2 e - IZR M * powerRZ 2 ex)
     <= ulp_half * (IZR M * powerRZ 2 ex))%R /\
  (M mod 2 ^ (Zdigits2 M - 53) = 0 -> Zpos m * 2 ^ (e - ex) = M).
Proof.
intros HM Hr.
pose proof (binary_round_aux_value sx M 1 ex ltac:(lia)) as H.
rewrite Z.div_1_r in H. specialize (H HM Hr).
unfold loc_of in H. rewrite Z.mod_1_r in H. cbn [Z.eqb] in H.
destruct H as (m & e & H1 & H2 & H3 & H4 & H5).
exists m, e. repeat split; try tauto; try lia.
- replace (IZR M * powerRZ 2 ex)%R with (IZR M / IZR 1 * powerRZ 2 ex)%R by (field). exact H4.
- intros Hz. rewrite Z.mul_1_l in H5. specialize (H5 Hz). lia.
Qed.

Lemma pos_iter_xO (p k : positive) : Zpos (Pos.iter xO p k) = Zpos p * 2 ^ Zpos k.
Proof.
change (Pos.iter xO p k) with (shift_pos k p).
rewrite shift_pos_correct. rewrite Z.mul_comm. reflexivity.
Qed.

Lemma float_of_int_spec (z : Z) :
1 <= z < 2 ^ 53 ->
exists m e, float_of_int z = S754_finite false m e /\
  2 ^ 52 <= Zpos m < 2 ^ 53 /\ -52 <= e <= 0 /\ Zpos m = z * 2 ^ (- e).
Proof.
intros Hz. destruct z as [|p|p]; try lia.
unfold float_of_int, binary_normalize, binary_round.
pose proof (digits2_pos_bounds p) as Hdig.
set (d := Zpos (digits2_pos p)) in *.
assert (Hd : 1 <= d <= 53).
{ split; [unfold d; lia|].
  destruct (Z_lt_le_dec 53 d) as [Hc|]; [|lia].
  assert (2 ^ 53 <= 2 ^ (d - 1)) by (apply Z.pow_le_mono_r; lia). lia. }
replace (fexp 53 1024 (d + 0)) with (d - 53) by (unfold fexp, emin; lia).
unfold shl_align.
assert (Hsh : exists mz ez, (match d - 53 - 0 with
              | Z.neg k => (Pos.iter xO p k, d - 53)
              | _ => (p, 0) end) = (mz, ez) /\ ez = d - 53 /\ Zpos mz = Zpos p * 2 ^ (53 - d)).
{ destruct (d - 53 - 0) as [|k|k] eqn:Ek; try lia.
  - exists p, 0. replace (53 - d) with 0 by lia. split; [reflexivity|]. split; lia.
  - exists (Pos.iter xO p k), (d - 53). split; [reflexivity|]. split; [reflexivity|].
    rewrite pos_iter_xO. f_equal. f_equal. lia. }
destruct Hsh as (mz & ez & -> & Hez & Hmz).
assert (Hmzb : 2 ^ 52 <= Zpos mz < 2 ^ 53).
{ rewrite Hmz. destruct Hdig as [Hlo Hhi].
  assert (0 < 2 ^ (53 - d)) by (apply Z.pow_pos_nonneg; lia).
  replace (2 ^ 52) with (2 ^ (d - 1) * 2 ^ (53 - d)) by (rewrite <- Z.pow_add_r by lia; f_equal; lia).
  replace (2 ^ 53) with (2 ^ d * 2 ^ (53 - d)) by (rewrite <- Z.pow_add_r by lia; f_equal; lia).
  split; nia. }
assert (Hdz : Zdigits2 (Zpos mz) = 53) by (apply Zdigits2_unique; [exact Hmzb|lia]).
destruct (binary_round_aux_int false (Zpos mz) ez ltac:(lia) ltac:(lia)) as (m & e & Hres & Hm & He & _ & Hex).
rewrite Hdz in He, Hex. change (2 ^ (53 - 53)) with 1 in Hex. rewrite Z.mod_1_r in Hex.
specialize (Hex eq_refl).
assert (Hee : e = ez).
{ destruct (Z.eq_dec e ez) as [|Hne]; [assumption|].
  assert (e - ez = 1) by lia. replace (e - ez) with 1 in Hex by lia. change (2 ^ 1) with 2 in Hex. lia. }
subst e. replace (ez - ez) with 0 in Hex by lia. change (2 ^ 0) with 1 in Hex.
exists m, ez. split; [exact Hres|]. split; [exact Hm|]. split; [lia|].
subst ez. replace (- (d - 53)) with (53 - d) by lia. lia.
Qed.

Lemma F2R_finite (m : positive) (e : Z) :
F2R (S754_finite false m e) = (IZR (Zpos m) * powerRZ 2 e)%R.
Proof. unfold F2R. ring. Qed.

Lemma float_of_int_value (z : Z) :
1 <= z < 2 ^ 53 -> pos_normal (float_of_int z) (-52) 0 /\ F2R (float_of_int z) = IZR z.
Proof.
intros Hz. destruct (float_of_int_spec z Hz) as (m & e & Hres & Hm & He & Hv).
split.
- exists m, e. auto.
- rewrite Hres, F2R_finite, Hv, mult_IZR, IZR_pow2 by lia.
  rewrite Rmult_assoc, <- powerRZ_2_add. replace (- e + e) with 0 by lia.
  cbn [powerRZ]. ring.
Qed.

Lemma float_mul_spec (x y : float) (a b c d : Z) :
pos_normal x a b -> pos_normal y c d ->
-1126 <= a + c -> b + d <= 864 ->
pos_normal (float_mul x y) (a + c + 52) (b + d + 54) /\
(Rabs (F2R (float_mul x y) - F2R x * F2R y) <= ulp_half * (F2R x * F2R y))%R.
Proof.
intros (mx & ex & -> & Hmx & Hex) (my & ey & -> & Hmy & Hey) Hlo Hhi.
unfold float_mul, SFmul. cbn [xorb].
rewrite Pos2Z.inj_mul.
assert (HM : 2 ^ 104 <= Zpos mx * Zpos my < 2 ^ 106).
{ change (2 ^ 104) with (2 ^ 52 * 2 ^ 52). change (2 ^ 106) with (2 ^ 53 * 2 ^ 53). nia. }
pose proof (Zdigits2_range _ 104 106 ltac:(lia) HM) as Hd.
destruct (binary_round_aux_int false (Zpos mx * Zpos my) (ex + ey)) as (m & e & Hres & Hm & He & Herr & _).
{ assert (2 ^ 52 <= 2 ^ 104) by (apply Z.pow_le_mono_r; lia). lia. }
{ lia. }
rewrite Hres. split.
- exists m, e. split; [reflexivity|]. split; [exact Hm|]. lia.
- rewrite !F2R_finite.
  replace (IZR (Zpos mx) * powerRZ 2 ex * (IZR (Zpos my) * powerRZ 2 ey))%R
    with (IZR (Zpos mx * Zpos my) * powerRZ 2 (ex + ey))%R
    by (rewrite mult_IZR, powerRZ_2_add; ring).
  exact Herr.
Qed.

Lemma float_mul_one (x : float) (a b : Z) :
pos_normal x a b -> -1000 <= a -> b <= 900 ->
float_mul x (S754_finite false (2 ^ 52) (-52)) = x.
Proof.
intros (mx & ex & -> & Hmx & Hex) Hlo Hhi.
unfold float_mul, SFmul. cbn [xorb].
rewrite Pos2Z.inj_mul. change (Zpos (2 ^ 52)) with (2 ^ 52).
assert (HM : 2 ^ 104 <= Zpos mx * 2 ^ 52 < 2 ^ 105).
{ change (2 ^ 104) with (2 ^ 52 * 2 ^ 52). change (2 ^ 105) with (2 ^ 53 * 2 ^ 52). nia. }
pose proof (Zdigits2_range _ 104 105 ltac:(lia) HM) as Hd.
assert (Hd' : Zdigits2 (Zpos mx * 2 ^ 52) = 105) by lia.
destruct (binary_round_aux_int false (Zpos mx * 2 ^ 52) (ex + -52)) as (m & e & Hres & Hm & He & _ & Hexact).
{ assert (2 ^ 52 <= 2 ^ 104) by (apply Z.pow_le_mono_r; lia). lia. }
{ lia. }
rewrite Hres. rewrite Hd' in He, Hexact.
change (105 - 53) with 52 in *.
rewrite Z.mod_mul in Hexact by (apply Z.pow_nonzero; lia).
specialize (Hexact eq_refl).
destruct (Z.eq_dec (e - (ex + -52)) 52) as [E|E].
- rewrite E in Hexact. assert (Zpos m = Zpos mx) by nia.
  f_equal; [congruence|lia].
- exfalso. replace (e - (ex + -52)) with 53 in Hexact by lia.
  change (2 ^ 53) with (2 * 2 ^ 52) in Hexact. nia.
Qed.

Lemma new_location_loc_of (N D : Z) :
0 < D -> new_location D (N mod D) = loc_of N D.
Proof.
intros HD. assert (Hf : 0 <= N mod D < D) by (apply Z.mod_pos_bound; lia).
unfold new_location, loc_of, new_location_even, new_location_odd.
destruct (Z.even D) eqn:Ev.
- reflexivity.
- destruct (Z.eqb_spec (N mod D) 0); [reflexivity|]. f_equal.
  assert (Hodd : Z.odd D = true) by (rewrite <- Z.negb_even, Ev; reflexivity).
  apply Z.odd_spec in Hodd. destruct Hodd as [k Hk].
  destruct (Z.compare_spec (2 * (N mod D) + 1) D) as [Hc|Hc|Hc];
    symmetry; [apply Z.compare_lt_iff|apply Z.compare_lt_iff|apply Z.compare_gt_iff]; lia.
Qed.

Lemma SFdiv_core_binary_normal (m1 m2 : positive) (e1 e2 : Z) :
2 ^ 52 <= Zpos m1 < 2 ^ 53 -> 2 ^ 52 <= Zpos m2 < 2 ^ 53 ->
-1021 <= e1 - e2 ->
SFdiv_core_binary 53 1024 (Zpos m1) e1 (Zpos m2) e2 =
((Zpos m1 * 2 ^ 53) / Zpos m2, e1 - e2 - 53, loc_of (Zpos m1 * 2 ^ 53) (Zpos m2)).
Proof.
intros H1 H2 He. unfold SFdiv_core_binary.
rewrite (Zdigits2_unique (Zpos m1) 53) by (change (53 - 1) with 52; lia).
rewrite (Zdigits2_unique (Zpos m2) 53) by (change (53 - 1) with 52; lia).
replace (Z.min (fexp 53 1024 (53 + e1 - (53 + e2))) (e1 - e2)) with (e1 - e2 - 53)
  by (unfold fexp, emin; lia).
replace (e1 - e2 - (e1 - e2 - 53)) with 53 by lia.
cbv iota beta.
rewrite Z.shiftl_mul_pow2 by lia.
pose proof (new_location_loc_of (Zpos m1 * 2 ^ 53) (Zpos m2) ltac:(lia)) as Hloc.
remember (loc_of (Zpos m1 * 2 ^ 53) (Zpos m2)) as L eqn:EL. clear EL.
unfold Z.modulo in Hloc. unfold Z.div.
destruct (Z.div_eucl (Zpos m1 * 2 ^ 53) (Zpos m2)) as [q r].
rewrite Hloc. reflexivity.
Qed.

Lemma float_div_spec (x y : float) (a b c d : Z) :
pos_normal x a b -> pos_normal y c d ->
-1021 <= a - d -> b - c <= 1022 ->
pos_normal (float_div x y) (a - d - 53) (b - c - 51) /\
(Rabs (F2R (float_div x y) - F2R x / F2R y) <= ulp_half * (F2R x / F2R y))%R.
Proof.
intros (mx & ex & -> & Hmx & Hex) (my & ey & -> & Hmy & Hey) Hlo Hhi.
unfold float_div, SFdiv. cbn [xorb].
rewrite SFdiv_core_binary_normal by (try assumption; lia).
assert (Hq : 2 ^ 52 <= Zpos mx * 2 ^ 53 / Zpos my < 2 ^ 54).
{ split.
  - apply Z.div_le_lower_bound; [lia|].
    change (2 ^ 53) with (2 * 2 ^ 52) in *. nia.
  - apply Z.div_lt_upper_bound; [lia|].
    change (2 ^ 54) with (2 * 2 ^ 53) in *. change (2 ^ 53) with (2 * 2 ^ 52) in *. nia. }
pose proof (Zdigits2_range _ 52 54 ltac:(lia) Hq) as Hd.
destruct (binary_round_aux_value false (Zpos mx * 2 ^ 53) (Zpos my) (ex - ey - 53))
  as (m & e & Hres & Hm & He & Herr & _); [lia|apply Hq|lia|].
rewrite Hres. split.
- exists m, e. split; [reflexivity|]. split; [exact Hm|]. lia.
- rewrite !F2R_finite.
  assert (Hmy0 : (0 < IZR (Zpos my))%R) by (apply IZR_lt; lia).
  pose proof (powerRZ_2_pos ey) as Hpy.
  replace (IZR (Zpos mx) * powerRZ 2 ex / (IZR (Zpos my) * powerRZ 2 ey))%R
    with (IZR (Zpos mx * 2 ^ 53) / IZR (Zpos my) * powerRZ 2 (ex - ey - 53))%R; [exact Herr|].
  rewrite mult_IZR.
  replace ex with ((ex - ey - 53) + 53 + ey) at 2 by lia.
  rewrite !powerRZ_2_add. rewrite (IZR_pow2 53) by lia.
  pose proof (powerRZ_2_pos 53). pose proof (powerRZ_2_pos (ex - ey - 53)).
  field. split; lra.
Qed.

Lemma float_div_self (x : float) (a b : Z) :
pos_normal x a b -> float_div x x = S754_finite false (2 ^ 52) (-52).
Proof.
intros (mx & ex & -> & Hmx & Hex).
unfold float_div, SFdiv. cbn [xorb].
rewrite SFdiv_core_binary_normal by (try assumption; lia).
assert (Hq : Zpos mx * 2 ^ 53 / Zpos mx = 2 ^ 53).
{ rewrite Z.mul_comm. apply Z.div_mul. lia. }
destruct (binary_round_aux_value false (Zpos mx * 2 ^ 53) (Zpos mx) (ex - ex - 53))
  as (m & e & Hres & Hm & He & _ & Hexact); [lia|rewrite Hq; lia|rewrite Hq; change (Zdigits2 (2 ^ 53)) with 54; lia|].
rewrite Hres. rewrite Hq in He, Hexact. change (Zdigits2 (2 ^ 53)) with 54 in He, Hexact.
change (2 ^ (54 - 53)) with 2 in Hexact.
assert (Hz : (Zpos mx * 2 ^ 53) mod (Zpos mx * 2) = 0).
{ change (2 ^ 53) with (2 * 2 ^ 52). rewrite Z.mul_assoc.
  rewrite (Z.mul_comm (Zpos mx * 2) (2 ^ 52)). apply Z.mod_mul. lia. }
specialize (Hexact Hz).
assert (Hp : Zpos m * 2 ^ (e - (ex - ex - 53)) = 2 ^ 53) by nia.
destruct (Z.eq_dec e (-52)) as [E|E].
- subst e. replace (-52 - (ex - ex - 53)) with 1 in Hp by lia.
  change (2 ^ 1) with 2 in Hp. change (2 ^ 53) with (2 ^ 52 * 2) in Hp.
  assert (Zpos m = 2 ^ 52) by lia.
  f_equal. change (2 ^ 52) with (Zpos (2 ^ 52)) in H. congruence.
- exfalso. replace (e - (ex - ex - 53)) with 2 in Hp by lia.
  change (2 ^ 2) with 4 in Hp. change (2 ^ 53) with (2 ^ 52 * 2) in Hp. lia.
Qed.

Lemma float_trunc_spec (f : float) (a b : Z) :
pos_normal f a b ->
exists z, float_trunc f = Some z /\ 0 <= z /\ (IZR z <= F2R f < IZR z + 1)%R.
Proof.
intros (m & e & -> & Hm & He).
rewrite F2R_finite. cbn [float_trunc].
destruct e as [|p|p].
- exists (Zpos m). split; [reflexivity|]. split; [lia|]. cbn [powerRZ]. lra.
- exists (Zpos m * 2 ^ Zpos p). split; [reflexivity|].
  split; [apply Z.mul_nonneg_nonneg; [lia|apply Z.pow_nonneg; lia]|].
  rewrite mult_IZR, IZR_pow2 by lia. lra.
- exists (Zpos m / 2 ^ Zpos p). split; [reflexivity|].
  assert (HP : 0 < 2 ^ Zpos p) by (apply Z.pow_pos_nonneg; lia).
  split; [apply Z.div_pos; lia|].
  pose proof (Z.div_mod (Zpos m) (2 ^ Zpos p) ltac:(lia)) as Hdm.
  pose proof (Z.mod_pos_bound (Zpos m) (2 ^ Zpos p) HP) as Hmod.
  set (q := Zpos m / 2 ^ Zpos p) in *. set (r := Zpos m mod 2 ^ Zpos p) in *.
  change (Z.neg p) with (- Zpos p).
  rewrite powerRZ_neg'. rewrite <- IZR_pow2 by lia.
  assert (HPr : (0 < IZR (2 ^ Zpos p))%R) by (apply IZR_lt; exact HP).
  rewrite Hdm. rewrite plus_IZR, mult_IZR.
  assert (Hr : (0 <= IZR r < IZR (2 ^ Zpos p))%R) by (split; [apply IZR_le|apply IZR_lt]; lia).
  split.
  + apply Rmult_le_reg_r with (IZR (2 ^ Zpos p)); [exact HPr|].
    replace ((IZR (2 ^ Zpos p) * IZR q + IZR r) * / IZR (2 ^ Zpos p) * IZR (2 ^ Zpos p))%R
      with (IZR (2 ^ Zpos p) * IZR q + IZR r)%R by (field; lra).
    lra.
  + apply Rmult_lt_reg_r with (IZR (2 ^ Zpos p)); [exact HPr|].
    replace ((IZR (2 ^ Zpos p) * IZR q + IZR r) * / IZR (2 ^ Zpos p) * IZR (2 ^ Zpos p))%R
      with (IZR (2 ^ Zpos p) * IZR q + IZR r)%R by (field; lra).
    lra.
Qed.

Lemma Rabs_bounds (x y : R) : (Rabs x <= y -> - y <= x <= y)%R.
Proof. unfold Rabs. destruct (Rcase_abs x); lra. Qed.

Lemma ulp_half_bounds : (0 < ulp_half <= / 4)%R.
Proof.
unfold ulp_half. split.
- apply Rinv_0_lt_compat. apply IZR_lt. reflexivity.
- apply Rinv_le_contravar; [lra|]. apply IZR_le. 
  assert (2 ^ 2 <= 2 ^ 53) by (apply Z.pow_le_mono_r; lia). change (2 ^ 2) with 4 in H. exact H.
Qed.

Lemma compose_error (u a x S T : R) :
(0 < u <= / 4 -> 0 <= a -> 0 <= x ->
 Rabs (S - a) <= u * a -> Rabs (T - x * S) <= u * (x * S) ->
 x * a * (1 - 3 * u) <= T <= x * a * (1 + 3 * u))%R.
Proof.
intros Hu Ha Hx HS HT.
apply Rabs_bounds in HS. apply Rabs_bounds in HT.
assert (H0 : (0 <= x * a)%R) by (apply Rmult_le_pos; assumption).
assert (HxS : (x * a * (1 - u) <= x * S <= x * a * (1 + u))%R) by (split; nra).
assert (HxS0 : (0 <= x * S)%R) by nra.
split; nra.
Qed.

Lemma rescale_axis_bounds (num den x : Z) :
1 <= num < 2 ^ 53 -> 1 <= den < 2 ^ 53 -> 0 <= x < 2 ^ 53 ->
exists r, rescale_axis num den x = Some r /\ 0 <= r /\
  (IZR x * (IZR num / IZR den) * (1 - 3 * ulp_half) - 1 < IZR r
     <= IZR x * (IZR num / IZR den) * (1 + 3 * ulp_half))%R.
Proof.
intros Hnum Hden Hx. unfold rescale_axis.
destruct (float_of_int_value num Hnum) as [Hn1 Hn2].
destruct (float_of_int_value den Hden) as [Hd1 Hd2].
destruct (float_div_spec _ _ _ _ _ _ Hn1 Hd1 ltac:(lia) ltac:(lia)) as [Hs1 Hs2].
rewrite Hn2, Hd2 in Hs2.
set (s := float_div (float_of_int num) (float_of_int den)) in *.
assert (Hnr : (1 <= IZR num)%R) by (apply IZR_le; lia).
assert (Hdr : (1 <= IZR den)%R) by (apply IZR_le; lia).
assert (Ha : (0 <= IZR num / IZR den)%R).
{ apply Rmult_le_pos; [lra|]. left. apply Rinv_0_lt_compat. lra. }
pose proof ulp_half_bounds as Hu.
destruct (Z.eq_dec x 0) as [->|Hx0].
- destruct Hs1 as (ms & es & Hs & _). rewrite Hs.
  exists 0. split; [reflexivity|]. split; [lia|]. lra.
- destruct (float_of_int_value x ltac:(lia)) as [Hx1 Hx2].
  destruct (float_mul_spec _ _ _ _ _ _ Hx1 Hs1 ltac:(lia) ltac:(lia)) as [Ht1 Ht2].
  rewrite Hx2 in Ht2.
  destruct (float_trunc_spec _ _ _ Ht1) as (r & Hr & Hr0 & Hrb).
  exists r. split; [exact Hr|]. split; [exact Hr0|].
  assert (Hxr : (0 <= IZR x)%R) by (apply IZR_le; lia).
  pose proof (compose_error _ _ _ _ _ Hu Ha Hxr Hs2 Ht2) as Hc.
  lra.
Qed.

Lemma rescale_axis_same (n x : Z) :
1 <= n < 2 ^ 53 -> 0 <= x < 2 ^ 53 -> rescale_axis n n x = Some x.
Proof.
intros Hn Hx. unfold rescale_axis.
destruct (float_of_int_value n Hn) as [Hn1 _].
rewrite (float_div_self _ _ _ Hn1).
destruct (Z.eq_dec x 0) as [->|Hx0]; [reflexivity|].
destruct (float_of_int_value x ltac:(lia)) as [Hx1 Hx2].
rewrite (float_mul_one _ _ _ Hx1) by lia.
destruct (float_trunc_spec _ _ _ Hx1) as (r & Hr & Hr0 & Hrb).
rewrite Hr. f_equal. rewrite Hx2 in Hrb.
assert (r <= x) by (apply le_IZR; lra).
assert (x < r + 1) by (apply lt_IZR; rewrite plus_IZR; lra).
lia.
Qed.

(** Integer form under a size bound: the result is the exact quotient or
  one below it. *)
Lemma rescale_axis_floor (num den x : Z) :
1 <= num -> 1 <= den -> 0 <= x -> 3 * (x * num) < 2 ^ 53 -> num < 2 ^ 53 -> den < 2 ^ 53 ->
exists r, rescale_axis num den x = Some r /\ 0 <= r /\
  x * num - den <= r * den <= x * num.
Proof.
intros Hnum Hden Hx Hb Hn53 Hd53.
assert (Hx53 : x < 2 ^ 53) by nia.
destruct (rescale_axis_bounds num den x ltac:(lia) ltac:(lia) ltac:(lia)) as (r & Hr & Hr0 & Hlo & Hhi).
exists r. split; [exact Hr|]. split; [exact Hr0|].
assert (Hnr : (1 <= IZR num)%R) by (apply IZR_le; lia).
assert (Hdr : (1 <= IZR den)%R) by (apply IZR_le; lia).
assert (Hxr : (0 <= IZR x)%R) by (apply IZR_le; lia).
assert (HbR : (3 * (IZR x * IZR num) * ulp_half < 1)%R).
{ unfold ulp_half.
  assert (H53 : (0 < IZR (2 ^ 53))%R) by (apply IZR_lt; reflexivity).
  apply Rmult_lt_reg_r with (IZR (2 ^ 53)); [exact H53|].
  replace (3 * (IZR x * IZR num) * / IZR (2 ^ 53) * IZR (2 ^ 53))%R
    with (3 * (IZR x * IZR num))%R by (field; lra).
  rewrite Rmult_1_l. change 3%R with (IZR 3). rewrite <- !mult_IZR. apply IZR_lt. exact Hb. }
(* multiply the real bounds by den *)
assert (HE : (IZR x * (IZR num / IZR den) * IZR den = IZR x * IZR num)%R) by (field; lra).
set (E := (IZR x * (IZR num / IZR den))%R) in *.
assert (HE0 : (0 <= E)%R).
{ unfold E. apply Rmult_le_pos; [lra|]. apply Rmult_le_pos; [lra|]. left. apply Rinv_0_lt_compat. lra. }
assert (Hup : (IZR r * IZR den < IZR x * IZR num + 1)%R).
{ assert (IZR r * IZR den <= E * (1 + 3 * ulp_half) * IZR den)%R by (apply Rmult_le_compat_r; lra).
  replace (E * (1 + 3 * ulp_half) * IZR den)%R with (E * IZR den + 3 * (E * IZR den) * ulp_half)%R in H by ring.
  rewrite HE in H. lra. }
assert (Hdn : (IZR x * IZR num - IZR den - 1 < IZR r * IZR den)%R).
{ assert ((E * (1 - 3 * ulp_half) - 1) * IZR den < IZR r * IZR den)%R by (apply Rmult_lt_compat_r; lra).
  replace ((E * (1 - 3 * ulp_half) - 1) * IZR den)%R with (E * IZR den - 3 * (E * IZR den) * ulp_half - IZR den)%R in H by ring.
  rewrite HE in H. lra. }
rewrite <- !mult_IZR in Hup, Hdn.
change 1%R with (IZR 1) in Hup, Hdn.
rewrite <- plus_IZR in Hup. rewrite <- !minus_IZR in Hdn.
apply lt_IZR in Hup, Hdn. lia.
Qed.

Lemma rescale_axis_in_range (num den x : Z) :
1 <= num -> 1 <= den -> 0 <= x < den -> 3 * (x * num) < 2 ^ 53 -> num < 2 ^ 53 -> den < 2 ^ 53 ->
exists r, rescale_axis num den x = Some r /\ 0 <= r <= num - 1 /\
  x * num - den <= r * den <= x * num.
Proof.
intros Hnum Hden Hx Hb Hn Hd.
destruct (rescale_axis_floor num den x) as (r & Hr & Hr0 & Hrb); try lia.
exists r. split; [exact Hr|]. split; [|exact Hrb]. nia.
Qed.

Lemma round_trip_axis (W dw x : Z) :
1 <= dw <= W -> W <= 2 ^ 25 -> 0 <= x < dw ->
exists r x', rescale_axis W dw x = Some r /\ 0 <= r <= W - 1 /\
  rescale_axis dw W r = Some x' /\ x - 1 <= x' <= x.
Proof.
intros Hdw HW Hx.
assert (H25 : 2 ^ 25 * 2 ^ 25 = 2 ^ 50) by reflexivity.
assert (H53 : 2 ^ 53 = 8 * 2 ^ 50) by reflexivity.
assert (H25' : 2 ^ 25 < 2 ^ 53) by reflexivity.
destruct (Z.eq_dec dw W) as [->|Hne].
- exists x, x. rewrite !rescale_axis_same by lia. repeat split; lia.
- assert (HxW : x * W < 2 ^ 50) by nia.
  destruct (rescale_axis_in_range W dw x) as (r & Hr & Hr0 & Hrb); try lia.
  assert (Hrd : r * dw < 2 ^ 50) by nia.
  destruct (rescale_axis_in_range dw W r) as (x' & Hx' & Hx'0 & Hx'b); try lia.
  exists r, x'. split; [exact Hr|]. split; [exact Hr0|]. split; [exact Hx'|].
  split; [|nia].
  (* the lower bound needs the strict real estimates *)
  destruct (rescale_axis_bounds W dw x) as (r1 & Hr1 & _ & Hlo1 & _); try lia.
  destruct (rescale_axis_bounds dw W r) as (x1 & Hx1 & _ & Hlo2 & _); try lia.
  rewrite Hr in Hr1. injection Hr1 as <-. rewrite Hx' in Hx1. injection Hx1 as <-.
  pose proof ulp_half_bounds as Hu.
  assert (HWr : (1 <= IZR W)%R) by (apply IZR_le; lia).
  assert (HDr : (1 <= IZR dw)%R) by (apply IZR_le; lia).
  assert (HDW : (IZR dw <= IZR W - 1)%R) by (rewrite <- minus_IZR; apply IZR_le; lia).
  assert (HXr : (0 <= IZR x)%R) by (apply IZR_le; lia).
  assert (HRr : (0 <= IZR r)%R) by (apply IZR_le; lia).
  set (u := ulp_half) in *.
  assert (Hsmall : (6 * (IZR x * IZR W) * u < 1)%R).
  { unfold u, ulp_half.
    assert (Hp : (0 < IZR (2 ^ 53))%R) by (apply IZR_lt; reflexivity).
    apply Rmult_lt_reg_r with (IZR (2 ^ 53)); [exact Hp|].
    replace (6 * (IZR x * IZR W) * / IZR (2 ^ 53) * IZR (2 ^ 53))%R
      with (6 * (IZR x * IZR W))%R by (field; lra).
    rewrite Rmult_1_l. change 6%R with (IZR 6). rewrite <- !mult_IZR. apply IZR_lt. lia. }
  assert (H1 : (IZR x * IZR W * (1 - 3 * u) - IZR dw < IZR r * IZR dw)%R).
  { assert ((IZR x * (IZR W / IZR dw) * (1 - 3 * u) - 1) * IZR dw < IZR r * IZR dw)%R
      by (apply Rmult_lt_compat_r; lra).
    replace ((IZR x * (IZR W / IZR dw) * (1 - 3 * u) - 1) * IZR dw)%R
      with (IZR x * IZR W * (1 - 3 * u) - IZR dw)%R in H by (field; lra).
    exact H. }
  assert (H2 : (IZR r * IZR dw * (1 - 3 * u) - IZR W < IZR x' * IZR W)%R).
  { assert ((IZR r * (IZR dw / IZR W) * (1 - 3 * u) - 1) * IZR W < IZR x' * IZR W)%R
      by (apply Rmult_lt_compat_r; lra).
    replace ((IZR r * (IZR dw / IZR W) * (1 - 3 * u) - 1) * IZR W)%R
      with (IZR r * IZR dw * (1 - 3 * u) - IZR W)%R in H by (field; lra).
    exact H. }
  set (P := (IZR x * IZR W)%R) in *.
  assert (HP : (0 <= P)%R) by (unfold P; apply Rmult_le_pos; lra).
  assert (H3 : ((P * (1 - 3 * u) - IZR dw) * (1 - 3 * u) <= IZR r * IZR dw * (1 - 3 * u))%R).
  { apply Rmult_le_compat_r; lra. }
  assert (H4 : (P - 6 * P * u - IZR dw <= (P * (1 - 3 * u) - IZR dw) * (1 - 3 * u))%R).
  { assert (0 <= P * u * u)%R by (apply Rmult_le_pos; [apply Rmult_le_pos|]; lra).
    assert (0 <= IZR dw * u)%R by (apply Rmult_le_pos; lra).
    ring_simplify. lra. }
  assert (H5 : ((IZR x - 2) * IZR W < IZR x' * IZR W)%R) by (unfold P in *; lra).
  change 2%R with (IZR 2) in H5. rewrite <- minus_IZR, <- !mult_IZR in H5.
  apply lt_IZR in H5. nia.
Qed.

End Binary64Facts.

(** ** The coordinate mapper *)

Section MapperFacts.
Import Py Qt Binary64 DragGenerator.

Lemma int_truediv_returns (num den : Z) :
  1 <= num < 2 ^ 53 -> 1 <= den < 2 ^ 53 ->
  int_truediv num den = Returned (float_div (float_of_int num) (float_of_int den)).
Proof.
  intros Hn Hd. unfold int_truediv.
  destruct (Z.eqb_spec den 0) as [E|_]; [lia|].
  destruct (float_of_int_value num Hn) as [Hn1 _].
  destruct (float_of_int_value den Hd) as [Hd1 _].
  destruct (float_div_spec _ _ _ _ _ _ Hn1 Hd1 ltac:(lia) ltac:(lia)) as [(m & e & -> & _) _].
  reflexivity.
Qed.

Lemma int_mul_float_returns (x : Z) (s : float) :
  0 <= x < 2 ^ 53 ->
  int_mul_float x s = Returned (float_mul (float_of_int x) s).
Proof.
  intros Hx. unfold int_mul_float.
  destruct (Z.eq_dec x 0) as [->|Hx0]; [reflexivity|].
  destruct (float_of_int_spec x ltac:(lia)) as (m & e & -> & _).
  reflexivity.
Qed.

Lemma int_of_float_trunc (f : float) (r : Z) :
  float_trunc f = Some r -> int_of_float f = Returned r.
Proof.
  intros H. destruct f; cbn [float_trunc] in H; try discriminate;
    unfold int_of_float; cbn [float_trunc]; injection H as <-; reflexivity.
Qed.

(** Inside a rectangle of non-negative size, [contains] is the
    inclusive box test. *)
Lemma QRect_contains_box (r : QRect) (p : QPoint) :
  0 <= QRect_width r -> 0 <= QRect_height r ->
  QRect_contains r p = true ->
  x1 r <= px p <= x2 r /\ y1 r <= py p <= y2 r.
Proof.
  unfold QRect_width, QRect_height, QRect_contains. intros Hw Hh.
  destruct (Z.ltb_spec (x2 r) (x1 r - 1)); [lia|].
  destruct (Z.ltb_spec (y2 r) (y1 r - 1)); [lia|].
  destruct (Z.ltb_spec (px p) (x1 r)); cbn [orb]; [discriminate|].
  destruct (Z.ltb_spec (x2 r) (px p)); cbn [orb]; [discriminate|].
  destruct (Z.ltb_spec (py p) (y1 r)); cbn [orb]; [discriminate|].
  destruct (Z.ltb_spec (y2 r) (py p)); cbn [orb]; [discriminate|].
  lia.
Qed.

Lemma original_point_outside (pixmap : QPixmap) (drawn : QRect) (p : QPoint) :
  QRect_contains drawn p = false ->
  original_point_from_display pixmap drawn p = Returned None.
Proof.
  intros H. unfold original_point_from_display. rewrite H.
  destruct (QPixmap_isNull pixmap || QRect_isNull drawn); reflexivity.
Qed.

(** The mapping of an on-image point, axis by axis. *)
Lemma original_point_inside (W H : Z) (drawn : QRect) (p : QPoint) (rx ry : Z) :
  1 <= W < 2 ^ 53 -> 1 <= H < 2 ^ 53 ->
  1 <= QRect_width drawn < 2 ^ 53 -> 1 <= QRect_height drawn < 2 ^ 53 ->
  QRect_contains drawn p = true ->
  rescale_axis W (QRect_width drawn) (px p - x1 drawn) = Some rx ->
  rescale_axis H (QRect_height drawn) (py p - y1 drawn) = Some ry ->
  original_point_from_display (Pixmap W H) drawn p =
  Returned (Some (mkQPoint (Z.max 0 (Z.min rx (W - 1))) (Z.max 0 (Z.min ry (H - 1))))).
Proof.
  intros HW HH Hdw Hdh Hin Hrx Hry.
  destruct (QRect_contains_box drawn p ltac:(lia) ltac:(lia) Hin) as [Hx Hy].
  unfold original_point_from_display. rewrite Hin.
  cbn [QPixmap_isNull QPixmap_width QPixmap_height orb negb].
  replace (QRect_isNull drawn) with false
    by (symmetry; unfold QRect_isNull, QRect_width in *; destruct (Z.eqb_spec (x2 drawn) (x1 drawn - 1)); [lia|reflexivity]).
  unfold QRect_x, QRect_y.
  rewrite (int_truediv_returns W (QRect_width drawn)) by lia. cbn [bind].
  rewrite (int_truediv_returns H (QRect_height drawn)) by lia. cbn [bind].
  rewrite int_mul_float_returns by (unfold QRect_width in *; lia). cbn [bind].
  rewrite (int_of_float_trunc _ rx) by exact Hrx. cbn [bind].
  rewrite int_mul_float_returns by (unfold QRect_height in *; lia). cbn [bind].
  rewrite (int_of_float_trunc _ ry) by exact Hry. cbn [bind].
  reflexivity.
Qed.

Lemma display_point_mapped (W H : Z) (drawn : QRect) (o : QPoint) (sx sy : Z) :
  1 <= W < 2 ^ 53 -> 1 <= H < 2 ^ 53 ->
  1 <= QRect_width drawn < 2 ^ 53 -> 1 <= QRect_height drawn < 2 ^ 53 ->
  0 <= px o < 2 ^ 53 -> 0 <= py o < 2 ^ 53 ->
  rescale_axis (QRect_width drawn) W (px o) = Some sx ->
  rescale_axis (QRect_height drawn) H (py o) = Some sy ->
  display_point_from_original (Pixmap W H) drawn o =
  Returned (Some (mkQPoint (x1 drawn + sx) (y1 drawn + sy))).
Proof.
  intros HW HH Hdw Hdh Hox Hoy Hsx Hsy.
  unfold display_point_from_original.
  cbn [QPixmap_isNull QPixmap_width QPixmap_height orb negb].
  replace (QRect_isNull drawn) with false
    by (symmetry; unfold QRect_isNull, QRect_width in *; destruct (Z.eqb_spec (x2 drawn) (x1 drawn - 1)); [lia|reflexivity]).
  unfold QRect_x, QRect_y.
  rewrite (int_truediv_returns (QRect_width drawn) W) by lia. cbn [bind].
  rewrite (int_truediv_returns (QRect_height drawn) H) by lia. cbn [bind].
  rewrite int_mul_float_returns by lia. cbn [bind].
  rewrite (int_of_float_trunc _ sx) by exact Hsx. cbn [bind].
  rewrite int_mul_float_returns by lia. cbn [bind].
  rewrite (int_of_float_trunc _ sy) by exact Hsy. cbn [bind].
  reflexivity.
Qed.

End MapperFacts.

Section MapperClaims.
Import Py Qt Binary64 DragGenerator.

(** The rescaled coordinate of an on-image point: within three unit
    roundoffs of the exact quotient before truncation, and inside the
    original image after the clamp. *)
Lemma rescaled_then_clamped (num den x : Z) :
  1 <= num < 2 ^ 53 -> 1 <= den < 2 ^ 53 -> 0 <= x < den ->
  exists r, rescale_axis num den x = Some r /\
    (IZR x * (IZR num / IZR den) * (1 - 3 * ulp_half) - 1 < IZR r
       <= IZR x * (IZR num / IZR den) * (1 + 3 * ulp_half))%R /\
    0 <= Z.max 0 (Z.min r (num - 1)) <= num - 1 /\
    (num <= 2 ^ 25 -> den <= 2 ^ 25 ->
     x * num - den <= r * den <= x * num /\ Z.max 0 (Z.min r (num - 1)) = r).
Proof.
  intros Hn Hd Hx.
  destruct (rescale_axis_bounds num den x) as (r & Hr & Hr0 & Hrb); try lia.
  exists r. split; [exact Hr|]. split; [exact Hrb|]. split; [lia|].
  intros Hn25 Hd25.
  assert (H25 : 2 ^ 25 * 2 ^ 25 = 2 ^ 50) by reflexivity.
  assert (H53 : 2 ^ 53 = 8 * 2 ^ 50) by reflexivity.
  destruct (rescale_axis_in_range num den x) as (r' & Hr' & Hr0' & Hrb'); try nia.
  rewrite Hr in Hr'. injection Hr' as <-. split; [exact Hrb'|lia].
Qed.

(** C4. For every display point, the display-to-original conversion of
    either label class returns [None] when the point is outside the
    drawn rectangle.  For a point inside it (pixmap loaded) it returns,
    per axis, the rescaled coordinate [int(offset * (original / drawn))]
    clamped to [[0, original - 1]].  The rescaled value [r] is the
    truncation of a double within three unit roundoffs of
    [offset * original / drawn]; for sides up to [2^25] that makes it
    the exact quotient rounded down, or one below it. *)
Theorem C4_to_original_none_outside_rescaled_clamped_inside
    (single : SingleImageDisplayLabel.t) (combined : CombinedImageLabel.t)
    (pixmap : QPixmap) (drawn : QRect) (p : QPoint) :
  SingleImageDisplayLabel._original_pixmap single = pixmap ->
  SingleImageDisplayLabel._drawn_pixmap_rect single = drawn ->
  CombinedImageLabel.combined_pixmap combined = pixmap ->
  CombinedImageLabel._drawn_pixmap_rect combined = drawn ->
  (QRect_contains drawn p = false ->
   SingleImageDisplayLabel.get_original_point_from_display single p = Returned None /\
   CombinedImageLabel.get_original_point_from_display combined p = Returned None) /\
  (forall W H : Z,
     pixmap = Pixmap W H -> 1 <= W < 2 ^ 31 -> 1 <= H < 2 ^ 31 ->
     0 <= QRect_width drawn < 2 ^ 31 -> 0 <= QRect_height drawn < 2 ^ 31 ->
     QRect_contains drawn p = true ->
     let x := px p - QRect_x drawn in
     let y := py p - QRect_y drawn in
     exists rx ry : Z,
       rescale_axis W (QRect_width drawn) x = Some rx /\
       rescale_axis H (QRect_height drawn) y = Some ry /\
       (IZR x * (IZR W / IZR (QRect_width drawn)) * (1 - 3 * ulp_half) - 1 < IZR rx
          <= IZR x * (IZR W / IZR (QRect_width drawn)) * (1 + 3 * ulp_half))%R /\
       (IZR y * (IZR H / IZR (QRect_height drawn)) * (1 - 3 * ulp_half) - 1 < IZR ry
          <= IZR y * (IZR H / IZR (QRect_height drawn)) * (1 + 3 * ulp_half))%R /\
       (W <= 2 ^ 25 -> QRect_width drawn <= 2 ^ 25 ->
        x * W - QRect_width drawn <= rx * QRect_width drawn <= x * W) /\
       (H <= 2 ^ 25 -> QRect_height drawn <= 2 ^ 25 ->
        y * H - QRect_height drawn <= ry * QRect_height drawn <= y * H) /\
       0 <= Z.max 0 (Z.min rx (W - 1)) <= W - 1 /\
       0 <= Z.max 0 (Z.min ry (H - 1)) <= H - 1 /\
       SingleImageDisplayLabel.get_original_point_from_display single p =
         Returned (Some (mkQPoint (Z.max 0 (Z.min rx (W - 1))) (Z.max 0 (Z.min ry (H - 1))))) /\
       CombinedImageLabel.get_original_point_from_display combined p =
         Returned (Some (mkQPoint (Z.max 0 (Z.min rx (W - 1))) (Z.max 0 (Z.min ry (H - 1)))))).
Proof.
  intros Hs1 Hs2 Hc1 Hc2.
  unfold SingleImageDisplayLabel.get_original_point_from_display,
    CombinedImageLabel.get_original_point_from_display.
  rewrite Hs1, Hs2, Hc1, Hc2. split.
  - intros Hout. split; apply original_point_outside; exact Hout.
  - intros W H -> HW HH Hdw Hdh Hin. cbv zeta.
    set (x := px p - QRect_x drawn). set (y := py p - QRect_y drawn).
    destruct (QRect_contains_box drawn p ltac:(lia) ltac:(lia) Hin) as [Hx Hy].
    assert (Hw1 : 1 <= QRect_width drawn) by (unfold QRect_width; lia).
    assert (Hh1 : 1 <= QRect_height drawn) by (unfold QRect_height; lia).
    assert (H31 : 2 ^ 31 < 2 ^ 53) by reflexivity.
    destruct (rescaled_then_clamped W (QRect_width drawn) x)
      as (rx & Hrx & Hrxb & Hcx & Hrx25); [lia|lia|unfold x, QRect_x, QRect_width; lia|].
    destruct (rescaled_then_clamped H (QRect_height drawn) y)
      as (ry & Hry & Hryb & Hcy & Hry25); [lia|lia|unfold y, QRect_y, QRect_height; lia|].
    exists rx, ry.
    split; [exact Hrx|]. split; [exact Hry|]. split; [exact Hrxb|]. split; [exact Hryb|].
    split; [intros A B; apply (Hrx25 A B)|]. split; [intros A B; apply (Hry25 A B)|].
    split; [exact Hcx|]. split; [exact Hcy|].
    split; apply original_point_inside; (exact Hin || exact Hrx || exact Hry || lia).
Qed.

(** Witness of C4: a 1000 x 800 image drawn in the 100 x 80 rectangle
    at (10, 20); one point inside, one outside. *)
Lemma C4_witness :
  let single := SingleImageDisplayLabel.mk (Pixmap 1000 800) [] (-1) true
                  (mkQRect 10 20 109 99) (mkQRect 0 0 119 119) ArrowCursor in
  let combined := CombinedImageLabel.mk (Pixmap 1000 800) (Pixmap 1000 800) (Pixmap 1000 800)
                    [] (-1) true (mkQRect 10 20 109 99) (mkQRect 0 0 119 119) ArrowCursor in
  (SingleImageDisplayLabel.get_original_point_from_display single (mkQPoint 5 5) = Returned None /\
   CombinedImageLabel.get_original_point_from_display combined (mkQPoint 5 5) = Returned None) /\
  exists o : QPoint,
    SingleImageDisplayLabel.get_original_point_from_display single (mkQPoint 59 30) = Returned (Some o) /\
    CombinedImageLabel.get_original_point_from_display combined (mkQPoint 59 30) = Returned (Some o).
Proof.
  intros single combined. split.
  - apply (proj1 (C4_to_original_none_outside_rescaled_clamped_inside single combined
                    (Pixmap 1000 800) (mkQRect 10 20 109 99) (mkQPoint 5 5)
                    eq_refl eq_refl eq_refl eq_refl)).
    reflexivity.
  - destruct (proj2 (C4_to_original_none_outside_rescaled_clamped_inside single combined
                    (Pixmap 1000 800) (mkQRect 10 20 109 99) (mkQPoint 59 30)
                    eq_refl eq_refl eq_refl eq_refl) 1000 800 eq_refl)
      as (rx & ry & _ & _ & _ & _ & _ & _ & _ & _ & H1 & H2).
    + vm_compute. split; [discriminate|reflexivity].
    + vm_compute. split; [discriminate|reflexivity].
    + vm_compute. split; [discriminate|reflexivity].
    + vm_compute. split; [discriminate|reflexivity].
    + reflexivity.
    + eexists. split; [exact H1|exact H2].
Defined.

(** C1, as amended. When the image is drawn no larger than it is (the
    drawn rectangle is at most the original size on each axis, sides up
    to [2^25]), every display point inside the drawn rectangle comes
    back from [get_display_point_from_original] after
    [get_original_point_from_display] at most one pixel away on each
    axis. *)
Theorem C1_round_trip_within_one_when_not_enlarged
    (self : SingleImageDisplayLabel.t) (W H : Z) (p : QPoint) :
  SingleImageDisplayLabel._original_pixmap self = Pixmap W H ->
  1 <= QRect_width (SingleImageDisplayLabel._drawn_pixmap_rect self) <= W ->
  1 <= QRect_height (SingleImageDisplayLabel._drawn_pixmap_rect self) <= H ->
  W <= 2 ^ 25 -> H <= 2 ^ 25 ->
  QRect_contains (SingleImageDisplayLabel._drawn_pixmap_rect self) p = true ->
  exists o d : QPoint,
    SingleImageDisplayLabel.get_original_point_from_display self p = Returned (Some o) /\
    SingleImageDisplayLabel.get_display_point_from_original self o = Returned (Some d) /\
    Z.abs (px d - px p) <= 1 /\ Z.abs (py d - py p) <= 1.
Proof.
  intros Hpm Hdw Hdh HW HH Hin.
  unfold SingleImageDisplayLabel.get_original_point_from_display,
    SingleImageDisplayLabel.get_display_point_from_original.
  rewrite Hpm. set (drawn := SingleImageDisplayLabel._drawn_pixmap_rect self) in *.
  destruct (QRect_contains_box drawn p ltac:(lia) ltac:(lia) Hin) as [Hx Hy].
  assert (H25 : 2 ^ 25 < 2 ^ 53) by reflexivity.
  destruct (round_trip_axis W (QRect_width drawn) (px p - x1 drawn))
    as (rx & sx & Hrx & Hrx0 & Hsx & Hsxb); [lia|lia|unfold QRect_width in *; lia|].
  destruct (round_trip_axis H (QRect_height drawn) (py p - y1 drawn))
    as (ry & sy & Hry & Hry0 & Hsy & Hsyb); [lia|lia|unfold QRect_height in *; lia|].
  exists (mkQPoint rx ry), (mkQPoint (x1 drawn + sx) (y1 drawn + sy)).
  split.
  - rewrite (original_point_inside W H drawn p rx ry) by (assumption || lia).
    do 3 f_equal; lia.
  - split.
    + apply display_point_mapped; cbn [px py]; (assumption || lia).
    + cbn [px py]. lia.
Qed.

(** Witness of C1 as amended: a 1000 x 800 image drawn at 100 x 80. *)
Lemma C1_witness :
  exists o d : QPoint,
    original_point_from_display (Pixmap 1000 800) (mkQRect 10 20 109 99) (mkQPoint 59 30)
      = Returned (Some o) /\
    display_point_from_original (Pixmap 1000 800) (mkQRect 10 20 109 99) o = Returned (Some d) /\
    Z.abs (px d - 59) <= 1 /\ Z.abs (py d - 30) <= 1.
Proof.
  apply (C1_round_trip_within_one_when_not_enlarged
           (SingleImageDisplayLabel.mk (Pixmap 1000 800) [] (-1) true
              (mkQRect 10 20 109 99) (mkQRect 0 0 119 119) ArrowCursor)
           1000 800 (mkQPoint 59 30)).
  - reflexivity.
  - vm_compute. split; discriminate.
  - vm_compute. split; discriminate.
  - vm_compute. discriminate.
  - vm_compute. discriminate.
  - reflexivity.
Defined.

(** Counterexample to C1 as stated: a 10 x 10 image shown in a
    100 x 100 label is scaled to fit and drawn at 100 x 100; the
    on-image display point (59, 59) maps to the original pixel (5, 5),
    which maps back to (50, 50), nine pixels away on each axis. *)
Lemma C1_enlarged_image_round_trip_off_by_nine :
  let label := after (SingleImageDisplayLabel.set_image
                        (SingleImageDisplayLabel.init (mkQRect 0 0 99 99)) true (Pixmap 10 10)) in
  let p := mkQPoint 59 59 in
  SingleImageDisplayLabel._drawn_pixmap_rect label = mkQRect 0 0 99 99 /\
  QRect_contains (SingleImageDisplayLabel._drawn_pixmap_rect label) p = true /\
  SingleImageDisplayLabel.get_original_point_from_display label p
    = Returned (Some (mkQPoint 5 5)) /\
  SingleImageDisplayLabel.get_display_point_from_original label (mkQPoint 5 5)
    = Returned (Some (mkQPoint 50 50)) /\
  ~ (Z.abs (50 - px p) <= 1).
Proof.
  cbv zeta. repeat split; try (vm_compute; reflexivity).
  vm_compute. intros H. apply H. reflexivity.
Qed.

(** The size bound of the amended C1 is needed by the arithmetic: on
    an image 2147483629 pixels wide drawn 2147483615 pixels wide, the
    rounding of the two double products costs the display point
    920350124 a second pixel. *)
Lemma round_trip_off_by_two_at_huge_size :
  let pixmap := Pixmap 2147483629 1 in
  let drawn := mkQRect 0 0 2147483614 0 in
  original_point_from_display pixmap drawn (mkQPoint 920350124 0)
    = Returned (Some (mkQPoint 920350129 0)) /\
  display_point_from_original pixmap drawn (mkQPoint 920350129 0)
    = Returned (Some (mkQPoint 920350122 0)).
Proof.
  cbv zeta. split; vm_compute; reflexivity.
Qed.

End MapperClaims.

(** ** The save gate *)

Section SaveGateClaims.
Import Py Qt DragGenerator DragGenerator.ImageSelectionWindow.

Lemma path_bool_chosen (p : option string) :
  path_bool p = true <-> exists s, p = Some s /\ s <> "".
Proof.
  destruct p as [[|c s]|]; cbn; split; intros H; try discriminate; try reflexivity.
  all: first [ eexists; split; [reflexivity|discriminate]
             | destruct H as (s' & Heq & Hs); first [discriminate | injection Heq as <-; congruence] ].
Qed.

(** C3. [check_save_button_status] enables the save button exactly
    when both frame paths are chosen, the mask has exactly 4 points, the
    source list is non-empty and the source and target lists have the
    same length.  It is off with a 3-point mask, off with source
    [(1,1),(2,2)] against target [(3,3)], and on with both frames, a
    4-point mask, source [(1,1)] and target [(3,3)]. *)
Theorem C3_save_button_enabled_iff :
  (forall self : t,
     save_button_enabled (check_save_button_status self) = true <->
     ((exists f1, image_path_frame1 self = Some f1 /\ f1 <> "") /\
      (exists f2, image_path_frame2 self = Some f2 /\ f2 <> "") /\
      length (mask_points_on_combined self) = 4%nat /\
      source_points_on_frame1 self <> [] /\
      length (source_points_on_frame1 self) = length (target_points_on_frame2 self))) /\
  (forall f1 f2 m1 m2 m3 src tgt b,
     save_button_enabled (check_save_button_status (mk f1 f2 [m1; m2; m3] src tgt b)) = false) /\
  (forall f1 f2 mask b,
     save_button_enabled
       (check_save_button_status
          (mk f1 f2 mask [mkQPoint 1 1; mkQPoint 2 2] [mkQPoint 3 3] b)) = false) /\
  (forall c1 s1 c2 s2 m1 m2 m3 m4 b,
     save_button_enabled
       (check_save_button_status
          (mk (Some (String c1 s1)) (Some (String c2 s2)) [m1; m2; m3; m4]
             [mkQPoint 1 1] [mkQPoint 3 3] b)) = true).
Proof.
  split; [|split; [|split]].
  - intros self. unfold check_save_button_status, save_condition. cbn [save_button_enabled].
    rewrite <- !path_bool_chosen.
    destruct (path_bool (image_path_frame1 self)), (path_bool (image_path_frame2 self));
      cbn [andb]; try (split; [discriminate|intros (? & ? & _); discriminate]).
    destruct (Nat.eqb_spec (length (mask_points_on_combined self)) 4) as [Hm|Hm];
      cbn [andb]; [|split; [discriminate|intros (_ & _ & ? & _); contradiction]].
    destruct (source_points_on_frame1 self) as [|p src] eqn:Hsrc.
    + cbn. split; [discriminate|]. intros (_ & _ & _ & Hne & _). contradiction.
    + cbn [length Nat.ltb Nat.leb andb].
      destruct (Nat.eqb_spec (S (length src)) (length (target_points_on_frame2 self))) as [Hl|Hl].
      * split; [|reflexivity]. intros _. repeat split; try reflexivity; try assumption. discriminate.
      * split; [discriminate|]. intros (_ & _ & _ & _ & Hlen). contradiction.
  - intros. unfold check_save_button_status, save_condition. cbn [save_button_enabled].
    cbn [mask_points_on_combined length Nat.eqb]. rewrite !andb_false_r. reflexivity.
  - intros. unfold check_save_button_status, save_condition. cbn [save_button_enabled].
    cbn [source_points_on_frame1 target_points_on_frame2 length Nat.eqb].
    rewrite !andb_false_r. reflexivity.
  - intros. reflexivity.
Qed.

(** Witness of C3: both frames, a 4-point mask, one source and one
    target point. *)
Lemma C3_witness :
  save_button_enabled
    (check_save_button_status
       (mk (Some "clip/a.png") (Some "clip/b.png")
          [mkQPoint 0 0; mkQPoint 9 0; mkQPoint 9 9; mkQPoint 0 9]
          [mkQPoint 1 1] [mkQPoint 3 3] false)) = true.
Proof.
  apply (proj1 C3_save_button_enabled_iff).
  split; [exists "clip/a.png"; split; [reflexivity|discriminate]|].
  split; [exists "clip/b.png"; split; [reflexivity|discriminate]|].
  split; [reflexivity|]. split; [discriminate|reflexivity].
Defined.

End SaveGateClaims.

(** ** The annotation sessions *)

Section SessionClaims.
Import Py Qt DragGenerator.

Lemma list_setitem_length {A : Type} (l l' : list A) (i : Z) (v : A) :
  list_setitem l i v = Returned l' -> length l' = length l.
Proof.
  unfold list_setitem. intros H.
  destruct ((0 <=? i) && (i <? Z.of_nat (length l))).
  - injection H as <-. apply length_insert.
  - destruct ((- Z.of_nat (length l) <=? i) && (i <? 0)); [|discriminate].
    injection H as <-. apply length_insert.
Qed.

Lemma first_hit_found (pixmap : QPixmap) (drawn : QRect) (event_pos : QPoint)
    (points : list QPoint) (k i : nat) :
  first_hit pixmap drawn event_pos points k = Returned (Some i) ->
  (k <= i < k + length points)%nat /\
  (exists p, points !! (i - k)%nat = Some p /\ passes_hit_test pixmap drawn event_pos p) /\
  (forall j p, (j < i - k)%nat -> points !! j = Some p ->
               ~ passes_hit_test pixmap drawn event_pos p).
Proof.
  revert k. induction points as [|q rest IH]; intros k H; cbn [first_hit] in H; [discriminate|].
  destruct (display_point_from_original pixmap drawn q) as [[d|]|e] eqn:Hd; cbn [bind] in H;
    [|apply IH in H|discriminate].
  - destruct (QPoint_bool d && (manhattanLength (QPoint_sub event_pos d) <? 15)) eqn:Htest.
    + injection H as <-. apply andb_true_iff in Htest as [Hb Hm]. apply Z.ltb_lt in Hm.
      replace (k - k)%nat with 0%nat by lia. cbn [length]. split; [lia|]. split.
      * exists q. split; [reflexivity|]. exists d. auto.
      * intros j p Hj. lia.
    + apply IH in H. destruct H as (Hr & (p & Hp & Hpass) & Hbefore). cbn [length].
      split; [lia|]. split.
      * exists p. split; [|exact Hpass].
        replace (i - k)%nat with (S (i - S k)) by lia. exact Hp.
      * intros j p' Hj Hp'. destruct j as [|j].
        -- cbn in Hp'. injection Hp' as <-. intros (d' & Hd' & Hb & Hm).
           rewrite Hd in Hd'. injection Hd' as <-.
           rewrite Hb in Htest. cbn [andb] in Htest. apply Z.ltb_ge in Htest. lia.
        -- cbn in Hp'. apply (Hbefore j p'); [lia|exact Hp'].
  - destruct H as (Hr & (p & Hp & Hpass) & Hbefore). cbn [length].
    split; [lia|]. split.
    + exists p. split; [|exact Hpass].
      replace (i - k)%nat with (S (i - S k)) by lia. exact Hp.
    + intros j p' Hj Hp'. destruct j as [|j].
      * cbn in Hp'. injection Hp' as <-. intros (d' & Hd' & _).
        rewrite Hd in Hd'. discriminate.
      * cbn in Hp'. apply (Hbefore j p'); [lia|exact Hp'].
Qed.


(** One operation of the mask session keeps the list within four
    points. *)
Lemma perform_keeps_at_most_four (self : CombinedImageLabel.t)
    (op : CombinedImageLabel.operation) :
  (length (CombinedImageLabel.mask_points self) <= 4)%nat ->
  (length (CombinedImageLabel.mask_points (after (CombinedImageLabel.perform self op))) <= 4)%nat.
Proof.
  intros Hlen. destruct op as [pm1 pm2|contents|event|event|event|enabled|]; cbn [CombinedImageLabel.perform].
  - unfold CombinedImageLabel.set_images, CombinedImageLabel._combine_pixmaps.
    cbn. destruct (QPixmap_isNull pm1 || QPixmap_isNull pm2); cbn; lia.
  - cbn. exact Hlen.
  - unfold CombinedImageLabel.mousePressEvent.
    destruct (negb (CombinedImageLabel.mask_mode_enabled self)
              || QPixmap_isNull (CombinedImageLabel.combined_pixmap self)); [exact Hlen|].
    destruct (CombinedImageLabel.get_original_point_from_display self (pos event))
      as [[o|]|e]; [|exact Hlen|exact Hlen].
    destruct (negb (QPoint_bool o)); [exact Hlen|].
    destruct (button event); try exact Hlen.
    destruct (CombinedImageLabel.hit _ (pos event)) as [found|e]; [|exact Hlen].
    destruct found as [i|]; cbn;
      repeat match goal with |- context [if ?b then _ else _] => destruct b eqn:? end;
      cbn; rewrite ?length_app; cbn;
      repeat match goal with E : (_ <=? _)%nat = true |- _ => apply Nat.leb_le in E end;
      lia.
  - unfold CombinedImageLabel.mouseMoveEvent.
    destruct (negb (CombinedImageLabel.mask_mode_enabled self)
              || QPixmap_isNull (CombinedImageLabel.combined_pixmap self)); [exact Hlen|].
    destruct (negb (CombinedImageLabel.dragging_point_index self =? -1) && buttons_left event).
    + destruct (CombinedImageLabel.get_original_point_from_display self (pos event))
        as [[o|]|e]; [|exact Hlen|exact Hlen].
      destruct (QPoint_bool o); [|exact Hlen].
      destruct (list_setitem _ _ o) as [l|e] eqn:Hset; [|exact Hlen].
      cbn. rewrite (list_setitem_length _ _ _ _ Hset). exact Hlen.
    + destruct (if CombinedImageLabel.mask_mode_enabled self
                   && negb (QPixmap_isNull (CombinedImageLabel.combined_pixmap self))
                then CombinedImageLabel.hit self (pos event) else Returned None)
        as [[i|]|e]; try exact Hlen.
      destruct (CombinedImageLabel.mask_mode_enabled self); exact Hlen.
  - unfold CombinedImageLabel.mouseReleaseEvent.
    destruct (negb (CombinedImageLabel.mask_mode_enabled self)); exact Hlen.
  - unfold CombinedImageLabel.set_mask_mode_enabled. destruct (negb enabled); exact Hlen.
  - cbn. lia.
Qed.

Lemma session_keeps_at_most_four (ops : list CombinedImageLabel.operation)
    (self : CombinedImageLabel.t) :
  (length (CombinedImageLabel.mask_points self) <= 4)%nat ->
  (length (CombinedImageLabel.mask_points
             (fold_left (fun s op => after (CombinedImageLabel.perform s op)) ops self)) <= 4)%nat.
Proof.
  revert self. induction ops as [|op ops IH]; intros self H; cbn [fold_left]; [exact H|].
  apply IH. apply perform_keeps_at_most_four. exact H.
Qed.

(** C5. In the mask annotation session the point list never exceeds
    4 points: it holds after every sequence of operations, every single
    operation preserves it, and a left click that hits no handle while
    4 points are present leaves the list as it is and announces
    nothing. *)
Theorem C5_mask_points_never_exceed_four :
  (forall (contents : QRect) (ops : list CombinedImageLabel.operation),
     (length (CombinedImageLabel.mask_points (CombinedImageLabel.session contents ops)) <= 4)%nat) /\
  (forall (self : CombinedImageLabel.t) (op : CombinedImageLabel.operation),
     (length (CombinedImageLabel.mask_points self) <= 4)%nat ->
     (length (CombinedImageLabel.mask_points (after (CombinedImageLabel.perform self op))) <= 4)%nat) /\
  (forall (self : CombinedImageLabel.t) (event : QMouseEvent),
     length (CombinedImageLabel.mask_points self) = 4%nat ->
     button event = LeftButton ->
     CombinedImageLabel.hit self (pos event) = Returned None ->
     CombinedImageLabel.mask_points (after (CombinedImageLabel.mousePressEvent self event))
       = CombinedImageLabel.mask_points self /\
     emitted (CombinedImageLabel.mousePressEvent self event) = []).
Proof.
  split; [|split].
  - intros contents ops. unfold CombinedImageLabel.session.
    apply session_keeps_at_most_four. cbn. lia.
  - exact perform_keeps_at_most_four.
  - intros self event Hfour Hleft Hmiss.
    unfold CombinedImageLabel.mousePressEvent.
    destruct (negb (CombinedImageLabel.mask_mode_enabled self)
              || QPixmap_isNull (CombinedImageLabel.combined_pixmap self)); [auto|].
    destruct (CombinedImageLabel.get_original_point_from_display self (pos event))
      as [[o|]|e] eqn:Ho.
    + destruct (negb (QPoint_bool o)); [auto|].
      rewrite Hleft.
      replace (CombinedImageLabel.hit (CombinedImageLabel.set_dragging self (-1)) (pos event))
        with (CombinedImageLabel.hit self (pos event)) by reflexivity.
      rewrite Hmiss. cbn. rewrite Hfour. cbn. auto.
    + auto.
    + cbn. auto.
Qed.


(** Witness of C5: four handles on a 100 x 100 image, a left click in
    the middle. *)
Lemma C5_witness :
  let self := CombinedImageLabel.mk (Pixmap 100 100) (Pixmap 100 100) (Pixmap 100 100)
                [mkQPoint 10 10; mkQPoint 80 10; mkQPoint 80 80; mkQPoint 10 80]
                (-1) true (mkQRect 0 0 99 99) (mkQRect 0 0 99 99) ArrowCursor in
  let event := mkQMouseEvent (mkQPoint 50 50) LeftButton true in
  CombinedImageLabel.mask_points (after (CombinedImageLabel.mousePressEvent self event))
    = [mkQPoint 10 10; mkQPoint 80 10; mkQPoint 80 80; mkQPoint 10 80] /\
  emitted (CombinedImageLabel.mousePressEvent self event) = [] /\
  (length (CombinedImageLabel.mask_points
             (after (CombinedImageLabel.perform self (CombinedImageLabel.MousePress event)))) <= 4)%nat.
Proof.
  intros self event.
  destruct C5_mask_points_never_exceed_four as (_ & Hstep & Hnoop).
  destruct (Hnoop self event) as [Hsame Hquiet].
  - reflexivity.
  - reflexivity.
  - vm_compute. reflexivity.
  - split; [exact Hsame|]. split; [exact Hquiet|].
    apply Hstep. cbn. lia.
Defined.

(** The scan finds the first point that passes the test, provided it
    gets that far: the projections of the points before it return. *)
Lemma first_hit_finds (pixmap : QPixmap) (drawn : QRect) (event_pos : QPoint)
    (points : list QPoint) :
  forall (k i : nat) (p : QPoint),
    points !! i = Some p ->
    passes_hit_test pixmap drawn event_pos p ->
    (forall j q, (j < i)%nat -> points !! j = Some q ->
                 (exists r, display_point_from_original pixmap drawn q = Returned r)
                 /\ ~ passes_hit_test pixmap drawn event_pos q) ->
    first_hit pixmap drawn event_pos points k = Returned (Some (k + i)%nat).
Proof.
  induction points as [|q rest IH]; intros k i p Hp Hpass Hbefore; [discriminate Hp|].
  cbn [first_hit]. destruct i as [|i].
  - injection Hp as ->. destruct Hpass as (d & Hd & Hb & Hm).
    rewrite Hd. cbn [bind]. rewrite Hb. cbn [andb].
    destruct (Z.ltb_spec (manhattanLength (QPoint_sub event_pos d)) 15) as [_|Hge]; [|lia].
    rewrite Nat.add_0_r. reflexivity.
  - destruct (Hbefore 0%nat q ltac:(lia) eq_refl) as [[r Hr] Hno].
    rewrite Hr. cbn [bind].
    assert (Hrest : first_hit pixmap drawn event_pos rest (S k)
                    = Returned (Some (k + S i)%nat)).
    { replace (k + S i)%nat with (S k + i)%nat by lia.
      apply (IH (S k) i p Hp Hpass).
      intros j q' Hj Hq'. apply (Hbefore (S j) q'); [lia|exact Hq']. }
    destruct r as [d|]; [|exact Hrest].
    destruct (QPoint_bool d && (manhattanLength (QPoint_sub event_pos d) <? 15)) eqn:Htest;
      [|exact Hrest].
    exfalso. apply Hno. apply andb_true_iff in Htest as [Hb Hm]. apply Z.ltb_lt in Hm.
    exists d. auto.
Qed.

(** C8, as amended. In the point annotation session (point mode on,
    image loaded) a right click inside the drawn image, at a position
    that maps to an original pixel other than the origin, removes the
    first point in insertion order that passes the hit test (display
    projection not the display origin and at Manhattan distance below
    15 from the click), the scan having got that far: the list of
    length [n] becomes the list of length [n - 1] without element [i],
    the points before [i] keep their index and the later ones move
    down by one; the new list is announced once.  A click outside the
    drawn rectangle, with any button and in any state of the label,
    changes nothing and announces nothing, however close it is to a
    point. *)
Theorem C8_right_click_on_image_removes_first_hit :
  (forall (self : SingleImageDisplayLabel.t) (event : QMouseEvent) (o p : QPoint) (i : nat),
     SingleImageDisplayLabel.point_mode_enabled self = true ->
     QPixmap_isNull (SingleImageDisplayLabel._original_pixmap self) = false ->
     SingleImageDisplayLabel.get_original_point_from_display self (pos event)
     = Returned (Some o) ->
     QPoint_bool o = true ->
     button event = RightButton ->
     let l := SingleImageDisplayLabel.current_points self in
     let passes :=
       passes_hit_test (SingleImageDisplayLabel._original_pixmap self)
         (SingleImageDisplayLabel._drawn_pixmap_rect self) (pos event) in
     l !! i = Some p ->
     passes p ->
     (forall j q, (j < i)%nat -> l !! j = Some q ->
                  (exists r, SingleImageDisplayLabel.get_display_point_from_original self q
                             = Returned r)
                  /\ ~ passes q) ->
     let l' := SingleImageDisplayLabel.current_points
                 (after (SingleImageDisplayLabel.mousePressEvent self event)) in
     l' = take i l ++ drop (S i) l /\
     length l' = (length l - 1)%nat /\
     (forall j, (j < i)%nat -> l' !! j = l !! j) /\
     (forall j, (i <= j)%nat -> l' !! j = l !! S j) /\
     emitted (SingleImageDisplayLabel.mousePressEvent self event) = [l'] /\
     raised (SingleImageDisplayLabel.mousePressEvent self event) = None) /\
  (forall (self : SingleImageDisplayLabel.t) (event : QMouseEvent),
     QRect_contains (SingleImageDisplayLabel._drawn_pixmap_rect self) (pos event) = false ->
     SingleImageDisplayLabel.mousePressEvent self event = finished self /\
     SingleImageDisplayLabel.current_points
       (after (SingleImageDisplayLabel.mousePressEvent self event))
     = SingleImageDisplayLabel.current_points self /\
     emitted (SingleImageDisplayLabel.mousePressEvent self event) = []).
Proof.
  split.
  - intros self event o p i Hon Hpm Ho Hob Hright l passes Hp Hpass Hbefore l'.
    assert (Hhit : SingleImageDisplayLabel.hit self (pos event) = Returned (Some i)).
    { unfold SingleImageDisplayLabel.hit.
      exact (first_hit_finds _ _ _ _ 0%nat i p Hp Hpass Hbefore). }
    assert (Hi : (i < length l)%nat) by (apply lookup_lt_Some with p; exact Hp).
    assert (Hrun : SingleImageDisplayLabel.mousePressEvent self event
                   = announced (SingleImageDisplayLabel.set_points self (delete i l))
                       (delete i l)).
    { unfold SingleImageDisplayLabel.mousePressEvent.
      rewrite Hon, Hpm, Ho, Hob, Hright, Hhit. cbn [negb orb].
      unfold list_pop. fold l.
      destruct (Nat.ltb_spec i (length l)) as [_|Hge]; [|lia]. reflexivity. }
    assert (Hl' : l' = delete i l) by (subst l'; rewrite Hrun; reflexivity).
    rewrite Hl', Hrun.
    split; [apply delete_take_drop|].
    split; [apply length_delete; apply lookup_lt_is_Some_2; exact Hi|].
    split; [intros j Hj; apply list_lookup_delete_lt; exact Hj|].
    split; [intros j Hj; apply list_lookup_delete_ge; exact Hj|].
    split; reflexivity.
  - intros self event Hout.
    assert (Hrun : SingleImageDisplayLabel.mousePressEvent self event = finished self).
    { unfold SingleImageDisplayLabel.mousePressEvent.
      destruct (negb (SingleImageDisplayLabel.point_mode_enabled self)
                || QPixmap_isNull (SingleImageDisplayLabel._original_pixmap self));
        [reflexivity|].
      unfold SingleImageDisplayLabel.get_original_point_from_display,
        original_point_from_display.
      destruct (QPixmap_isNull (SingleImageDisplayLabel._original_pixmap self)
                || QRect_isNull (SingleImageDisplayLabel._drawn_pixmap_rect self));
        [reflexivity|].
      rewrite Hout. reflexivity. }
    rewrite Hrun. repeat split.
Qed.

(** Witness of C8 as amended: three points on a 100 x 100 image drawn
    at scale one, a right click next to the second; and the same
    label after a click beside the image. *)
Lemma C8_witness :
  let self := SingleImageDisplayLabel.mk (Pixmap 100 100)
                [mkQPoint 10 10; mkQPoint 50 50; mkQPoint 52 52] (-1) true
                (mkQRect 0 0 99 99) (mkQRect 0 0 99 99) ArrowCursor in
  let event := mkQMouseEvent (mkQPoint 51 50) RightButton false in
  let beside := mkQMouseEvent (mkQPoint 100 50) RightButton false in
  SingleImageDisplayLabel.current_points
    (after (SingleImageDisplayLabel.mousePressEvent self event))
  = [mkQPoint 10 10; mkQPoint 52 52] /\
  SingleImageDisplayLabel.current_points
    (after (SingleImageDisplayLabel.mousePressEvent self beside))
  = [mkQPoint 10 10; mkQPoint 50 50; mkQPoint 52 52].
Proof.
  intros self event beside.
  destruct C8_right_click_on_image_removes_first_hit as [Hremove Houtside].
  split.
  - destruct (Hremove self event (mkQPoint 51 50) (mkQPoint 50 50) 1%nat)
      as (Hl & _).
    + reflexivity.
    + reflexivity.
    + vm_compute. reflexivity.
    + reflexivity.
    + reflexivity.
    + reflexivity.
    + exists (mkQPoint 50 50). split; [vm_compute; reflexivity|].
      split; [reflexivity|]. vm_compute. reflexivity.
    + intros j q Hj Hq. assert (j = 0%nat) by lia. subst j.
      injection Hq as <-. split.
      * eexists. vm_compute. reflexivity.
      * intros (d & Hd & _ & Hm).
        assert (Hd' : display_point_from_original (Pixmap 100 100) (mkQRect 0 0 99 99)
                        (mkQPoint 10 10) = Returned (Some (mkQPoint 10 10)))
          by (vm_compute; reflexivity).
        cbn [SingleImageDisplayLabel._original_pixmap
               SingleImageDisplayLabel._drawn_pixmap_rect self] in Hd.
        unfold self in Hd.
        cbn [SingleImageDisplayLabel._original_pixmap
               SingleImageDisplayLabel._drawn_pixmap_rect] in Hd.
        rewrite Hd' in Hd. injection Hd as <-.
        vm_compute in Hm. discriminate Hm.
    + rewrite Hl. reflexivity.
  - destruct (Houtside self beside) as (_ & Hsame & _); [vm_compute; reflexivity|].
    rewrite Hsame. reflexivity.
Defined.

(** Counterexample to C8 as stated: a 100 x 100 image centred in a
    200 x 100 label is drawn in the rectangle from (50, 0) to (149, 99).
    A left click at (50, 50) adds the original point (0, 50), shown at
    (50, 50).  A right click at (45, 50) is 5 pixels from it, within the
    threshold, but outside the drawn rectangle: the handler returns
    before the scan and the point stays. *)
Lemma C8_right_click_beside_image_removes_nothing :
  let s0 := SingleImageDisplayLabel.set_point_mode_enabled
              (after (SingleImageDisplayLabel.set_image
                        (SingleImageDisplayLabel.init (mkQRect 0 0 199 99)) true (Pixmap 100 100)))
              true in
  let s1 := after (SingleImageDisplayLabel.mousePressEvent s0
                     (mkQMouseEvent (mkQPoint 50 50) LeftButton true)) in
  let click := mkQMouseEvent (mkQPoint 45 50) RightButton false in
  SingleImageDisplayLabel._drawn_pixmap_rect s1 = mkQRect 50 0 149 99 /\
  SingleImageDisplayLabel.current_points s1 = [mkQPoint 0 50] /\
  SingleImageDisplayLabel.get_display_point_from_original s1 (mkQPoint 0 50)
    = Returned (Some (mkQPoint 50 50)) /\
  manhattanLength (QPoint_sub (pos click) (mkQPoint 50 50)) = 5 /\
  SingleImageDisplayLabel.current_points
    (after (SingleImageDisplayLabel.mousePressEvent s1 click)) = [mkQPoint 0 50] /\
  emitted (SingleImageDisplayLabel.mousePressEvent s1 click) = [].
Proof.
  cbv zeta. repeat split; vm_compute; reflexivity.
Qed.

End SessionClaims.

(** ** The directory scanner and the writer *)

Section ScannerClaims.
Import Py Qt DragGenerator.

Lemma insert_sorted_In (x y : string) (l : list string) :
  In y (insert_sorted x l) <-> y = x \/ In y l.
Proof.
  induction l as [|z l IH]; cbn [insert_sorted].
  - cbn. intuition congruence.
  - destruct (String.leb x z); cbn [In]; [intuition congruence|].
    rewrite IH. intuition congruence.
Qed.

Lemma sorted_In (y : string) (l : list string) : In y (sorted l) <-> In y l.
Proof.
  induction l as [|x l IH]; cbn [sorted]; [reflexivity|].
  rewrite insert_sorted_In, IH. cbn [In]. intuition congruence.
Qed.

Lemma insert_sorted_ordered (x : string) (l : list string) :
  StronglySorted String.le l -> StronglySorted String.le (insert_sorted x l).
Proof.
  induction 1 as [|z l Hl IH Hz]; cbn [insert_sorted].
  - constructor; constructor.
  - destruct (String.leb x z) eqn:E.
    + assert (Hxz : String.le x z) by (unfold String.le; rewrite E; exact I).
      constructor; [constructor; assumption|].
      constructor; [exact Hxz|].
      rewrite List.Forall_forall in Hz |- *. intros y Hy.
      transitivity z; [exact Hxz|apply Hz; exact Hy].
    + constructor; [exact IH|].
      rewrite List.Forall_forall in Hz |- *. intros y Hy.
      apply insert_sorted_In in Hy as [->|Hy]; [|apply Hz; exact Hy].
      destruct (String.leb_total x z) as [Hc|Hc]; [congruence|].
      unfold String.le. rewrite Hc. exact I.
Qed.

Lemma sorted_ordered (l : list string) : StronglySorted String.le (sorted l).
Proof.
  induction l as [|x l IH]; cbn [sorted]; [constructor|].
  apply insert_sorted_ordered. exact IH.
Qed.

Lemma Permutation_filter_length {A : Type} (f : A -> bool) (l l' : list A) :
  Permutation l l' -> length (List.filter f l) = length (List.filter f l').
Proof.
  induction 1 as [|x l l' _ IH|x y l|l l' l'' _ IH1 _ IH2]; cbn [List.filter].
  - reflexivity.
  - destruct (f x); cbn [length]; congruence.
  - destruct (f x), (f y); reflexivity.
  - congruence.
Qed.

Lemma image_count_names (children : list (string * entry)) :
  ImageSelectionWindow.image_count (Directory children)
  = length (List.filter (fun c => has_image_extension (fst c)) children).
Proof.
  unfold ImageSelectionWindow.image_count, listdir.
  induction children as [|[name e] cs IH]; [reflexivity|].
  cbn [List.map List.filter fst]. destruct (has_image_extension name); cbn [length]; congruence.
Qed.

Lemma has_image_extension_named (name : string) :
  has_image_extension name = true <-> image_named name.
Proof.
  unfold has_image_extension, image_named, IMAGE_EXTENSIONS. rewrite existsb_exists.
  reflexivity.
Qed.

Lemma has_image_extension_other (name : string) :
  ~ image_named name -> has_image_extension name = false.
Proof.
  intros H. destruct (has_image_extension name) eqn:E; [|reflexivity].
  apply has_image_extension_named in E. contradiction.
Qed.

(** C9. The scanner's image count of a folder is the number of its
    entries whose lower-cased name ends with an allowed extension
    ([.png], [.jpg], [.jpeg], [.gif], [.bmp], [.tiff], [.webp]),
    whatever the entries are: an entry with such a name adds one to
    the count whether it is a file or a directory, an entry with
    another name adds nothing, and turning every entry into a regular
    file leaves the count unchanged.  A folder that holds one image
    file and one subdirectory named like an image has a count above 1,
    is listed by [scan_directory], and the subdirectory's path is in
    the sorted image list of its thumbnail widget, which holds the
    paths of the image-named entries and no other. *)
Theorem C9_image_count_takes_names_only :
  (forall (name : string) (e : entry) (children : list (string * entry)),
     (image_named name ->
      ImageSelectionWindow.image_count (Directory ((name, e) :: children))
      = S (ImageSelectionWindow.image_count (Directory children))) /\
     (~ image_named name ->
      ImageSelectionWindow.image_count (Directory ((name, e) :: children))
      = ImageSelectionWindow.image_count (Directory children))) /\
  ImageSelectionWindow.image_count (Directory []) = 0%nat /\
  (forall children : list (string * entry),
     ImageSelectionWindow.image_count (Directory children)
     = ImageSelectionWindow.image_count
         (Directory (List.map (fun c => (fst c, RegularFile)) children))) /\
  (forall (folder_path path : string) (children : list (string * entry)),
     In path (ImageThumbnailWidget._get_image_paths folder_path (Directory children))
     <-> exists name e,
           In (name, e) children /\ image_named name /\ path = path_join folder_path name) /\
  (forall (root_dir name img sub : string) (children sub_children rest : list (string * entry))
          (before behind : list (string * entry)),
     image_named img ->
     image_named sub ->
     Permutation children ((img, RegularFile) :: (sub, Directory sub_children) :: rest) ->
     let folder := Directory children in
     let widget := ImageThumbnailWidget.init (path_join root_dir name) folder in
     (1 < ImageSelectionWindow.image_count folder)%nat /\
     In widget (ImageSelectionWindow.scan_directory root_dir
                  (Directory (before ++ (name, folder) :: behind))) /\
     In (path_join (path_join root_dir name) sub) (ImageThumbnailWidget.image_paths widget) /\
     StronglySorted String.le (ImageThumbnailWidget.image_paths widget)).
Proof.
  split; [|split; [reflexivity|split; [|split]]].
  - intros name e children. rewrite !image_count_names. cbn [List.filter fst]. split.
    + intros H. apply has_image_extension_named in H. rewrite H. reflexivity.
    + intros H. rewrite (has_image_extension_other name H). reflexivity.
  - intros children. rewrite !image_count_names.
    induction children as [|[n e] cs IH]; [reflexivity|].
    cbn [List.map List.filter fst]. destruct (has_image_extension n); cbn [length]; congruence.
  - intros folder_path path children. unfold ImageThumbnailWidget._get_image_paths, listdir.
    rewrite sorted_In, in_map_iff. split.
    + intros (name & <- & Hin). apply filter_In in Hin as [Hin Hext].
      apply in_map_iff in Hin as ([name' e] & Hname & Hin). cbn [fst] in Hname. subst name'.
      exists name, e. split; [exact Hin|]. split; [|reflexivity].
      apply has_image_extension_named, Hext.
    + intros (name & e & Hin & Hext & ->). exists name. split; [reflexivity|].
      apply filter_In. split.
      * apply (in_map fst) with (x := (name, e)). exact Hin.
      * apply has_image_extension_named, Hext.
  - intros root_dir name img sub children sub_children rest before behind Himg Hsub Hperm folder widget.
    apply has_image_extension_named in Himg, Hsub.
    assert (Hcount : (1 < ImageSelectionWindow.image_count folder)%nat).
    { unfold folder. rewrite image_count_names.
      rewrite (Permutation_filter_length _ _ _ Hperm).
      cbn [List.filter fst]. rewrite Himg, Hsub. cbn [length]. lia. }
    split; [exact Hcount|]. split; [|split].
    + unfold ImageSelectionWindow.scan_directory.
      apply in_flat_map. exists (name, folder). split.
      * apply in_or_app. right. left. reflexivity.
      * change (In widget
                  (if isdir folder then
                     if (1 <? ImageSelectionWindow.image_count folder)%nat
                     then [ImageThumbnailWidget.init (path_join root_dir name) folder]
                     else []
                   else [])).
        replace (isdir folder) with true by reflexivity.
        destruct (Nat.ltb_spec 1 (ImageSelectionWindow.image_count folder)) as [_|Hle]; [|lia].
        apply in_eq.
    + unfold widget, ImageThumbnailWidget.init. cbn [ImageThumbnailWidget.image_paths].
      unfold ImageThumbnailWidget._get_image_paths.
      apply sorted_In. apply in_map. apply filter_In. split; [|exact Hsub].
      unfold folder, listdir.
      apply (in_map fst) with (x := (sub, Directory sub_children)).
      apply Permutation_in with ((img, RegularFile) :: (sub, Directory sub_children) :: rest).
      * symmetry. exact Hperm.
      * right. left. reflexivity.
    + unfold widget, ImageThumbnailWidget.init. cbn [ImageThumbnailWidget.image_paths].
      apply sorted_ordered.
Qed.

(** Witness of C9: a folder with the file [a.png], the directory
    [b.PNG] and the file [notes.txt], next to a folder with one image
    and two other files. *)
Lemma C9_witness :
  let folder :=
    Directory [("b.PNG", Directory []); ("notes.txt", RegularFile); ("a.png", RegularFile)] in
  let other :=
    Directory [("c.gif", RegularFile); ("c.gif.txt", RegularFile); ("png", RegularFile)] in
  image_named "a.png" /\ image_named "b.PNG" /\ ~ image_named "notes.txt" /\
  ImageSelectionWindow.scan_directory "/shots" (Directory [("clip", folder); ("rest", other)])
  = [ImageThumbnailWidget.mk "/shots/clip" ["/shots/clip/a.png"; "/shots/clip/b.PNG"] 0] /\
  ImageSelectionWindow.image_count folder = 2%nat /\
  ImageSelectionWindow.image_count other = 1%nat.
Proof.
  intros folder other.
  assert (Ha : image_named "a.png") by (exists ".png"; split; [cbn; tauto|reflexivity]).
  assert (Hb : image_named "b.PNG") by (exists ".png"; split; [cbn; tauto|reflexivity]).
  assert (Hother : forall name,
             has_image_extension name = false -> ~ image_named name).
  { intros name E H. apply has_image_extension_named in H. congruence. }
  assert (Hn : ~ image_named "notes.txt") by (apply Hother; reflexivity).
  split; [exact Ha|]. split; [exact Hb|]. split; [exact Hn|].
  split; [vm_compute; reflexivity|].
  destruct C9_image_count_takes_names_only as (Hstep & Hnil & _).
  split.
  - unfold folder.
    rewrite (proj1 (Hstep "b.PNG" _ _) Hb), (proj2 (Hstep "notes.txt" _ _) Hn),
      (proj1 (Hstep "a.png" _ _) Ha), Hnil. reflexivity.
  - unfold other.
    rewrite (proj1 (Hstep "c.gif" _ _)), (proj2 (Hstep "c.gif.txt" _ _)),
      (proj2 (Hstep "png" _ _)), Hnil;
      [reflexivity|apply Hother; reflexivity|apply Hother; reflexivity|].
    exists ".gif". split; [cbn; tauto|reflexivity].
Defined.

End ScannerClaims.

Section SaveClaims.
Import Py Qt DragGenerator DragGenerator.ImageSelectionWindow.



Lemma string_app_assoc (a b c : string) : (a +:+ b) +:+ c = a +:+ (b +:+ c).
Proof.
  induction a as [|x a IH]; [reflexivity|].
  change (String x ((a +:+ b) +:+ c) = String x (a +:+ (b +:+ c))).
  rewrite IH. reflexivity.
Qed.


(** **** The text written, character by character *)











End SaveClaims.

(** ** The viewer *)

Section ViewerClaims.
Import Py App.

Lemma prefix_append_left (a b s : string) :
  String.prefix (a +:+ b) s = true -> String.prefix a s = true.
Proof.
  revert s. induction a as [|x a IH]; intros s H.
  - destruct s; reflexivity.
  - destruct s as [|y s]; [discriminate|].
    change (String.prefix (String x (a +:+ b)) (String y s) = true) in H.
    cbn [String.prefix] in *.
    destruct (ascii_dec x y); [|discriminate]. apply IH. exact H.
Qed.

Lemma prefix_refl (s : string) : String.prefix s s = true.
Proof.
  induction s as [|x s IH]; [reflexivity|]. cbn [String.prefix].
  destruct (ascii_dec x x); [exact IH|congruence].
Qed.

(** The prefix test of [update_caption] lets every path inside the
    data root through. *)
Lemma path_within_passes_prefix_test (root p : string) :
  path_within root p = true -> startswith p root = true.
Proof.
  unfold path_within, startswith. intros H. apply orb_true_iff in H as [H|H].
  - apply String.eqb_eq in H. subst. apply prefix_refl.
  - apply prefix_append_left with "/". exact H.
Qed.

(** A path whose absolute form does not start with the absolute form of
    the data root is refused with 403 and nothing is written. *)
Lemma update_caption_denies_without_prefix (d : disk) (cwd path : string) (cap : json)
    (files : gmap string file) :
  path <> "" -> cap <> JNull ->
  startswith (abspath cwd path) (abspath cwd BASE_DIR) = false ->
  update_caption d cwd (mkCaptionRequest (Some (JStr path)) (Some cap)) files
  = (mkResponse 403 false (Text "Access denied"), files).
Proof.
  intros Hne Hcap Hpre. unfold update_caption. cbn [json_file_path caption get_field json_bool].
  destruct path as [|c path]; [congruence|]. cbn [str_bool negb orb].
  destruct cap; try congruence; rewrite Hpre; reflexivity.
Qed.

Lemma update_caption_patches_inside (d : disk) (cwd path : string) (cap : json)
    (files : gmap string file) (kvs : list (string * json)) :
  path <> "" -> cap <> JNull ->
  path_within (abspath cwd BASE_DIR) (abspath cwd path) = true ->
  files !! abspath cwd path = Some (Loads (JDict kvs)) ->
  open_refused d (abspath cwd path) = None ->
  write_cut d (abspath cwd path) = None ->
  utf8_encodable (JDict (dict_set "caption" cap kvs)) = true ->
  update_caption d cwd (mkCaptionRequest (Some (JStr path)) (Some cap)) files
  = (mkResponse 200 true (Text "Caption updated successfully"),
     <[abspath cwd path := Loads (JDict (dict_set "caption" cap kvs))]> files).
Proof.
  intros Hne Hcap Hin Hfile Hopen Hcut Henc. unfold update_caption.
  cbn [json_file_path caption get_field json_bool].
  destruct path as [|c path]; [congruence|]. cbn [str_bool negb orb].
  rewrite (path_within_passes_prefix_test _ _ Hin). cbn [negb].
  unfold patch_caption, open_path, rewrite_file. rewrite Hopen, Hfile.
  cbn [load bind json_setitem]. rewrite Hcut, Henc.
  destruct cap; try congruence; reflexivity.
Qed.

(** C2 fails on the code. The request names [data_evil/x.json]; with
    the process in [/srv/app] that is [/srv/app/data_evil/x.json],
    which is not inside the data root [/srv/app/data], yet it starts
    with the root's characters: the request is answered 200 and the
    file is rewritten with the caption. *)
Theorem C2_sibling_of_data_root_is_patched :
  let cwd := "/srv/app" in
  let record := JDict [("frame1_image", JStr "a.png"); ("frame2_image", JStr "b.png")] in
  let files : gmap string file := {[ "/srv/app/data_evil/x.json" := Loads record ]} in
  let request := mkCaptionRequest (Some (JStr "data_evil/x.json")) (Some (JStr "planted")) in
  abspath cwd BASE_DIR = "/srv/app/data" /\
  abspath cwd "data_evil/x.json" = "/srv/app/data_evil/x.json" /\
  path_within (abspath cwd BASE_DIR) (abspath cwd "data_evil/x.json") = false /\
  fst (update_caption obliging cwd request files)
    = mkResponse 200 true (Text "Caption updated successfully") /\
  snd (update_caption obliging cwd request files) !! "/srv/app/data_evil/x.json"
    = Some (Loads (JDict [("frame1_image", JStr "a.png"); ("frame2_image", JStr "b.png");
                          ("caption", JStr "planted")])).
Proof.
  cbv zeta. repeat split; vm_compute; reflexivity.
Qed.

(** What the [except] clause of [find_files] covers: a file whose load
    raises [JSONDecodeError] or [FileNotFoundError] is skipped, as is
    every file not named [*.json]. *)
Lemma visit_file_skips_caught (cwd root name : string) (acc : buckets) (e : exn) :
  e = JSONDecodeError \/ e = FileNotFoundError ->
  visit_file cwd root acc (name, Fails e) = Returned acc.
Proof.
  intros [-> | ->]; unfold visit_file; destruct (endswith name ".json"); reflexivity.
Qed.

Lemma visit_file_ignores_other_names (cwd root name : string) (acc : buckets) (f : file) :
  endswith name ".json" = false -> visit_file cwd root acc (name, f) = Returned acc.
Proof. intros H. unfold visit_file. rewrite H. reflexivity. Qed.

(** Any other exception ends the whole classification. *)
Lemma visit_file_lets_others_through (cwd root name : string) (acc : buckets) (e : exn) :
  endswith name ".json" = true ->
  e <> JSONDecodeError -> e <> FileNotFoundError ->
  visit_file cwd root acc (name, Fails e) = Raised e.
Proof.
  intros Hn H1 H2. unfold visit_file. rewrite Hn. cbn.
  destruct e; try reflexivity; congruence.
Qed.

Lemma dict_get_set_same (k : string) (v : json) (kvs : list (string * json)) :
  dict_get k (dict_set k v kvs) = Some v.
Proof.
  induction kvs as [|[k' v'] kvs IH]; cbn [dict_set dict_get].
  - rewrite String.eqb_refl. reflexivity.
  - destruct (String.eqb k k') eqn:E; cbn [dict_get]; rewrite E; [reflexivity|exact IH].
Qed.

Lemma dict_get_set_other (k k' : string) (v : json) (kvs : list (string * json)) :
  k <> k' -> dict_get k (dict_set k' v kvs) = dict_get k kvs.
Proof.
  intros Hne. induction kvs as [|[k0 v0] kvs IH]; cbn [dict_set dict_get].
  - destruct (String.eqb_spec k k'); [contradiction|reflexivity].
  - destruct (String.eqb_spec k' k0) as [->|Hk]; cbn [dict_get].
    + destruct (String.eqb_spec k k0); [contradiction|reflexivity].
    + destruct (String.eqb k k0); [reflexivity|exact IH].
Qed.

Lemma path_join_nonempty (a b : string) : a <> "" -> str_bool (path_join a b) = true.
Proof.
  intros Ha. unfold path_join.
  destruct (startswith b "/") eqn:Eb.
  - destruct b; [discriminate|reflexivity].
  - destruct a as [|c a]; [congruence|].
    destruct (negb (str_bool (String c a)) || endswith (String c a) "/"); reflexivity.
Qed.

(** A [.json] file that parses to an object with both frame fields
    holding strings is kept: its frame fields are replaced by the paths
    relative to the data directory with backslashes turned into
    slashes, the path of the file and the name of its directory are
    added, and the record goes to [data_with_caption] exactly when its
    [caption] is truthy. *)
Lemma visit_file_keeps_record (cwd root name v1 v2 : string)
    (kvs : list (string * json)) (acc : buckets) :
  root <> "" ->
  endswith name ".json" = true ->
  dict_get "frame1_image" kvs = Some (JStr v1) ->
  dict_get "frame2_image" kvs = Some (JStr v2) ->
  exists r1 r2,
    relpath cwd (path_join root v1) BASE_DIR = Returned r1 /\
    relpath cwd (path_join root v2) BASE_DIR = Returned r2 /\
    let data :=
      JDict (dict_set "directory_name" (JStr (basename root))
               (dict_set "json_file_path" (JStr (path_join root name))
                  (dict_set "frame2_image" (JStr (replace_char "\"%char "/"%char r2))
                     (dict_set "frame1_image" (JStr (replace_char "\"%char "/"%char r1)) kvs)))) in
    visit_file cwd root acc (name, Loads (JDict kvs))
    = Returned (if match dict_get "caption" kvs with
                   | Some c => json_bool c
                   | None => false
                   end
                then (fst acc, snd acc ++ [data])
                else (fst acc ++ [data], snd acc)).
Proof.
  intros Hroot Hname H1 H2.
  assert (Hrel : forall v, exists r, relpath cwd (path_join root v) BASE_DIR = Returned r).
  { intros v. unfold relpath. rewrite (path_join_nonempty root v Hroot). cbn [negb].
    destruct (_ ++ _)%list; eexists; reflexivity. }
  destruct (Hrel v1) as [r1 Hr1]. destruct (Hrel v2) as [r2 Hr2].
  exists r1, r2. split; [exact Hr1|]. split; [exact Hr2|]. cbv zeta.
  unfold visit_file. rewrite Hname.
  unfold read_record, load, has_frame_keys, json_contains. cbn [bind].
  rewrite H1. cbn [bind]. rewrite H2. cbn [bind].
  unfold resolve_image, json_getitem. rewrite H1. cbn [bind join_value].
  rewrite Hr1. cbn [bind json_setitem].
  rewrite dict_get_set_other by discriminate. rewrite H2. cbn [bind join_value].
  rewrite Hr2. cbn [bind json_setitem].
  rewrite !dict_get_set_other by discriminate.
  destruct (dict_get "caption" kvs) as [c|]; [destruct (json_bool c)|]; reflexivity.
Qed.

(** One captioned and one uncaptioned record in [data/clip], next to a
    file of broken JSON: one record per bucket, image paths relative to
    the scan root. *)
Example find_files_one_of_each :
  find_files "/srv/app"
    (Dir [("clip",
           Dir [("one.json", File (Loads (JDict [("frame1_image", JStr "a.png");
                                                ("frame2_image", JStr "b.png");
                                                ("caption", JStr "a cat turns")])));
                ("two.json", File (Loads (JDict [("frame1_image", JStr "c.png");
                                                ("frame2_image", JStr "d.png")])));
                ("bad.json", File (Fails JSONDecodeError));
                ("a.png", File (Fails UnicodeDecodeError))])])
  = Returned
      ([JDict [("frame1_image", JStr "clip/c.png"); ("frame2_image", JStr "clip/d.png");
               ("json_file_path", JStr "data/clip/two.json");
               ("directory_name", JStr "clip")]],
       [JDict [("frame1_image", JStr "clip/a.png"); ("frame2_image", JStr "clip/b.png");
               ("caption", JStr "a cat turns");
               ("json_file_path", JStr "data/clip/one.json");
               ("directory_name", JStr "clip")]]).
Proof. vm_compute. reflexivity. Qed.

(** C6 fails on the code. A [.json] file whose bytes are not UTF-8
    cannot be parsed; reading it raises [UnicodeDecodeError], which the
    [except] clause does not name, so [find_files] raises instead of
    skipping the file, and the valid record next to it is lost with
    it.  The same happens for a file holding a JSON number. *)
Theorem C6_undecodable_json_file_aborts_classification :
  let good := File (Loads (JDict [("frame1_image", JStr "a.png");
                                  ("frame2_image", JStr "b.png")])) in
  find_files "/srv/app" (Dir [("clip", Dir [("good.json", good);
                                            ("latin1.json", File (Fails UnicodeDecodeError))])])
    = Raised UnicodeDecodeError /\
  find_files "/srv/app" (Dir [("clip", Dir [("good.json", good);
                                            ("number.json", File (Loads (JInt 5)))])])
    = Raised TypeError /\
  find_files "/srv/app" (Dir [("clip", Dir [("good.json", good);
                                            ("broken.json", File (Fails JSONDecodeError))])])
    = Returned ([JDict [("frame1_image", JStr "clip/a.png");
                        ("frame2_image", JStr "clip/b.png");
                        ("json_file_path", JStr "data/clip/good.json");
                        ("directory_name", JStr "clip")]], []).
Proof.
  cbv zeta. repeat split; vm_compute; reflexivity.
Qed.



End ViewerClaims.
(** ** The viewer beyond the claims: listing, captions, start-up clean-up *)

Section ViewerFacts.
Import Py App.

(** Induction on directory trees, with the hypothesis for every
    entry of a directory. *)
Lemma node_nested_ind (P : node -> Prop) :
  (forall f, P (File f)) ->
  (forall entries, (forall name child, In (name, child) entries -> P child) -> P (Dir entries)) ->
  forall n, P n.
Proof.
  intros HF HD. fix IH 1. intros [f|entries]; [apply HF|].
  apply HD. induction entries as [|[name child] entries IHe]; intros name' child' Hin.
  - destruct Hin.
  - destruct Hin as [Heq|Hin].
    + injection Heq as _ <-. apply IH.
    + exact (IHe name' child' Hin).
Qed.

Lemma walk_Dir (top : string) (entries : list (string * node)) :
  walk top (Dir entries) =
  (top, subdir_names entries, file_entries entries)
  :: flat_map (fun '(name, child) => walk (path_join top name) child) entries.
Proof.
  cbn [walk]. f_equal.
  induction entries as [|[name child] entries IHe]; [reflexivity|].
  cbn [flat_map]. rewrite <- IHe. reflexivity.
Qed.

Lemma walk_bottom_up_Dir (top : string) (entries : list (string * node)) :
  walk_bottom_up top (Dir entries) =
  flat_map (fun '(name, child) => walk_bottom_up (path_join top name) child) entries
  ++ [(top, subdir_names entries, file_entries entries)].
Proof.
  cbn [walk_bottom_up]. f_equal.
  induction entries as [|[name child] entries IHe]; [reflexivity|].
  cbn [flat_map]. rewrite <- IHe. reflexivity.
Qed.

Lemma path_join_not_empty (a b : string) : a <> "" -> path_join a b <> "".
Proof.
  intros Ha E. pose proof (path_join_nonempty a b Ha) as H. rewrite E in H. discriminate.
Qed.

(** Every directory path of a walk that starts at a non-empty path
    is non-empty. *)
Lemma walk_roots_nonempty (n : node) :
  forall top, top <> "" -> Forall (fun t => fst (fst t) <> "") (walk top n).
Proof.
  induction n as [f|entries IH] using node_nested_ind; intros top Htop.
  - constructor.
  - rewrite walk_Dir. constructor; [exact Htop|].
    induction entries as [|[name child] entries IHe]; [constructor|].
    cbn [flat_map]. apply Forall_app. split.
    + apply (IH name child); [left; reflexivity|]. apply path_join_not_empty, Htop.
    + apply IHe. intros name' child' Hin. apply (IH name' child'). right. exact Hin.
Qed.

Lemma relpath_returns (cwd path start : string) :
  path <> "" -> exists rel, relpath cwd path start = Returned rel.
Proof.
  intros Hp. unfold relpath.
  replace (str_bool path) with true by (destruct path; [contradiction|reflexivity]).
  cbn [negb].
  match goal with |- context [match ?l with [] => _ | _ :: _ => _ end] => destruct l end;
    eexists; reflexivity.
Qed.

Lemma image_relpaths_returns (cwd root : string) (image_files : list string) :
  root <> "" ->
  exists rels,
    image_relpaths cwd root image_files = Returned rels
    /\ Forall2 (fun image f =>
                  exists rel,
                    relpath cwd (path_join root f) BASE_DIR = Returned rel
                    /\ image = replace_char "\"%char "/"%char rel)
         rels image_files.
Proof.
  intros Hroot. induction image_files as [|f rest IH].
  - exists []. split; [reflexivity|constructor].
  - destruct IH as (rels & Hrels & Hall).
    destruct (relpath_returns cwd (path_join root f) BASE_DIR
                (path_join_not_empty root f Hroot)) as (rel & Hrel).
    cbn [image_relpaths]. rewrite Hrel. cbn [bind]. rewrite Hrels. cbn [bind].
    eexists. split; [reflexivity|]. constructor; [|exact Hall].
    exists rel. split; [exact Hrel|reflexivity].
Qed.

Lemma is_listed_image_named (f : string) : is_listed_image f = named_like_an_image f.
Proof.
  unfold is_listed_image, named_like_an_image. cbn [existsb].
  destruct (endswith (lower f) ".jpg"), (endswith (lower f) ".jpeg"),
    (endswith (lower f) ".png"), (endswith (lower f) ".gif"); reflexivity.
Qed.

Lemma filter_listed_images (names : list string) :
  List.filter is_listed_image names = List.filter named_like_an_image names.
Proof.
  induction names as [|f names IH]; [reflexivity|].
  cbn [List.filter]. rewrite is_listed_image_named, IH. reflexivity.
Qed.

Lemma no_json_name (names : list string) :
  negb (existsb is_json_name names) = forallb (fun f => negb (endswith f ".json")) names.
Proof.
  induction names as [|f names IH]; [reflexivity|].
  cbn [existsb forallb]. rewrite <- IH. unfold is_json_name at 1.
  destruct (endswith f ".json"); reflexivity.
Qed.

Lemma existsb_filter {A : Type} (p : A -> bool) (l : list A) :
  existsb p l = match List.filter p l with [] => false | _ :: _ => true end.
Proof.
  induction l as [|x l IH]; [reflexivity|].
  cbn [existsb List.filter]. destruct (p x); [reflexivity|exact IH].
Qed.

Lemma visit_dirs_no_json_returns (cwd : string)
    (triples : list (string * list string * list (string * file))) :
  Forall (fun t => fst (fst t) <> "") triples ->
  forall acc done,
    Forall2 (lists_dir cwd) acc done ->
    exists l, visit_dirs_no_json cwd acc triples = Returned l
              /\ Forall2 (lists_dir cwd) l (done ++ List.filter listed_without_json triples).
Proof.
  induction 1 as [|[[root dirs] files] triples Hroot _ IH]; intros acc done Hacc.
  - exists acc. split; [reflexivity|]. cbn [List.filter]. rewrite app_nil_r. exact Hacc.
  - cbn [fst] in Hroot. cbn [visit_dirs_no_json visit_dir_no_json List.filter].
    unfold listed_without_json at 1. cbn [snd].
    rewrite <- no_json_name, (existsb_filter named_like_an_image), <- filter_listed_images.
    destruct (existsb is_json_name (List.map fst files)) eqn:Hjson; cbn [negb andb bind].
    + apply IH, Hacc.
    + destruct (List.filter is_listed_image (List.map fst files)) as [|f image_files] eqn:Himg;
        cbn [bind].
      * apply IH, Hacc.
      * destruct (image_relpaths_returns cwd root (f :: image_files) Hroot)
          as (rels & Hrels & Hall).
        rewrite Hrels. cbn [bind].
        destruct (IH (acc ++ [mkNoJsonDir (basename root) rels])
                     (done ++ [(root, dirs, files)])) as (l & Hl & HF).
        { apply Forall2_app; [exact Hacc|]. constructor; [|constructor].
          unfold lists_dir. cbn [directory_name images fst snd].
          rewrite <- filter_listed_images, Himg. split; [reflexivity|]. split; [exact Hall|].
          inversion Hall; discriminate. }
        exists l. split; [exact Hl|]. rewrite <- app_assoc in HF. exact HF.
Qed.

(** X1.  [find_no_json_images] returns for every tree under the data
    root and every working directory, never raising.  It lists, in
    walk order, exactly the directories none of whose file names ends
    in [.json] and at least one of whose file names ends, lower-cased,
    in [.jpg], [.jpeg], [.png] or [.gif]: each entry carries the
    directory's base name and, for each such file in listing order,
    the file's path relative to the data root, so no entry has an
    empty image list. *)
Theorem find_no_json_images_lists_image_dirs_without_json (cwd : string) (base : node) :
  exists l, find_no_json_images cwd base = Returned l
            /\ Forall2 (lists_dir cwd) l
                 (List.filter listed_without_json (walk BASE_DIR base)).
Proof.
  unfold find_no_json_images.
  destruct (visit_dirs_no_json_returns cwd (walk BASE_DIR base)
              (walk_roots_nonempty base BASE_DIR ltac:(discriminate)) [] [] ltac:(constructor))
    as (l & Hl & HF).
  exists l. split; [exact Hl|exact HF].
Qed.

(** Witness of X1: [a] holds two images and a text file, [b] an
    image next to a [.json] file, [c] no image; only [a] is listed. *)
Lemma find_no_json_images_lists_image_dirs_without_json_witness :
  find_no_json_images "/srv/app"
    (Dir [("a", Dir [("x.JPG", File (Fails FileNotFoundError));
                       ("notes.txt", File (Fails FileNotFoundError));
                       ("y.gif", File (Fails FileNotFoundError))]);
          ("b", Dir [("y.png", File (Fails FileNotFoundError));
                     ("z.json", File (Loads JNull))]);
          ("c", Dir [("notes.txt", File (Fails FileNotFoundError));
                     ("jpg", File (Fails FileNotFoundError))])])
  = Returned [mkNoJsonDir "a" ["a/x.JPG"; "a/y.gif"]]
  /\ List.filter listed_without_json
       (walk BASE_DIR
          (Dir [("a", Dir [("x.JPG", File (Fails FileNotFoundError));
                       ("notes.txt", File (Fails FileNotFoundError));
                       ("y.gif", File (Fails FileNotFoundError))]);
          ("b", Dir [("y.png", File (Fails FileNotFoundError));
                     ("z.json", File (Loads JNull))]);
          ("c", Dir [("notes.txt", File (Fails FileNotFoundError));
                     ("jpg", File (Fails FileNotFoundError))])]))
     = [("data/a", [],
        [("x.JPG", Fails FileNotFoundError); ("notes.txt", Fails FileNotFoundError);
         ("y.gif", Fails FileNotFoundError)])]
  /\ lists_dir "/srv/app" (mkNoJsonDir "a" ["a/x.JPG"; "a/y.gif"])
       ("data/a", [],
        [("x.JPG", Fails FileNotFoundError); ("notes.txt", Fails FileNotFoundError);
         ("y.gif", Fails FileNotFoundError)]).
Proof.
  assert (Hfind : find_no_json_images "/srv/app"
                    (Dir [("a", Dir [("x.JPG", File (Fails FileNotFoundError));
                       ("notes.txt", File (Fails FileNotFoundError));
                       ("y.gif", File (Fails FileNotFoundError))]);
          ("b", Dir [("y.png", File (Fails FileNotFoundError));
                     ("z.json", File (Loads JNull))]);
          ("c", Dir [("notes.txt", File (Fails FileNotFoundError));
                     ("jpg", File (Fails FileNotFoundError))])])
                  = Returned [mkNoJsonDir "a" ["a/x.JPG"; "a/y.gif"]])
    by (vm_compute; reflexivity).
  assert (Hwalk : List.filter listed_without_json
                    (walk BASE_DIR
                       (Dir [("a", Dir [("x.JPG", File (Fails FileNotFoundError));
                       ("notes.txt", File (Fails FileNotFoundError));
                       ("y.gif", File (Fails FileNotFoundError))]);
          ("b", Dir [("y.png", File (Fails FileNotFoundError));
                     ("z.json", File (Loads JNull))]);
          ("c", Dir [("notes.txt", File (Fails FileNotFoundError));
                     ("jpg", File (Fails FileNotFoundError))])]))
                  = [("data/a", [],
        [("x.JPG", Fails FileNotFoundError); ("notes.txt", Fails FileNotFoundError);
         ("y.gif", Fails FileNotFoundError)])]) by (vm_compute; reflexivity).
  split; [exact Hfind|]. split; [exact Hwalk|].
  destruct (find_no_json_images_lists_image_dirs_without_json "/srv/app"
              (Dir [("a", Dir [("x.JPG", File (Fails FileNotFoundError));
                       ("notes.txt", File (Fails FileNotFoundError));
                       ("y.gif", File (Fails FileNotFoundError))]);
          ("b", Dir [("y.png", File (Fails FileNotFoundError));
                     ("z.json", File (Loads JNull))]);
          ("c", Dir [("notes.txt", File (Fails FileNotFoundError));
                     ("jpg", File (Fails FileNotFoundError))])])) as (l & Hl & HF).
  rewrite Hfind in Hl. injection Hl as <-. rewrite Hwalk in HF.
  apply Forall2_cons_1 in HF as [H _]. exact H.
Defined.

(** *** The two lists of [find_files] *)

Lemma substring_skip (a s : string) (n k : nat) :
  String.substring (String.length a + n) k (a +:+ s) = String.substring n k s.
Proof.
  induction a as [|c a IH]; [reflexivity|].
  change (String c a +:+ s) with (String c (a +:+ s)). cbn [String.length Nat.add String.substring].
  exact IH.
Qed.

Lemma length_app_str (a s : string) :
  String.length (a +:+ s) = (String.length a + String.length s)%nat.
Proof.
  induction a as [|c a IH]; [reflexivity|].
  change (String c a +:+ s) with (String c (a +:+ s)). cbn [String.length]. rewrite IH. reflexivity.
Qed.

Lemma endswith_app_left (a s p : string) :
  endswith s p = true -> endswith (a +:+ s) p = true.
Proof.
  unfold endswith. intros H. apply andb_true_iff in H as [Hle Heq].
  apply Nat.leb_le in Hle. rewrite length_app_str.
  apply andb_true_iff. split; [apply Nat.leb_le; lia|].
  replace (String.length a + String.length s - String.length p)%nat
    with (String.length a + (String.length s - String.length p))%nat by lia.
  rewrite substring_skip. exact Heq.
Qed.

Lemma endswith_path_join (root name p : string) :
  endswith name p = true -> endswith (path_join root name) p = true.
Proof.
  intros H. unfold path_join.
  destruct (startswith name "/"); [exact H|].
  destruct (negb (str_bool root) || endswith root "/").
  - apply endswith_app_left, H.
  - apply endswith_app_left, endswith_app_left, H.
Qed.

Lemma read_record_listed (cwd root json_path : string) (f : file) (b : bool) (data : json) :
  endswith json_path ".json" = true ->
  read_record cwd root json_path f = Returned (Some (b, data)) ->
  listed_record b data = true.
Proof.
  intros Hp H. unfold read_record, has_frame_keys, resolve_image in H.
  destruct f as [v|e]; cbn [load bind] in H; [|discriminate].
  destruct v as [| | | s | l | kvs];
    cbn [json_contains json_getitem json_setitem bind] in H; try discriminate.
  - destruct (is_substring "frame1_image" s); cbn [bind] in H;
      [destruct (is_substring "frame2_image" s)|]; discriminate.
  - destruct (existsb (json_eqb_str "frame1_image") l); cbn [bind] in H;
      [destruct (existsb (json_eqb_str "frame2_image") l)|]; discriminate.
  - destruct (dict_get "frame1_image" kvs) as [v1|] eqn:H1; cbn [bind] in H; [|discriminate].
    destruct (dict_get "frame2_image" kvs) as [v2|] eqn:H2; cbn [bind] in H; [|discriminate].
    destruct v1 as [| | | s1 | |]; cbn [join_value bind] in H; try discriminate.
    destruct (relpath cwd (path_join root s1) BASE_DIR) as [r1|] eqn:Hr1;
      cbn [bind json_getitem json_setitem] in H; [|discriminate].
    rewrite dict_get_set_other in H by discriminate. rewrite H2 in H.
    destruct v2 as [| | | s2 | |]; cbn [join_value bind] in H; try discriminate.
    destruct (relpath cwd (path_join root s2) BASE_DIR) as [r2|] eqn:Hr2;
      cbn [bind json_getitem json_setitem] in H; [|discriminate].
    injection H as <- <-. unfold listed_record.
    repeat (rewrite dict_get_set_same || rewrite dict_get_set_other by discriminate).
    cbn [is_str andb]. rewrite Hp. cbn [andb].
    apply eqb_reflx.
Qed.

(** The property of the two lists that each file visit keeps. *)
Lemma visit_file_sorted (cwd root : string) (acc acc' : buckets) (entry : string * file)
    (k : nat) :
  Forall (fun d => listed_record false d = true) (fst acc) ->
  Forall (fun d => listed_record true d = true) (snd acc) ->
  (length (fst acc) + length (snd acc) <= k)%nat ->
  visit_file cwd root acc entry = Returned acc' ->
  Forall (fun d => listed_record false d = true) (fst acc')
  /\ Forall (fun d => listed_record true d = true) (snd acc')
  /\ (length (fst acc') + length (snd acc')
      <= k + length (List.filter is_json_name [fst entry]))%nat.
Proof.
  intros H0 H1 Hk H. destruct entry as [name f]. unfold visit_file in H.
  cbn [List.filter fst]. unfold is_json_name at 1.
  destruct (endswith name ".json") eqn:Hname; cbn [length].
  - pose proof (read_record_listed cwd root (path_join root name) f) as Hrec.
    specialize (fun b data => Hrec b data (endswith_path_join root name ".json" Hname)).
    destruct (read_record cwd root (path_join root name) f) as [[[[] data]|]|e].
    + injection H as <-. cbn [fst snd]. split; [exact H0|]. split.
      * apply Forall_app. split; [exact H1|]. constructor; [|constructor].
        apply Hrec. reflexivity.
      * rewrite length_app. cbn [length]. lia.
    + injection H as <-. cbn [fst snd]. split; [|split; [exact H1|]].
      * apply Forall_app. split; [exact H0|]. constructor; [|constructor].
        apply Hrec. reflexivity.
      * rewrite length_app. cbn [length]. lia.
    + injection H as <-. split; [exact H0|]. split; [exact H1|lia].
    + destruct e; try discriminate; injection H as <-;
        (split; [exact H0|]; split; [exact H1|lia]).
  - injection H as <-. split; [exact H0|]. split; [exact H1|lia].
Qed.

Lemma visit_files_sorted (cwd root : string) (files : list (string * file)) :
  forall (acc acc' : buckets) (k : nat),
    Forall (fun d => listed_record false d = true) (fst acc) ->
    Forall (fun d => listed_record true d = true) (snd acc) ->
    (length (fst acc) + length (snd acc) <= k)%nat ->
    visit_files cwd root acc files = Returned acc' ->
    Forall (fun d => listed_record false d = true) (fst acc')
    /\ Forall (fun d => listed_record true d = true) (snd acc')
    /\ (length (fst acc') + length (snd acc')
        <= k + length (List.filter is_json_name (List.map fst files)))%nat.
Proof.
  induction files as [|entry files IH]; intros acc acc' k H0 H1 Hk H.
  - injection H as <-. cbn [List.map List.filter length]. split; [exact H0|]. split; [exact H1|lia].
  - cbn [visit_files] in H.
    destruct (visit_file cwd root acc entry) as [acc1|e] eqn:Hv; cbn [bind] in H; [|discriminate].
    destruct (visit_file_sorted cwd root acc acc1 entry k H0 H1 Hk Hv) as (A0 & A1 & Ak).
    destruct (IH acc1 acc' _ A0 A1 Ak H) as (B0 & B1 & Bk).
    split; [exact B0|]. split; [exact B1|].
    cbn [List.map List.filter] in *. destruct (is_json_name (fst entry)); cbn [length] in *; lia.
Qed.

Lemma visit_dirs_sorted (cwd : string)
    (triples : list (string * list string * list (string * file))) :
  forall (acc acc' : buckets) (k : nat),
    Forall (fun d => listed_record false d = true) (fst acc) ->
    Forall (fun d => listed_record true d = true) (snd acc) ->
    (length (fst acc) + length (snd acc) <= k)%nat ->
    visit_dirs cwd acc triples = Returned acc' ->
    Forall (fun d => listed_record false d = true) (fst acc')
    /\ Forall (fun d => listed_record true d = true) (snd acc')
    /\ (length (fst acc') + length (snd acc') <= k + json_name_count triples)%nat.
Proof.
  induction triples as [|[[root dirs] files] triples IH]; intros acc acc' k H0 H1 Hk H.
  - injection H as <-. unfold json_name_count. cbn [List.map list_sum].
    split; [exact H0|]. split; [exact H1|lia].
  - cbn [visit_dirs] in H.
    destruct (visit_files cwd root acc files) as [acc1|e] eqn:Hv; cbn [bind] in H; [|discriminate].
    destruct (visit_files_sorted cwd root files acc acc1 k H0 H1 Hk Hv) as (A0 & A1 & Ak).
    destruct (IH acc1 acc' _ A0 A1 Ak H) as (B0 & B1 & Bk).
    split; [exact B0|]. split; [exact B1|].
    unfold json_name_count in *. cbn [List.map snd].
    change (list_sum (?a :: ?l)) with (a + list_sum l)%nat. lia.
Qed.

(** X2.  Whenever [find_files] returns, every element of both lists
    is a JSON object with string-valued [frame1_image],
    [frame2_image], [directory_name] and a [json_file_path] ending in
    [.json]; the elements of [data_with_caption] have a truthy
    [caption], those of [data_without_caption] a falsy or missing one;
    and the two lists together hold at most one record per file whose
    name ends in [.json]. *)
Theorem find_files_sorts_records_by_caption (cwd : string) (base : node)
    (data_without_caption data_with_caption : list json) :
  find_files cwd base = Returned (data_without_caption, data_with_caption) ->
  Forall (fun d => listed_record false d = true) data_without_caption
  /\ Forall (fun d => listed_record true d = true) data_with_caption
  /\ (length data_without_caption + length data_with_caption
      <= json_name_count (walk BASE_DIR base))%nat.
Proof.
  intros H.
  exact (visit_dirs_sorted cwd (walk BASE_DIR base) ([], []) _ 0%nat
           (List.Forall_nil _) (List.Forall_nil _) (Nat.le_refl _) H).
Qed.

Lemma find_files_sorts_records_by_caption_witness :
  let base :=
    Dir [("clip",
          Dir [("one.json", File (Loads (JDict [("frame1_image", JStr "a.png");
                                               ("frame2_image", JStr "b.png");
                                               ("caption", JStr "a cat turns")])));
               ("two.json", File (Loads (JDict [("frame1_image", JStr "c.png");
                                               ("frame2_image", JStr "d.png");
                                               ("caption", JStr "")])));
               ("bad.json", File (Fails JSONDecodeError));
               ("a.png", File (Fails UnicodeDecodeError))])] in
  let without :=
    [JDict [("frame1_image", JStr "clip/c.png"); ("frame2_image", JStr "clip/d.png");
            ("caption", JStr ""); ("json_file_path", JStr "data/clip/two.json");
            ("directory_name", JStr "clip")]] in
  let with_caption :=
    [JDict [("frame1_image", JStr "clip/a.png"); ("frame2_image", JStr "clip/b.png");
            ("caption", JStr "a cat turns"); ("json_file_path", JStr "data/clip/one.json");
            ("directory_name", JStr "clip")]] in
  find_files "/srv/app" base = Returned (without, with_caption)
  /\ Forall (fun d => listed_record false d = true) without
  /\ Forall (fun d => listed_record true d = true) with_caption
  /\ (length without + length with_caption <= json_name_count (walk BASE_DIR base))%nat.
Proof.
  intros base without with_caption.
  assert (Hrun : find_files "/srv/app" base = Returned (without, with_caption))
    by (vm_compute; reflexivity).
  split; [exact Hrun|].
  exact (find_files_sorts_records_by_caption "/srv/app" base without with_caption Hrun).
Defined.

(** *** /update_caption: what a request can change *)

(** What [update_caption] does, case by case: it leaves the files
    alone and answers 400, 403 or 500; or it rewrites the named file
    and answers 200; or the rewriting stops on the way, the file is
    left torn and the answer is 500. *)
Lemma update_caption_cases (d : disk) (cwd : string) (req : caption_request)
    (files : gmap string file) :
  let resp := fst (update_caption d cwd req files) in
  let files' := snd (update_caption d cwd req files) in
  (files' = files /\ success resp = false
   /\ (status resp = 400 \/ status resp = 403 \/ status resp = 500))
  \/ exists path cap kvs,
       json_file_path req = Some (JStr path) /\ caption req = Some cap /\ cap <> JNull
       /\ files !! abspath cwd path = Some (Loads (JDict kvs))
       /\ ((status resp = 200 /\ success resp = true
            /\ write_cut d (abspath cwd path) = None
            /\ utf8_encodable (JDict (dict_set "caption" cap kvs)) = true
            /\ files' = <[abspath cwd path := Loads (JDict (dict_set "caption" cap kvs))]> files)
           \/ (status resp = 500 /\ success resp = false
               /\ (write_cut d (abspath cwd path) <> None
                   \/ utf8_encodable (JDict (dict_set "caption" cap kvs)) = false)
               /\ files' = <[abspath cwd path :=
                               torn d (abspath cwd path) (Loads (JDict kvs))
                                 (JDict (dict_set "caption" cap kvs))]> files)).
Proof.
  cbv zeta. unfold update_caption.
  destruct (json_file_path req) as [p|] eqn:Hpath; cbn [get_field json_bool negb orb];
    [|solve [left; cbn; auto]].
  destruct (negb (json_bool p)) eqn:Htruthy; cbn [orb]; [solve [left; cbn; auto]|].
  destruct (caption req) as [cap|] eqn:Hcap; cbn [get_field]; [|solve [left; cbn; auto]].
  assert (Hnull : {cap = JNull} + {cap <> JNull})
    by (destruct cap; (left; reflexivity) || (right; discriminate)).
  destruct Hnull as [->|Hnull]; [solve [left; cbn; auto]|].
  replace (match cap with JNull => true | _ => false end) with false
    by (destruct cap; congruence).
  destruct p as [| | |path| |]; try solve [left; cbn; auto].
  destruct (negb (startswith (abspath cwd path) (abspath cwd BASE_DIR)));
    [solve [left; cbn; auto]|].
  unfold patch_caption, open_path.
  destruct (open_refused d (abspath cwd path)); cbn [bind]; [solve [left; cbn; auto]|].
  destruct (files !! abspath cwd path) as [[v|e]|] eqn:Hfile; cbn [bind load];
    [|solve [left; cbn; auto]..].
  destruct v as [| | | | |kvs]; cbn [json_setitem bind]; try solve [left; cbn; auto].
  right. exists path, cap, kvs.
  split; [reflexivity|]. split; [reflexivity|]. split; [exact Hnull|].
  split; [exact Hfile|].
  unfold rewrite_file.
  destruct (write_cut d (abspath cwd path)) as [e|] eqn:Hcut.
  - right. cbn. repeat split; auto.
  - destruct (utf8_encodable (JDict (dict_set "caption" cap kvs))) eqn:Henc.
    + left. cbn. repeat split; auto.
    + right. cbn. repeat split; auto.
Qed.

(** X3.  [update_caption] answers 200, 400, 403 or 500, with
    [success] true exactly for 200.  An answer 400 or 403 leaves all
    files as they were.  A 200 means the request named, by a string, a
    file that holds a JSON object, and gave a caption other than null:
    that one file now holds the object with [caption] set to the
    value given, in which no string holds a lone surrogate.  A 500
    leaves all files as they were, unless the rewriting of such a file
    had begun and stopped on the way, because the system cut it short
    or because the object with its new caption holds a lone
    surrogate: then that file is left torn.  Every file but the named
    one is untouched in every case. *)
Theorem update_caption_rewrites_one_object_or_nothing (d : disk) (cwd : string)
    (req : caption_request) (files : gmap string file) :
  let resp := fst (update_caption d cwd req files) in
  let files' := snd (update_caption d cwd req files) in
  (status resp = 200 \/ status resp = 400 \/ status resp = 403 \/ status resp = 500)
  /\ (success resp = true <-> status resp = 200)
  /\ (status resp = 400 \/ status resp = 403 -> files' = files)
  /\ (status resp = 200 ->
      exists path cap kvs,
        json_file_path req = Some (JStr path) /\ caption req = Some cap /\ cap <> JNull
        /\ files !! abspath cwd path = Some (Loads (JDict kvs))
        /\ utf8_encodable (JDict (dict_set "caption" cap kvs)) = true
        /\ files' = <[abspath cwd path := Loads (JDict (dict_set "caption" cap kvs))]> files)
  /\ (status resp = 500 ->
      files' = files
      \/ exists path cap kvs,
           json_file_path req = Some (JStr path) /\ caption req = Some cap /\ cap <> JNull
           /\ files !! abspath cwd path = Some (Loads (JDict kvs))
           /\ (write_cut d (abspath cwd path) <> None
               \/ utf8_encodable (JDict (dict_set "caption" cap kvs)) = false)
           /\ files' = <[abspath cwd path :=
                           torn d (abspath cwd path) (Loads (JDict kvs))
                             (JDict (dict_set "caption" cap kvs))]> files)
  /\ (forall path other,
        json_file_path req = Some (JStr path) -> other <> abspath cwd path ->
        files' !! other = files !! other)
  /\ ((forall path, json_file_path req <> Some (JStr path)) -> files' = files).
Proof.
  cbv zeta.
  destruct (update_caption_cases d cwd req files)
    as [(Hsame & Hfail & Hstatus)
       |(path & cap & kvs & Hpath & Hcap & Hnull & Hfile
         & [(Hstatus & Hok & Hcut & Henc & Hfiles)|(Hstatus & Hfail & Hwhy & Hfiles)])].
  - rewrite Hsame, Hfail.
    split; [tauto|]. split; [split; [discriminate|lia]|]. split; [reflexivity|].
    split; [lia|]. split; [left; reflexivity|]. split; reflexivity.
  - rewrite Hfiles, Hok, Hstatus.
    split; [tauto|]. split; [tauto|]. split; [lia|].
    split; [intros _; exists path, cap, kvs; auto 10|].
    split; [discriminate|].
    split; [|intros H; destruct (H path Hpath)].
    intros path' other Hpath' Hother. rewrite Hpath in Hpath'. injection Hpath' as ->.
    apply lookup_insert_ne. congruence.
  - rewrite Hfiles, Hfail, Hstatus.
    split; [tauto|]. split; [split; discriminate|]. split; [lia|].
    split; [discriminate|].
    split; [intros _; right; exists path, cap, kvs; auto 10|].
    split; [|intros H; destruct (H path Hpath)].
    intros path' other Hpath' Hother. rewrite Hpath in Hpath'. injection Hpath' as ->.
    apply lookup_insert_ne. congruence.
Qed.

(** A caption holding a lone surrogate (here U+D800) is refused by the
    file in the middle of the dump: the answer is 500 and the file is
    left torn.  The captions 0, false, the empty list and the empty
    object are stored like any other. *)
Example update_caption_lone_surrogate_tears_the_file :
  let record := JDict [("frame1_image", JStr "a.png"); ("frame2_image", JStr "b.png")] in
  let files : gmap string file := {[ "/srv/app/data/clip/one.json" := Loads record ]} in
  let surrogate := String "237"%char (String "160"%char (String "128"%char EmptyString)) in
  let d := mkDisk (fun _ => None) (fun _ => None) (fun _ _ _ => Fails JSONDecodeError) in
  let request cap := mkCaptionRequest (Some (JStr "data/clip/one.json")) (Some cap) in
  update_caption d "/srv/app" (request (JStr surrogate)) files
  = (mkResponse 500 false (ExceptionText UnicodeEncodeError),
     {[ "/srv/app/data/clip/one.json" := Fails JSONDecodeError ]})
  /\ Forall (fun cap =>
              update_caption d "/srv/app" (request cap) files
              = (mkResponse 200 true (Text "Caption updated successfully"),
                 {[ "/srv/app/data/clip/one.json" :=
                      Loads (JDict [("frame1_image", JStr "a.png");
                                    ("frame2_image", JStr "b.png"); ("caption", cap)]) ]}))
       [JInt 0; JBool false; JList []; JDict []; JStr ""]
  /\ update_caption d "/srv/app" (request JNull) files
     = (mkResponse 400 false (Text "Invalid data"), files)
  /\ update_caption d "/srv/app" (mkCaptionRequest (Some (JInt 5)) (Some (JStr "x"))) files
     = (mkResponse 500 false (ExceptionText TypeError), files).
Proof.
  cbv zeta. repeat split; repeat constructor; vm_compute; reflexivity.
Qed.

(** The record [read_record] builds from an object with string
    frames. *)
Lemma read_record_builds (cwd root json_path : string) (kvs : list (string * json))
    (s1 s2 r1 r2 : string) :
  dict_get "frame1_image" kvs = Some (JStr s1) ->
  dict_get "frame2_image" kvs = Some (JStr s2) ->
  relpath cwd (path_join root s1) BASE_DIR = Returned r1 ->
  relpath cwd (path_join root s2) BASE_DIR = Returned r2 ->
  read_record cwd root json_path (Loads (JDict kvs))
  = Returned (Some (match dict_get "caption" kvs with Some c => json_bool c | None => false end,
                    JDict (dict_set "directory_name" (JStr (basename root))
                             (dict_set "json_file_path" (JStr json_path)
                                (dict_set "frame2_image" (JStr (replace_char "\"%char "/"%char r2))
                                   (dict_set "frame1_image"
                                      (JStr (replace_char "\"%char "/"%char r1)) kvs)))))).
Proof.
  intros H1 H2 Hr1 Hr2.
  unfold read_record, load, has_frame_keys, json_contains. cbn [bind].
  rewrite H1. cbn [bind]. rewrite H2. cbn [bind].
  unfold resolve_image, json_getitem. rewrite H1. cbn [bind join_value].
  rewrite Hr1. cbn [bind json_setitem].
  rewrite dict_get_set_other by discriminate. rewrite H2. cbn [bind join_value].
  rewrite Hr2. cbn [bind json_setitem].
  rewrite !dict_get_set_other by discriminate. reflexivity.
Qed.

Lemma read_record_inv (cwd root json_path : string) (f : file) (b : bool) (data : json) :
  read_record cwd root json_path f = Returned (Some (b, data)) ->
  exists kvs s1 s2 r1 r2,
    f = Loads (JDict kvs)
    /\ dict_get "frame1_image" kvs = Some (JStr s1)
    /\ dict_get "frame2_image" kvs = Some (JStr s2)
    /\ relpath cwd (path_join root s1) BASE_DIR = Returned r1
    /\ relpath cwd (path_join root s2) BASE_DIR = Returned r2.
Proof.
  intros H. unfold read_record, has_frame_keys, resolve_image in H.
  destruct f as [v|e]; cbn [load bind] in H; [|discriminate].
  destruct v as [| | | s | l | kvs];
    cbn [json_contains json_getitem json_setitem bind] in H; try discriminate.
  - destruct (is_substring "frame1_image" s); cbn [bind] in H;
      [destruct (is_substring "frame2_image" s)|]; discriminate.
  - destruct (existsb (json_eqb_str "frame1_image") l); cbn [bind] in H;
      [destruct (existsb (json_eqb_str "frame2_image") l)|]; discriminate.
  - destruct (dict_get "frame1_image" kvs) as [v1|] eqn:H1; cbn [bind] in H; [|discriminate].
    destruct (dict_get "frame2_image" kvs) as [v2|] eqn:H2; cbn [bind] in H; [|discriminate].
    destruct v1 as [| | | s1 | |]; cbn [join_value bind] in H; try discriminate.
    destruct (relpath cwd (path_join root s1) BASE_DIR) as [r1|] eqn:Hr1;
      cbn [bind json_getitem json_setitem] in H; [|discriminate].
    rewrite dict_get_set_other in H by discriminate. rewrite H2 in H.
    destruct v2 as [| | | s2 | |]; cbn [join_value bind] in H; try discriminate.
    destruct (relpath cwd (path_join root s2) BASE_DIR) as [r2|] eqn:Hr2;
      cbn [bind json_getitem json_setitem] in H; [|discriminate].
    exists kvs, s1, s2, r1, r2. repeat split; assumption.
Qed.





(** *** remove_empty_dirs *)

Lemma flat_map_flat_map {A B C : Type} (g : B -> list C) (h : A -> list B) (l : list A) :
  flat_map g (flat_map h l) = flat_map (fun a => flat_map g (h a)) l.
Proof.
  induction l as [|a l IH]; [reflexivity|].
  cbn [flat_map]. rewrite flat_map_app, IH. reflexivity.
Qed.

Lemma entries_split_nonempty (entries : list (string * node)) :
  entries <> [] -> subdir_names entries <> [] \/ file_entries entries <> [].
Proof.
  destruct entries as [|[name [f|es]] entries]; [congruence|intros _..].
  - right. discriminate.
  - left. discriminate.
Qed.

(** X5.  [remove_empty_dirs] hands to [os.rmdir] only directories
    that had no entry when the walk listed them.  The data root itself
    is removed when it has no entry.  A directory with at least one
    entry is never removed, even when every entry is a directory that
    this same pass removes: its calls are exactly the calls of its
    subdirectories, so a chain of nested empty directories loses only
    its innermost one per run. *)
Theorem remove_empty_dirs_removes_only_dirs_found_empty :
  remove_empty_dirs (Dir []) = [BASE_DIR]
  /\ (forall (top : string) (f : file), rmdir_calls top (File f) = [])
  /\ (forall (top : string) (entries : list (string * node)),
        entries <> [] ->
        rmdir_calls top (Dir entries)
        = flat_map (fun '(name, child) => rmdir_calls (path_join top name) child) entries)
  /\ remove_empty_dirs (Dir [("a", Dir [("b", Dir [])])]) = ["data/a/b"].
Proof.
  split; [reflexivity|]. split; [reflexivity|]. split; [|vm_compute; reflexivity].
  intros top entries Hne. unfold rmdir_calls at 1.
  rewrite walk_bottom_up_Dir, flat_map_app, flat_map_flat_map.
  cbn [flat_map].
  destruct (entries_split_nonempty entries Hne) as [H|H].
  - destruct (subdir_names entries); [congruence|]. cbn [app]. rewrite app_nil_r.
    apply flat_map_ext. intros [name child]. reflexivity.
  - destruct (subdir_names entries), (file_entries entries); try congruence;
      cbn [app]; rewrite app_nil_r; apply flat_map_ext; intros [name child]; reflexivity.
Qed.

End ViewerFacts.
(** ** The drawn rectangle and the mapper beyond the claims *)

Section GeometryFacts.
Import Py Qt Binary64 DragGenerator.

Lemma scaled_KeepAspectRatio_fits (W H Wc Hc : Z) :
  1 <= W -> 1 <= H -> 1 <= Wc -> 1 <= Hc ->
  let s := scaled_KeepAspectRatio (mkQSize W H) (mkQSize Wc Hc) in
  0 <= wd s <= Wc /\ 0 <= ht s <= Hc
  /\ ((ht s = Hc /\ wd s * H <= Hc * W < (wd s + 1) * H)
      \/ (wd s = Wc /\ ht s * W <= Wc * H < (ht s + 1) * W)).
Proof.
  intros HW HH HWc HHc. unfold scaled_KeepAspectRatio. cbn [wd ht].
  destruct (Z.eqb_spec W 0); [lia|]. destruct (Z.eqb_spec H 0); [lia|]. cbn [orb].
  rewrite !Z.quot_div_nonneg by lia.
  pose proof (Z.div_mod (Hc * W) H ltac:(lia)) as E1.
  pose proof (Z.mod_pos_bound (Hc * W) H ltac:(lia)) as B1.
  pose proof (Z.div_mod (Wc * H) W ltac:(lia)) as E2.
  pose proof (Z.mod_pos_bound (Wc * H) W ltac:(lia)) as B2.
  assert (0 <= Hc * W / H) by (apply Z.div_pos; nia).
  assert (0 <= Wc * H / W) by (apply Z.div_pos; nia).
  destruct (Z.leb_spec (Hc * W / H) Wc) as [Hle|Hgt]; cbn [wd ht].
  - split; [lia|]. split; [lia|]. left. split; [reflexivity|]. nia.
  - split; [lia|]. assert (Wc * H / W <= Hc) by nia.
    split; [lia|]. right. split; [reflexivity|]. nia.
Qed.

(** X6.  The rectangle [update_display] records for a loaded image
    lies inside the label's contents rectangle, is centred in it to
    within one pixel along every axis on which it is at least one
    pixel long, fills the contents rectangle along one axis, and keeps
    the image's aspect ratio to within one pixel on the other axis. *)
Theorem drawn_rect_fits_centred_in_contents (W H : Z) (contents : QRect) :
  1 <= W -> 1 <= H ->
  0 <= x1 contents -> 0 <= y1 contents ->
  1 <= QRect_width contents -> 1 <= QRect_height contents ->
  let r := drawn_rect (Pixmap W H) contents in
  (x1 contents <= x1 r /\ x2 r <= x2 contents /\ y1 contents <= y1 r /\ y2 r <= y2 contents)
  /\ ((1 <= QRect_width r -> Z.abs ((x1 r - x1 contents) - (x2 contents - x2 r)) <= 1)
      /\ (1 <= QRect_height r -> Z.abs ((y1 r - y1 contents) - (y2 contents - y2 r)) <= 1))
  /\ ((QRect_height r = QRect_height contents
       /\ QRect_width r * H <= QRect_height contents * W < (QRect_width r + 1) * H)
      \/ (QRect_width r = QRect_width contents
          /\ QRect_height r * W <= QRect_width contents * H < (QRect_height r + 1) * W)).
Proof.
  intros HW HH Hx Hy Hcw Hch. cbv zeta.
  destruct contents as [cx1 cy1 cx2 cy2].
  unfold drawn_rect, QRect_size, QPixmap_size, QRect_width, QRect_height in *.
  cbn [QPixmap_isNull negb QPixmap_width QPixmap_height x1 y1 x2 y2] in *.
  pose proof (scaled_KeepAspectRatio_fits W H (cx2 - cx1 + 1) (cy2 - cy1 + 1)
                HW HH Hcw Hch) as Hs.
  cbv zeta in Hs.
  generalize dependent (scaled_KeepAspectRatio (mkQSize W H)
                          (mkQSize (cx2 - cx1 + 1) (cy2 - cy1 + 1))).
  intros s ([Hw0 Hw1] & [Hh0 Hh1] & Hfill).
  unfold QRect_moveCenter, QRect_of, QRect_center.
  cbn [x1 y1 x2 y2 px py].
  replace (0 + wd s - 1 - 0) with (wd s - 1) by lia.
  replace (0 + ht s - 1 - 0) with (ht s - 1) by lia.
  rewrite (Z.quot_div_nonneg (cx1 + cx2) 2) by lia.
  rewrite (Z.quot_div_nonneg (cy1 + cy2) 2) by lia.
  assert (Qw : (wd s - 1) ÷ 2 = (wd s) / 2 - (if wd s =? 0 then 0 else if Z.even (wd s) then 1 else 0)).
  { destruct (Z.eqb_spec (wd s) 0) as [->|]; [reflexivity|].
    rewrite Z.quot_div_nonneg by lia.
    destruct (Z.even (wd s)) eqn:Ev.
    - apply Z.even_spec in Ev as [k Hk]. rewrite Hk.
      replace (2 * k - 1) with ((k - 1) * 2 + 1) by lia.
      rewrite Z.div_add_l by lia. rewrite (Z.mul_comm 2 k), Z.div_mul by lia.
      change (1 / 2) with 0. lia.
    - assert (Od : Z.odd (wd s) = true) by (rewrite <- Z.negb_even, Ev; reflexivity).
      apply Z.odd_spec in Od as [k Hk]. rewrite Hk.
      replace (2 * k + 1 - 1) with (k * 2) by lia. rewrite Z.div_mul by lia.
      rewrite (Z.mul_comm 2 k), Z.div_add_l by lia. change (1 / 2) with 0. lia. }
  assert (Qh : (ht s - 1) ÷ 2 = (ht s) / 2 - (if ht s =? 0 then 0 else if Z.even (ht s) then 1 else 0)).
  { destruct (Z.eqb_spec (ht s) 0) as [->|]; [reflexivity|].
    rewrite Z.quot_div_nonneg by lia.
    destruct (Z.even (ht s)) eqn:Ev.
    - apply Z.even_spec in Ev as [k Hk]. rewrite Hk.
      replace (2 * k - 1) with ((k - 1) * 2 + 1) by lia.
      rewrite Z.div_add_l by lia. rewrite (Z.mul_comm 2 k), Z.div_mul by lia.
      change (1 / 2) with 0. lia.
    - assert (Od : Z.odd (ht s) = true) by (rewrite <- Z.negb_even, Ev; reflexivity).
      apply Z.odd_spec in Od as [k Hk]. rewrite Hk.
      replace (2 * k + 1 - 1) with (k * 2) by lia. rewrite Z.div_mul by lia.
      rewrite (Z.mul_comm 2 k), Z.div_add_l by lia. change (1 / 2) with 0. lia. }
  rewrite Qw, Qh.
  pose proof (Z.div_mod (cx1 + cx2) 2 ltac:(lia)) as E1.
  pose proof (Z.mod_pos_bound (cx1 + cx2) 2 ltac:(lia)) as B1.
  pose proof (Z.div_mod (cy1 + cy2) 2 ltac:(lia)) as E2.
  pose proof (Z.mod_pos_bound (cy1 + cy2) 2 ltac:(lia)) as B2.
  pose proof (Z.div_mod (wd s) 2 ltac:(lia)) as E3.
  pose proof (Z.mod_pos_bound (wd s) 2 ltac:(lia)) as B3.
  pose proof (Z.div_mod (ht s) 2 ltac:(lia)) as E4.
  pose proof (Z.mod_pos_bound (ht s) 2 ltac:(lia)) as B4.
  assert (Pw : Z.even (wd s) = true -> (wd s) mod 2 = 0)
    by (intros Ev; apply Z.even_spec in Ev as [k ->]; rewrite Z.mul_comm; apply Z.mod_mul; lia).
  assert (Ph : Z.even (ht s) = true -> (ht s) mod 2 = 0)
    by (intros Ev; apply Z.even_spec in Ev as [k ->]; rewrite Z.mul_comm; apply Z.mod_mul; lia).
  assert (Pw' : Z.even (wd s) = false -> (wd s) mod 2 = 1).
  { intros Ev. assert (Od : Z.odd (wd s) = true) by (rewrite <- Z.negb_even, Ev; reflexivity).
    apply Z.odd_spec in Od as [k ->]. rewrite Z.add_comm, Z.mul_comm, Z.mod_add by lia. reflexivity. }
  assert (Ph' : Z.even (ht s) = false -> (ht s) mod 2 = 1).
  { intros Ev. assert (Od : Z.odd (ht s) = true) by (rewrite <- Z.negb_even, Ev; reflexivity).
    apply Z.odd_spec in Od as [k ->]. rewrite Z.add_comm, Z.mul_comm, Z.mod_add by lia. reflexivity. }
  destruct (Z.eqb_spec (wd s) 0), (Z.eqb_spec (ht s) 0),
    (Z.even (wd s)) eqn:Ew, (Z.even (ht s)) eqn:Eh;
    try specialize (Pw eq_refl); try specialize (Ph eq_refl);
    try specialize (Pw' eq_refl); try specialize (Ph' eq_refl);
    (split; [lia|]); (split; [lia|]);
    (destruct Hfill as [[F1 F2]|[F1 F2]]; [left|right]; split; lia).
Qed.

Lemma drawn_rect_fits_centred_in_contents_witness :
  let contents := mkQRect 1 1 120 100 in
  let r := drawn_rect (Pixmap 1000 800) contents in
  r = mkQRect 1 3 120 98
  /\ (x1 contents <= x1 r /\ x2 r <= x2 contents /\ y1 contents <= y1 r /\ y2 r <= y2 contents)
  /\ ((1 <= QRect_width r -> Z.abs ((x1 r - x1 contents) - (x2 contents - x2 r)) <= 1)
      /\ (1 <= QRect_height r -> Z.abs ((y1 r - y1 contents) - (y2 contents - y2 r)) <= 1))
  /\ ((QRect_height r = QRect_height contents
       /\ QRect_width r * 800 <= QRect_height contents * 1000 < (QRect_width r + 1) * 800)
      \/ (QRect_width r = QRect_width contents
          /\ QRect_height r * 1000 <= QRect_width contents * 800 < (QRect_height r + 1) * 1000)).
Proof.
  intros contents r. split; [reflexivity|].
  exact (drawn_rect_fits_centred_in_contents 1000 800 (mkQRect 1 1 120 100)
           ltac:(lia) ltac:(lia) ltac:(cbn; lia) ltac:(cbn; lia)
           ltac:(vm_compute; discriminate) ltac:(vm_compute; discriminate)).
Defined.

Lemma QRect_contains_of_box (r : QRect) (p : QPoint) :
  x1 r <= px p <= x2 r -> y1 r <= py p <= y2 r -> QRect_contains r p = true.
Proof.
  intros Hx Hy. unfold QRect_contains.
  destruct (Z.ltb_spec (x2 r) (x1 r - 1)); [lia|].
  destruct (Z.ltb_spec (y2 r) (y1 r - 1)); [lia|].
  destruct (Z.ltb_spec (px p) (x1 r)); [lia|].
  destruct (Z.ltb_spec (x2 r) (px p)); [lia|].
  destruct (Z.ltb_spec (py p) (y1 r)); [lia|].
  destruct (Z.ltb_spec (y2 r) (py p)); [lia|].
  reflexivity.
Qed.

(** X7.  For image and drawn rectangle with sides between 1 and
    [2^25], [get_display_point_from_original] sends every pixel of the
    image to a display point inside the drawn rectangle, whatever the
    scale; so the hit test can reach every stored point, and
    [get_original_point_from_display] maps that display point back to
    a pixel of the image rather than to [None]. *)
Theorem display_point_of_image_pixel_is_on_drawn_image (W H : Z) (drawn : QRect) (o : QPoint) :
  1 <= W <= 2 ^ 25 -> 1 <= H <= 2 ^ 25 ->
  1 <= QRect_width drawn <= 2 ^ 25 -> 1 <= QRect_height drawn <= 2 ^ 25 ->
  0 <= px o < W -> 0 <= py o < H ->
  exists d o' : QPoint,
    display_point_from_original (Pixmap W H) drawn o = Returned (Some d)
    /\ QRect_contains drawn d = true
    /\ original_point_from_display (Pixmap W H) drawn d = Returned (Some o')
    /\ 0 <= px o' < W /\ 0 <= py o' < H.
Proof.
  intros HW HH Hdw Hdh Hox Hoy.
  assert (H25 : 2 ^ 25 * 2 ^ 25 * 3 < 2 ^ 53) by reflexivity.
  assert (H25' : 2 ^ 25 < 2 ^ 53) by reflexivity.
  destruct (rescale_axis_in_range (QRect_width drawn) W (px o))
    as (sx & Hsx & Hsxr & _); [lia|lia|lia|nia|lia|lia|].
  destruct (rescale_axis_in_range (QRect_height drawn) H (py o))
    as (sy & Hsy & Hsyr & _); [lia|lia|lia|nia|lia|lia|].
  destruct (rescale_axis_in_range W (QRect_width drawn) sx)
    as (rx & Hrx & Hrxr & _); [lia|lia|lia|nia|lia|lia|].
  destruct (rescale_axis_in_range H (QRect_height drawn) sy)
    as (ry & Hry & Hryr & _); [lia|lia|lia|nia|lia|lia|].
  exists (mkQPoint (x1 drawn + sx) (y1 drawn + sy)),
    (mkQPoint (Z.max 0 (Z.min rx (W - 1))) (Z.max 0 (Z.min ry (H - 1)))).
  assert (Hin : QRect_contains drawn (mkQPoint (x1 drawn + sx) (y1 drawn + sy)) = true).
  { apply QRect_contains_of_box; unfold QRect_width, QRect_height in *; cbn [px py]; lia. }
  split; [apply display_point_mapped; (assumption || lia)|].
  split; [exact Hin|]. split.
  - apply original_point_inside; try (assumption || lia); cbn [px py].
    + replace (x1 drawn + sx - x1 drawn) with sx by lia. exact Hrx.
    + replace (y1 drawn + sy - y1 drawn) with sy by lia. exact Hry.
  - cbn [px py]. lia.
Qed.

Lemma display_point_of_image_pixel_is_on_drawn_image_witness :
  exists d o' : QPoint,
    display_point_from_original (Pixmap 1000 800) (mkQRect 10 20 109 99) (mkQPoint 999 799)
    = Returned (Some d)
    /\ QRect_contains (mkQRect 10 20 109 99) d = true
    /\ original_point_from_display (Pixmap 1000 800) (mkQRect 10 20 109 99) d
       = Returned (Some o')
    /\ 0 <= px o' < 1000 /\ 0 <= py o' < 800.
Proof.
  apply (display_point_of_image_pixel_is_on_drawn_image 1000 800 (mkQRect 10 20 109 99)
           (mkQPoint 999 799)).
  - vm_compute. split; discriminate.
  - vm_compute. split; discriminate.
  - vm_compute. split; discriminate.
  - vm_compute. split; discriminate.
  - vm_compute. split; [discriminate|reflexivity].
  - vm_compute. split; [discriminate|reflexivity].
Defined.

(** X8.  The round trip in the other direction.  When the image is
    drawn at its own size or enlarged (the drawn rectangle is at least
    the image size on each axis, sides up to [2^25]), a pixel of the
    image mapped to the display and back comes out as itself or as
    its predecessor on each axis; at the image's own size it comes out
    as itself. *)
Theorem original_round_trip_within_one_when_not_reduced (W H : Z) (drawn : QRect) (o : QPoint) :
  1 <= W <= QRect_width drawn -> 1 <= H <= QRect_height drawn ->
  QRect_width drawn <= 2 ^ 25 -> QRect_height drawn <= 2 ^ 25 ->
  0 <= px o < W -> 0 <= py o < H ->
  exists d o' : QPoint,
    display_point_from_original (Pixmap W H) drawn o = Returned (Some d)
    /\ original_point_from_display (Pixmap W H) drawn d = Returned (Some o')
    /\ px o - 1 <= px o' <= px o /\ py o - 1 <= py o' <= py o
    /\ (QRect_width drawn = W -> px o' = px o)
    /\ (QRect_height drawn = H -> py o' = py o).
Proof.
  intros HW HH Hdw Hdh Hox Hoy.
  assert (H25 : 2 ^ 25 < 2 ^ 53) by reflexivity.
  destruct (round_trip_axis (QRect_width drawn) W (px o))
    as (sx & rx & Hsx & Hsxr & Hrx & Hrxb); [lia|lia|lia|].
  destruct (round_trip_axis (QRect_height drawn) H (py o))
    as (sy & ry & Hsy & Hsyr & Hry & Hryb); [lia|lia|lia|].
  assert (Hrx0 : 0 <= rx).
  { destruct (rescale_axis_floor W (QRect_width drawn) sx) as (r & Hr & Hr0 & _);
      [lia|lia|lia|nia|lia|lia|]. congruence. }
  assert (Hry0 : 0 <= ry).
  { destruct (rescale_axis_floor H (QRect_height drawn) sy) as (r & Hr & Hr0 & _);
      [lia|lia|lia|nia|lia|lia|]. congruence. }
  exists (mkQPoint (x1 drawn + sx) (y1 drawn + sy)), (mkQPoint rx ry).
  assert (Hin : QRect_contains drawn (mkQPoint (x1 drawn + sx) (y1 drawn + sy)) = true).
  { apply QRect_contains_of_box; unfold QRect_width, QRect_height in *; cbn [px py]; lia. }
  split; [apply display_point_mapped; (assumption || lia)|].
  split.
  - rewrite (original_point_inside W H drawn _ rx ry); try (assumption || lia); cbn [px py].
    + do 3 f_equal; lia.
    + replace (x1 drawn + sx - x1 drawn) with sx by lia. exact Hrx.
    + replace (y1 drawn + sy - y1 drawn) with sy by lia. exact Hry.
  - cbn [px py]. split; [lia|]. split; [lia|]. split.
    + intros E. rewrite E in Hsx, Hrx.
      rewrite rescale_axis_same in Hsx by lia. injection Hsx as <-.
      rewrite rescale_axis_same in Hrx by lia. injection Hrx as <-. reflexivity.
    + intros E. rewrite E in Hsy, Hry.
      rewrite rescale_axis_same in Hsy by lia. injection Hsy as <-.
      rewrite rescale_axis_same in Hry by lia. injection Hry as <-. reflexivity.
Qed.

Lemma original_round_trip_within_one_when_not_reduced_witness :
  exists d o' : QPoint,
    display_point_from_original (Pixmap 22 22) (mkQRect 0 0 29 29) (mkQPoint 15 21)
    = Returned (Some d)
    /\ original_point_from_display (Pixmap 22 22) (mkQRect 0 0 29 29) d = Returned (Some o')
    /\ 15 - 1 <= px o' <= 15 /\ 21 - 1 <= py o' <= 21
    /\ (QRect_width (mkQRect 0 0 29 29) = 22 -> px o' = 15)
    /\ (QRect_height (mkQRect 0 0 29 29) = 22 -> py o' = 21).
Proof.
  apply (original_round_trip_within_one_when_not_reduced 22 22 (mkQRect 0 0 29 29)
           (mkQPoint 15 21)).
  - vm_compute. split; discriminate.
  - vm_compute. split; discriminate.
  - vm_compute. discriminate.
  - vm_compute. discriminate.
  - vm_compute. split; [discriminate|reflexivity].
  - vm_compute. split; [discriminate|reflexivity].
Defined.

End GeometryFacts.
(** ** The two annotation labels beyond the claims *)

Section LabelFacts.
Import Py Qt DragGenerator.

(** Whatever the rescaling yields, the point handed back lies in the
    clamping interval of each axis. *)
Lemma original_point_clamped (pixmap : QPixmap) (drawn : QRect) (p o : QPoint) :
  original_point_from_display pixmap drawn p = Returned (Some o) ->
  1 <= QPixmap_width pixmap -> 1 <= QPixmap_height pixmap ->
  0 <= px o <= QPixmap_width pixmap - 1 /\ 0 <= py o <= QPixmap_height pixmap - 1.
Proof.
  intros H HW HH. unfold original_point_from_display in H.
  repeat match type of H with
         | context [if ?b then _ else _] => destruct b; try discriminate
         | context [bind ?m _] => destruct m; cbn [bind] in H; try discriminate
         end.
  injection H as <-. cbn [px py]. lia.
Qed.

Lemma marks_image_clicked (pixmap : QPixmap) (drawn : QRect) (p o : QPoint) :
  original_point_from_display pixmap drawn p = Returned (Some o) ->
  1 <= QPixmap_width pixmap -> 1 <= QPixmap_height pixmap ->
  QPoint_bool o = true ->
  marks_image pixmap o.
Proof.
  intros H HW HH Hb. destruct (original_point_clamped _ _ _ _ H HW HH) as [Hx Hy].
  unfold marks_image. auto.
Qed.

Lemma list_setitem_Forall {A : Type} (P : A -> Prop) (l l' : list A) (i : Z) (v : A) :
  list_setitem l i v = Returned l' -> Forall P l -> P v -> Forall P l'.
Proof.
  unfold list_setitem. intros H Hl Hv.
  destruct ((0 <=? i) && (i <? Z.of_nat (length l))).
  - injection H as <-. apply Forall_insert; assumption.
  - destruct ((- Z.of_nat (length l) <=? i) && (i <? 0)); [|discriminate].
    injection H as <-. apply Forall_insert; assumption.
Qed.

Lemma list_pop_Forall {A : Type} (P : A -> Prop) (l l' : list A) (i : nat) :
  list_pop l i = Returned l' -> Forall P l -> Forall P l'.
Proof.
  unfold list_pop. intros H Hl. destruct (i <? length l)%nat; [|discriminate].
  injection H as <-. apply Forall_delete, Hl.
Qed.

(** *** Points stay on the image *)

Lemma point_perform_sound (self : SingleImageDisplayLabel.t)
    (op : SingleImageDisplayLabel.operation) :
  SingleImageDisplayLabel.loads_pixmap op ->
  SingleImageDisplayLabel.sound self ->
  SingleImageDisplayLabel.sound (after (SingleImageDisplayLabel.perform self op)).
Proof.
  intros Hop Hs. pose proof Hs as [Hpm Hpts].
  destruct op as [usable loaded|contents|event|event|event|enabled|];
    cbn [SingleImageDisplayLabel.perform SingleImageDisplayLabel.loads_pixmap] in *.
  - unfold SingleImageDisplayLabel.set_image. destruct usable; cbn.
    + split; [|constructor]. destruct Hop as [->|(w & h & -> & Hw & Hh)]; cbn; [discriminate|auto].
    + split; [discriminate|constructor].
  - exact Hs.
  - unfold SingleImageDisplayLabel.mousePressEvent.
    destruct (negb (SingleImageDisplayLabel.point_mode_enabled self)); cbn [orb];
      [exact Hs|].
    destruct (QPixmap_isNull (SingleImageDisplayLabel._original_pixmap self)) eqn:Hnull;
      [exact Hs|].
    destruct (Hpm eq_refl) as [HW HH].
    destruct (SingleImageDisplayLabel.get_original_point_from_display self (pos event))
      as [[o|]|e] eqn:Ho; [|exact Hs..].
    destruct (QPoint_bool o) eqn:Hb; cbn [negb]; [|exact Hs].
    pose proof (marks_image_clicked _ _ _ _ Ho HW HH Hb) as Hmark.
    destruct (button event); try (exact Hs).
    + destruct (SingleImageDisplayLabel.hit _ (pos event)) as [found|e]; [|exact Hs].
      destruct found as [i|]; cbn;
        repeat match goal with |- context [if ?b then _ else _] => destruct b eqn:? end;
        cbn; (split; [exact (proj1 Hs)|]);
        first [exact Hpts
              |apply Forall_app; split; [exact Hpts|constructor; [exact Hmark|constructor]]].
    + destruct (SingleImageDisplayLabel.hit self (pos event)) as [[i|]|e];
        [|exact Hs..].
      destruct (list_pop (SingleImageDisplayLabel.current_points self) i) as [l|e] eqn:Hpop;
        [|exact Hs].
      cbn. split; [exact (proj1 Hs)|]. exact (list_pop_Forall _ _ _ _ Hpop Hpts).
  - unfold SingleImageDisplayLabel.mouseMoveEvent.
    destruct (negb (SingleImageDisplayLabel.point_mode_enabled self)); cbn [orb];
      [exact Hs|].
    destruct (QPixmap_isNull (SingleImageDisplayLabel._original_pixmap self)) eqn:Hnull;
      [exact Hs|].
    destruct (Hpm eq_refl) as [HW HH].
    destruct (negb (SingleImageDisplayLabel.dragging_point_index self =? -1)
              && buttons_left event).
    + destruct (SingleImageDisplayLabel.get_original_point_from_display self (pos event))
        as [[o|]|e] eqn:Ho; [|exact Hs..].
      destruct (QPoint_bool o) eqn:Hb; [|exact Hs].
      destruct (list_setitem _ _ o) as [l|e] eqn:Hset; [|exact Hs].
      cbn. split; [exact (proj1 Hs)|].
      exact (list_setitem_Forall _ _ _ _ _ Hset Hpts
               (marks_image_clicked _ _ _ _ Ho HW HH Hb)).
    + repeat match goal with
             | |- context [match ?m with Returned _ => _ | Raised _ => _ end] => destruct m
             | |- context [match ?m with Some _ => _ | None => _ end] => destruct m
             | |- context [if ?b then _ else _] => destruct b
             end; exact Hs.
  - unfold SingleImageDisplayLabel.mouseReleaseEvent.
    destruct (negb (SingleImageDisplayLabel.point_mode_enabled self)); exact Hs.
  - unfold SingleImageDisplayLabel.set_point_mode_enabled.
    destruct (negb enabled); exact Hs.
  - cbn. split; [exact (proj1 Hs)|constructor].
Qed.

(** X9.  In every session of the point label whose loaded pixmaps
    have positive sides, each stored point is a pixel of the image now
    shown, with coordinates between 0 and the side minus one, and is
    never the origin pixel (0, 0); with no image shown the list is
    empty. *)
Theorem point_session_marks_stay_on_image (contents : QRect)
    (ops : list SingleImageDisplayLabel.operation) :
  Forall SingleImageDisplayLabel.loads_pixmap ops ->
  let label := SingleImageDisplayLabel.session contents ops in
  Forall (marks_image (SingleImageDisplayLabel._original_pixmap label))
    (SingleImageDisplayLabel.current_points label)
  /\ (QPixmap_isNull (SingleImageDisplayLabel._original_pixmap label) = true ->
      SingleImageDisplayLabel.current_points label = []).
Proof.
  intros Hops. cbv zeta. unfold SingleImageDisplayLabel.session.
  assert (Hs : SingleImageDisplayLabel.sound
                 (fold_left (fun self op => after (SingleImageDisplayLabel.perform self op))
                    ops (SingleImageDisplayLabel.init contents))).
  { assert (H0 : SingleImageDisplayLabel.sound (SingleImageDisplayLabel.init contents))
      by (split; [discriminate|constructor]).
    revert H0. generalize (SingleImageDisplayLabel.init contents).
    induction Hops as [|op ops Hop _ IH]; intros self Hself; [exact Hself|].
    cbn [fold_left]. apply IH, point_perform_sound; assumption. }
  destruct Hs as [_ Hpts]. split; [exact Hpts|].
  intros Hnull.
  destruct (SingleImageDisplayLabel._original_pixmap _); [|discriminate].
  destruct Hpts as [|p l [Hx _] _]; [reflexivity|]. cbn in Hx. lia.
Qed.

Lemma point_session_marks_stay_on_image_witness :
  let ops :=
    [SingleImageDisplayLabel.SetImage true (Pixmap 1000 800);
     SingleImageDisplayLabel.SetPointModeEnabled true;
     SingleImageDisplayLabel.MousePress (mkQMouseEvent (mkQPoint 60 50) LeftButton true);
     SingleImageDisplayLabel.MouseRelease (mkQMouseEvent (mkQPoint 60 50) LeftButton false);
     SingleImageDisplayLabel.MousePress (mkQMouseEvent (mkQPoint 119 107) LeftButton true)] in
  let label := SingleImageDisplayLabel.session (mkQRect 0 0 119 119) ops in
  SingleImageDisplayLabel.current_points label = [mkQPoint 500 316; mkQPoint 991 791]
  /\ Forall (marks_image (SingleImageDisplayLabel._original_pixmap label))
       (SingleImageDisplayLabel.current_points label)
  /\ (QPixmap_isNull (SingleImageDisplayLabel._original_pixmap label) = true ->
      SingleImageDisplayLabel.current_points label = []).
Proof.
  intros ops label. split; [vm_compute; reflexivity|].
  apply (point_session_marks_stay_on_image (mkQRect 0 0 119 119) ops).
  constructor; [right; exists 1000, 800; repeat split; lia|].
  repeat (constructor; [exact I|]). constructor.
Defined.

Lemma mask_perform_sound (self : CombinedImageLabel.t) (op : CombinedImageLabel.operation) :
  CombinedImageLabel.loads_pixmap op ->
  CombinedImageLabel.sound self ->
  CombinedImageLabel.sound (after (CombinedImageLabel.perform self op)).
Proof.
  intros Hop Hs. pose proof Hs as [Hpm Hpts].
  destruct op as [pm1 pm2|contents|event|event|event|enabled|];
    cbn [CombinedImageLabel.perform CombinedImageLabel.loads_pixmap] in *.
  - unfold CombinedImageLabel.set_images, CombinedImageLabel._combine_pixmaps. cbn.
    destruct Hop as [[->|(w & h & -> & Hw & Hh)] Hop2]; cbn;
      [split; [discriminate|constructor]|].
    destruct (QPixmap_isNull pm2); cbn; (split; [|constructor]); [discriminate|auto].
  - exact Hs.
  - unfold CombinedImageLabel.mousePressEvent.
    destruct (negb (CombinedImageLabel.mask_mode_enabled self)); cbn [orb];
      [exact Hs|].
    destruct (QPixmap_isNull (CombinedImageLabel.combined_pixmap self)) eqn:Hnull;
      [exact Hs|].
    destruct (Hpm eq_refl) as [HW HH].
    destruct (CombinedImageLabel.get_original_point_from_display self (pos event))
      as [[o|]|e] eqn:Ho; [|exact Hs..].
    destruct (QPoint_bool o) eqn:Hb; cbn [negb]; [|exact Hs].
    pose proof (marks_image_clicked _ _ _ _ Ho HW HH Hb) as Hmark.
    destruct (button event); try (exact Hs).
    destruct (CombinedImageLabel.hit _ (pos event)) as [found|e]; [|exact Hs].
    destruct found as [i|]; cbn;
      repeat match goal with |- context [if ?b then _ else _] => destruct b eqn:? end;
      cbn; (split; [exact (proj1 Hs)|]);
      first [exact Hpts
            |apply Forall_app; split; [exact Hpts|constructor; [exact Hmark|constructor]]].
  - unfold CombinedImageLabel.mouseMoveEvent.
    destruct (negb (CombinedImageLabel.mask_mode_enabled self)); cbn [orb];
      [exact Hs|].
    destruct (QPixmap_isNull (CombinedImageLabel.combined_pixmap self)) eqn:Hnull;
      [exact Hs|].
    destruct (Hpm eq_refl) as [HW HH].
    destruct (negb (CombinedImageLabel.dragging_point_index self =? -1)
              && buttons_left event).
    + destruct (CombinedImageLabel.get_original_point_from_display self (pos event))
        as [[o|]|e] eqn:Ho; [|exact Hs..].
      destruct (QPoint_bool o) eqn:Hb; [|exact Hs].
      destruct (list_setitem _ _ o) as [l|e] eqn:Hset; [|exact Hs].
      cbn. split; [exact (proj1 Hs)|].
      exact (list_setitem_Forall _ _ _ _ _ Hset Hpts
               (marks_image_clicked _ _ _ _ Ho HW HH Hb)).
    + repeat match goal with
             | |- context [match ?m with Returned _ => _ | Raised _ => _ end] => destruct m
             | |- context [match ?m with Some _ => _ | None => _ end] => destruct m
             | |- context [if ?b then _ else _] => destruct b
             end; exact Hs.
  - unfold CombinedImageLabel.mouseReleaseEvent.
    destruct (negb (CombinedImageLabel.mask_mode_enabled self)); exact Hs.
  - unfold CombinedImageLabel.set_mask_mode_enabled.
    destruct (negb enabled); exact Hs.
  - cbn. split; [exact (proj1 Hs)|constructor].
Qed.

(** X10.  In every session of the mask label whose loaded pixmaps
    have positive sides, each mask point is a pixel of the combined
    image now shown (which has the size of the first frame) and is
    never the origin pixel (0, 0); with no combined image the mask is
    empty. *)
Theorem mask_session_points_stay_on_image (contents : QRect)
    (ops : list CombinedImageLabel.operation) :
  Forall CombinedImageLabel.loads_pixmap ops ->
  let label := CombinedImageLabel.session contents ops in
  Forall (marks_image (CombinedImageLabel.combined_pixmap label))
    (CombinedImageLabel.mask_points label)
  /\ (QPixmap_isNull (CombinedImageLabel.combined_pixmap label) = true ->
      CombinedImageLabel.mask_points label = []).
Proof.
  intros Hops. cbv zeta. unfold CombinedImageLabel.session.
  assert (Hs : CombinedImageLabel.sound
                 (fold_left (fun self op => after (CombinedImageLabel.perform self op))
                    ops (CombinedImageLabel.init contents))).
  { assert (H0 : CombinedImageLabel.sound (CombinedImageLabel.init contents))
      by (split; [discriminate|constructor]).
    revert H0. generalize (CombinedImageLabel.init contents).
    induction Hops as [|op ops Hop _ IH]; intros self Hself; [exact Hself|].
    cbn [fold_left]. apply IH, mask_perform_sound; assumption. }
  destruct Hs as [_ Hpts]. split; [exact Hpts|].
  intros Hnull.
  destruct (CombinedImageLabel.combined_pixmap _); [|discriminate].
  destruct Hpts as [|p l [Hx _] _]; [reflexivity|]. cbn in Hx. lia.
Qed.

Lemma mask_session_points_stay_on_image_witness :
  let ops :=
    [CombinedImageLabel.SetImages (Pixmap 1000 800) (Pixmap 640 480);
     CombinedImageLabel.SetMaskModeEnabled true;
     CombinedImageLabel.MousePress (mkQMouseEvent (mkQPoint 60 50) LeftButton true);
     CombinedImageLabel.MouseRelease (mkQMouseEvent (mkQPoint 60 50) LeftButton false);
     CombinedImageLabel.MousePress (mkQMouseEvent (mkQPoint 119 107) LeftButton true)] in
  let label := CombinedImageLabel.session (mkQRect 0 0 119 119) ops in
  CombinedImageLabel.mask_points label = [mkQPoint 500 316; mkQPoint 991 791]
  /\ Forall (marks_image (CombinedImageLabel.combined_pixmap label))
       (CombinedImageLabel.mask_points label)
  /\ (QPixmap_isNull (CombinedImageLabel.combined_pixmap label) = true ->
      CombinedImageLabel.mask_points label = []).
Proof.
  intros ops label. split; [vm_compute; reflexivity|].
  apply (mask_session_points_stay_on_image (mkQRect 0 0 119 119) ops).
  constructor; [split; right; [exists 1000, 800|exists 640, 480]; repeat split; lia|].
  repeat (constructor; [exact I|]). constructor.
Defined.

(** *** Dragging *)

(** X11.  A drag on the point label moves exactly the grabbed point.
    With point mode on and an image shown, a left press on the image
    that hits point [i] changes no point; a move with the left button
    held to a display position that maps to the non-origin pixel [o]
    stores [o] at index [i], leaves every other point and the length
    as they were and announces the new list; the release ends the
    drag.  None of the three handlers raises. *)
Theorem drag_moves_exactly_the_grabbed_point (self : SingleImageDisplayLabel.t)
    (press move release : QMouseEvent) (i : nat) (o0 o : QPoint) :
  SingleImageDisplayLabel.point_mode_enabled self = true ->
  QPixmap_isNull (SingleImageDisplayLabel._original_pixmap self) = false ->
  button press = LeftButton ->
  SingleImageDisplayLabel.get_original_point_from_display self (pos press)
  = Returned (Some o0) ->
  QPoint_bool o0 = true ->
  SingleImageDisplayLabel.hit self (pos press) = Returned (Some i) ->
  buttons_left move = true ->
  SingleImageDisplayLabel.get_original_point_from_display self (pos move)
  = Returned (Some o) ->
  QPoint_bool o = true ->
  let pressed := SingleImageDisplayLabel.mousePressEvent self press in
  let moved := SingleImageDisplayLabel.mouseMoveEvent (after pressed) move in
  let released := SingleImageDisplayLabel.mouseReleaseEvent (after moved) release in
  (i < length (SingleImageDisplayLabel.current_points self))%nat
  /\ SingleImageDisplayLabel.current_points (after pressed)
     = SingleImageDisplayLabel.current_points self
  /\ SingleImageDisplayLabel.current_points (after released)
     = <[i := o]> (SingleImageDisplayLabel.current_points self)
  /\ emitted moved = [<[i := o]> (SingleImageDisplayLabel.current_points self)]
  /\ SingleImageDisplayLabel.dragging_point_index (after released) = -1
  /\ raised pressed = None /\ raised moved = None /\ raised released = None.
Proof.
  intros Hmode Hnull Hleft Ho0 Hb0 Hhit Hheld Ho Hb. cbv zeta.
  assert (Hi : (i < length (SingleImageDisplayLabel.current_points self))%nat).
  { unfold SingleImageDisplayLabel.hit in Hhit.
    destruct (first_hit_found _ _ _ _ _ _ Hhit) as [Hr _]. lia. }
  assert (Hpress : SingleImageDisplayLabel.mousePressEvent self press
                   = announced (SingleImageDisplayLabel.set_dragging self (Z.of_nat i))
                       (SingleImageDisplayLabel.current_points self)).
  { unfold SingleImageDisplayLabel.mousePressEvent.
    rewrite Hmode, Hnull, Ho0, Hb0, Hleft. cbn [negb orb].
    change (SingleImageDisplayLabel.hit
              (SingleImageDisplayLabel.set_dragging self (-1)) (pos press))
      with (SingleImageDisplayLabel.hit self (pos press)).
    rewrite Hhit. cbn.
    destruct (Z.eqb_spec (Z.of_nat i) (-1)); [lia|]. reflexivity. }
  rewrite Hpress. cbn [after announced].
  assert (Hmove : SingleImageDisplayLabel.mouseMoveEvent
                    (SingleImageDisplayLabel.set_dragging self (Z.of_nat i)) move
                  = announced
                      (SingleImageDisplayLabel.set_points
                         (SingleImageDisplayLabel.set_dragging self (Z.of_nat i))
                         (<[i := o]> (SingleImageDisplayLabel.current_points self)))
                      (<[i := o]> (SingleImageDisplayLabel.current_points self))).
  { unfold SingleImageDisplayLabel.mouseMoveEvent. cbn.
    rewrite Hmode, Hnull, Hheld. cbn [negb orb andb].
    destruct (Z.eqb_spec (Z.of_nat i) (-1)); [lia|]. cbn [negb].
    change (SingleImageDisplayLabel.get_original_point_from_display
              (SingleImageDisplayLabel.set_dragging self (Z.of_nat i)) (pos move))
      with (SingleImageDisplayLabel.get_original_point_from_display self (pos move)).
    rewrite Ho, Hb. unfold list_setitem.
    destruct (Z.leb_spec 0 (Z.of_nat i)); [|lia].
    destruct (Z.ltb_spec (Z.of_nat i)
                (Z.of_nat (length (SingleImageDisplayLabel.current_points self)))); [|lia].
    cbn [andb]. rewrite Nat2Z.id. reflexivity. }
  rewrite Hmove. cbn [after announced emitted raised].
  unfold SingleImageDisplayLabel.mouseReleaseEvent. cbn. rewrite Hmode. cbn.
  repeat split; try reflexivity. exact Hi.
Qed.

Lemma drag_moves_exactly_the_grabbed_point_witness :
  let self :=
    SingleImageDisplayLabel.mk (Pixmap 1000 800) [mkQPoint 500 316; mkQPoint 991 791] (-1)
      true (mkQRect 0 12 119 107) (mkQRect 0 0 119 119) CrossCursor in
  let press := mkQMouseEvent (mkQPoint 61 51) LeftButton true in
  let move := mkQMouseEvent (mkQPoint 30 40) NoButton true in
  let release := mkQMouseEvent (mkQPoint 30 40) LeftButton false in
  let pressed := SingleImageDisplayLabel.mousePressEvent self press in
  let moved := SingleImageDisplayLabel.mouseMoveEvent (after pressed) move in
  let released := SingleImageDisplayLabel.mouseReleaseEvent (after moved) release in
  (0 < length (SingleImageDisplayLabel.current_points self))%nat
  /\ SingleImageDisplayLabel.current_points (after pressed)
     = SingleImageDisplayLabel.current_points self
  /\ SingleImageDisplayLabel.current_points (after released)
     = <[0%nat := mkQPoint 250 233]> (SingleImageDisplayLabel.current_points self)
  /\ emitted moved = [<[0%nat := mkQPoint 250 233]> (SingleImageDisplayLabel.current_points self)]
  /\ SingleImageDisplayLabel.dragging_point_index (after released) = -1
  /\ raised pressed = None /\ raised moved = None /\ raised released = None.
Proof.
  intros self press move release.
  exact (drag_moves_exactly_the_grabbed_point self press move release 0
           (mkQPoint 508 325) (mkQPoint 250 233)
           eq_refl eq_refl eq_refl ltac:(vm_compute; reflexivity) eq_refl
           ltac:(vm_compute; reflexivity) eq_refl ltac:(vm_compute; reflexivity) eq_refl).
Defined.

End LabelFacts.
(** ** Saving and what the viewer makes of it *)

Section SaveFacts.
Import Py Qt DragGenerator DragGenerator.ImageSelectionWindow.

(** X12.  The save button and the save routine agree.  In a state
    where [check_save_button_status] enables the button,
    [save_coordinates_to_json] shows none of its four warnings: it
    writes the file or reports the failure of the write.  In a state
    where the button is disabled, the routine shows a warning and
    writes nothing. *)
Theorem save_warns_exactly_when_button_is_disabled (self : t) (refused : string -> bool)
    (files : gmap string string) :
  let shown := fst (save_coordinates_to_json self refused files) in
  let files' := snd (save_coordinates_to_json self refused files) in
  (save_button_enabled (check_save_button_status self) = true <->
   shown = CriticalSaveError \/ exists output_path, shown = InformSaved output_path)
  /\ (save_button_enabled (check_save_button_status self) = false ->
      files' = files
      /\ (shown = WarnSelectBothFrames \/ shown = WarnExactlyFourMaskPoints
          \/ shown = WarnSelectSourceAndTarget \/ shown = WarnCountsMustMatch)).
Proof.
  cbv zeta. unfold check_save_button_status, save_condition, save_coordinates_to_json, path_bool.
  cbn [save_button_enabled].
  destruct (image_path_frame1 self) as [f1|]; [|cbn; split; [split; [discriminate|]|auto]].
  2: { intros [H|[p H]]; discriminate. }
  destruct (image_path_frame2 self) as [f2|].
  2: { rewrite andb_false_r. cbn. split; [split; [discriminate|]|auto].
       intros [H|[p H]]; discriminate. }
  destruct (str_bool f1); cbn [andb negb orb].
  2: { cbn. split; [split; [discriminate|]|auto]. intros [H|[p H]]; discriminate. }
  destruct (str_bool f2); cbn [andb negb orb].
  2: { cbn. split; [split; [discriminate|]|auto]. intros [H|[p H]]; discriminate. }
  destruct (length (mask_points_on_combined self) =? 4)%nat; cbn [andb negb].
  2: { cbn. split; [split; [discriminate|]|auto]. intros [H|[p H]]; discriminate. }
  destruct (source_points_on_frame1 self) as [|p src]; cbn [length Nat.ltb Nat.leb andb orb].
  { cbn. split; [split; [discriminate|]|auto]. intros [H|[q H]]; discriminate. }
  destruct (target_points_on_frame2 self) as [|q tgt]; cbn [length Nat.eqb orb negb].
  { cbn. split; [split; [discriminate|]|auto]. intros [H|[r H]]; discriminate. }
  destruct (length src =? length tgt)%nat; cbn [negb].
  2: { cbn. split; [split; [discriminate|]|auto 6]. intros [H|[r H]]; discriminate. }
  destruct (refused (output_path_of f1 f2)); cbn [fst snd].
  - split; [split; [auto|reflexivity]|discriminate].
  - split; [split; [eauto|reflexivity]|discriminate].
Qed.

End SaveFacts.

Section SavedRecordFacts.
Import Py Qt DragGenerator DragGenerator.ImageSelectionWindow App.

(** X13.  What the annotator saves, the viewer lists.  From a file
    that holds a saved annotation, found in a directory of the walk,
    [read_record] builds a record and sends it to
    [data_without_caption]: the annotation has both frame entries as
    strings and no caption.  The record keeps the mask, source and
    target lists, and its frame entries are the saved file names
    resolved against the directory, relative to the data root. *)
Theorem saved_annotation_is_listed_without_caption (self : t) (frame1 frame2 : string)
    (cwd root json_path : string) :
  root <> "" ->
  exists r1 r2 out,
    relpath cwd (path_join root (basename frame1)) BASE_DIR = Returned r1
    /\ relpath cwd (path_join root (basename frame2)) BASE_DIR = Returned r2
    /\ read_record cwd root json_path (Loads (annotation frame1 frame2 self))
       = Returned (Some (false, JDict out))
    /\ dict_get "frame1_image" out = Some (JStr (replace_char "\"%char "/"%char r1))
    /\ dict_get "frame2_image" out = Some (JStr (replace_char "\"%char "/"%char r2))
    /\ dict_get "mask_area" out
       = Some (JList (List.map point_json (mask_points_on_combined self)))
    /\ dict_get "source_points" out
       = Some (JList (List.map point_json (source_points_on_frame1 self)))
    /\ dict_get "target_points" out
       = Some (JList (List.map point_json (target_points_on_frame2 self)))
    /\ dict_get "json_file_path" out = Some (JStr json_path)
    /\ dict_get "directory_name" out = Some (JStr (basename root)).
Proof.
  intros Hroot.
  destruct (relpath_returns cwd (path_join root (basename frame1)) BASE_DIR
              (path_join_not_empty root _ Hroot)) as (r1 & Hr1).
  destruct (relpath_returns cwd (path_join root (basename frame2)) BASE_DIR
              (path_join_not_empty root _ Hroot)) as (r2 & Hr2).
  pose proof (read_record_builds cwd root json_path
                [("frame1_image", JStr (basename frame1));
                 ("frame2_image", JStr (basename frame2));
                 ("mask_area", JList (List.map point_json (mask_points_on_combined self)));
                 ("source_points", JList (List.map point_json (source_points_on_frame1 self)));
                 ("target_points", JList (List.map point_json (target_points_on_frame2 self)))]
                (basename frame1) (basename frame2) r1 r2 eq_refl eq_refl Hr1 Hr2) as Hrec.
  exists r1, r2. eexists. split; [exact Hr1|]. split; [exact Hr2|].
  split; [exact Hrec|]. cbn. repeat split; reflexivity.
Qed.

Lemma saved_annotation_is_listed_without_caption_witness :
  let self :=
    mk (Some "/shots/clip/f1.png") (Some "/shots/clip/f2.png")
       [mkQPoint 1 1; mkQPoint 9 1; mkQPoint 9 9; mkQPoint 1 9]
       [mkQPoint 3 3] [mkQPoint 4 4] true in
  exists r1 r2 out,
    relpath "/srv/app" (path_join "data/clip" (basename "/shots/clip/f1.png")) BASE_DIR
    = Returned r1
    /\ relpath "/srv/app" (path_join "data/clip" (basename "/shots/clip/f2.png")) BASE_DIR
       = Returned r2
    /\ read_record "/srv/app" "data/clip" "data/clip/drag_data_f1_to_f2.json"
         (Loads (annotation "/shots/clip/f1.png" "/shots/clip/f2.png" self))
       = Returned (Some (false, JDict out))
    /\ dict_get "frame1_image" out = Some (JStr (replace_char "\"%char "/"%char r1))
    /\ dict_get "frame2_image" out = Some (JStr (replace_char "\"%char "/"%char r2))
    /\ dict_get "mask_area" out
       = Some (JList (List.map point_json (mask_points_on_combined self)))
    /\ dict_get "source_points" out
       = Some (JList (List.map point_json (source_points_on_frame1 self)))
    /\ dict_get "target_points" out
       = Some (JList (List.map point_json (target_points_on_frame2 self)))
    /\ dict_get "json_file_path" out = Some (JStr "data/clip/drag_data_f1_to_f2.json")
    /\ dict_get "directory_name" out = Some (JStr (basename "data/clip")).
Proof.
  intros self.
  exact (saved_annotation_is_listed_without_caption self "/shots/clip/f1.png"
           "/shots/clip/f2.png" "/srv/app" "data/clip" "data/clip/drag_data_f1_to_f2.json"
           ltac:(discriminate)).
Defined.

End SavedRecordFacts.
(** ** The window as a whole *)

Section WindowFacts.
Import Py Qt DragGenerator DragGenerator.Window DragGenerator.WindowProps.

(** *** Rules for running methods *)

Lemma wp_bind {A B : Type} (m : action A) (k : A -> action B)
    (Q : outcome B -> t -> Prop) (self : t) :
  wp m (fun o self' =>
          match o with
          | Returned a => wp (k a) Q self'
          | Raised e => Q (Raised e) self'
          end) self ->
  wp (bind m k) Q self.
Proof. unfold wp, bind. destruct (m self) as [[a|e] self']; cbn; auto. Qed.

Lemma wp_ret {A : Type} (a : A) (Q : outcome A -> t -> Prop) (self : t) :
  Q (Returned a) self -> wp (ret a) Q self.
Proof. auto. Qed.

Lemma wp_read {A : Type} (f : t -> A) (Q : outcome A -> t -> Prop) (self : t) :
  Q (Returned (f self)) self -> wp (read f) Q self.
Proof. auto. Qed.

Lemma wp_assign (f : t -> t) (Q : outcome unit -> t -> Prop) (self : t) :
  Q (Returned tt) (f self) -> wp (assign f) Q self.
Proof. auto. Qed.

Lemma wp_evaluate {A : Type} (o : outcome A) (Q : outcome A -> t -> Prop) (self : t) :
  Q o self -> wp (evaluate o) Q self.
Proof. auto. Qed.

Lemma wp_mono {A : Type} (m : action A) (Q Q' : outcome A -> t -> Prop) (self : t) :
  wp m Q self -> (forall o self', Q o self' -> Q' o self') -> wp m Q' self.
Proof. unfold wp. auto. Qed.

End WindowFacts.

Section LabelSummaries.
Import Py Qt DragGenerator DragGenerator.WindowProps.

(** What the window needs to know of the point label's methods. *)
Lemma single_set_image_summary (l : SingleImageDisplayLabel.t) (usable : bool)
    (loaded : QPixmap) :
  emitted (SingleImageDisplayLabel.set_image l usable loaded) = [[]]
  /\ raised (SingleImageDisplayLabel.set_image l usable loaded) = None
  /\ SingleImageDisplayLabel.current_points
       (after (SingleImageDisplayLabel.set_image l usable loaded)) = []
  /\ SingleImageDisplayLabel.point_mode_enabled
       (after (SingleImageDisplayLabel.set_image l usable loaded))
     = SingleImageDisplayLabel.point_mode_enabled l.
Proof. unfold SingleImageDisplayLabel.set_image. destruct usable; cbn; auto. Qed.

Lemma single_reset_points_summary (l : SingleImageDisplayLabel.t) :
  emitted (SingleImageDisplayLabel.reset_points l) = [[]]
  /\ raised (SingleImageDisplayLabel.reset_points l) = None
  /\ SingleImageDisplayLabel.current_points (after (SingleImageDisplayLabel.reset_points l))
     = []
  /\ SingleImageDisplayLabel.point_mode_enabled
       (after (SingleImageDisplayLabel.reset_points l))
     = SingleImageDisplayLabel.point_mode_enabled l.
Proof. cbn. auto. Qed.

Lemma single_set_point_mode_summary (l : SingleImageDisplayLabel.t) (enabled : bool) :
  SingleImageDisplayLabel.point_mode_enabled
    (SingleImageDisplayLabel.set_point_mode_enabled l enabled) = enabled
  /\ SingleImageDisplayLabel.current_points
       (SingleImageDisplayLabel.set_point_mode_enabled l enabled)
     = SingleImageDisplayLabel.current_points l.
Proof. unfold SingleImageDisplayLabel.set_point_mode_enabled. destruct enabled; cbn; auto. Qed.

Lemma single_press_announces (l : SingleImageDisplayLabel.t) (event : QMouseEvent) :
  announces_its_points l (SingleImageDisplayLabel.mousePressEvent l event).
Proof.
  unfold announces_its_points, SingleImageDisplayLabel.mousePressEvent.
  repeat match goal with
         | |- context [match ?x with _ => _ end] =>
             lazymatch x with
             | context [match _ with _ => _ end] => fail
             | _ => destruct x eqn:?
             end
         end; cbn; auto.
Qed.

Lemma single_move_announces (l : SingleImageDisplayLabel.t) (event : QMouseEvent) :
  announces_its_points l (SingleImageDisplayLabel.mouseMoveEvent l event).
Proof.
  unfold announces_its_points, SingleImageDisplayLabel.mouseMoveEvent.
  repeat match goal with
         | |- context [match ?x with _ => _ end] =>
             lazymatch x with
             | context [match _ with _ => _ end] => fail
             | _ => destruct x eqn:?
             end
         end; cbn; auto.
Qed.

Lemma single_release_announces (l : SingleImageDisplayLabel.t) (event : QMouseEvent) :
  announces_its_points l (SingleImageDisplayLabel.mouseReleaseEvent l event).
Proof.
  unfold announces_its_points, SingleImageDisplayLabel.mouseReleaseEvent.
  destruct (negb (SingleImageDisplayLabel.point_mode_enabled l)); cbn; auto.
Qed.

Lemma combined_press_announces (l : CombinedImageLabel.t) (event : QMouseEvent) :
  announces_at_most_once l (CombinedImageLabel.mousePressEvent l event).
Proof.
  unfold announces_at_most_once, CombinedImageLabel.mousePressEvent.
  repeat match goal with
         | |- context [match ?x with _ => _ end] =>
             lazymatch x with
             | context [match _ with _ => _ end] => fail
             | _ => destruct x eqn:?
             end
         end; cbn; eauto.
Qed.

Lemma combined_move_announces (l : CombinedImageLabel.t) (event : QMouseEvent) :
  announces_at_most_once l (CombinedImageLabel.mouseMoveEvent l event).
Proof.
  unfold announces_at_most_once, CombinedImageLabel.mouseMoveEvent.
  repeat match goal with
         | |- context [match ?x with _ => _ end] =>
             lazymatch x with
             | context [match _ with _ => _ end] => fail
             | _ => destruct x eqn:?
             end
         end; cbn; eauto.
Qed.

Lemma combined_release_announces (l : CombinedImageLabel.t) (event : QMouseEvent) :
  announces_at_most_once l (CombinedImageLabel.mouseReleaseEvent l event).
Proof.
  unfold announces_at_most_once, CombinedImageLabel.mouseReleaseEvent.
  destruct (negb (CombinedImageLabel.mask_mode_enabled l)); cbn; eauto.
Qed.

Lemma combined_set_images_keeps_mode (l : CombinedImageLabel.t) (p1 p2 : QPixmap) :
  CombinedImageLabel.mask_mode_enabled (CombinedImageLabel.set_images l p1 p2)
  = CombinedImageLabel.mask_mode_enabled l.
Proof.
  unfold CombinedImageLabel.set_images, CombinedImageLabel._combine_pixmaps.
  cbn. destruct (QPixmap_isNull p1 || QPixmap_isNull p2); reflexivity.
Qed.

Lemma combined_set_mask_mode_summary (l : CombinedImageLabel.t) (enabled : bool) :
  CombinedImageLabel.mask_mode_enabled (CombinedImageLabel.set_mask_mode_enabled l enabled)
  = enabled.
Proof. unfold CombinedImageLabel.set_mask_mode_enabled. destruct enabled; reflexivity. Qed.

Lemma combined_set_images_empties_mask (l : CombinedImageLabel.t) (p1 p2 : QPixmap) :
  CombinedImageLabel.mask_points (CombinedImageLabel.set_images l p1 p2) = [].
Proof.
  unfold CombinedImageLabel.set_images, CombinedImageLabel._combine_pixmaps.
  cbn. destruct (QPixmap_isNull p1 || QPixmap_isNull p2); reflexivity.
Qed.

Lemma combined_set_mask_mode_keeps_mask (l : CombinedImageLabel.t) (enabled : bool) :
  CombinedImageLabel.mask_points (CombinedImageLabel.set_mask_mode_enabled l enabled)
  = CombinedImageLabel.mask_points l.
Proof. unfold CombinedImageLabel.set_mask_mode_enabled. destruct enabled; reflexivity. Qed.

End LabelSummaries.

Arguments DragGenerator.WindowProps.wp {A} m Q self : simpl never.
Arguments DragGenerator.Window.bind {A B} m k self : simpl never.
Arguments DragGenerator.Window.ret {A} a self : simpl never.
Arguments DragGenerator.Window.read {A} attribute self : simpl never.
Arguments DragGenerator.Window.assign f self : simpl never.
Arguments DragGenerator.Window.evaluate {A} o self : simpl never.
Arguments DragGenerator.Window.display_single_image w image_path self : simpl never.
Arguments DragGenerator.Window.on_single method self : simpl never.
Arguments DragGenerator.Window.on_combined method self : simpl never.
Arguments DragGenerator.SingleImageDisplayLabel.set_image self usable loaded : simpl never.
Arguments DragGenerator.SingleImageDisplayLabel.reset_points self : simpl never.
Arguments DragGenerator.SingleImageDisplayLabel.set_point_mode_enabled self enabled : simpl never.
Arguments DragGenerator.SingleImageDisplayLabel.mousePressEvent self event : simpl never.
Arguments DragGenerator.SingleImageDisplayLabel.mouseMoveEvent self event : simpl never.
Arguments DragGenerator.SingleImageDisplayLabel.mouseReleaseEvent self event : simpl never.
Arguments DragGenerator.SingleImageDisplayLabel.resizeEvent self contents : simpl never.
Arguments DragGenerator.CombinedImageLabel.set_images self loaded1 loaded2 : simpl never.
Arguments DragGenerator.CombinedImageLabel.reset_mask self : simpl never.
Arguments DragGenerator.CombinedImageLabel.set_mask_mode_enabled self enabled : simpl never.
Arguments DragGenerator.CombinedImageLabel.mousePressEvent self event : simpl never.
Arguments DragGenerator.CombinedImageLabel.mouseMoveEvent self event : simpl never.
Arguments DragGenerator.CombinedImageLabel.mouseReleaseEvent self event : simpl never.
Arguments DragGenerator.CombinedImageLabel.resizeEvent self contents : simpl never.
Arguments DragGenerator.ImageSelectionWindow.save_condition self : simpl never.
Arguments DragGenerator.ImageSelectionWindow.save_coordinates_to_json self refused files : simpl never.

Section WindowCalls.
Import Py Qt DragGenerator DragGenerator.Window DragGenerator.WindowProps.

(** A label method that announced one list: the slot runs on it. *)
Lemma wp_on_single_announced
    (method : SingleImageDisplayLabel.t -> ran SingleImageDisplayLabel.t)
    (points : list QPoint) (Q : outcome unit -> t -> Prop) (self : t) :
  emitted (method (single_image_display_label self)) = [points] ->
  raised (method (single_image_display_label self)) = None ->
  wp (update_single_image_points_display points) Q
    (set_single_image_display_label (after (method (single_image_display_label self))) self) ->
  wp (on_single method) Q self.
Proof.
  unfold wp, on_single, bind, read, assign, ret, evaluate. cbn [fst snd].
  intros -> ->. cbn [deliver]. unfold bind, ret.
  destruct (update_single_image_points_display points _) as [[[]|e] s']; cbn; auto.
Qed.

(** A label method that announced nothing. *)
Lemma wp_on_single_silent
    (method : SingleImageDisplayLabel.t -> ran SingleImageDisplayLabel.t)
    (Q : outcome unit -> t -> Prop) (self : t) :
  emitted (method (single_image_display_label self)) = [] ->
  Q (outcome_of (method (single_image_display_label self)))
    (set_single_image_display_label (after (method (single_image_display_label self))) self) ->
  wp (on_single method) Q self.
Proof.
  unfold wp, on_single, bind, read, assign, ret, evaluate, outcome_of. cbn [fst snd].
  intros ->. cbn [deliver]. unfold ret. cbn.
  destruct (raised (method (single_image_display_label self))); cbn; auto.
Qed.

Lemma wp_on_combined_announced
    (method : CombinedImageLabel.t -> ran CombinedImageLabel.t)
    (points : list QPoint) (Q : outcome unit -> t -> Prop) (self : t) :
  emitted (method (combined_image_display_label self)) = [points] ->
  raised (method (combined_image_display_label self)) = None ->
  wp (update_mask_coord_label points) Q
    (set_combined_image_display_label (after (method (combined_image_display_label self)))
       self) ->
  wp (on_combined method) Q self.
Proof.
  unfold wp, on_combined, bind, read, assign, ret, evaluate. cbn [fst snd].
  intros -> ->. cbn [deliver]. unfold bind, ret.
  destruct (update_mask_coord_label points _) as [[[]|e] s']; cbn; auto.
Qed.

Lemma wp_on_combined_silent
    (method : CombinedImageLabel.t -> ran CombinedImageLabel.t)
    (Q : outcome unit -> t -> Prop) (self : t) :
  emitted (method (combined_image_display_label self)) = [] ->
  Q (outcome_of (method (combined_image_display_label self)))
    (set_combined_image_display_label (after (method (combined_image_display_label self)))
       self) ->
  wp (on_combined method) Q self.
Proof.
  unfold wp, on_combined, bind, read, assign, ret, evaluate, outcome_of. cbn [fst snd].
  intros ->. cbn [deliver]. unfold ret. cbn.
  destruct (raised (method (combined_image_display_label self))); cbn; auto.
Qed.

End WindowCalls.

(** Rewriting with what the label methods leave behind. *)
Ltac label_facts :=
  repeat first
    [ rewrite (proj1 (proj2 (proj2 (single_set_image_summary _ _ _)))) in *
    | rewrite (proj2 (proj2 (proj2 (single_set_image_summary _ _ _)))) in *
    | rewrite (proj1 (proj2 (proj2 (single_reset_points_summary _)))) in *
    | rewrite (proj2 (proj2 (proj2 (single_reset_points_summary _)))) in *
    | rewrite (proj1 (single_set_point_mode_summary _ _)) in *
    | rewrite (proj2 (single_set_point_mode_summary _ _)) in *
    | rewrite combined_set_images_keeps_mode in *
    | rewrite combined_set_mask_mode_summary in *
    | rewrite combined_set_images_empties_mask in *
    | rewrite combined_set_mask_mode_keeps_mask in * ].

(** Reading a label's list or mode back after its list was stored. *)
Ltac label_red :=
  cbn [DragGenerator.SingleImageDisplayLabel.point_mode_enabled
       DragGenerator.SingleImageDisplayLabel.current_points
       DragGenerator.SingleImageDisplayLabel.set_points
       DragGenerator.CombinedImageLabel.mask_mode_enabled
       DragGenerator.CombinedImageLabel.mask_points
       DragGenerator.CombinedImageLabel.set_points] in *.

Ltac head_of m :=
  lazymatch m with
  | ?f _ => head_of f
  | _ => m
  end.

(** Reading attributes off a window written out field by field. *)
Ltac window_eval x :=
  eval cbv beta iota delta
    [
      DragGenerator.Window.current_selected_folder DragGenerator.Window.image_files_in_folder
      DragGenerator.Window.current_image_index DragGenerator.Window.image_path_frame1
      DragGenerator.Window.image_path_frame2 DragGenerator.Window.mask_points_on_combined
      DragGenerator.Window.source_points_on_frame1 DragGenerator.Window.target_points_on_frame2
      DragGenerator.Window.current_display_mode
      DragGenerator.Window.current_point_selection_target
      DragGenerator.Window.single_image_display_label
      DragGenerator.Window.single_image_display_label_visible
      DragGenerator.Window.combined_image_display_label
      DragGenerator.Window.combined_image_display_label_visible
      DragGenerator.Window.folder_list_layout DragGenerator.Window.thumbnail_grid_layout
      DragGenerator.Window.prev_image_button DragGenerator.Window.next_image_button
      DragGenerator.Window.select_frame1_button DragGenerator.Window.select_frame2_button
      DragGenerator.Window.toggle_source_points_button
      DragGenerator.Window.toggle_target_points_button
      DragGenerator.Window.toggle_mask_mode_button DragGenerator.Window.reset_mask_button
      DragGenerator.Window.save_button DragGenerator.Window.written_files
      DragGenerator.Window.set_current_selected_folder
      DragGenerator.Window.set_image_files_in_folder DragGenerator.Window.set_current_image_index
      DragGenerator.Window.set_image_path_frame1 DragGenerator.Window.set_image_path_frame2
      DragGenerator.Window.set_mask_points_on_combined
      DragGenerator.Window.set_source_points_on_frame1
      DragGenerator.Window.set_target_points_on_frame2
      DragGenerator.Window.set_current_display_mode
      DragGenerator.Window.set_current_point_selection_target
      DragGenerator.Window.set_single_image_display_label
      DragGenerator.Window.set_single_image_display_label_visible
      DragGenerator.Window.set_combined_image_display_label
      DragGenerator.Window.set_combined_image_display_label_visible
      DragGenerator.Window.set_folder_list_layout DragGenerator.Window.set_thumbnail_grid_layout
      DragGenerator.Window.set_prev_image_button DragGenerator.Window.set_next_image_button
      DragGenerator.Window.set_select_frame1_button DragGenerator.Window.set_select_frame2_button
      DragGenerator.Window.set_toggle_source_points_button
      DragGenerator.Window.set_toggle_target_points_button
      DragGenerator.Window.set_toggle_mask_mode_button DragGenerator.Window.set_reset_mask_button
      DragGenerator.Window.set_save_button DragGenerator.Window.set_written_files fst snd
      DragGenerator.Window.save_view DragGenerator.ImageSelectionWindow.image_path_frame1
      DragGenerator.ImageSelectionWindow.image_path_frame2
      DragGenerator.ImageSelectionWindow.mask_points_on_combined
      DragGenerator.ImageSelectionWindow.source_points_on_frame1
      DragGenerator.ImageSelectionWindow.target_points_on_frame2
      DragGenerator.ImageSelectionWindow.save_button_enabled
      DragGenerator.ImageSelectionWindow.check_save_button_status
    ] in x.

Ltac window_red :=
  match goal with |- ?g => let g' := window_eval g in change g' end.

Ltac window_red_in H :=
  match type of H with ?g => let g' := window_eval g in change g' in H end.

(** The same on the window a method is about to run on, leaving the
    method as written. *)
Ltac state_red :=
  cbv beta iota;
  lazymatch goal with
  | |- DragGenerator.WindowProps.wp _ _ ?s =>
      let s' := window_eval s in change s with s'
  | |- _ => idtac
  end.

(** A case split on a test, after bringing the test to the form in
    which earlier splits recorded it. *)
Ltac split_on c :=
  let c' := window_eval c in
  change c with c'; cbv beta iota;
  lazymatch goal with
  | |- DragGenerator.WindowProps.wp (if c' then _ else _) _ _ =>
      first [ match goal with H : c' = _ |- _ => rewrite H end
            | destruct c' eqn:? ]
  | |- DragGenerator.WindowProps.wp (match c' with _ => _ end) _ _ =>
      first [ match goal with H : c' = _ |- _ => rewrite H end
            | destruct c' eqn:? ]
  | |- _ => idtac
  end.

(** One step of running a method: the rule of its head construct, or a
    case split on the test it branches on. *)
Ltac wp_step :=
  lazymatch goal with
  | |- DragGenerator.WindowProps.wp (DragGenerator.Window.bind _ _) _ _ => apply wp_bind
  | |- DragGenerator.WindowProps.wp (DragGenerator.Window.ret _) _ _ => apply wp_ret
  | |- DragGenerator.WindowProps.wp (DragGenerator.Window.read _) _ _ => apply wp_read
  | |- DragGenerator.WindowProps.wp (DragGenerator.Window.assign _) _ _ => apply wp_assign
  | |- DragGenerator.WindowProps.wp (DragGenerator.Window.evaluate _) _ _ => apply wp_evaluate
  | |- DragGenerator.WindowProps.wp
         (DragGenerator.Window.on_single
            (fun label => DragGenerator.SingleImageDisplayLabel.set_image label _ _)) _ _ =>
      apply (wp_on_single_announced _ []);
      [apply single_set_image_summary|apply single_set_image_summary|]
  | |- DragGenerator.WindowProps.wp
         (DragGenerator.Window.on_single DragGenerator.SingleImageDisplayLabel.reset_points)
         _ _ =>
      apply (wp_on_single_announced _ []);
      [apply single_reset_points_summary|apply single_reset_points_summary|]
  | |- DragGenerator.WindowProps.wp
         (DragGenerator.Window.on_combined DragGenerator.CombinedImageLabel.reset_mask) _ _ =>
      apply (wp_on_combined_announced _ []); [reflexivity|reflexivity|]
  | |- DragGenerator.WindowProps.wp (if ?c then _ else _) _ _ => split_on c
  | |- DragGenerator.WindowProps.wp (match ?x with _ => _ end) _ _ => split_on x
  | |- DragGenerator.WindowProps.wp ?m _ _ =>
      let method := head_of m in unfold method
  | |- match ?x with _ => _ end => destruct x eqn:?
  end; state_red.

Section DisplaySingleImage.
Import Py Qt DragGenerator DragGenerator.Window DragGenerator.WindowProps.

Lemma if_true_false (b : bool) : (if b then true else false) = b.
Proof. destruct b; reflexivity. Qed.

(** [display_single_image] returns, and leaves the state
    [displayed] describes. *)
Lemma display_single_image_displays (w : world) (image_path : string) (self : t) :
  wp (display_single_image w image_path)
    (fun o self' => o = Returned tt /\ displayed image_path self self') self.
Proof.
  destruct self. unfold display_single_image.
  repeat wp_step.
  all: unfold displayed, kept_by_display, save_button_fresh, one_tool, points_in_step;
    window_red; label_red; label_facts; try discriminate.
  all: rewrite ?if_true_false; cbn [negb]; repeat split; congruence.
Qed.

Lemma wp_display (w : world) (image_path : string) (Q : outcome unit -> t -> Prop)
    (self : t) :
  (forall self', displayed image_path self self' -> Q (Returned tt) self') ->
  wp (display_single_image w image_path) Q self.
Proof.
  intros H. apply (wp_mono _ _ _ _ (display_single_image_displays w image_path self)).
  intros o self' [-> D]. apply H, D.
Qed.

End DisplaySingleImage.

(** Running a handler: calls of [display_single_image] go through its
    summary, mouse handlers through what they announce. *)
Ltac wp_run :=
  lazymatch goal with
  | |- DragGenerator.WindowProps.wp (DragGenerator.Window.display_single_image _ _) _ _ =>
      apply wp_display;
      let D := fresh "D" in
      intros [] D; unfold DragGenerator.WindowProps.displayed,
                     DragGenerator.WindowProps.kept_by_display,
                     DragGenerator.WindowProps.save_button_fresh,
                     DragGenerator.WindowProps.one_tool,
                     DragGenerator.WindowProps.points_in_step in D;
      window_red_in D;
      destruct D as (?Dkept & ?Dfresh & ?Dtool & ?Dstep & ?Dmode & ?Dshown & ?Dmask & ?Dpoints
                     & ?Dlists & ?Dpoint_mode);
      repeat match goal with
             | H : (_, _) = (_, _) |- _ =>
                 apply pair_equal_spec in H; destruct H as [H ?Kept]
             end
  | |- DragGenerator.WindowProps.wp
         (DragGenerator.Window.on_single
            (fun label => DragGenerator.SingleImageDisplayLabel.mousePressEvent label ?e))
         _ ?s =>
      let Hmode := fresh "Hmode" in let Hem := fresh "Hem" in
      let Hpts := fresh "Hpts" in
      let l := window_eval (DragGenerator.Window.single_image_display_label s) in
      destruct (single_press_announces l e)
        as [Hmode [[Hem Hpts]|[Hem Hpts]]];
      [apply (wp_on_single_silent _ _ s Hem)
      |apply (wp_on_single_announced _ _ _ s Hem Hpts)]
  | |- DragGenerator.WindowProps.wp
         (DragGenerator.Window.on_single
            (fun label => DragGenerator.SingleImageDisplayLabel.mouseMoveEvent label ?e))
         _ ?s =>
      let Hmode := fresh "Hmode" in let Hem := fresh "Hem" in
      let Hpts := fresh "Hpts" in
      let l := window_eval (DragGenerator.Window.single_image_display_label s) in
      destruct (single_move_announces l e)
        as [Hmode [[Hem Hpts]|[Hem Hpts]]];
      [apply (wp_on_single_silent _ _ s Hem)
      |apply (wp_on_single_announced _ _ _ s Hem Hpts)]
  | |- DragGenerator.WindowProps.wp
         (DragGenerator.Window.on_single
            (fun label => DragGenerator.SingleImageDisplayLabel.mouseReleaseEvent label ?e))
         _ ?s =>
      let Hmode := fresh "Hmode" in let Hem := fresh "Hem" in
      let Hpts := fresh "Hpts" in
      let l := window_eval (DragGenerator.Window.single_image_display_label s) in
      destruct (single_release_announces l e)
        as [Hmode [[Hem Hpts]|[Hem Hpts]]];
      [apply (wp_on_single_silent _ _ s Hem)
      |apply (wp_on_single_announced _ _ _ s Hem Hpts)]
  | |- DragGenerator.WindowProps.wp
         (DragGenerator.Window.on_combined
            (fun label => DragGenerator.CombinedImageLabel.mousePressEvent label ?e))
         _ ?s =>
      let Hmode := fresh "Hmode" in let Hem := fresh "Hem" in
      let Hr := fresh "Hr" in
      let l := window_eval (DragGenerator.Window.combined_image_display_label s) in
      destruct (combined_press_announces l e)
        as [Hmode [Hem|(? & Hem & Hr)]];
      [apply (wp_on_combined_silent _ _ s Hem)
      |apply (wp_on_combined_announced _ _ _ s Hem Hr)]
  | |- DragGenerator.WindowProps.wp
         (DragGenerator.Window.on_combined
            (fun label => DragGenerator.CombinedImageLabel.mouseMoveEvent label ?e))
         _ ?s =>
      let Hmode := fresh "Hmode" in let Hem := fresh "Hem" in
      let Hr := fresh "Hr" in
      let l := window_eval (DragGenerator.Window.combined_image_display_label s) in
      destruct (combined_move_announces l e)
        as [Hmode [Hem|(? & Hem & Hr)]];
      [apply (wp_on_combined_silent _ _ s Hem)
      |apply (wp_on_combined_announced _ _ _ s Hem Hr)]
  | |- DragGenerator.WindowProps.wp
         (DragGenerator.Window.on_combined
            (fun label => DragGenerator.CombinedImageLabel.mouseReleaseEvent label ?e))
         _ ?s =>
      let Hmode := fresh "Hmode" in let Hem := fresh "Hem" in
      let Hr := fresh "Hr" in
      let l := window_eval (DragGenerator.Window.combined_image_display_label s) in
      destruct (combined_release_announces l e)
        as [Hmode [Hem|(? & Hem & Hr)]];
      [apply (wp_on_combined_silent _ _ s Hem)
      |apply (wp_on_combined_announced _ _ _ s Hem Hr)]
  | |- _ => wp_step
  end; state_red.

(** Closing a leaf: the property unfolded on the final state. *)
Ltac window_leaf :=
  unfold DragGenerator.WindowProps.consistent, DragGenerator.WindowProps.save_button_fresh,
    DragGenerator.WindowProps.one_tool, DragGenerator.WindowProps.points_in_step in *;
  window_red; cbn [negb andb orb] in *; label_red; label_facts; label_red;
  rewrite ?if_true_false in *;
  repeat match goal with
         | H : ?f (DragGenerator.after ?r) = _ |- context [?f (DragGenerator.after ?r)] => rewrite H
         end;
  try discriminate; subst;
  repeat match goal with
         | H : ?x = _ |- context [match ?x with _ => _ end] => rewrite H
         end;
  intuition (try congruence).

Section BrowsingFacts.
Import Py Qt DragGenerator DragGenerator.Window DragGenerator.WindowProps.

Lemma list_getitem_in_range {A : Type} (l : list A) (i : Z) :
  0 <= i < Z.of_nat (length l) -> exists a, list_getitem l i = Returned a /\ l !! Z.to_nat i = Some a.
Proof.
  intros Hi. unfold list_getitem. cbv zeta.
  destruct (i <? 0) eqn:Hneg; [apply Z.ltb_lt in Hneg; lia|].
  destruct (0 <=? i) eqn:H0; [|apply Z.leb_gt in H0; lia].
  destruct (i <? Z.of_nat (length l)) eqn:H1; [|apply Z.ltb_ge in H1; lia].
  cbn [andb]. destruct (l !! Z.to_nat i) as [a|] eqn:Hl; [eauto|].
  apply lookup_ge_None in Hl. lia.
Qed.

Lemma loadable_thumbnails_index (w : world) (before files : list string) :
  Forall (fun thumbnail : string * Z =>
            0 <= snd thumbnail
            /\ (before ++ files) !! Z.to_nat (snd thumbnail) = Some (fst thumbnail))
    (loadable_thumbnails w files (Z.of_nat (length before))).
Proof.
  revert before. induction files as [|img_path rest IH]; intros before; [constructor|].
  cbn [loadable_thumbnails].
  assert (Hnext : Z.of_nat (length before) + 1 = Z.of_nat (length (before ++ [img_path]))).
  { rewrite length_app. cbn [length]. lia. }
  assert (Hrest := IH (before ++ [img_path])).
  rewrite <- Hnext, <- app_assoc in Hrest. cbn [app] in Hrest.
  destruct (QPixmap_isNull (load_pixmap w img_path)); [exact Hrest|].
  constructor; [|exact Hrest].
  cbn [fst snd]. split; [lia|].
  rewrite Nat2Z.id. rewrite lookup_app_r by lia.
  replace (length before - length before)%nat with 0%nat by lia. reflexivity.
Qed.

End BrowsingFacts.

(** Closing a leaf about the browsing index. *)
Ltac browsing_leaf :=
  try solve [ exfalso;
              match goal with
              | H : DragGenerator.WindowProps.listing_succeeds _ |- _ => exact H
              end ];
  unfold DragGenerator.WindowProps.browsing_in_range in *; window_red;
  repeat match goal with
         | Hgrid : Forall _ ?grid, Hk : ?grid !! _ = Some _ |- _ =>
             let F := fresh "F" in
             pose proof (proj1 (Forall_lookup _ _) Hgrid _ _ Hk) as F;
             cbv beta iota in F; destruct F as [? F];
             apply lookup_lt_Some in F; clear Hk
         end;
  subst;
  repeat match goal with
         | H : (_ <? _) = true |- _ => apply Z.ltb_lt in H
         | H : (_ <? _) = false |- _ => apply Z.ltb_ge in H
         end;
  simpl length in *;
  repeat split;
  first [ lia | assumption | apply Forall_nil_2 | apply (loadable_thumbnails_index _ [])
        | left; lia | right; split; [reflexivity|lia] | idtac ].

(** Closing a leaf about the outcome of a click that indexes the image
    list: the index was in range. *)
Ltac returns_leaf :=
  try reflexivity;
  exfalso;
  repeat match goal with
         | H : (_ <? _) = true |- _ => apply Z.ltb_lt in H
         | H : (_ <? _) = false |- _ => apply Z.ltb_ge in H
         end;
  repeat match goal with
         | H : _ && _ = true |- _ => apply andb_prop in H; destruct H
         | H : match ?l with [] => false | _ :: _ => true end = true |- _ =>
             destruct l; [discriminate H|clear H]
         end;
  repeat match goal with
         | H : _ \/ (_ = [] /\ _) |- _ => destruct H as [H|[H ?]]; [|try discriminate H]
         end;
  match goal with
  | H : DragGenerator.Window.list_getitem _ _ = Py.Raised _ |- _ =>
      window_red_in H;
      match type of H with
      | DragGenerator.Window.list_getitem ?l ?i = _ =>
          let a := fresh "a" in let Ha := fresh "Ha" in
          destruct (list_getitem_in_range l i) as (a & Ha & _);
          [simpl length in *; lia|congruence]
      end
  end.

Section WindowInvariants.
Import Py Qt DragGenerator DragGenerator.Window DragGenerator.WindowProps.

Lemma perform_keeps_consistent (w : world) (op : operation) (self : t) :
  consistent self -> wp (perform w op) (fun _ self' => consistent self') self.
Proof.
  destruct self. intros (Hfresh & (Htool & Hmask & Hshown) & Hstep).
  unfold save_button_fresh, one_tool, points_in_step in *; window_red_in Hfresh;
  window_red_in Htool; window_red_in Hmask; window_red_in Hshown; window_red_in Hstep.
  destruct op as [directory root|k event listing|k event| | | | | | | | | |e|e];
    unfold perform.
  - repeat wp_run; window_leaf.
  - repeat wp_run; window_leaf.
  - repeat wp_run; window_leaf.
  - repeat wp_run; window_leaf.
  - repeat wp_run; window_leaf.
  - repeat wp_run; window_leaf.
  - repeat wp_run; window_leaf.
  - repeat wp_run; window_leaf.
  - repeat wp_run; window_leaf.
  - repeat wp_run; window_leaf.
  - repeat wp_run; window_leaf.
  - repeat wp_run; window_leaf.
  - repeat wp_run; window_leaf.
  - repeat wp_run; window_leaf.
Qed.

Lemma init_consistent (single_contents combined_contents : QRect) :
  consistent (init single_contents combined_contents).
Proof. repeat split; cbn; discriminate. Qed.

Lemma session_from_consistent (events : list (world * operation)) (self : t) :
  consistent self ->
  consistent (fold_left (fun self '(w, op) => snd (perform w op self)) events self).
Proof.
  revert self. induction events as [|[w op] events IH]; intros self H; [exact H|].
  cbn [fold_left]. apply IH. exact (perform_keeps_consistent w op self H).
Qed.

Lemma session_consistent (single_contents combined_contents : QRect)
    (events : list (world * operation)) :
  consistent (session single_contents combined_contents events).
Proof. apply session_from_consistent, init_consistent. Qed.

Lemma perform_keeps_browsing (w : world) (op : operation) (self : t) :
  listing_succeeds (w, op) -> browsing_in_range self ->
  wp (perform w op) (fun _ self' => browsing_in_range self') self.
Proof.
  destruct self. intros Hlisting (Hlow & Hhigh & Hgrid).
  window_red_in Hlow; window_red_in Hhigh; window_red_in Hgrid.
  destruct op as [directory root|k event listing|k event| | | | | | | | | |e|e];
    unfold perform.
  - repeat wp_run; browsing_leaf.
  - repeat wp_run; browsing_leaf.
  - repeat wp_run; browsing_leaf.
  - repeat wp_run; browsing_leaf.
  - repeat wp_run; browsing_leaf.
  - repeat wp_run; browsing_leaf.
  - repeat wp_run; browsing_leaf.
  - repeat wp_run; browsing_leaf.
  - repeat wp_run; browsing_leaf.
  - repeat wp_run; browsing_leaf.
  - repeat wp_run; browsing_leaf.
  - repeat wp_run; browsing_leaf.
  - repeat wp_run; browsing_leaf.
  - repeat wp_run; browsing_leaf.
Qed.

Lemma init_browsing (single_contents combined_contents : QRect) :
  browsing_in_range (init single_contents combined_contents).
Proof. split; [cbn; lia|]. split; [right; split; reflexivity|constructor]. Qed.

Lemma session_from_browsing (events : list (world * operation)) (self : t) :
  Forall listing_succeeds events -> browsing_in_range self ->
  browsing_in_range (fold_left (fun self '(w, op) => snd (perform w op self)) events self).
Proof.
  revert self. induction events as [|[w op] events IH]; intros self Hl H; [exact H|].
  apply Forall_cons_1 in Hl as [Hop Hl].
  cbn [fold_left]. apply IH; [exact Hl|]. exact (perform_keeps_browsing w op self Hop H).
Qed.

Lemma session_browsing (single_contents combined_contents : QRect)
    (events : list (world * operation)) :
  Forall listing_succeeds events ->
  browsing_in_range (session single_contents combined_contents events).
Proof. intros Hl. apply session_from_browsing; [exact Hl|apply init_browsing]. Qed.

Lemma perform_indexing_returns (w : world) (op : operation) (self : t) :
  indexes_image_list op = true -> browsing_in_range self ->
  wp (perform w op) (fun o _ => o = Returned tt) self.
Proof.
  destruct self. intros Hop (Hlow & Hhigh & Hgrid).
  window_red_in Hlow; window_red_in Hhigh; window_red_in Hgrid.
  destruct op; try discriminate Hop; unfold perform.
  - repeat wp_run; returns_leaf.
  - repeat wp_run; returns_leaf.
  - repeat wp_run; returns_leaf.
  - repeat wp_run; returns_leaf.
  - repeat wp_run; returns_leaf.
Qed.

End WindowInvariants.
(** ** What every session of the annotator keeps *)

Section SessionFacts.
Import Py Qt DragGenerator DragGenerator.Window DragGenerator.WindowProps.

Lemma save_condition_reaches_write (self : ImageSelectionWindow.t) (refused : string -> bool)
    (files : gmap string string) :
  ImageSelectionWindow.save_condition self = true ->
  fst (ImageSelectionWindow.save_coordinates_to_json self refused files)
  = ImageSelectionWindow.CriticalSaveError
  \/ exists output_path,
       fst (ImageSelectionWindow.save_coordinates_to_json self refused files)
       = ImageSelectionWindow.InformSaved output_path.
Proof.
  unfold ImageSelectionWindow.save_condition, ImageSelectionWindow.save_coordinates_to_json,
    ImageSelectionWindow.path_bool.
  destruct (ImageSelectionWindow.image_path_frame1 self) as [f1|]; [|discriminate].
  destruct (ImageSelectionWindow.image_path_frame2 self) as [f2|];
    [|rewrite andb_false_r; discriminate].
  destruct (str_bool f1); [|discriminate].
  destruct (str_bool f2); [|discriminate].
  cbn [andb negb orb].
  destruct (length (ImageSelectionWindow.mask_points_on_combined self) =? 4)%nat;
    [|discriminate].
  cbn [andb negb].
  destruct (ImageSelectionWindow.source_points_on_frame1 self) as [|p src]; [discriminate|].
  destruct (ImageSelectionWindow.target_points_on_frame2 self) as [|q tgt]; [discriminate|].
  cbn [length Nat.ltb Nat.leb Nat.eqb andb orb].
  destruct (length src =? length tgt)%nat; [|discriminate].
  cbn [negb]. intros _.
  destruct (refused (ImageSelectionWindow.output_path_of f1 f2)); cbn [fst]; eauto.
Qed.

(** X14.  The save button is never stale.  After any sequence of
    clicks, mouse events and resizes on a fresh window, whatever the
    file system does, the save button is enabled exactly when
    [check_save_button_status] would enable it on the attributes the
    window holds at that moment: both frames chosen, four mask points,
    at least one source point and as many target points. *)
Theorem save_button_is_never_stale (single_contents combined_contents : QRect)
    (events : list (world * operation)) :
  save_button (session single_contents combined_contents events)
  = ImageSelectionWindow.save_condition
      (save_view (session single_contents combined_contents events)).
Proof. exact (proj1 (session_consistent single_contents combined_contents events)). Qed.

(** X15.  A click on the save button never meets one of the four
    warnings of [save_coordinates_to_json].  In any session, whenever
    the button is enabled (so that a click reaches the slot), the
    routine run on the window's attributes gets past its four guards:
    it reports the file saved or the failure of the write. *)
Theorem save_click_never_meets_a_warning (single_contents combined_contents : QRect)
    (events : list (world * operation)) (w : world) :
  save_button (session single_contents combined_contents events) = true ->
  fst (ImageSelectionWindow.save_coordinates_to_json
         (save_view (session single_contents combined_contents events))
         (refuses_write w)
         (written_files (session single_contents combined_contents events)))
  = ImageSelectionWindow.CriticalSaveError
  \/ exists output_path,
       fst (ImageSelectionWindow.save_coordinates_to_json
              (save_view (session single_contents combined_contents events))
              (refuses_write w)
              (written_files (session single_contents combined_contents events)))
       = ImageSelectionWindow.InformSaved output_path.
Proof.
  intros Henabled. apply save_condition_reaches_write.
  rewrite <- Henabled. symmetry.
  exact (proj1 (session_consistent single_contents combined_contents events)).
Qed.

Lemma save_click_never_meets_a_warning_witness :
  save_button (session example_contents example_contents example_events) = true
  /\ (fst (ImageSelectionWindow.save_coordinates_to_json
             (save_view (session example_contents example_contents example_events))
             (refuses_write example_world)
             (written_files (session example_contents example_contents example_events)))
      = ImageSelectionWindow.CriticalSaveError
      \/ exists output_path,
           fst (ImageSelectionWindow.save_coordinates_to_json
                  (save_view (session example_contents example_contents example_events))
                  (refuses_write example_world)
                  (written_files (session example_contents example_contents example_events)))
           = ImageSelectionWindow.InformSaved output_path).
Proof.
  assert (Henabled : save_button (session example_contents example_contents example_events)
                     = true) by (vm_compute; reflexivity).
  split; [exact Henabled|].
  exact (save_click_never_meets_a_warning example_contents example_contents example_events
           example_world Henabled).
Defined.

(** X16.  One label at a time.  After any session exactly one of the
    two image labels is shown, and a label that takes annotation
    clicks is the one shown: point mode is on only while the single
    image label is visible, mask mode only while the combined label
    is, so the two modes are never on together. *)
Theorem annotation_mode_belongs_to_the_label_shown (single_contents combined_contents : QRect)
    (events : list (world * operation)) :
  let self := session single_contents combined_contents events in
  single_image_display_label_visible self = negb (combined_image_display_label_visible self)
  /\ (SingleImageDisplayLabel.point_mode_enabled (single_image_display_label self) = true ->
      single_image_display_label_visible self = true)
  /\ (CombinedImageLabel.mask_mode_enabled (combined_image_display_label self) = true ->
      combined_image_display_label_visible self = true)
  /\ SingleImageDisplayLabel.point_mode_enabled (single_image_display_label self)
     && CombinedImageLabel.mask_mode_enabled (combined_image_display_label self) = false.
Proof.
  cbv zeta.
  destruct (session_consistent single_contents combined_contents events)
    as (_ & (Hpoint & Hmask & Hshown) & _).
  split; [exact Hshown|]. split; [exact Hpoint|]. split; [exact Hmask|].
  destruct (SingleImageDisplayLabel.point_mode_enabled _); [|reflexivity].
  destruct (CombinedImageLabel.mask_mode_enabled _); [|reflexivity].
  rewrite (Hpoint eq_refl), (Hmask eq_refl) in Hshown. discriminate Hshown.
Qed.

Lemma annotation_mode_belongs_to_the_label_shown_witness :
  let self := session example_contents example_contents example_events in
  CombinedImageLabel.mask_mode_enabled (combined_image_display_label self) = true
  /\ combined_image_display_label_visible self = true.
Proof.
  cbv zeta.
  assert (Hmode : CombinedImageLabel.mask_mode_enabled
                    (combined_image_display_label
                       (session example_contents example_contents example_events)) = true)
    by (vm_compute; reflexivity).
  split; [exact Hmode|].
  exact (proj1 (proj2 (proj2 (annotation_mode_belongs_to_the_label_shown
                                example_contents example_contents example_events))) Hmode).
Defined.

(** X17.  The list the window keeps for the active selection target
    is the list the point label shows.  After any session, while a
    target is active the stored source (or target) points equal the
    label's current points, and while none is active the label's
    point mode is off. *)
Theorem stored_points_are_the_points_shown (single_contents combined_contents : QRect)
    (events : list (world * operation)) :
  let self := session single_contents combined_contents events in
  match current_point_selection_target self with
  | Some target =>
      points_of target self
      = SingleImageDisplayLabel.current_points (single_image_display_label self)
  | None =>
      SingleImageDisplayLabel.point_mode_enabled (single_image_display_label self) = false
  end.
Proof.
  cbv zeta.
  destruct (session_consistent single_contents combined_contents events) as (_ & _ & Hstep).
  unfold points_in_step in Hstep. unfold points_of.
  destruct (current_point_selection_target _) as [[|]|]; exact Hstep.
Qed.

(** X18.  The browsing index points into the image list.  In a
    session whose folder clicks found their folder listable, the
    current index is never negative, it is below the length of
    [image_files_in_folder] unless the list is empty (then it is 0),
    and every thumbnail in the grid carries the index at which the
    list holds the thumbnail's path. *)
Theorem browsing_index_points_into_the_image_list (single_contents combined_contents : QRect)
    (events : list (world * operation)) :
  Forall listing_succeeds events ->
  let self := session single_contents combined_contents events in
  (image_files_in_folder self = [] /\ current_image_index self = 0
   \/ exists image_path,
        list_getitem (image_files_in_folder self) (current_image_index self)
        = Returned image_path
        /\ 0 <= current_image_index self)
  /\ forall image_path index,
       In (image_path, index) (thumbnail_grid_layout self) ->
       0 <= index /\ list_getitem (image_files_in_folder self) index = Returned image_path.
Proof.
  intros Hl. cbv zeta.
  destruct (session_browsing single_contents combined_contents events Hl)
    as (Hlow & Hhigh & Hgrid).
  generalize dependent (session single_contents combined_contents events). intros self.
  intros Hlow Hhigh Hgrid. split.
  - destruct Hhigh as [Hhigh|Hempty]; [right|left; exact Hempty].
    destruct (list_getitem_in_range (image_files_in_folder self)
                (current_image_index self) (conj Hlow Hhigh))
      as (image_path & Hget & _).
    exists image_path. split; [exact Hget|exact Hlow].
  - intros image_path index Hin.
    rewrite Forall_forall in Hgrid. specialize (Hgrid (image_path, index)).
    assert (Hin' : (image_path, index) ∈ thumbnail_grid_layout self)
      by (apply list_elem_of_In; exact Hin).
    destruct (Hgrid Hin') as [H0 Hlookup]. cbn [fst snd] in H0, Hlookup.
    split; [exact H0|].
    assert (Hlt := lookup_lt_Some _ _ _ Hlookup).
    destruct (list_getitem_in_range (image_files_in_folder self) index)
      as (a & Hget & Ha); [lia|].
    rewrite Hget. congruence.
Qed.

Lemma browsing_index_points_into_the_image_list_witness :
  Forall listing_succeeds example_events
  /\ In ("root/shots/b.png", 1)
       (thumbnail_grid_layout (session example_contents example_contents example_events))
  /\ list_getitem
       (image_files_in_folder (session example_contents example_contents example_events)) 1
     = Returned "root/shots/b.png".
Proof.
  assert (Hl : Forall listing_succeeds example_events) by (repeat constructor).
  assert (Hin : In ("root/shots/b.png", 1)
                  (thumbnail_grid_layout
                     (session example_contents example_contents example_events)))
    by (vm_compute; right; left; reflexivity).
  split; [exact Hl|]. split; [exact Hin|].
  exact (proj2 (proj2 (browsing_index_points_into_the_image_list
                         example_contents example_contents example_events Hl)
                  "root/shots/b.png" 1 Hin)).
Defined.

(** X19.  The clicks that read
    [image_files_in_folder[current_image_index]] never raise.  At any
    point of a session whose folder clicks found their folder
    listable, a click on previous, next, either frame button or the
    mask mode button returns: the index it uses is in range, so no
    [IndexError] leaves the slot. *)
Theorem clicks_that_index_the_image_list_return (single_contents combined_contents : QRect)
    (events : list (world * operation)) (w : world) (op : operation) :
  Forall listing_succeeds events ->
  indexes_image_list op = true ->
  fst (perform w op (session single_contents combined_contents events)) = Returned tt.
Proof.
  intros Hl Hop.
  exact (perform_indexing_returns w op _ Hop
           (session_browsing single_contents combined_contents events Hl)).
Qed.

Lemma clicks_that_index_the_image_list_return_witness :
  Forall listing_succeeds example_events
  /\ indexes_image_list PrevImageClicked = true
  /\ fst (perform example_world PrevImageClicked
            (session example_contents example_contents example_events)) = Returned tt.
Proof.
  assert (Hl : Forall listing_succeeds example_events) by (repeat constructor).
  split; [exact Hl|]. split; [reflexivity|].
  exact (clicks_that_index_the_image_list_return example_contents example_contents
           example_events example_world PrevImageClicked Hl eq_refl).
Defined.

End SessionFacts.

Section PointListFacts.
Import Py Qt DragGenerator DragGenerator.Window DragGenerator.WindowProps.

(** X20.  Showing an image empties the list of the active selection
    target.  [display_single_image] always returns, and when a target
    is active it leaves that target's stored list empty, whatever the
    list held and whichever image is shown: [set_image] announces an
    empty list, the window stores it, and the points loaded back into
    the label afterwards are that empty list.  The list of the other
    target and the active target itself are left as they were. *)
Theorem showing_an_image_empties_the_active_point_list (w : world) (image_path : string)
    (self : t) (target other : selection_target) :
  current_point_selection_target self = Some target ->
  other <> target ->
  let self' := snd (display_single_image w image_path self) in
  fst (display_single_image w image_path self) = Returned tt
  /\ points_of target self' = []
  /\ SingleImageDisplayLabel.current_points (single_image_display_label self') = []
  /\ points_of other self' = points_of other self
  /\ current_point_selection_target self' = Some target.
Proof.
  intros Htarget Hother. cbv zeta.
  destruct (display_single_image_displays w image_path self)
    as (Hreturns & Hkept & _ & _ & _ & _ & _ & _ & Hshown & Hlists & _).
  unfold kept_by_display in Hkept.
  assert (Hsame : current_point_selection_target
                    (snd (display_single_image w image_path self))
                  = current_point_selection_target self) by congruence.
  rewrite Htarget in Hlists.
  split; [exact Hreturns|].
  unfold points_of.
  destruct target, other; try congruence; destruct Hlists as [Hempty Hrest];
    (split; [exact Hempty|]); (split; [exact Hshown|]); (split; [exact Hrest|]);
    congruence.
Qed.

Lemma showing_an_image_empties_the_active_point_list_witness :
  let self :=
    set_current_point_selection_target (Some Frame1Points)
      (set_source_points_on_frame1 [mkQPoint 10 10]
         (set_target_points_on_frame2 [mkQPoint 20 20]
            (init example_contents example_contents))) in
  let self' := snd (display_single_image example_world "root/shots/a.png" self) in
  current_point_selection_target self = Some Frame1Points
  /\ points_of Frame1Points self' = []
  /\ points_of Frame2Points self' = [mkQPoint 20 20].
Proof.
  cbv zeta.
  pose proof (showing_an_image_empties_the_active_point_list example_world
                "root/shots/a.png"
                (set_current_point_selection_target (Some Frame1Points)
                   (set_source_points_on_frame1 [mkQPoint 10 10]
                      (set_target_points_on_frame2 [mkQPoint 20 20]
                         (init example_contents example_contents))))
                Frame1Points Frame2Points eq_refl ltac:(discriminate)) as H.
  cbv zeta in H. destruct H as (_ & Hempty & _ & Hother & _).
  split; [reflexivity|]. split; [exact Hempty|]. exact Hother.
Defined.

(** X21.  Turning point selection on for a frame starts from no
    points.  When the frame of the target is chosen and point
    selection for that target is not already on,
    [toggle_point_selection_mode] returns with the target active,
    the frame shown with point mode on, and both the stored list of
    the target and the list on the label empty: the points stored
    for the frame before the click are gone, the "saved points" it
    loads are the list [display_single_image] has just emptied. *)
Theorem turning_point_selection_on_starts_from_no_points (w : world)
    (target : selection_target) (image_path : string) (self : t) :
  frame_of target self = Some image_path ->
  str_bool image_path = true ->
  ~ (current_point_selection_target self = Some target
     /\ SingleImageDisplayLabel.point_mode_enabled (single_image_display_label self) = true) ->
  let self' := snd (toggle_point_selection_mode w target self) in
  fst (toggle_point_selection_mode w target self) = Returned tt
  /\ current_point_selection_target self' = Some target
  /\ SingleImageDisplayLabel.point_mode_enabled (single_image_display_label self') = true
  /\ single_image_display_label_visible self' = true
  /\ points_of target self' = []
  /\ SingleImageDisplayLabel.current_points (single_image_display_label self') = [].
Proof.
  intros Hframe Hpath Hoff. cbv zeta.
  change (wp (toggle_point_selection_mode w target)
            (fun o self' =>
               o = Returned tt
               /\ current_point_selection_target self' = Some target
               /\ SingleImageDisplayLabel.point_mode_enabled (single_image_display_label self')
                  = true
               /\ single_image_display_label_visible self' = true
               /\ points_of target self' = []
               /\ SingleImageDisplayLabel.current_points (single_image_display_label self')
                  = []) self).
  destruct self. unfold frame_of in Hframe. window_red_in Hframe. window_red_in Hoff.
  assert (Htest : match current_point_selection_target0 with
                  | Some current => selection_target_eqb current target
                  | None => false
                  end && SingleImageDisplayLabel.point_mode_enabled single_image_display_label0
                  = false).
  { destruct (SingleImageDisplayLabel.point_mode_enabled single_image_display_label0) eqn:Hmode;
      [|apply andb_false_r].
    rewrite andb_true_r.
    destruct current_point_selection_target0 as [current|]; [|reflexivity].
    destruct current, target; try reflexivity; exfalso; apply Hoff;
      (split; [reflexivity|first [exact Hmode|reflexivity]]). }
  clear Hoff.
  destruct target; unfold toggle_point_selection_mode.
  - repeat wp_run. unfold points_of. window_red. label_red.
    rewrite String.eqb_refl in *. destruct Dlists as [Hempty _].
    repeat split; congruence.
  - repeat wp_run. unfold points_of. window_red. label_red.
    rewrite String.eqb_refl in *. destruct Dlists as [Hempty _].
    repeat split; congruence.
Qed.

Lemma turning_point_selection_on_starts_from_no_points_witness :
  let self :=
    set_image_path_frame1 (Some "root/shots/a.png")
      (set_source_points_on_frame1 [mkQPoint 10 10]
         (init example_contents example_contents)) in
  let self' := snd (toggle_point_selection_mode example_world Frame1Points self) in
  frame_of Frame1Points self = Some "root/shots/a.png"
  /\ points_of Frame1Points self = [mkQPoint 10 10]
  /\ current_point_selection_target self' = Some Frame1Points
  /\ points_of Frame1Points self' = [].
Proof.
  cbv zeta.
  pose proof (turning_point_selection_on_starts_from_no_points example_world Frame1Points
                "root/shots/a.png"
                (set_image_path_frame1 (Some "root/shots/a.png")
                   (set_source_points_on_frame1 [mkQPoint 10 10]
                      (init example_contents example_contents)))
                eq_refl eq_refl ltac:(intros [H _]; discriminate H)) as H.
  cbv zeta in H. destruct H as (_ & Htarget & _ & _ & Hempty & _).
  split; [reflexivity|]. split; [reflexivity|]. split; [exact Htarget|exact Hempty].
Defined.

(** X22.  Turning point selection off keeps the points.  When point
    selection for a target is on, a second click on its button
    returns with no target active and point mode off, and leaves
    both stored lists and the list on the label as they were. *)
Theorem turning_point_selection_off_keeps_the_points (w : world)
    (target : selection_target) (self : t) :
  current_point_selection_target self = Some target ->
  SingleImageDisplayLabel.point_mode_enabled (single_image_display_label self) = true ->
  let self' := snd (toggle_point_selection_mode w target self) in
  fst (toggle_point_selection_mode w target self) = Returned tt
  /\ current_point_selection_target self' = None
  /\ SingleImageDisplayLabel.point_mode_enabled (single_image_display_label self') = false
  /\ source_points_on_frame1 self' = source_points_on_frame1 self
  /\ target_points_on_frame2 self' = target_points_on_frame2 self
  /\ SingleImageDisplayLabel.current_points (single_image_display_label self')
     = SingleImageDisplayLabel.current_points (single_image_display_label self).
Proof.
  intros Htarget Hmode. cbv zeta.
  change (wp (toggle_point_selection_mode w target)
            (fun o self' =>
               o = Returned tt
               /\ current_point_selection_target self' = None
               /\ SingleImageDisplayLabel.point_mode_enabled (single_image_display_label self')
                  = false
               /\ source_points_on_frame1 self' = source_points_on_frame1 self
               /\ target_points_on_frame2 self' = target_points_on_frame2 self
               /\ SingleImageDisplayLabel.current_points (single_image_display_label self')
                  = SingleImageDisplayLabel.current_points (single_image_display_label self))
            self).
  destruct self. window_red_in Htarget. window_red_in Hmode. subst.
  destruct target; unfold toggle_point_selection_mode.
  - repeat wp_run; window_red; label_red; label_facts;
      cbn [selection_target_eqb andb] in *; try congruence.
    repeat split.
  - repeat wp_run; window_red; label_red; label_facts;
      cbn [selection_target_eqb andb] in *; try congruence.
    repeat split.
Qed.

Lemma turning_point_selection_off_keeps_the_points_witness :
  let self := session example_contents example_contents (firstn 7 example_events) in
  let self' := snd (toggle_point_selection_mode example_world Frame1Points self) in
  current_point_selection_target self = Some Frame1Points
  /\ SingleImageDisplayLabel.point_mode_enabled (single_image_display_label self) = true
  /\ source_points_on_frame1 self = [mkQPoint 10 10]
  /\ current_point_selection_target self' = None
  /\ source_points_on_frame1 self' = [mkQPoint 10 10].
Proof.
  cbv zeta.
  assert (Htarget : current_point_selection_target
                      (session example_contents example_contents (firstn 7 example_events))
                    = Some Frame1Points) by (vm_compute; reflexivity).
  assert (Hmode : SingleImageDisplayLabel.point_mode_enabled
                    (single_image_display_label
                       (session example_contents example_contents
                          (firstn 7 example_events))) = true) by (vm_compute; reflexivity).
  assert (Hsource : source_points_on_frame1
                      (session example_contents example_contents (firstn 7 example_events))
                    = [mkQPoint 10 10]) by (vm_compute; reflexivity).
  pose proof (turning_point_selection_off_keeps_the_points example_world Frame1Points
                (session example_contents example_contents (firstn 7 example_events))
                Htarget Hmode) as H.
  cbv zeta in H. destruct H as (_ & Hnone & _ & Hkept & _).
  split; [exact Htarget|]. split; [exact Hmode|]. split; [exact Hsource|].
  split; [exact Hnone|]. rewrite Hkept. exact Hsource.
Defined.


(** X23.  Switching mask mode on or off keeps what the window
    stored.  [toggle_mask_mode] leaves the stored source points,
    target points and mask points as they were and ends with no
    selection target active, whether it returns or raises.  When it
    switches mask mode on, the combined label starts with no mask
    points, while the window still holds the mask stored before. *)
Theorem toggling_mask_mode_keeps_the_stored_lists (w : world) (self : t) :
  let self' := snd (toggle_mask_mode w self) in
  source_points_on_frame1 self' = source_points_on_frame1 self
  /\ target_points_on_frame2 self' = target_points_on_frame2 self
  /\ mask_points_on_combined self' = mask_points_on_combined self
  /\ current_point_selection_target self' = None
  /\ (CombinedImageLabel.mask_mode_enabled (combined_image_display_label self) = false ->
      CombinedImageLabel.mask_points (combined_image_display_label self') = []).
Proof.
  cbv zeta.
  change (wp (toggle_mask_mode w)
            (fun _ self' =>
               source_points_on_frame1 self' = source_points_on_frame1 self
               /\ target_points_on_frame2 self' = target_points_on_frame2 self
               /\ mask_points_on_combined self' = mask_points_on_combined self
               /\ current_point_selection_target self' = None
               /\ (CombinedImageLabel.mask_mode_enabled (combined_image_display_label self)
                   = false ->
                   CombinedImageLabel.mask_points (combined_image_display_label self') = []))
            self).
  destruct self. unfold toggle_mask_mode.
  repeat wp_run; window_red; label_red; label_facts;
    repeat match goal with H : _ /\ _ |- _ => destruct H end;
    (repeat split; try congruence);
    intros Hoff; rewrite Hoff in *; try discriminate; reflexivity.
Qed.

Lemma toggling_mask_mode_keeps_the_stored_lists_witness :
  let self :=
    snd (toggle_mask_mode example_world
           (session example_contents example_contents example_events)) in
  let self' := snd (toggle_mask_mode example_world self) in
  CombinedImageLabel.mask_mode_enabled (combined_image_display_label self) = false
  /\ length (mask_points_on_combined self) = 4%nat
  /\ length (mask_points_on_combined self') = 4%nat
  /\ CombinedImageLabel.mask_points (combined_image_display_label self') = [].
Proof.
  cbv zeta.
  assert (Hoff : CombinedImageLabel.mask_mode_enabled
                   (combined_image_display_label
                      (snd (toggle_mask_mode example_world
                              (session example_contents example_contents example_events))))
                 = false) by (vm_compute; reflexivity).
  assert (Hmask : length (mask_points_on_combined
                            (snd (toggle_mask_mode example_world
                                    (session example_contents example_contents
                                       example_events)))) = 4%nat)
    by (vm_compute; reflexivity).
  pose proof (toggling_mask_mode_keeps_the_stored_lists example_world
                (snd (toggle_mask_mode example_world
                        (session example_contents example_contents example_events)))) as H.
  cbv zeta in H. destruct H as (_ & _ & Hkept & _ & Hempty).
  split; [exact Hoff|]. split; [exact Hmask|]. split; [rewrite Hkept; exact Hmask|].
  exact (Hempty Hoff).
Defined.

End PointListFacts.
(** ** The paths the viewer hands out and takes back *)

Section PathFacts.
Import Py App.

(** *** Splitting and joining at separators *)

Lemma split_not_nil (c : ascii) (s : string) : split c s <> [].
Proof.
  destruct s as [|x s]; cbn [split]; [discriminate|].
  destruct (Ascii.eqb x c); [discriminate|]. destruct (split c s); discriminate.
Qed.

Lemma split_app_sep (c : ascii) (a b : string) :
  split c (a +:+ String c b) = split c a ++ split c b.
Proof.
  induction a as [|x a IH].
  - change (split c (String c b) = [""] ++ split c b). cbn [split].
    rewrite Ascii.eqb_refl. reflexivity.
  - change (split c (String x (a +:+ String c b)) = split c (String x a) ++ split c b).
    cbn [split]. rewrite IH. destruct (Ascii.eqb x c); [reflexivity|].
    destruct (split c a) as [|w ws] eqn:Hs; [exact (False_ind _ (split_not_nil c a Hs))|].
    reflexivity.
Qed.

Lemma split_plain (c : ascii) (s : string) :
  contains_char c s = false -> split c s = [s].
Proof.
  induction s as [|x s IH]; intros H; [reflexivity|].
  cbn [contains_char] in H. apply orb_false_iff in H as [Hx Hs].
  cbn [split]. rewrite Hx, (IH Hs). reflexivity.
Qed.

Lemma split_leading_sep (c : ascii) (s : string) (first : string) (rest : list string) :
  split c s = first :: rest -> first <> "" -> String.prefix (String c "") s = false.
Proof.
  intros Hs Hfirst. destruct s as [|x s]; [reflexivity|].
  cbn [String.prefix]. destruct (ascii_dec c x) as [<-|Hne]; [|reflexivity].
  cbn [split] in Hs. rewrite Ascii.eqb_refl in Hs. injection Hs as <- _. congruence.
Qed.

Lemma substring_all (s : string) : String.substring 0 (String.length s) s = s.
Proof. induction s as [|x s IH]; [reflexivity|]. cbn. rewrite IH. reflexivity. Qed.

(** A string that ends with the separator is some string followed by
    it. *)
Lemma endswith_sep_inv (a : string) :
  endswith a "/" = true -> exists a', a = a' +:+ "/".
Proof.
  unfold endswith. cbn [String.length]. intros H.
  apply andb_true_iff in H as [Hlen H]. apply Nat.leb_le in Hlen. apply String.eqb_eq in H.
  induction a as [|x a IH]; [cbn in Hlen; lia|].
  destruct a as [|y a].
  - cbn in H. exists "". exact H.
  - destruct IH as (a' & Ha').
    + cbn [String.length]. lia.
    + cbn [String.length] in *.
      replace (S (S (String.length a)) - 1)%nat with (S (S (String.length a) - 1))%nat in H
        by lia.
      cbn [String.substring] in H. exact H.
    + exists (String x a'). rewrite Ha'. reflexivity.
Qed.

(** *** The component loop of [normpath] *)

Lemma normpath_comps_app (b : bool) (xs ys acc : list string) :
  normpath_comps b (xs ++ ys) acc = normpath_comps b ys (rev (normpath_comps b xs acc)).
Proof.
  revert acc. induction xs as [|x xs IH]; intros acc.
  - cbn [app normpath_comps]. rewrite rev_involutive. reflexivity.
  - cbn [app normpath_comps].
    destruct (String.eqb x "" || String.eqb x "."); [apply IH|].
    destruct (negb (String.eqb x "..")
              || negb b && match acc with [] => true | _ :: _ => false end
              || match acc with [] => false | last :: _ => String.eqb last ".." end);
      [apply IH|].
    destruct acc; apply IH.
Qed.

(** Names and empty components after a prefix: the names are kept, in
    order, and nothing of the prefix is dropped. *)
Lemma normpath_comps_names (b : bool) (xs acc : list string) :
  Forall (fun n => proper_name n = true \/ n = "") xs ->
  normpath_comps b xs acc = rev acc ++ List.filter str_bool xs.
Proof.
  intros H. revert acc. induction H as [|x xs Hx _ IH]; intros acc.
  - cbn [normpath_comps List.filter]. rewrite app_nil_r. reflexivity.
  - cbn [normpath_comps List.filter]. destruct Hx as [Hx| ->].
    + unfold proper_name in Hx.
      apply andb_true_iff in Hx as [Hx _]. apply andb_true_iff in Hx as [Hx Hdd].
      apply andb_true_iff in Hx as [Hne Hd].
      apply negb_true_iff in Hd, Hdd.
      assert (He : String.eqb x "" = false) by (destruct x; [discriminate|reflexivity]).
      rewrite He, Hd, Hdd, Hne. cbn [orb negb]. rewrite IH. cbn [rev].
      rewrite <- app_assoc. reflexivity.
    + cbn [String.eqb orb str_bool]. apply IH.
Qed.

(** *** Prefixes *)

Lemma prefix_app (a b : string) : String.prefix a (a +:+ b) = true.
Proof.
  induction a as [|x a IH]; [destruct b; reflexivity|].
  change (String.prefix (String x a) (String x (a +:+ b)) = true). cbn [String.prefix].
  destruct (ascii_dec x x); [exact IH|congruence].
Qed.

Lemma prefix_app_same (s a b : string) :
  String.prefix (s +:+ a) (s +:+ b) = String.prefix a b.
Proof.
  induction s as [|x s IH]; [reflexivity|].
  change (String.prefix (String x (s +:+ a)) (String x (s +:+ b)) = String.prefix a b).
  cbn [String.prefix]. destruct (ascii_dec x x); [exact IH|congruence].
Qed.

(** A prefix test against a short string only looks at the start. *)
Lemma prefix_short (q c t : string) :
  (String.length q <= String.length c)%nat ->
  String.prefix q (c +:+ t) = String.prefix q c.
Proof.
  revert c. induction q as [|x q IH]; intros c Hlen.
  - destruct c, t; reflexivity.
  - destruct c as [|y c]; [cbn in Hlen; lia|].
    change (String.prefix (String x q) (String y (c +:+ t))
            = String.prefix (String x q) (String y c)).
    cbn [String.prefix]. destruct (ascii_dec x y); [|reflexivity].
    apply IH. cbn [String.length] in Hlen. lia.
Qed.

Lemma concat_prefix (sp : string) (l r : list string) :
  l <> [] -> String.prefix (String.concat sp l) (String.concat sp (l ++ r)) = true.
Proof.
  induction l as [|x l IH]; intros Hl; [congruence|].
  destruct l as [|y l].
  - cbn [app String.concat]. destruct r as [|z r]; [apply prefix_refl|apply prefix_app].
  - change (String.prefix (x +:+ sp +:+ String.concat sp (y :: l))
              (x +:+ sp +:+ String.concat sp ((y :: l) ++ r)) = true).
    rewrite !prefix_app_same. apply IH. discriminate.
Qed.

(** *** Paths below a first component *)

Lemma proper_name_not_abs (b : string) : proper_name b = true -> startswith b "/" = false.
Proof.
  unfold proper_name. intros H. apply andb_true_iff in H as [_ H].
  apply negb_true_iff in H. destruct b as [|x b]; [reflexivity|].
  cbn [contains_char] in H. apply orb_false_iff in H as [Hx _].
  unfold startswith. cbn [String.prefix].
  destruct (ascii_dec "/" x) as [<-|]; [discriminate Hx|reflexivity].
Qed.

Lemma proper_name_split (b : string) : proper_name b = true -> split sep b = [b].
Proof.
  unfold proper_name. intros H. apply andb_true_iff in H as [_ H].
  apply negb_true_iff in H. apply split_plain, H.
Qed.

(** Joining a name to a path keeps the first component and adds the
    name as the last one. *)
Lemma path_join_below (a b first : string) (names : list string) :
  split sep a = first :: names -> first <> "" ->
  Forall (fun n => proper_name n = true \/ n = "") names ->
  proper_name b = true ->
  exists names',
    split sep (path_join a b) = first :: names'
    /\ Forall (fun n => proper_name n = true \/ n = "") names'.
Proof.
  intros Ha Hfirst Hnames Hb. unfold path_join.
  rewrite (proper_name_not_abs b Hb).
  destruct (negb (str_bool a) || endswith a "/") eqn:Hcase.
  - apply orb_true_iff in Hcase as [Hempty|Hends].
    + destruct a; [|discriminate]. cbn in Ha. injection Ha as <- _. congruence.
    + destruct (endswith_sep_inv a Hends) as (a' & ->).
      rewrite string_app_assoc. change ("/" +:+ b) with (String sep b).
      rewrite split_app_sep, (proper_name_split b Hb).
      change (a' +:+ "/") with (a' +:+ String sep "") in Ha.
      rewrite split_app_sep in Ha. cbn [split] in Ha.
      destruct (split sep a') as [|w ws] eqn:Hs;
        [exact (False_ind _ (split_not_nil sep a' Hs))|].
      cbn [app] in Ha. injection Ha as -> <-.
      apply Forall_app in Hnames as [Hws _].
      exists (ws ++ [b]). split; [reflexivity|].
      apply Forall_app. split; [exact Hws|]. constructor; [left; exact Hb|constructor].
  - change (a +:+ "/" +:+ b) with (a +:+ String sep b).
    rewrite split_app_sep, (proper_name_split b Hb), Ha.
    exists (names ++ [b]). split; [reflexivity|].
    apply Forall_app. split; [exact Hnames|]. constructor; [left; exact Hb|constructor].
Qed.

Lemma well_named_Dir (entries : list (string * node)) :
  well_named (Dir entries) = true ->
  Forall (fun e => proper_name (fst e) = true /\ well_named (snd e) = true) entries.
Proof.
  cbn [well_named]. induction entries as [|[name child] entries IH]; intros H; [constructor|].
  apply andb_true_iff in H as [H Hrest]. apply andb_true_iff in H as [Hname Hchild].
  constructor; [split; assumption|]. apply IH, Hrest.
Qed.

Lemma file_entries_names (entries : list (string * node)) :
  Forall (fun e => proper_name (fst e) = true /\ well_named (snd e) = true) entries ->
  Forall (fun e : string * file => proper_name (fst e) = true) (file_entries entries).
Proof.
  unfold file_entries. induction 1 as [|[name child] entries [Hname _] _ IH]; [constructor|].
  cbn [flat_map]. destruct child; [constructor; [exact Hname|exact IH]|exact IH].
Qed.

(** Every directory of a walk of a tree with proper names, started
    at a path with first component [first], is a path with that first
    component followed by names, and its files have proper names. *)
Lemma walk_below (first : string) (n : node) :
  first <> "" -> well_named n = true ->
  forall top names,
    split sep top = first :: names ->
    Forall (fun n => proper_name n = true \/ n = "") names ->
    Forall (fun t =>
              (exists names',
                  split sep (fst (fst t)) = first :: names'
                  /\ Forall (fun n => proper_name n = true \/ n = "") names')
              /\ Forall (fun e : string * file => proper_name (fst e) = true) (snd t))
      (walk top n).
Proof.
  intros Hfirst. induction n as [f|entries IH] using node_nested_ind;
    intros Hwell top names Htop Hnames; [constructor|].
  rewrite walk_Dir. apply well_named_Dir in Hwell. constructor.
  - cbn [fst snd]. split; [exists names; split; assumption|].
    apply file_entries_names, Hwell.
  - induction entries as [|[name child] entries IHe]; [constructor|].
    apply Forall_cons_1 in Hwell as [[Hname Hchild] Hwell]. cbn [fst snd] in Hname, Hchild.
    cbn [flat_map]. apply Forall_app. split.
    + destruct (path_join_below top name first names Htop Hfirst Hnames Hname)
        as (names' & Hsplit & Hnames').
      exact (IH name child (or_introl eq_refl) Hchild _ names' Hsplit Hnames').
    + apply IHe; [|exact Hwell].
      intros name' child' Hin. apply (IH name' child'). right. exact Hin.
Qed.

(** *** Absolute paths *)

Lemma split_first_prefix (c : ascii) (s : string) :
  forall w rest, split c s = w :: rest -> exists tail, s = w +:+ tail.
Proof.
  induction s as [|x s IH]; intros w rest H.
  - cbn in H. injection H as <- _. exists "". reflexivity.
  - cbn [split] in H. destruct (Ascii.eqb x c).
    + injection H as <- _. exists (String x s). reflexivity.
    + destruct (split c s) as [|w' ws] eqn:Hs;
        [exact (False_ind _ (split_not_nil c s Hs))|].
      injection H as <- _. destruct (IH w' ws eq_refl) as (tail & ->).
      exists tail. reflexivity.
Qed.

(** [normpath] of a path that starts with a separator. *)
Lemma normpath_abs (path : string) :
  startswith path "/" = true ->
  normpath path
  = (if startswith path "//" && negb (startswith path "///") then "//" else "/")
    +:+ join_str "/" (normpath_comps true (split sep path) []).
Proof.
  intros H. unfold normpath.
  destruct path as [|x path]; [discriminate H|]. cbn [String.eqb].
  rewrite H.
  destruct (startswith (String x path) "//" && negb (startswith (String x path) "///"));
    reflexivity.
Qed.

(** Below the working directory, the normal form of a path with
    first component [data] starts with the normal form of [data]. *)
Lemma normpath_below (c0 p : string) (names : list string) :
  startswith (c0 +:+ "/") "/" = true ->
  split sep p = "data" :: names ->
  Forall (fun n => proper_name n = true \/ n = "") names ->
  String.prefix (normpath (c0 +:+ String sep "data")) (normpath (c0 +:+ String sep p)) = true.
Proof.
  intros Hc0 Hp Hnames.
  destruct (split_first_prefix sep p _ _ Hp) as (tail & Htail).
  assert (Hx : c0 +:+ String sep p = (c0 +:+ String sep "data") +:+ tail).
  { rewrite Htail, string_app_assoc. reflexivity. }
  assert (Hlen : forall q, (String.length q <= 3)%nat ->
                           (String.length q <= String.length (c0 +:+ String sep "data"))%nat).
  { intros q Hq. rewrite length_app_str. cbn [String.length]. lia. }
  assert (Hstart : forall q, (String.length q <= 3)%nat ->
                             startswith (c0 +:+ String sep p) q
                             = startswith (c0 +:+ String sep "data") q).
  { intros q Hq. unfold startswith. rewrite Hx. apply prefix_short, Hlen, Hq. }
  assert (Habs : startswith (c0 +:+ String sep "data") "/" = true).
  { unfold startswith in *.
    change (c0 +:+ String sep "data") with (c0 +:+ ("/" +:+ "data")).
    rewrite <- string_app_assoc. rewrite prefix_short; [exact Hc0|].
    rewrite length_app_str. cbn [String.length]. lia. }
  rewrite (normpath_abs (c0 +:+ String sep p)) by (rewrite Hstart; [exact Habs|cbn; lia]).
  rewrite (normpath_abs (c0 +:+ String sep "data")) by exact Habs.
  rewrite !Hstart by (cbn; lia).
  rewrite prefix_app_same.
  rewrite !split_app_sep, Hp. change (split sep "data") with ["data"].
  rewrite !normpath_comps_app.
  rewrite (normpath_comps_names true ["data"]) by (constructor; [left; reflexivity|constructor]).
  rewrite (normpath_comps_names true ("data" :: names))
    by (constructor; [left; reflexivity|exact Hnames]).
  rewrite rev_involutive. cbn [List.filter str_bool].
  change (normpath_comps true (split sep c0) [] ++ "data" :: List.filter str_bool names)
    with (normpath_comps true (split sep c0) [] ++ ["data"] ++ List.filter str_bool names).
  rewrite app_assoc. unfold join_str. apply concat_prefix.
  destruct (normpath_comps true (split sep c0) []); discriminate.
Qed.

Lemma abspath_below (cwd p : string) (names : list string) :
  isabs cwd = true ->
  split sep p = "data" :: names ->
  Forall (fun n => proper_name n = true \/ n = "") names ->
  startswith (abspath cwd p) (abspath cwd BASE_DIR) = true.
Proof.
  intros Hcwd Hp Hnames. unfold abspath.
  assert (Hrel : startswith p "/" = false)
    by (apply (split_leading_sep sep p "data" names Hp); discriminate).
  unfold isabs at 1 2. rewrite Hrel. change (startswith BASE_DIR "/") with false.
  cbv iota. unfold path_join. rewrite Hrel. change (startswith BASE_DIR "/") with false.
  cbv iota. unfold startswith at 1.
  assert (Hne : str_bool cwd = true) by (destruct cwd; [discriminate Hcwd|reflexivity]).
  rewrite Hne. cbn [negb orb].
  destruct (endswith cwd "/") eqn:Hends.
  - destruct (endswith_sep_inv cwd Hends) as (c0 & ->).
    rewrite !string_app_assoc.
    change ("/" +:+ p) with (String sep p). change ("/" +:+ BASE_DIR) with (String sep "data").
    apply (normpath_below c0 p names); [exact Hcwd|exact Hp|exact Hnames].
  - change (cwd +:+ "/" +:+ p) with (cwd +:+ String sep p).
    change (cwd +:+ "/" +:+ BASE_DIR) with (cwd +:+ String sep "data").
    apply (normpath_below cwd p names); [|exact Hp|exact Hnames].
    unfold isabs, startswith in *. destruct cwd as [|x cwd]; [discriminate Hcwd|].
    cbn [String.prefix] in Hcwd. destruct (ascii_dec "/" x) as [<-|]; [|discriminate Hcwd].
    change (String "/" cwd +:+ "/") with (String "/" (cwd +:+ "/")). cbn [String.prefix].
    destruct (ascii_dec "/" "/"); [|congruence]. destruct (cwd +:+ "/"); reflexivity.
Qed.

(** *** From the walk to the records *)

Lemma read_record_path (cwd root json_path : string) (f : file) (b : bool) (data : json) :
  read_record cwd root json_path f = Returned (Some (b, data)) ->
  exists kvs, data = JDict kvs /\ dict_get "json_file_path" kvs = Some (JStr json_path).
Proof.
  intros H.
  destruct (read_record_inv _ _ _ _ _ _ H) as (kvs & s1 & s2 & r1 & r2 & -> & H1 & H2 & Hr1 & Hr2).
  rewrite (read_record_builds _ _ _ _ _ _ _ _ H1 H2 Hr1 Hr2) in H.
  injection H as _ <-. eexists. split; [reflexivity|].
  rewrite dict_get_set_other by discriminate. apply dict_get_set_same.
Qed.

Lemma visit_file_paths (cwd root : string) (acc acc' : buckets) (entry : string * file) :
  str_bool (path_join root (fst entry)) = true ->
  startswith (abspath cwd (path_join root (fst entry))) (abspath cwd BASE_DIR) = true ->
  Forall (carries_accepted_path cwd) (fst acc) ->
  Forall (carries_accepted_path cwd) (snd acc) ->
  visit_file cwd root acc entry = Returned acc' ->
  Forall (carries_accepted_path cwd) (fst acc')
  /\ Forall (carries_accepted_path cwd) (snd acc').
Proof.
  intros Hne Hpre H0 H1 H. destruct entry as [name f]. cbn [fst] in Hne, Hpre.
  unfold visit_file in H.
  destruct (endswith name ".json"); [|injection H as <-; split; assumption].
  pose proof (read_record_path cwd root (path_join root name) f) as Hrec.
  assert (Hnew : forall b data,
             read_record cwd root (path_join root name) f = Returned (Some (b, data)) ->
             carries_accepted_path cwd data).
  { intros b data Hr. destruct (Hrec b data Hr) as (kvs & -> & Hget).
    exists kvs, (path_join root name). repeat split; assumption. }
  destruct (read_record cwd root (path_join root name) f) as [[[[] data]|]|e].
  - injection H as <-. cbn [fst snd]. split; [exact H0|].
    apply Forall_app. split; [exact H1|]. constructor; [|constructor].
    apply (Hnew true). reflexivity.
  - injection H as <-. cbn [fst snd]. split; [|exact H1].
    apply Forall_app. split; [exact H0|]. constructor; [|constructor].
    apply (Hnew false). reflexivity.
  - injection H as <-. split; assumption.
  - destruct e; try discriminate; injection H as <-; split; assumption.
Qed.

Lemma visit_files_paths (cwd root : string) (files : list (string * file)) :
  Forall (fun e : string * file =>
            str_bool (path_join root (fst e)) = true
            /\ startswith (abspath cwd (path_join root (fst e))) (abspath cwd BASE_DIR)
               = true) files ->
  forall acc acc' : buckets,
    Forall (carries_accepted_path cwd) (fst acc) ->
    Forall (carries_accepted_path cwd) (snd acc) ->
    visit_files cwd root acc files = Returned acc' ->
    Forall (carries_accepted_path cwd) (fst acc')
    /\ Forall (carries_accepted_path cwd) (snd acc').
Proof.
  induction 1 as [|entry files [Hne Hpre] _ IH]; intros acc acc' H0 H1 H.
  - injection H as <-. split; assumption.
  - cbn [visit_files] in H.
    destruct (visit_file cwd root acc entry) as [acc1|e] eqn:Hv; cbn [bind] in H;
      [|discriminate].
    destruct (visit_file_paths cwd root acc acc1 entry Hne Hpre H0 H1 Hv) as [A0 A1].
    exact (IH acc1 acc' A0 A1 H).
Qed.

Lemma visit_dirs_paths (cwd : string)
    (triples : list (string * list string * list (string * file))) :
  Forall (fun t =>
            Forall (fun e : string * file =>
                      str_bool (path_join (fst (fst t)) (fst e)) = true
                      /\ startswith (abspath cwd (path_join (fst (fst t)) (fst e)))
                           (abspath cwd BASE_DIR) = true) (snd t)) triples ->
  forall acc acc' : buckets,
    Forall (carries_accepted_path cwd) (fst acc) ->
    Forall (carries_accepted_path cwd) (snd acc) ->
    visit_dirs cwd acc triples = Returned acc' ->
    Forall (carries_accepted_path cwd) (fst acc')
    /\ Forall (carries_accepted_path cwd) (snd acc').
Proof.
  induction 1 as [|[[root dirs] files] triples Hfiles _ IH]; intros acc acc' H0 H1 H.
  - injection H as <-. split; assumption.
  - cbn [visit_dirs] in H. cbn [fst snd] in Hfiles.
    destruct (visit_files cwd root acc files) as [acc1|e] eqn:Hv; cbn [bind] in H;
      [|discriminate].
    destruct (visit_files_paths cwd root files Hfiles acc acc1 H0 H1 Hv) as [A0 A1].
    exact (IH acc1 acc' A0 A1 H).
Qed.

Lemma walk_paths_accepted (cwd : string) (base : node) :
  isabs cwd = true -> well_named base = true ->
  Forall (fun t =>
            Forall (fun e : string * file =>
                      str_bool (path_join (fst (fst t)) (fst e)) = true
                      /\ startswith (abspath cwd (path_join (fst (fst t)) (fst e)))
                           (abspath cwd BASE_DIR) = true) (snd t))
    (walk BASE_DIR base).
Proof.
  intros Hcwd Hwell.
  assert (Hdata : "data" <> "") by discriminate.
  pose proof (walk_below "data" base Hdata Hwell BASE_DIR [] eq_refl ltac:(constructor))
    as Hwalk.
  eapply Forall_impl; [exact Hwalk|].
  intros [[root dirs] files] [(names & Hroot & Hnames) Hfiles]. cbn [fst snd] in *.
  eapply Forall_impl; [exact Hfiles|].
  intros [name f] Hname. cbn [fst] in *.
  destruct (path_join_below root name "data" names Hroot Hdata Hnames Hname)
    as (names' & Hsplit & Hnames').
  split.
  - destruct (path_join root name); [discriminate Hsplit|reflexivity].
  - exact (abspath_below cwd _ names' Hcwd Hsplit Hnames').
Qed.

(** X24.  The viewer takes back every path it hands out.  With an
    absolute working directory and a data tree whose entries have the
    names a directory listing gives (not empty, not [.] or [..], no
    separator), every record of the two lists of [find_files] carries
    a [json_file_path] that passes the two checks of
    [update_caption]: a caption update sent for it is never answered
    400 or 403, whatever the caption (any JSON value but null), the
    files on disk and the system's way with them. *)
Theorem listed_records_pass_the_access_check (cwd : string) (base : node)
    (data_without_caption data_with_caption : list json) :
  isabs cwd = true -> well_named base = true ->
  find_files cwd base = Returned (data_without_caption, data_with_caption) ->
  forall data,
    In data (data_without_caption ++ data_with_caption) ->
    exists kvs path,
      data = JDict kvs
      /\ dict_get "json_file_path" kvs = Some (JStr path)
      /\ forall (d : disk) (cap : json) (files : gmap string file),
           cap <> JNull ->
           status (fst (update_caption d cwd
                          (mkCaptionRequest (Some (JStr path)) (Some cap)) files))
           = 200
           \/ status (fst (update_caption d cwd
                             (mkCaptionRequest (Some (JStr path)) (Some cap)) files))
              = 500.
Proof.
  intros Hcwd Hwell Hfind data Hin.
  destruct (visit_dirs_paths cwd (walk BASE_DIR base) (walk_paths_accepted cwd base Hcwd Hwell)
              ([], []) _ (List.Forall_nil _) (List.Forall_nil _) Hfind) as [H0 H1].
  cbn [fst snd] in H0, H1.
  assert (Hall : Forall (carries_accepted_path cwd) (data_without_caption ++ data_with_caption))
    by (apply Forall_app; split; assumption).
  rewrite List.Forall_forall in Hall.
  destruct (Hall data Hin) as (kvs & path & -> & Hget & Hne & Hpre).
  exists kvs, path. split; [reflexivity|]. split; [exact Hget|].
  intros d cap files Hcap. unfold update_caption.
  cbn [json_file_path caption get_field json_bool].
  rewrite Hne, Hpre. cbn [negb orb].
  replace (match cap with JNull => true | _ => false end) with false
    by (destruct cap; congruence).
  destruct (patch_caption d cwd path cap files) as [[|] ?]; cbn [fst status]; auto.
Qed.

Lemma listed_records_pass_the_access_check_witness :
  isabs "/srv/app" = true
  /\ well_named
       (Dir [("shots",
            Dir [("a.png", File (Fails UnicodeDecodeError));
                 ("drag_data_a_to_b.json",
                  File (Loads (JDict [("frame1_image", JStr "a.png");
                                      ("frame2_image", JStr "b.png")])))])]) = true
  /\ find_files "/srv/app"
       (Dir [("shots",
            Dir [("a.png", File (Fails UnicodeDecodeError));
                 ("drag_data_a_to_b.json",
                  File (Loads (JDict [("frame1_image", JStr "a.png");
                                      ("frame2_image", JStr "b.png")])))])])
     = Returned ([(JDict [("frame1_image", JStr "shots/a.png"); ("frame2_image", JStr "shots/b.png");
            ("json_file_path", JStr "data/shots/drag_data_a_to_b.json");
            ("directory_name", JStr "shots")])], [])
  /\ exists kvs path,
       (JDict [("frame1_image", JStr "shots/a.png"); ("frame2_image", JStr "shots/b.png");
            ("json_file_path", JStr "data/shots/drag_data_a_to_b.json");
            ("directory_name", JStr "shots")]) = JDict kvs
       /\ dict_get "json_file_path" kvs = Some (JStr path)
       /\ forall (d : disk) (cap : json) (files : gmap string file),
            cap <> JNull ->
            status (fst (update_caption d "/srv/app"
                           (mkCaptionRequest (Some (JStr path)) (Some cap)) files)) = 200
            \/ status (fst (update_caption d "/srv/app"
                              (mkCaptionRequest (Some (JStr path)) (Some cap)) files)) = 500.
Proof.
  assert (Hfind : find_files "/srv/app"
                    (Dir [("shots",
            Dir [("a.png", File (Fails UnicodeDecodeError));
                 ("drag_data_a_to_b.json",
                  File (Loads (JDict [("frame1_image", JStr "a.png");
                                      ("frame2_image", JStr "b.png")])))])])
                  = Returned ([(JDict [("frame1_image", JStr "shots/a.png"); ("frame2_image", JStr "shots/b.png");
            ("json_file_path", JStr "data/shots/drag_data_a_to_b.json");
            ("directory_name", JStr "shots")])], []))
    by (vm_compute; reflexivity).
  split; [reflexivity|]. split; [reflexivity|]. split; [exact Hfind|].
  refine (listed_records_pass_the_access_check "/srv/app" _ _ _ eq_refl _ Hfind _
            (or_introl eq_refl)).
  reflexivity.
Defined.

End PathFacts.
